(* ===== verification/_CoqProject ===== *)
-Q . S2P
Prelude.v
Interfaces.v
Raid.v
RaidProps.v
DiskQueue.v
DiskProto.v
DiskProps.v
Bio.v
BioProps.v
Mem.v
KState.v
Kmem.v
PageTable.v
Frames.v
Paging.v
Vm.v
Fault.v
Boot.v
Clock.v
VmProps.v
Spaces.v
Fork.v
SpaceProps.v
Sched.v
Smp.v
SchedProps.v
Teardown.v
Proc.v
Keeps.v
ProcMem.v
ProcTable.v
UserCopy.v
Kfork.v
Reap.v
ProcBoot.v
Grow.v
ProcProps.v
Kvm.v
KvmOk.v
KvmProps.v
Syscalls.v
Trap.v
SysOk.v
SysProps.v
TrapOk.v
TrapProps.v
Safety.v
SafeSys.v
SafeTrap.v
System.v
SystemProps.v
Virtio.v
VirtioProps.v
Stack.v
Ulib.v
UlibProps.v
