(* ===== verification/Prelude.v ===== *)
(** * A verification of the paging, disk-scheduling and RAID kernel

    ** The program

    The repository holds the files of an xv6 kernel (RISC-V, C) that were
    changed to add an MLFQ scheduler, demand paging with a clock that evicts
    user pages to swap, a disk-request queue with FCFS and SSTF scheduling,
    and a RAID layer under swap.  Its parts, from the bottom up:

    - the virtio driver (src/kernel/virtio_disk.c, second half) moves one
      block between a buffer and the device;
    - the request queue and the buffer cache (src/kernel/bio.c) order the
      requests of all processes and keep recently used blocks in memory;
    - the RAID layer (src/kernel/virtio_disk.c, first half) spreads the pages
      of swap over four simulated disks, RAID 0, 1 or 5, one disk failed;
    - the page allocator, the frame table and the clock (src/kernel/kalloc.c)
      hand out physical pages and evict user pages to swap;
    - page tables, page faults and address spaces (src/kernel/vm.c);
    - processes (src/kernel/proc.c), the MLFQ scheduler (proc.c, and
      [clockintr] of src/kernel/trap.c), traps (trap.c) and system calls
      (src/kernel/syscall.c, sysproc.c);
    - the user library (src/user/ulib.c).

    A page fault thus runs through trap.c, vm.c, kalloc.c, the RAID layer, the
    cache, the queue and the driver, and each of these is modelled.

    ** The model

    An operation is a function in a state monad with the outcomes of C code:
    [Ok], [Panic], [Ub] (an access out of range), [Blocked] (a sleep that
    nobody ends in a run of one process) and [NoFuel] ([M], [res] below).
    Integers are [Z] with their wrap-around written out ([i32], [u32], [u64]).
    Locks are not state: a definition stands for code under one lock, or for
    the run of one process while the others stand still; where the
    interleaving of processes or CPUs matters, there is a step relation with
    one step per critical section (DiskProto, Smp), or a run that composes
    the critical sections in the order shown (RaidProps, SpaceProps).  Text
    printed by the code is not state either.

    Interfaces between the layers are type classes: [DiskDriver] (driver to
    cache), [BlockIO] (cache to RAID), [SwapDev] (RAID to paging), each with a
    class of laws ([DiskDriverSpec], [BlockIOSpec], [SwapDevSpec]).  A layer
    is proved against the laws of the one below and its own theorem is an
    instance of the laws it offers; Stack.v puts the instances together.
    Headers and sources that are not in the repository (riscv.h, param.h,
    memlayout.h, fs.h, virtio.h, sleeplock.c, file.c, sysfile.c, exec.c,
    plic.c, uart.c) are parameters with the laws the code relies on:
    [BlockParams], [Layout], [Sv39], [SleepLock], [BcacheParams],
    [VirtioParams], [ProcEnv], [FileEnv], [SysEnv], [TrapEnv], [UserEnv]; each
    has an instance with the values of xv6 where a run needs one.

    ** The files

    - Prelude (this file): the monad and its loop rule, machine integers,
      arrays, byte strings, XOR; the hint database [bytelen] and the tactic
      [xor_solve].  Interfaces: the classes between the layers.
    - Raid, RaidProps: [swap_disk_read], [swap_disk_write], the three mappings,
      degraded reads and writes (virtio_disk.c:27-336).
    - DiskQueue, DiskProto, DiskProps: the request pool and queue, policies,
      and the protocol of [submit_disk_request] and [run_disk_dispatcher] for
      any number of processes (bio.c:26-63, 94-252, 344-359).
    - Bio, BioProps: the buffer cache (bio.c:45-92, 185-342).
    - Virtio, VirtioProps: descriptors, rings, interrupts, initialisation
      (virtio_disk.c:338-582).  Stack: the four layers on each other.
    - Mem, KState: memory, page-table entries, and the globals of kalloc.c,
      vm.c, proc.c and trap.c as one record ([kernel]).
    - Kmem, Frames: the free list; the frame table, the clock and eviction
      (kalloc.c).  PageTable, Vm: page tables and user memory (vm.c).
    - Paging, Fault, Boot, Clock, VmProps: the invariant [vinv] of the paging
      code and what its operations do to [user_page], the page a process sees
      whether it is resident, swapped out or untouched.
    - Spaces, Fork, Teardown, SpaceProps: unmapping, copying and freeing of
      address spaces.
    - Sched, Smp, SchedProps: the scheduler and the clock, on one CPU and on
      several (proc.c:526-668, trap.c:173-228).
    - Kvm, KvmOk, KvmProps: the kernel's own page table (vm.c:34-80,
      proc.c:44-56), with a count of the pages it needs.
    - Proc: the operations of proc.c.  ProcMem, ProcTable, Kfork, Reap,
      UserCopy, ProcBoot, Grow, ProcProps: the invariant [pinv] of the process
      table, which accounts for every page, and what fork, exit, wait, growing
      and the copies between kernel and user do.  Keeps: which parts of the
      state an operation leaves alone, by one closure argument for all.
    - Syscalls, Trap: argument fetching, every handler of sysproc.c, the
      dispatcher; [usertrap], [kerneltrap], [devintr], [forkret], [sched].
      SysOk, SysProps, TrapOk, TrapProps: what they do.
    - Safety: the invariant [kernel_ok] of the whole state, the relation [iso]
      (all processes but one are left alone) and a triple [safe] that carries
      both through sequences of operations.  SafeSys, SafeTrap: the triple for
      every system call of sysproc.c and for every trap.
    - System, SystemProps: user programs, traps, switches and resumptions as
      one transition relation, and the theorems about all its runs.
    - Ulib, UlibProps: the user library on a byte memory.

    ** What the theorems show

    - C1-C4, the whole system: no user program makes the kernel panic, touch
      memory it may not or loop without end; processes are isolated from each
      other; the state stays typed; boot establishes the invariant.
    - C5-C9, RAID: pages survive the round trip under every mode and any one
      failed disk, a failed disk is not used, addresses stay in bounds; two
      interleaved RAID 5 writers corrupt a block through the shared buffers.
    - C10, C12-C14, disk queue: dequeue refines the policy, no wake-up is lost,
      one dispatcher, the system can drain.  C11: [setraidmode] while pages
      are in swap loses them.  C15: the kernel page table is the memory map.
    - C16, C17, C19, cache: it refines the bare disk, recycles in LRU order,
      and swap works over it.  C18: a page fault from user mode is invisible
      to the program, from the trap to the return.
    - C20-C22, paging: faults and evictions are invisible to processes, the
      victim has the lowest priority.  C23-C25, address spaces: fork copies,
      unmapping releases; a race between eviction and a fault.
    - C26-C29, scheduling: priorities, one CPU per process, the demotion rule;
      processes of one level do not take turns.
    - C30-C35, processes: release reclaims everything, fork, wait, exit, copies
      in both directions; a string argument in a swapped-out page is refused.
    - C36-C38, system calls: dispatch and its error case, how long the sleeping
      calls sleep, the bounds of [sbrk].
    - C39, driver: it implements an array of blocks.  C40: [memmove] is the
      reference copy.

    The theorems about single runs state that the code returns a result
    (never only what it returns if it does).  The scheduled liveness of the
    whole system under a fair scheduler is not claimed.

    ** What the whole system assumes

    C1-C4 are about one CPU, on which the kernel is not interrupted: an event
    is a whole trap, up to the return to user mode or the next switch.  A
    process that sleeps for the disk keeps the CPU, so the races of C9 and C25
    do not occur there; they need a switch inside a disk request.  The
    calls of sysfile.c are not events of the system, nor is [setraidmode],
    which by C11 does change what processes see; nor is the first run of
    init, which loads its program with [kexec].  The file functions called by
    exit, the interrupt handlers of the devices and the disk's controls are
    parameters that leave the contents of swap alone ([FileEnvSpec],
    [TrapEnvSpec], [DiskCtlSpec]).

    ** Fuel

    Loops that C bounds by a constant run over a list of indices or that many
    rounds.  The others have fuel and a proof that it is enough: eviction and
    [kalloc_user] retry as often as the constants in the source say;
    [mappages] has one round per page; the dispatcher one round per queued
    request; [free_chain] one per descriptor and one more
    ([free_chain_total]); the interrupt handler one per new ring entry; the
    string loops one per mapped byte and one more ([strings_total]).

    ** Not modelled

    The stack switch [swtch], the register writes of [kvminithart] and
    [trapinithart] and the lock of [trapinit], console output, the prototypes
    of defs.h and user.h, the stub generator usys.pl, the Makefile, and the
    test programs under src/user, which only print what system calls return.

    ** Plan

    Next: a step relation in which a disk request of the paging code switches
    to other processes, with the conditions under which C9 and C25 cannot
    happen. *)
From stdpp Require Export base tactics numbers list option strings sets.

(** ** Outcomes of kernel code

    A kernel routine returns a value and a new state, or it stops: [Panic] is
    a call of [panic], [Ub] is an access outside an array (undefined in C),
    [Blocked] is a [sleep] that nobody can end in a run of one process, and
    [NoFuel] is a loop whose bound was too small. *)
Inductive res (A : Type) : Type :=
| Ok (a : A)
| Panic (msg : string)
| Ub
| Blocked
| NoFuel.

Arguments Ok {A} a.
Arguments Panic {A} msg.
Arguments Ub {A}.
Arguments Blocked {A}.
Arguments NoFuel {A}.

Definition M (S A : Type) : Type := S → res (A * S).

Definition ret {S A} (a : A) : M S A := λ s, Ok (a, s).

Definition bind {S A B} (m : M S A) (k : A → M S B) : M S B := λ s,
  match m s with
  | Ok (a, s') => k a s'
  | Panic msg => Panic msg
  | Ub => Ub
  | Blocked => Blocked
  | NoFuel => NoFuel
  end.

Definition fail {S A} (r : res (A * S)) : M S A := λ _, r.
Definition panic {S A} (msg : string) : M S A := fail (Panic msg).
Definition gets {S A} (f : S → A) : M S A := λ s, Ok (f s, s).
Definition modify {S} (f : S → S) : M S unit := λ s, Ok (tt, f s).

(** An option that stands for an array access: [None] is out of range. *)
Definition deref {S A} (o : option A) : M S A :=
  match o with Some a => ret a | None => fail Ub end.

Declare Scope k_scope.
Delimit Scope k_scope with k.
Notation "'let*' x ':=' m 'in' k" := (bind m (λ x, k))
  (at level 10, x pattern, m at level 100, k at level 200,
   format "'[v' 'let*'  x  ':='  m  'in' '/' k ']'") : k_scope.
Notation "m ';;;' k" := (bind m (λ _, k))
  (at level 110, k at level 200, right associativity,
   format "'[v' m  ';;;' '/' k ']'") : k_scope.
Notation "'when' b 'do' m" := (if b then m else ret tt)
  (at level 105, b at level 100, m at level 105) : k_scope.
Open Scope k_scope.

(** A [for] loop over a list of indices that threads an accumulator. *)
Fixpoint for_list {S A B} (l : list A) (body : A → B → M S B) (b : B) : M S B :=
  match l with
  | [] => ret b
  | x :: l' => let* b' := body x b in for_list l' body b'
  end.

Lemma bind_ok {S A B} (m : M S A) (k : A → M S B) s a s' :
  m s = Ok (a, s') → bind m k s = k a s'.
Proof. unfold bind. by intros ->. Qed.

Lemma bind_inv {S A B} (m : M S A) (k : A → M S B) s b s'' :
  bind m k s = Ok (b, s'') → ∃ a s', m s = Ok (a, s') ∧ k a s' = Ok (b, s'').
Proof. unfold bind. destruct (m s) as [[a s']|?| | |]; naive_solver. Qed.

Lemma bind_ret_l {S A B} (a : A) (k : A → M S B) s : bind (ret a) k s = k a s.
Proof. done. Qed.

Lemma bind_assoc {S A B C} (m : M S A) (k : A → M S B) (h : B → M S C) s :
  bind (bind m k) h s = bind m (λ a, bind (k a) h) s.
Proof. unfold bind. by destruct (m s) as [[a s']|?| | |]. Qed.

(** The loop rule: an invariant indexed by the number of completed rounds
    that every round re-establishes holds, with the loop terminating
    normally, after all rounds. *)
Lemma for_list_inv {S A B} (P : nat → B → S → Prop) (l : list A)
    (body : A → B → M S B) b s :
  P 0 b s →
  (∀ k x b s, l !! k = Some x → P k b s →
     ∃ b' s', body x b s = Ok (b', s') ∧ P (k + 1) b' s') →
  ∃ b' s', for_list l body b s = Ok (b', s') ∧ P (length l) b' s'.
Proof.
  revert P b s. induction l as [|x l IH]; intros P b s H0 Hstep; [by eauto|].
  destruct (Hstep 0 x b s eq_refl H0) as (b1 & s1 & E1 & H1).
  destruct (IH (λ k, P (k + 1)) b1 s1) as (b2 & s2 & E2 & H2); [done| |].
  - intros k y b' s' Hk HP. exact (Hstep (k + 1) y b' s' ltac:(by rewrite Nat.add_1_r) HP).
  - exists b2, s2. simpl. rewrite (bind_ok _ _ _ _ _ E1).
    split; [done|]. by rewrite <- Nat.add_1_r.
Qed.

(** ** Machine integers *)
Local Open Scope Z_scope.

Definition i32 (z : Z) : Z := (z + 2 ^ 31) mod 2 ^ 32 - 2 ^ 31.
Definition u32 (z : Z) : Z := z mod 2 ^ 32.
Definition u64 (z : Z) : Z := z mod 2 ^ 64.

Definition INT_MAX : Z := 2147483647.

Lemma i32_id z : - 2 ^ 31 ≤ z < 2 ^ 31 → i32 z = z.
Proof. intros ?. unfold i32. rewrite Z.mod_small; lia. Qed.

Lemma u32_id z : 0 ≤ z < 2 ^ 32 → u32 z = z.
Proof. apply Z.mod_small. Qed.

Lemma u64_id z : 0 ≤ z < 2 ^ 64 → u64 z = z.
Proof. apply Z.mod_small. Qed.

Lemma i32_range z : - 2 ^ 31 ≤ i32 z < 2 ^ 31.
Proof. unfold i32. pose proof (Z.mod_pos_bound (z + 2 ^ 31) (2 ^ 32)). lia. Qed.

(** ** Arrays indexed by a C integer *)
Definition aget {A} (l : list A) (i : Z) : option A :=
  if decide (0 ≤ i) then l !! Z.to_nat i else None.
Definition aset {A} (i : Z) (x : A) (l : list A) : list A :=
  if decide (0 ≤ i) then <[Z.to_nat i := x]> l else l.

Lemma aget_of_nat {A} (l : list A) (n : nat) : aget l (Z.of_nat n) = l !! n.
Proof. unfold aget. rewrite decide_True by lia. by rewrite Nat2Z.id. Qed.

Lemma aset_of_nat {A} (l : list A) (n : nat) x : aset (Z.of_nat n) x l = <[n := x]> l.
Proof. unfold aset. rewrite decide_True by lia. by rewrite Nat2Z.id. Qed.

Lemma length_aset {A} (l : list A) i x : length (aset i x l) = length l.
Proof. unfold aset. case_decide; [apply length_insert|done]. Qed.

Lemma alter_alter {A} (f g : A → A) i (l : list A) :
  alter f i (alter g i l) = alter (λ x, f (g x)) i l.
Proof.
  apply list_eq. intros j. destruct (decide (j = i)) as [->|].
  - rewrite !list_lookup_alter_eq. by destruct (l !! i).
  - by rewrite !list_lookup_alter_ne.
Qed.

(** ** Byte strings *)
Abbreviation bytes := (list Z).
Definition xorl (a b : bytes) : bytes := zip_with Z.lxor a b.

(** [splice l n l'] is [memmove(l + n, l', length l')]. *)
Definition splice {A} (l : list A) (n : nat) (l' : list A) : list A :=
  take n l ++ l' ++ drop (n + length l') l.

(** [slice l n k] is the [k] bytes of [l] from offset [n]. *)
Definition slice {A} (l : list A) (n k : nat) : list A := take k (drop n l).
Local Close Scope Z_scope.

Lemma length_slice {A} (l : list A) n k : n + k ≤ length l → length (slice l n k) = k.
Proof. intros. unfold slice. rewrite length_take, length_drop. lia. Qed.

Lemma length_splice {A} (l : list A) n l' :
  n + length l' ≤ length l → length (splice l n l') = length l.
Proof.
  intros. unfold splice. rewrite !length_app, length_take, length_drop. lia.
Qed.

Lemma take_splice {A} (l : list A) n l' :
  n + length l' ≤ length l → take (n + length l') (splice l n l') = take n l ++ l'.
Proof.
  intros. unfold splice. rewrite app_assoc, take_app_le.
  - rewrite take_ge; [done|]. rewrite length_app, length_take. lia.
  - rewrite length_app, length_take. lia.
Qed.

(** A buffer of [n] blocks of [b] bytes is the concatenation of its blocks. *)
Lemma join_slices {A} (l : list A) b n :
  length l = n * b → mjoin ((λ i, slice l (i * b) b) <$> seq 0 n) = l.
Proof.
  revert l. induction n as [|n IH]; intros l Hl.
  - by destruct l.
  - rewrite seq_S, fmap_app, join_app. cbn. rewrite app_nil_r.
    transitivity (take (n * b) l ++ drop (n * b) l); [|apply take_drop].
    f_equal; [|unfold slice; rewrite take_ge; [done|rewrite length_drop; lia]].
    rewrite <- (IH (take (n * b) l)) by (rewrite length_take; lia).
    f_equal. apply list_fmap_ext. intros k i Hi%lookup_seq. unfold slice.
    rewrite !take_drop_commute, take_take. do 2 f_equal. nia.
Qed.

Lemma length_join_const {A B} (f : A → list B) n (l : list A) :
  (∀ x, length (f x) = n) → length (mjoin (f <$> l)) = length l * n.
Proof.
  intros Hf. induction l as [|x l IH]; [done|].
  change (mjoin (f <$> x :: l)) with (f x ++ mjoin (f <$> l)).
  rewrite length_app, Hf, IH. simpl. lia.
Qed.

Lemma length_xorl a b : length a = length b → length (xorl a b) = length a.
Proof. intros. unfold xorl. rewrite length_zip_with. lia. Qed.

Lemma lookup_xorl a b i :
  xorl a b !! i = (x ← a !! i; y ← b !! i; Some (Z.lxor x y)).
Proof. unfold xorl. by rewrite lookup_zip_with. Qed.

Lemma xorl_comm a b : xorl a b = xorl b a.
Proof.
  revert b. induction a as [|x a IH]; intros [|y b]; [done..|].
  cbn. f_equal; [apply Z.lxor_comm|apply IH].
Qed.

Lemma xorl_cancel a b : length a = length b → xorl a (xorl a b) = b.
Proof.
  revert b. induction a as [|x a IH]; intros [|y b] ?; simplify_eq/=; [done|].
  f_equal; [|by apply IH].
  by rewrite <- Z.lxor_assoc, Z.lxor_nilpotent, Z.lxor_0_l.
Qed.

Lemma xorl_zero_l n a : length a = n → xorl (replicate n 0%Z) a = a.
Proof.
  intros <-. induction a as [|x a IH]; [done|]. cbn. f_equal. exact IH.
Qed.

(** Equations between XORs of byte strings of one length [n]: go to byte [i],
    then to bits.  The lengths come from the hint database [bytelen]. *)
Create HintDb bytelen.
#[export] Hint Resolve length_replicate : bytelen.

Lemma length_xorl_n n a b : length a = n → length b = n → length (xorl a b) = n.
Proof. intros. by rewrite length_xorl; congruence. Qed.
#[export] Hint Resolve length_xorl_n : bytelen.

Lemma lookup_all_or_none {A} (l : list A) n i :
  length l = n → (i < n ∧ ∃ x, l !! i = Some x) ∨ (n ≤ i ∧ l !! i = None).
Proof.
  intros <-. destruct (l !! i) as [x|] eqn:E.
  - left. split; [by eapply lookup_lt_Some|eauto].
  - right. split; [by apply lookup_ge_None|done].
Qed.

Ltac xor_bits :=
  apply Z.bits_inj'; intros ?k _; rewrite ?Z.lxor_spec, ?Z.bits_0;
  repeat match goal with |- context [Z.testbit ?x ?k] => destruct (Z.testbit x k) end;
  reflexivity.

Ltac xor_solve n :=
  apply list_eq; intros ?i; rewrite ?lookup_xorl;
  repeat match goal with
  | |- context [?l !! ?i] =>
    let H := fresh in
    assert (length l = n) as H by eauto with bytelen;
    destruct (lookup_all_or_none l n i H) as [[? [? ->]]|[? ->]]; clear H
  end; try (exfalso; lia); try reflexivity; cbn; f_equal; xor_bits.
