(* ===== verification/Interfaces.v ===== *)
(** * Constants and services outside the repository, and the interfaces
    between components

    The repository holds the kernel files that were changed for the
    assignment.  The headers [riscv.h], [param.h], [fs.h], [buf.h] and the
    lock implementation are not part of it, so their constants and services
    are parameters here, with what the kernel code relies on as laws. *)
From S2P Require Import Prelude.
Local Open Scope Z_scope.

(** [PGSIZE] (riscv.h; "whole 4096-byte pages", kalloc.c:3), [BSIZE] (fs.h)
    and [ROOTDEV] (param.h).  Device 0 is what a zeroed [struct buf] names. *)
Class BlockParams := {
  PGSIZE : Z;
  BSIZE : Z;
  ROOTDEV : Z;
  PGSIZE_4096 : PGSIZE = 4096;
  BSIZE_pos : 0 < BSIZE;
  BSIZE_divides : (BSIZE | PGSIZE);
  ROOTDEV_range : 0 < ROOTDEV < 2 ^ 32;
}.

Definition bsize `{BlockParams} : nat := Z.to_nat BSIZE.
Definition pgsize `{BlockParams} : nat := Z.to_nat PGSIZE.

(** ** What the buffer cache offers its clients (bio.c:8-14)

    "To get a buffer for a particular disk block, call bread.  After changing
    buffer data, call bwrite to write it to disk.  When done with the buffer,
    call brelse." *)
Class BlockIO (S : Type) := {
  handle : Type;
  bread : Z → Z → M S handle;
  bdata : S → handle → bytes;
  set_bdata : handle → bytes → S → S;
  bwrite : handle → M S unit;
  brelse : handle → M S unit;
}.

(** The promise: [bcontent s n] is block [n] of the root device as a client
    sees it.  A bread/brelse pair returns it and changes no block; bread,
    overwrite, bwrite, brelse replaces exactly that block. *)
Class BlockIOSpec `{BlockParams} (S : Type) `{!BlockIO S} := {
  bio_inv : S → Prop;
  bcontent : S → Z → bytes;
  bcontent_length s n : bio_inv s → length (bcontent s n) = bsize;
  bio_read s n :
    bio_inv s → 0 ≤ n < 2 ^ 31 →
    ∃ h s1 s2, bread ROOTDEV n s = Ok (h, s1) ∧ bdata s1 h = bcontent s n ∧
      brelse h s1 = Ok (tt, s2) ∧ bio_inv s2 ∧
      (∀ m, bcontent s2 m = bcontent s m);
  bio_write s n d :
    bio_inv s → 0 ≤ n < 2 ^ 31 → length d = bsize →
    ∃ h s1 s2 s3, bread ROOTDEV n s = Ok (h, s1) ∧
      bwrite h (set_bdata h d s1) = Ok (tt, s2) ∧
      brelse h s2 = Ok (tt, s3) ∧ bio_inv s3 ∧
      (∀ m, bcontent s3 m = if decide (m = n) then d else bcontent s m);
}.

(** ** What the disk driver offers the buffer cache

    [virtio_disk_rw(b, write)] transfers block [b->blockno]: it returns the
    new [b->data]. *)
Class DiskDriver (D : Type) := {
  virtio_disk_rw : Z → bytes → bool → M D bytes;
}.

Class DiskDriverSpec `{BlockParams} (D : Type) `{!DiskDriver D} := {
  drv_inv : D → Prop;
  drv_block : D → Z → bytes;
  drv_block_length d n : drv_inv d → length (drv_block d n) = bsize;
  drv_read d n x :
    drv_inv d → 0 ≤ n < 2 ^ 31 →
    ∃ d', virtio_disk_rw n x false d = Ok (drv_block d n, d') ∧ drv_inv d' ∧
      ∀ m, drv_block d' m = drv_block d m;
  drv_write d n x :
    drv_inv d → 0 ≤ n < 2 ^ 31 → length x = bsize →
    ∃ d', virtio_disk_rw n x true d = Ok (x, d') ∧ drv_inv d' ∧
      ∀ m, drv_block d' m = if decide (m = n) then x else drv_block d m;
}.

(** ** Sleep locks (sleeplock.c), as one process sees them

    [holdingsleep] tells whether the caller holds the lock; acquiring a free
    lock succeeds, acquiring one that somebody else holds sleeps. *)
Class SleepLock := {
  sleeplock : Type;
  initsleeplock : sleeplock;
  acquiresleep : sleeplock → res sleeplock;
  releasesleep : sleeplock → sleeplock;
  holdingsleep : sleeplock → bool;
  sl_free : sleeplock → Prop;
  sl_init_free : sl_free initsleeplock;
  sl_acquire l : sl_free l → ∃ l', acquiresleep l = Ok l' ∧ holdingsleep l' = true;
  sl_release l : holdingsleep l = true → sl_free (releasesleep l);
}.

(** [NBUF] (param.h) *)
Class BcacheParams := {
  NBUF : nat;
  NBUF_pos : (0 < NBUF)%nat;
}.

(** ** What the swap device offers the virtual-memory code

    An array of [nslots] independent pages: a read returns the page last
    written to the slot, a write changes that slot only, and neither fails
    on a slot in range. *)
Class SwapDev (D : Type) := {
  dev_read : Z → bytes → M D (Z * bytes);
  dev_write : Z → bytes → M D Z;
}.

Class SwapDevSpec `{BlockParams} (D : Type) `{!SwapDev D} := {
  dev_inv : D → Prop;
  dev_slots : Z;
  dev_page : D → Z → bytes;
  dev_page_length d k : dev_inv d → 0 ≤ k < dev_slots → length (dev_page d k) = pgsize;
  dev_read_ok d k dst :
    dev_inv d → 0 ≤ k < dev_slots → length dst = pgsize →
    ∃ d', dev_read k dst d = Ok (0, dev_page d k, d') ∧ dev_inv d' ∧
      ∀ j, 0 ≤ j < dev_slots → dev_page d' j = dev_page d j;
  dev_write_ok d k src :
    dev_inv d → 0 ≤ k < dev_slots → length src = pgsize →
    ∃ d', dev_write k src d = Ok (0, d') ∧ dev_inv d' ∧
      ∀ j, 0 ≤ j < dev_slots → dev_page d' j = if decide (j = k) then src else dev_page d j;
}.

(** ** The xv6 values of the parameters *)
Definition xv6_block_params : BlockParams.
Proof.
  refine {| PGSIZE := 4096; BSIZE := 1024; ROOTDEV := 1 |}; [done|done| |done].
  by exists 4.
Defined.

Definition xv6_bcache_params : BcacheParams.
Proof. refine {| NBUF := 30 |}. lia. Defined.

(** A lock that is free ([None]) or held by this process or another. *)
Definition flag_lock : SleepLock.
Proof.
  refine {| sleeplock := option bool;
            initsleeplock := None;
            acquiresleep l := match l with None => Ok (Some true) | Some _ => Blocked end;
            releasesleep _ := None;
            holdingsleep l := bool_decide (l = Some true);
            sl_free l := l = None |}; [done| |done].
  intros l ->. by exists (Some true).
Defined.

(** An ideal driver: it transfers at once. *)
Definition ideal_rw (n : Z) (x : bytes) (w : bool) : M (Z → bytes) bytes := λ d,
  if w then Ok (x, λ m, if decide (m = n) then x else d m) else Ok (d n, d).

#[global] Instance ideal_driver : DiskDriver (Z → bytes) := {| virtio_disk_rw := ideal_rw |}.

#[global, program] Instance ideal_driver_spec `{BlockParams} : DiskDriverSpec (Z → bytes) := {|
  drv_inv d := ∀ n, length (d n) = bsize;
  drv_block d n := d n;
|}.
Next Obligation. auto. Qed.
Next Obligation. intros ? d n x Hd _. exists d. done. Qed.
Next Obligation.
  intros ? d n x Hd _ Hx. eexists. split; [done|]. split; [|done].
  intros m. simpl. by case_decide.
Qed.

(** ** An ideal block device: every block in a total function.

    It discharges the interface on its own and is the concrete device of
    the witnesses. *)
Module IdealDisk.

Record t := mk { blocks : Z → bytes; held : Z → bytes }.

#[global] Instance ideal_io : BlockIO t := {|
  handle := Z;
  bread dev n := λ s, Ok (n, mk (blocks s) (λ m, if decide (m = n) then blocks s n else held s m));
  bdata s n := held s n;
  set_bdata n d s := mk (blocks s) (λ m, if decide (m = n) then d else held s m);
  bwrite n := λ s, Ok (tt, mk (λ m, if decide (m = n) then held s n else blocks s m) (held s));
  brelse n := λ s, Ok (tt, s);
|}.

Definition wf `{BlockParams} (s : t) : Prop := ∀ n, length (blocks s n) = bsize.

#[global, program] Instance ideal_spec `{BlockParams} : BlockIOSpec t := {|
  bio_inv := wf;
  bcontent s n := blocks s n;
|}.
Next Obligation. intros ? s n Hwf. apply Hwf. Qed.
Next Obligation.
  intros ? s n Hwf _. do 3 eexists. split; [reflexivity|]. simpl.
  rewrite decide_True by done. split_and!; done.
Qed.
Next Obligation.
  intros ? s n d Hwf _ Hd. do 4 eexists. split; [reflexivity|].
  split; [reflexivity|]. split; [reflexivity|]. simpl. split.
  - intros m. simpl. case_decide; [by rewrite decide_True by done|apply Hwf].
  - intros m. by rewrite (decide_True (P := n = n)) by done.
Qed.

Definition zero `{BlockParams} : t := mk (λ _, replicate bsize 0) (λ _, []).
Definition fill `{BlockParams} : t := mk (λ n, replicate bsize (n mod 251)) (λ _, []).

End IdealDisk.
