(* ===== verification/Raid.v ===== *)
(** * The RAID layer under swap (kernel/virtio_disk.c:27-336)

    [swap_disk_read] and [swap_disk_write] move one page between memory and a
    swap slot.  Each of the [BLOCKS_PER_PAGE] blocks of the slot goes through
    the mapping of the global [raid_mode] to blocks of four simulated disks,
    which are reached with the buffer cache's [bread], [bwrite] and [brelse]
    (the interface [BlockIO]).  The theorems show that under every mode the
    layer implements an array of independent pages, with one disk failed in
    RAID 5, and that every logical block keeps to its own disk blocks. *)
From S2P Require Import Prelude Interfaces.
Local Open Scope Z_scope.

(** ** Constants (virtio_disk.c:27-37, 50-51; defs.h:12) *)
Definition NDISKS : Z := 4.
Definition RAID0 : Z := 0.
Definition RAID1 : Z := 1.
Definition RAID5 : Z := 2.
Definition FAILED_DISK : Z := 2.
Definition SWAP_START_BLOCK : Z := 1000.
Definition MAX_SWAP_PAGES : Z := 256.

(** ** Block mappings (virtio_disk.c:71-105) *)
Definition swap_phys_block (disk disk_block : Z) : Z :=
  u32 (i32 (SWAP_START_BLOCK + disk_block * NDISKS + disk)).

(** [(disk1, disk2, disk_block)] *)
Definition raid1_map (logical_block : Z) : Z * Z * Z :=
  let pair := Z.rem logical_block (Z.quot NDISKS 2) in
  let disk1 := pair * 2 in
  (disk1, disk1 + 1, Z.quot logical_block (Z.quot NDISKS 2)).

(** [(data_disk, parity_disk, disk_block)] *)
Definition raid5_map (logical_block : Z) : Z * Z * Z :=
  let stripe := Z.quot logical_block (NDISKS - 1) in
  let data_index := Z.rem logical_block (NDISKS - 1) in
  let parity_disk := Z.rem stripe NDISKS in
  let data_disk := if decide (parity_disk ≤ data_index) then data_index + 1 else data_index in
  (data_disk, parity_disk, stripe).

(** ** State: the mode, the four static scratch buffers, the buffer cache *)
Record raid (S : Type) := mkRaid {
  raid_mode : Z;
  raid5_old_data : bytes;
  raid5_old_parity : bytes;
  raid5_new_parity : bytes;
  raid5_recovered : bytes;
  io : S;
}.
Arguments mkRaid {S}.
Arguments raid_mode {S}.
Arguments raid5_old_data {S}.
Arguments raid5_old_parity {S}.
Arguments raid5_new_parity {S}.
Arguments raid5_recovered {S}.
Arguments io {S}.

Section setters.
Context {S : Type}.
Implicit Types s : raid S.
Definition with_mode (m : Z) s :=
  mkRaid m (raid5_old_data s) (raid5_old_parity s) (raid5_new_parity s) (raid5_recovered s) (io s).
Definition with_old_data (d : bytes) s :=
  mkRaid (raid_mode s) d (raid5_old_parity s) (raid5_new_parity s) (raid5_recovered s) (io s).
Definition with_old_parity (d : bytes) s :=
  mkRaid (raid_mode s) (raid5_old_data s) d (raid5_new_parity s) (raid5_recovered s) (io s).
Definition with_new_parity (d : bytes) s :=
  mkRaid (raid_mode s) (raid5_old_data s) (raid5_old_parity s) d (raid5_recovered s) (io s).
Definition with_recovered (d : bytes) s :=
  mkRaid (raid_mode s) (raid5_old_data s) (raid5_old_parity s) (raid5_new_parity s) d (io s).
Definition with_io (i : S) s :=
  mkRaid (raid_mode s) (raid5_old_data s) (raid5_old_parity s) (raid5_new_parity s) (raid5_recovered s) i.

(** An operation of the buffer cache run inside the RAID layer. *)
Definition lift_io {A} (m : M S A) : M (raid S) A := λ s,
  match m (io s) with
  | Ok (a, i) => Ok (a, with_io i s)
  | Panic msg => Panic msg
  | Ub => Ub
  | Blocked => Blocked
  | NoFuel => NoFuel
  end.
End setters.

(** ** Operations *)
Section ops.
Context `{BlockParams} {S : Type} `{!BlockIO S}.

Definition BLOCKS_PER_PAGE : Z := PGSIZE / BSIZE.

(** virtio_disk.c:45-48 *)
Definition set_raid_mode (mode : Z) : M (raid S) unit := modify (with_mode mode).

(** virtio_disk.c:63-69 *)
Definition current_failed_disk : M (raid S) Z :=
  gets (λ s, if decide (raid_mode s = RAID5) then FAILED_DISK else -1).

(** virtio_disk.c:79-83 *)
Definition swap_bread (disk disk_block : Z) : M (raid S) handle :=
  lift_io (bread ROOTDEV (swap_phys_block disk disk_block)).

(** [b = swap_bread(..); use b->data; brelse(b);] *)
Definition read_block (disk disk_block : Z) : M (raid S) bytes :=
  let* b := swap_bread disk disk_block in
  let* d := gets (λ s, bdata (io s) b) in
  lift_io (brelse b) ;;;
  ret d.

(** [b = swap_bread(..); memmove(b->data, d, BSIZE); bwrite(b); brelse(b);] *)
Definition write_block (disk disk_block : Z) (d : bytes) : M (raid S) unit :=
  let* b := swap_bread disk disk_block in
  modify (λ s, with_io (set_bdata b d (io s)) s) ;;;
  lift_io (bwrite b) ;;;
  lift_io (brelse b).

(** [for(d = 0; d < NDISKS; d++) if(d != failed_disk) buf ^= block d] for one
    of the static buffers, given by its getter and setter. *)
Definition xor_survivors (getb : raid S → bytes) (setb : bytes → raid S → raid S)
    (failed_disk disk_block : Z) : M (raid S) unit :=
  modify (setb (replicate bsize 0)) ;;;
  for_list (seqZ 0 NDISKS) (λ d _,
    if decide (d = failed_disk) then ret tt else
    let* x := read_block d disk_block in
    modify (λ s, setb (xorl (getb s) x) s)) tt.

(** virtio_disk.c:125-207: the block of [dst] for one logical block. *)
Definition read_logical (mode failed_disk logical_block : Z) : M (raid S) bytes :=
  if decide (mode = RAID0) then
    read_block (Z.rem logical_block NDISKS) (Z.quot logical_block NDISKS)
  else if decide (mode = RAID1) then
    let '(d1, d2, disk_block) := raid1_map logical_block in
    let use_disk := if decide (d1 = failed_disk) then d2 else d1 in
    read_block use_disk disk_block
  else
    let '(data_disk, parity_disk, disk_block) := raid5_map logical_block in
    if decide (failed_disk = -1) then read_block data_disk disk_block
    else if decide (failed_disk ≠ data_disk) then read_block data_disk disk_block
    else
      xor_survivors raid5_recovered with_recovered failed_disk disk_block ;;;
      gets raid5_recovered.

(** virtio_disk.c:118-211 *)
Definition swap_disk_read (swap_slot : Z) (dst : bytes) : M (raid S) (Z * bytes) :=
  let* dst := for_list (seqZ 0 BLOCKS_PER_PAGE) (λ i dst,
    let logical_block := i32 (swap_slot * BLOCKS_PER_PAGE + i) in
    let* failed_disk := current_failed_disk in
    let* mode := gets raid_mode in
    let* d := read_logical mode failed_disk logical_block in
    ret (splice dst (Z.to_nat (i * BSIZE)) d)) dst in
  ret (0, dst).

(** virtio_disk.c:287-288, 324-325 *)
Definition update_parity (d : bytes) : M (raid S) unit :=
  modify (λ s, with_new_parity (xorl (xorl (raid5_old_parity s) (raid5_old_data s)) d) s).

(** virtio_disk.c:279-281 *)
Definition raid5_rmw_begin (data_disk disk_block : Z) : M (raid S) unit :=
  let* x := read_block data_disk disk_block in
  modify (with_old_data x).

(** virtio_disk.c:283-298 *)
Definition raid5_rmw_finish (data_disk parity_disk disk_block : Z) (d : bytes) : M (raid S) unit :=
  let* y := read_block parity_disk disk_block in
  modify (with_old_parity y) ;;;
  update_parity d ;;;
  write_block data_disk disk_block d ;;;
  let* np := gets raid5_new_parity in
  write_block parity_disk disk_block np.

(** virtio_disk.c:225-332: store [d] as one logical block. *)
Definition write_logical (mode failed_disk logical_block : Z) (d : bytes) : M (raid S) unit :=
  if decide (mode = RAID0) then
    write_block (Z.rem logical_block NDISKS) (Z.quot logical_block NDISKS) d
  else if decide (mode = RAID1) then
    let '(d1, d2, disk_block) := raid1_map logical_block in
    (if decide (d1 ≠ failed_disk) then write_block d1 disk_block d else ret tt) ;;;
    (if decide (d2 ≠ failed_disk) then write_block d2 disk_block d else ret tt)
  else
    let '(data_disk, parity_disk, disk_block) := raid5_map logical_block in
    if decide (failed_disk = -1 ∨ (failed_disk ≠ data_disk ∧ failed_disk ≠ parity_disk)) then
      raid5_rmw_begin data_disk disk_block ;;;
      raid5_rmw_finish data_disk parity_disk disk_block d
    else if decide (failed_disk = parity_disk) then
      write_block data_disk disk_block d
    else
      xor_survivors raid5_old_data with_old_data failed_disk disk_block ;;;
      let* y := read_block parity_disk disk_block in
      modify (with_old_parity y) ;;;
      update_parity d ;;;
      let* np := gets raid5_new_parity in
      write_block parity_disk disk_block np.

(** virtio_disk.c:218-336 *)
Definition swap_disk_write (swap_slot : Z) (src : bytes) : M (raid S) Z :=
  for_list (seqZ 0 BLOCKS_PER_PAGE) (λ i _,
    let logical_block := i32 (swap_slot * BLOCKS_PER_PAGE + i) in
    let* failed_disk := current_failed_disk in
    let* mode := gets raid_mode in
    write_logical mode failed_disk logical_block (slice src (Z.to_nat (i * BSIZE)) bsize)) tt ;;;
  ret 0.

End ops.

(** ** The contract: every logical block has its own content

    [lcontent mode failed c lb] is logical block [lb] when block [n] of the
    device holds [c n] and disk [failed] is lost ([-1]: none). *)
Definition phys (disk disk_block : Z) : Z := SWAP_START_BLOCK + disk_block * NDISKS + disk.

Definition upd (c : Z → bytes) (n : Z) (d : bytes) : Z → bytes :=
  λ m, if decide (m = n) then d else c m.

Section contract.
Context `{BlockParams}.
Implicit Types c : Z → bytes.

Definition survivors_xor c (failed disk_block : Z) : bytes :=
  foldl (λ acc d, if decide (d = failed) then acc else xorl acc (c (phys d disk_block)))
    (replicate bsize 0) (seqZ 0 NDISKS).

Definition lcontent (mode failed : Z) c (lb : Z) : bytes :=
  if decide (mode = RAID0) then c (phys (lb mod 4) (lb / 4))
  else if decide (mode = RAID1) then
    let d1 := lb mod 2 * 2 in
    c (phys (if decide (d1 = failed) then d1 + 1 else d1) (lb / 2))
  else
    let '(data, _, stripe) := raid5_map lb in
    if decide (failed = data) then survivors_xor c failed stripe
    else c (phys data stripe).

(** The device after one logical block is overwritten. *)
Definition lwrite (mode failed : Z) c (lb : Z) (d : bytes) : Z → bytes :=
  if decide (mode = RAID0) then upd c (phys (lb mod 4) (lb / 4)) d
  else if decide (mode = RAID1) then
    let d1 := lb mod 2 * 2 in
    let c1 := if decide (d1 = failed) then c else upd c (phys d1 (lb / 2)) d in
    if decide (d1 + 1 = failed) then c1 else upd c1 (phys (d1 + 1) (lb / 2)) d
  else
    let '(data, parity, stripe) := raid5_map lb in
    let p := c (phys parity stripe) in
    if decide (failed = parity) then upd c (phys data stripe) d
    else if decide (failed = data) then
      upd c (phys parity stripe) (xorl (xorl p (survivors_xor c failed stripe)) d)
    else
      upd (upd c (phys data stripe) d) (phys parity stripe)
        (xorl (xorl p (c (phys data stripe))) d).

(** The page a swap slot holds. *)
Definition slot_content (mode failed : Z) c (slot : Z) : bytes :=
  mjoin ((λ i, lcontent mode failed c (slot * BLOCKS_PER_PAGE + i)) <$> seqZ 0 BLOCKS_PER_PAGE).

Definition sized c : Prop := ∀ n, length (c n) = bsize.

(** *** Facts about the mappings *)
Lemma raid1_map_eq lb :
  0 ≤ lb → raid1_map lb = (lb mod 2 * 2, lb mod 2 * 2 + 1, lb / 2).
Proof.
  intros. unfold raid1_map, NDISKS. change (Z.quot 4 2) with 2.
  by rewrite Z.rem_mod_nonneg, Z.quot_div_nonneg by lia.
Qed.

Lemma raid5_map_spec lb data parity stripe :
  0 ≤ lb → raid5_map lb = (data, parity, stripe) →
  stripe = lb / 3 ∧ parity = stripe mod 4 ∧ 0 ≤ data < 4 ∧ data ≠ parity ∧
  0 ≤ stripe ≤ lb ∧ lb mod 3 = if decide (data < parity) then data else data - 1.
Proof.
  intros Hlb. unfold raid5_map, NDISKS. change (4 - 1) with 3.
  rewrite !Z.quot_div_nonneg by lia.
  pose proof (Z.mod_pos_bound lb 3 ltac:(lia)).
  pose proof (Z.div_pos lb 3 ltac:(lia) ltac:(lia)).
  rewrite !Z.rem_mod_nonneg by lia.
  pose proof (Z.mod_pos_bound (lb / 3) 4 ltac:(lia)).
  pose proof (Z.div_le_upper_bound lb 3 lb ltac:(lia) ltac:(lia)).
  case_decide; intros [= <- <- <-]; split_and!; try done; try case_decide; lia.
Qed.

Lemma phys_inj d b d' b' :
  0 ≤ d < 4 → 0 ≤ d' < 4 → phys d b = phys d' b' → d = d' ∧ b = b'.
Proof. unfold phys, NDISKS. lia. Qed.

Lemma swap_phys_block_phys d b :
  0 ≤ d < 4 → 0 ≤ b < 2 ^ 28 → swap_phys_block d b = phys d b.
Proof.
  intros. unfold swap_phys_block, phys, SWAP_START_BLOCK, NDISKS.
  rewrite i32_id, u32_id by lia. done.
Qed.

Lemma sized_at c n : sized c → length (c n) = bsize.
Proof. auto. Qed.
#[local] Hint Resolve sized_at : bytelen.

Lemma sized_upd c n d : sized c → length d = bsize → sized (upd c n d).
Proof. intros Hc ? m. unfold upd. case_decide; auto. Qed.
#[local] Hint Resolve sized_upd : bytelen.

Lemma upd_eq c n d : upd c n d n = d.
Proof. unfold upd. by rewrite decide_True. Qed.

Lemma upd_ne c n d m : m ≠ n → upd c n d m = c m.
Proof. intros. unfold upd. by rewrite decide_False. Qed.

(** *** The XOR of the surviving disks of a stripe *)
Lemma survivors_xor_ext c c' failed b :
  (∀ d, 0 ≤ d < 4 → d ≠ failed → c (phys d b) = c' (phys d b)) →
  survivors_xor c failed b = survivors_xor c' failed b.
Proof.
  intros Heq. unfold survivors_xor. change (seqZ 0 NDISKS) with [0; 1; 2; 3]. cbn [foldl].
  repeat case_decide; rewrite ?Heq by lia; done.
Qed.

Lemma length_survivors_xor c failed b : sized c → length (survivors_xor c failed b) = bsize.
Proof.
  intros. unfold survivors_xor. change (seqZ 0 NDISKS) with [0; 1; 2; 3]. cbn [foldl].
  repeat case_decide; auto 7 with bytelen.
Qed.
#[local] Hint Resolve length_survivors_xor : bytelen.

Lemma survivors_xor_upd c failed b e v :
  sized c → length v = bsize → 0 ≤ e < 4 → e ≠ failed →
  survivors_xor (upd c (phys e b) v) failed b =
  xorl (survivors_xor c failed b) (xorl (c (phys e b)) v).
Proof.
  intros Hc Hv He Hf. unfold survivors_xor. change (seqZ 0 NDISKS) with [0; 1; 2; 3].
  cbn [foldl].
  assert (∀ d, d ≠ e → 0 ≤ d < 4 → upd c (phys e b) v (phys d b) = c (phys d b)) as Hne.
  { intros d ??. apply upd_ne. intros ?%phys_inj; lia. }
  assert (e = 0 ∨ e = 1 ∨ e = 2 ∨ e = 3) as [->|[->|[->| ->]]] by lia;
    rewrite upd_eq, !Hne by lia; repeat case_decide; try lia; xor_solve bsize.
Qed.

Lemma phys_range d b : 0 ≤ d < 4 → 0 ≤ b < 2 ^ 28 → 0 ≤ phys d b < 2 ^ 31.
Proof. unfold phys, SWAP_START_BLOCK, NDISKS. lia. Qed.

(** *** One logical block: what is written is read, the others keep theirs *)
Lemma div_mod_ne a b n : 0 < n → a ≠ b → a mod n ≠ b mod n ∨ a / n ≠ b / n.
Proof.
  intros Hn Hab. destruct (decide (a / n = b / n)) as [Hd|]; [left|by right].
  intros Hm. apply Hab. rewrite (Z.div_mod a n), (Z.div_mod b n) by lia. congruence.
Qed.

Lemma raid5_map_inj lb lb' data parity stripe :
  0 ≤ lb → 0 ≤ lb' → raid5_map lb = (data, parity, stripe) →
  raid5_map lb' = (data, parity, stripe) → lb = lb'.
Proof.
  intros Hl Hl' E E'. apply raid5_map_spec in E as (E1 & E2 & _ & _ & _ & E3); [|done].
  apply raid5_map_spec in E' as (E1' & _ & _ & _ & _ & E3'); [|done].
  rewrite (Z.div_mod lb 3), (Z.div_mod lb' 3) by lia. congruence.
Qed.

Lemma raid01_same mode failed c lb d :
  mode = RAID0 ∨ mode = RAID1 → 0 ≤ lb →
  lcontent mode failed (lwrite mode failed c lb d) lb = d.
Proof.
  intros Hm Hlb. unfold lcontent, lwrite.
  pose proof (Z.mod_pos_bound lb 2 ltac:(lia)) as Hb.
  destruct Hm as [-> | ->]; simpl; [apply upd_eq|].
  destruct (decide (lb mod 2 * 2 = failed)).
  - rewrite decide_False by lia. apply upd_eq.
  - case_decide; [apply upd_eq|].
    rewrite upd_ne; [apply upd_eq|]. intros ?%phys_inj; lia.
Qed.

Lemma raid01_other mode failed c lb lb' d :
  mode = RAID0 ∨ mode = RAID1 → 0 ≤ lb → 0 ≤ lb' → lb ≠ lb' →
  lcontent mode failed (lwrite mode failed c lb d) lb' = lcontent mode failed c lb'.
Proof.
  intros Hm Hlb Hlb' Hne. unfold lcontent, lwrite. destruct Hm as [-> | ->]; simpl.
  - pose proof (Z.mod_pos_bound lb 4 ltac:(lia)). pose proof (Z.mod_pos_bound lb' 4 ltac:(lia)).
    destruct (div_mod_ne lb lb' 4); [lia..| |]; apply upd_ne; intros ?%phys_inj; lia.
  - pose proof (Z.mod_pos_bound lb 2 ltac:(lia)). pose proof (Z.mod_pos_bound lb' 2 ltac:(lia)).
    destruct (div_mod_ne lb lb' 2) as [?|?]; [lia..| |];
      repeat case_decide; rewrite ?upd_ne; try done; intros ?%phys_inj; lia.
Qed.

Lemma raid5_same failed c lb d :
  sized c → length d = bsize → 0 ≤ lb →
  lcontent RAID5 failed (lwrite RAID5 failed c lb d) lb = d.
Proof.
  intros Hc Hd Hlb. unfold lcontent, lwrite.
  rewrite !(decide_False (P := RAID5 = _)) by done.
  destruct (raid5_map lb) as [[data parity] stripe] eqn:E.
  apply raid5_map_spec in E as (_ & Hp & Hdata & Hne & Hs & _); [|done].
  pose proof (Z.mod_pos_bound stripe 4 ltac:(lia)).
  destruct (decide (failed = parity)) as [->|Hfp].
  { rewrite decide_False by congruence. apply upd_eq. }
  destruct (decide (failed = data)) as [->|Hfd].
  - rewrite survivors_xor_upd by first [lia | auto 7 with bytelen]. xor_solve bsize.
  - rewrite upd_ne; [apply upd_eq|]. intros ?%phys_inj; lia.
Qed.

Lemma raid5_other failed c lb lb' d :
  sized c → length d = bsize → 0 ≤ lb → 0 ≤ lb' → lb ≠ lb' →
  lcontent RAID5 failed (lwrite RAID5 failed c lb d) lb' = lcontent RAID5 failed c lb'.
Proof.
  intros Hc Hd Hlb Hlb' Hne. unfold lcontent, lwrite.
  rewrite !(decide_False (P := RAID5 = _)) by done.
  destruct (raid5_map lb) as [[data parity] stripe] eqn:E.
  destruct (raid5_map lb') as [[data' parity'] stripe'] eqn:E'.
  pose proof (raid5_map_inj _ _ _ _ _ Hlb Hlb' E) as Hinj.
  pose proof (raid5_map_spec _ _ _ _ Hlb E) as (_ & Hp & Hdata & Hdp & Hs & _).
  pose proof (raid5_map_spec _ _ _ _ Hlb' E') as (_ & Hp' & Hdata' & Hdp' & Hs' & _).
  pose proof (Z.mod_pos_bound stripe 4 ltac:(lia)).
  pose proof (Z.mod_pos_bound stripe' 4 ltac:(lia)).
  assert (data ≠ data' ∨ stripe ≠ stripe') as Hdiff.
  { destruct (decide (data = data')), (decide (stripe = stripe')); subst; auto. }
  assert (stripe = stripe' → parity = parity') as Hpar by (intros ->; congruence).
  destruct (decide (failed = data')) as [->|Hfd'].
  - destruct (decide (stripe = stripe')) as [<-|Hst].
    + rewrite Hpar in * by done. rewrite !(decide_False (P := data' = _)) by (intros ->; lia).
      rewrite !survivors_xor_upd by first [lia | auto 7 with bytelen].
      rewrite upd_ne by (intros ?%phys_inj; lia). xor_solve bsize.
    + apply survivors_xor_ext. intros e ? ?.
      repeat case_decide; rewrite !upd_ne; try done; intros ?%phys_inj; lia.
  - repeat case_decide; rewrite !upd_ne; try done; intros [??]%phys_inj; try lia;
      destruct Hdiff; try lia; rewrite Hpar in * by done; lia.
Qed.

Lemma lcontent_ext mode failed c c' lb :
  (∀ n, c n = c' n) → lcontent mode failed c lb = lcontent mode failed c' lb.
Proof.
  intros Hc. unfold lcontent. destruct (raid5_map lb) as [[? ?] ?].
  repeat case_decide; rewrite ?Hc; try done. apply survivors_xor_ext. auto.
Qed.
End contract.

(** ** The operations meet the contract *)
Section correctness.
Context `{BlockParams} {S : Type} `{!BlockIO S} `{!BlockIOSpec S}.
Implicit Types s : raid S.
Implicit Types c : Z → bytes.

(** [s] runs under [mode] over a device with contents [c]. *)
Definition rinv (mode : Z) c s : Prop :=
  raid_mode s = mode ∧ bio_inv (io s) ∧ ∀ n, bcontent (io s) n = c n.

Lemma rinv_sized mode c s : rinv mode c s → sized c.
Proof. intros (_ & Hi & Hc) n. rewrite <- Hc. by apply bcontent_length. Qed.

Lemma lift_io_ok {A} (m : M S A) s a i :
  m (io s) = Ok (a, i) → lift_io m s = Ok (a, with_io i s).
Proof. unfold lift_io. by intros ->. Qed.

Lemma read_block_ok mode c s d b :
  rinv mode c s → 0 ≤ d < 4 → 0 ≤ b < 2 ^ 28 →
  ∃ i, read_block d b s = Ok (c (phys d b), with_io i s) ∧ rinv mode c (with_io i s).
Proof.
  intros (Hm & Hi & Hc) Hd Hb.
  destruct (bio_read (io s) (phys d b) Hi (phys_range d b Hd Hb))
    as (h & i1 & i2 & E1 & E2 & E3 & Hi2 & Hc2).
  exists i2. split.
  - unfold read_block, swap_bread. rewrite swap_phys_block_phys by done.
    erewrite bind_ok by (by apply lift_io_ok). simpl.
    erewrite bind_ok by (by unfold gets). simpl.
    erewrite bind_ok by (by apply lift_io_ok). by rewrite E2, Hc.
  - split_and!; try done. intros n. simpl. by rewrite Hc2.
Qed.

Lemma write_block_ok mode c s d b x :
  rinv mode c s → 0 ≤ d < 4 → 0 ≤ b < 2 ^ 28 → length x = bsize →
  ∃ i, write_block d b x s = Ok (tt, with_io i s) ∧
       rinv mode (upd c (phys d b) x) (with_io i s).
Proof.
  intros (Hm & Hi & Hc) Hd Hb Hx.
  destruct (bio_write (io s) (phys d b) x Hi (phys_range d b Hd Hb) Hx)
    as (h & i1 & i2 & i3 & E1 & E2 & E3 & Hi3 & Hc3).
  exists i3. split.
  - unfold write_block, swap_bread. rewrite swap_phys_block_phys by done.
    erewrite bind_ok by (by apply lift_io_ok). simpl.
    erewrite bind_ok by (by unfold modify). simpl.
    erewrite bind_ok by (by apply lift_io_ok). by erewrite lift_io_ok.
  - split_and!; try done. intros n. simpl. rewrite Hc3. unfold upd. by case_decide.
Qed.

(** The two scratch buffers that accumulate an XOR. *)
Definition accumulator (getb : raid S → bytes) (setb : bytes → raid S → raid S) : Prop :=
  (∀ x s, getb (setb x s) = x) ∧ (∀ i s, getb (with_io i s) = getb s) ∧
  (∀ x s, io (setb x s) = io s) ∧ (∀ x s, raid_mode (setb x s) = raid_mode s).

Lemma xor_survivors_ok getb setb mode c s failed b :
  accumulator getb setb → rinv mode c s → 0 ≤ b < 2 ^ 28 →
  ∃ s', xor_survivors getb setb failed b s = Ok (tt, s') ∧ rinv mode c s' ∧
        getb s' = survivors_xor c failed b.
Proof.
  intros (Hgs & Hgi & Hio & Hmode) Hinv Hb. unfold xor_survivors.
  set (step := λ acc d, if decide (d = failed) then acc else xorl acc (c (phys d b))).
  destruct (for_list_inv (λ k (_ : unit) s', rinv mode c s' ∧
      getb s' = foldl step (replicate bsize 0) (take k (seqZ 0 NDISKS)))
    (seqZ 0 NDISKS)
    (λ d _, if decide (d = failed) then ret tt else
       let* x := read_block d b in modify (λ s, setb (xorl (getb s) x) s))
    tt (setb (replicate bsize 0) s)) as ([] & s' & E & Hinv' & Hg).
  - destruct Hinv as (? & ? & ?). rewrite Hgs.
    unfold rinv. by rewrite Hio, Hmode.
  - intros k d [] s0 Hk (Hinv0 & Hg0).
    rewrite Nat.add_1_r, (take_S_r _ _ _ Hk), foldl_snoc, <- Hg0.
    apply lookup_seqZ in Hk as (-> & Hk). unfold NDISKS in Hk. subst step. simpl.
    case_decide; [by exists tt, s0|].
    destruct (read_block_ok mode c s0 (0 + Z.of_nat k) b) as (i & E & Hinv1); [done|lia|done|].
    do 2 eexists. rewrite (bind_ok _ _ _ _ _ E). split; [done|].
    rewrite Hgs, Hgi. split; [|done].
    destruct Hinv1 as (?&?&?). unfold rinv. by rewrite Hio, Hmode.
  - exists s'. rewrite take_ge in Hg by done. done.
Qed.

Lemma accumulator_recovered : accumulator raid5_recovered with_recovered.
Proof. done. Qed.
Lemma accumulator_old_data : accumulator raid5_old_data with_old_data.
Proof. done. Qed.

(** Runs the next read or write of a block in the goal. *)
Ltac run_block H :=
  lazymatch goal with
  | |- context [bind (read_block ?d ?b) _ ?s] =>
    let i := fresh "i" in let E := fresh "E" in let Hi := fresh "Hinv" in
    destruct (read_block_ok _ _ s d b H) as (i & E & Hi); [lia..|];
    rewrite (bind_ok _ _ _ _ _ E); clear E
  | |- context [bind (write_block ?d ?b ?x) _ ?s] =>
    let i := fresh "i" in let E := fresh "E" in let Hi := fresh "Hinv" in
    destruct (write_block_ok _ _ s d b x H) as (i & E & Hi); [lia..|auto 9 with bytelen|];
    rewrite (bind_ok _ _ _ _ _ E); clear E
  end.

Lemma read_logical_ok mode c s m failed lb :
  rinv mode c s → 0 ≤ lb < 2 ^ 28 →
  ∃ s', read_logical m failed lb s = Ok (lcontent m failed c lb, s') ∧ rinv mode c s'.
Proof.
  intros Hinv Hlb. unfold read_logical, lcontent.
  pose proof (Z.mod_pos_bound lb 4 ltac:(lia)). pose proof (Z.mod_pos_bound lb 2 ltac:(lia)).
  pose proof (Z.div_pos lb 4). pose proof (Z.div_pos lb 2).
  pose proof (Z.div_le_upper_bound lb 4 lb). pose proof (Z.div_le_upper_bound lb 2 lb).
  case_decide; [|case_decide].
  - unfold NDISKS. rewrite Z.rem_mod_nonneg, Z.quot_div_nonneg by lia.
    destruct (read_block_ok mode c s (lb mod 4) (lb / 4)) as (i & E & Hi); [done|lia..|]. eauto.
  - rewrite raid1_map_eq by lia.
    destruct (read_block_ok mode c s (if decide (lb mod 2 * 2 = failed)
      then lb mod 2 * 2 + 1 else lb mod 2 * 2) (lb / 2)) as (i & E & Hi);
      [done|case_decide; lia|lia|]. eauto.
  - destruct (raid5_map lb) as [[data parity] stripe] eqn:E.
    apply raid5_map_spec in E as (_ & _ & Hd & _ & Hs & _); [|lia].
    destruct (read_block_ok mode c s data stripe) as (i & E & Hi); [done|lia..|].
    destruct (decide (failed = -1)); [rewrite decide_False by lia; by eauto|].
    destruct (decide (failed ≠ data)); [rewrite decide_False by done; by eauto|].
    rewrite decide_True by (by apply dec_stable).
    destruct (xor_survivors_ok _ _ mode c s failed stripe accumulator_recovered)
      as (s' & E' & Hinv' & Hg); [done|lia|].
    exists s'. rewrite (bind_ok _ _ _ _ _ E'). unfold gets. by rewrite Hg.
Qed.

Lemma write_unless_ok mode c s d b x failed :
  rinv mode c s → 0 ≤ d < 4 → 0 ≤ b < 2 ^ 28 → length x = bsize →
  ∃ s', (if decide (d ≠ failed) then write_block d b x else ret tt) s = Ok (tt, s') ∧
        rinv mode (if decide (d = failed) then c else upd c (phys d b) x) s'.
Proof.
  intros Hinv Hd Hb Hx. destruct (decide (d = failed)) as [->|Hne].
  - rewrite decide_False by auto. by exists s.
  - rewrite decide_True by done.
    destruct (write_block_ok mode c s d b x) as (i & E & Hi); eauto.
Qed.

(** virtio_disk.c:279-298, read-modify-write of data and parity. *)
Lemma raid5_rmw_ok mode c s data parity b d :
  rinv mode c s → 0 ≤ data < 4 → 0 ≤ parity < 4 → 0 ≤ b < 2 ^ 28 → length d = bsize →
  ∃ s', (raid5_rmw_begin data b ;;; raid5_rmw_finish data parity b d) s = Ok (tt, s') ∧
    rinv mode (upd (upd c (phys data b) d) (phys parity b)
      (xorl (xorl (c (phys parity b)) (c (phys data b))) d)) s'.
Proof.
  intros Hinv Hd Hp Hb Hlen. pose proof (rinv_sized _ _ _ Hinv) as Hsz.
  unfold raid5_rmw_begin, raid5_rmw_finish. rewrite bind_assoc.
  run_block Hinv. erewrite bind_ok by (by unfold modify).
  set (s1 := with_old_data _ _). assert (rinv mode c s1) as Hs1 by done.
  run_block Hs1. erewrite bind_ok by (by unfold modify).
  erewrite bind_ok by (by unfold update_parity, modify).
  set (s2 := with_new_parity _ _). assert (rinv mode c s2) as Hs2 by done.
  run_block Hs2. erewrite bind_ok by (by unfold gets).
  set (np := raid5_new_parity _). set (s3 := with_io _ _).
  destruct (write_block_ok mode (upd c (phys data b) d) s3 parity b np)
    as (i3 & E & Hi); [done|lia..| |by eauto].
  subst np s2. simpl. auto 9 with bytelen.
Qed.

(** virtio_disk.c:309-330, the data disk is lost: only the parity changes. *)
Lemma raid5_degraded_ok mode c s failed parity b d :
  rinv mode c s → 0 ≤ parity < 4 → 0 ≤ b < 2 ^ 28 → length d = bsize →
  ∃ s', (xor_survivors raid5_old_data with_old_data failed b ;;;
         let* y := read_block parity b in
         modify (with_old_parity y) ;;;
         update_parity d ;;;
         let* np := gets raid5_new_parity in
         write_block parity b np) s = Ok (tt, s') ∧
    rinv mode (upd c (phys parity b)
      (xorl (xorl (c (phys parity b)) (survivors_xor c failed b)) d)) s'.
Proof.
  intros Hinv Hp Hb Hlen. pose proof (rinv_sized _ _ _ Hinv) as Hsz.
  destruct (xor_survivors_ok _ _ mode c s failed b accumulator_old_data Hinv Hb)
    as (s0 & E & Hs0 & Hg). rewrite (bind_ok _ _ _ _ _ E).
  run_block Hs0. erewrite bind_ok by (by unfold modify).
  erewrite bind_ok by (by unfold update_parity, modify).
  erewrite bind_ok by (by unfold gets). simpl. rewrite Hg.
  set (s2 := with_new_parity _ _). set (np := xorl _ _).
  destruct (write_block_ok mode c s2 parity b np) as (i3 & E3 & Hi); [done|lia..| |by eauto].
  subst np. auto 9 using length_survivors_xor with bytelen.
Qed.

Lemma write_logical_ok mode c s m failed lb d :
  rinv mode c s → 0 ≤ lb < 2 ^ 28 → length d = bsize → -1 ≤ failed →
  ∃ s', write_logical m failed lb d s = Ok (tt, s') ∧ rinv mode (lwrite m failed c lb d) s'.
Proof.
  intros Hinv Hlb Hd Hf. unfold write_logical, lwrite.
  pose proof (Z.mod_pos_bound lb 4 ltac:(lia)). pose proof (Z.mod_pos_bound lb 2 ltac:(lia)).
  pose proof (Z.div_pos lb 4). pose proof (Z.div_pos lb 2).
  pose proof (Z.div_le_upper_bound lb 4 lb). pose proof (Z.div_le_upper_bound lb 2 lb).
  case_decide; [|case_decide].
  - unfold NDISKS. rewrite Z.rem_mod_nonneg, Z.quot_div_nonneg by lia.
    destruct (write_block_ok mode c s (lb mod 4) (lb / 4) d) as (i & E & Hi); [done|lia..|done|]. eauto.
  - rewrite raid1_map_eq by lia.
    destruct (write_unless_ok mode c s (lb mod 2 * 2) (lb / 2) d failed)
      as (s1 & E1 & Hi1); [done|lia..|done|].
    rewrite (bind_ok _ _ _ _ _ E1). apply write_unless_ok; [done|lia..|done].
  - destruct (raid5_map lb) as [[data parity] stripe] eqn:E.
    apply raid5_map_spec in E as (_ & Hp & Hdata & Hdp & Hs & _); [|lia].
    pose proof (Z.mod_pos_bound stripe 4 ltac:(lia)).
    destruct (decide (failed = parity)) as [->|Hfp].
    { rewrite decide_False by lia.
      destruct (write_block_ok mode c s data stripe d) as (i & E & Hi); [done|lia..|done|]. eauto. }
    destruct (decide (failed = data)) as [->|Hfd].
    + rewrite decide_False by lia. apply raid5_degraded_ok; [done|lia..|done].
    + rewrite decide_True by lia. apply raid5_rmw_ok; [done|lia..|done].
Qed.

(** *** Whole pages *)
Definition failed_of (mode : Z) : Z := if decide (mode = RAID5) then FAILED_DISK else -1.
Definition valid_mode (mode : Z) : Prop := mode = RAID0 ∨ mode = RAID1 ∨ mode = RAID5.

Lemma page_blocks : pgsize = (Z.to_nat BLOCKS_PER_PAGE * bsize)%nat ∧ 0 < BLOCKS_PER_PAGE ≤ 4096.
Proof.
  unfold pgsize, bsize, BLOCKS_PER_PAGE. pose proof BSIZE_pos as Hpos.
  destruct BSIZE_divides as [k Hk]. rewrite Hk, Z.div_mul by lia.
  pose proof PGSIZE_4096. nia.
Qed.

Lemma block_offset i : 0 ≤ i → Z.to_nat (i * BSIZE) = (Z.to_nat i * bsize)%nat.
Proof. intros. unfold bsize. pose proof BSIZE_pos. rewrite Z2Nat.inj_mul; lia. Qed.

Lemma lcontent_same mode failed c lb d :
  valid_mode mode → sized c → length d = bsize → 0 ≤ lb →
  lcontent mode failed (lwrite mode failed c lb d) lb = d.
Proof. intros [-> | [-> | ->]] ???; [apply raid01_same..|apply raid5_same]; auto. Qed.

Lemma lcontent_other mode failed c lb lb' d :
  valid_mode mode → sized c → length d = bsize → 0 ≤ lb → 0 ≤ lb' → lb ≠ lb' →
  lcontent mode failed (lwrite mode failed c lb d) lb' = lcontent mode failed c lb'.
Proof. intros [-> | [-> | ->]] ?????; [apply raid01_other..|apply raid5_other]; auto. Qed.

Lemma length_lcontent mode failed c lb : sized c → length (lcontent mode failed c lb) = bsize.
Proof.
  intros Hc. unfold lcontent. destruct (raid5_map lb) as [[? ?] ?].
  repeat case_decide; auto using length_survivors_xor.
Qed.

Lemma slot_block slot i :
  0 ≤ slot < MAX_SWAP_PAGES → 0 ≤ i < BLOCKS_PER_PAGE →
  i32 (slot * BLOCKS_PER_PAGE + i) = slot * BLOCKS_PER_PAGE + i ∧
  0 ≤ slot * BLOCKS_PER_PAGE + i < 2 ^ 28.
Proof.
  unfold MAX_SWAP_PAGES. intros. destruct page_blocks as [_ ?]. rewrite i32_id; nia.
Qed.

Lemma length_slot_content mode failed c slot :
  sized c → length (slot_content mode failed c slot) = pgsize.
Proof.
  intros Hc. destruct page_blocks as [-> _]. unfold slot_content.
  rewrite (length_join_const _ bsize), length_seqZ; [done|].
  intros i. by apply length_lcontent.
Qed.

Lemma swap_disk_read_ok mode c s slot dst :
  rinv mode c s → 0 ≤ slot < MAX_SWAP_PAGES → length dst = pgsize →
  ∃ s', swap_disk_read slot dst s = Ok (0, slot_content mode (failed_of mode) c slot, s') ∧
        rinv mode c s'.
Proof.
  intros Hinv Hslot Hdst. pose proof page_blocks as [Hpg Hbpp].
  pose proof (rinv_sized _ _ _ Hinv) as Hsz. unfold swap_disk_read.
  set (blk := λ i, lcontent mode (failed_of mode) c (slot * BLOCKS_PER_PAGE + i)).
  edestruct (for_list_inv (λ k dst s, rinv mode c s ∧ length dst = pgsize ∧
      take (k * bsize) dst = mjoin (blk <$> take k (seqZ 0 BLOCKS_PER_PAGE)))
    (seqZ 0 BLOCKS_PER_PAGE)) as (dst' & s' & E & Hinv' & Hlen & Hd);
    [| |rewrite (bind_ok _ _ _ _ _ E); exists s'; split; [|done]].
  - by rewrite Nat.mul_0_l, !take_0.
  - intros k i b s0 Hk (Hinv0 & Hlen0 & Hd0). pose proof Hk as [Hi Hk']%lookup_seqZ.
    destruct (slot_block slot i) as [E1 Hlb]; [lia..|].
    destruct (read_logical_ok mode c s0 mode (failed_of mode) _ Hinv0 Hlb) as (s1 & E2 & Hinv1).
    do 2 eexists. split.
    + rewrite E1. erewrite bind_ok by (by unfold current_failed_disk, gets).
      erewrite bind_ok by (by unfold gets). destruct Hinv0 as [-> _].
      by erewrite bind_ok by (exact E2).
    + fold (blk i). assert (length (blk i) = bsize) as Hb by (by apply length_lcontent).
      rewrite block_offset by lia. replace (Z.to_nat i) with k by lia.
      assert (k * bsize + length (blk i) ≤ length b)%nat by (rewrite Hlen0, Hpg, Hb; nia).
      rewrite length_splice by done. split_and!; [done..|].
      replace ((k + 1) * bsize)%nat with (k * bsize + length (blk i))%nat by (rewrite Hb; lia).
      rewrite take_splice by done. rewrite Nat.add_1_r, (take_S_r _ _ _ Hk), fmap_app, join_app.
      by rewrite Hd0; cbn; rewrite app_nil_r.
  - rewrite length_seqZ, <- Hpg, take_ge in Hd by lia. rewrite Hd.
    rewrite take_ge by (rewrite length_seqZ; lia). done.
Qed.

Lemma slot_content_slices mode failed c slot src :
  length src = pgsize →
  (∀ i, 0 ≤ i < BLOCKS_PER_PAGE →
    lcontent mode failed c (slot * BLOCKS_PER_PAGE + i) = slice src (Z.to_nat (i * BSIZE)) bsize) →
  slot_content mode failed c slot = src.
Proof.
  intros Hlen Heq. pose proof page_blocks as [Hpg Hbpp].
  rewrite <- (join_slices src bsize (Z.to_nat BLOCKS_PER_PAGE)) by congruence.
  unfold slot_content. f_equal. unfold seqZ. rewrite <- list_fmap_compose.
  apply list_fmap_ext. intros k i Hi%lookup_seq. simpl. rewrite Heq by lia.
  rewrite block_offset by lia. do 2 f_equal. lia.
Qed.

Lemma swap_disk_write_ok mode c s slot src :
  valid_mode mode → rinv mode c s → 0 ≤ slot < MAX_SWAP_PAGES → length src = pgsize →
  ∃ c' s', swap_disk_write slot src s = Ok (0, s') ∧ rinv mode c' s' ∧
    ∀ j, 0 ≤ j < MAX_SWAP_PAGES → slot_content mode (failed_of mode) c' j =
      if decide (j = slot) then src else slot_content mode (failed_of mode) c j.
Proof.
  intros Hmode Hinv Hslot Hsrc. pose proof page_blocks as [Hpg Hbpp]. unfold swap_disk_write.
  set (f := failed_of mode). set (base := slot * BLOCKS_PER_PAGE).
  set (part := λ i, slice src (Z.to_nat (i * BSIZE)) bsize).
  edestruct (for_list_inv (λ k (_ : unit) s, ∃ c', rinv mode c' s ∧
      (∀ i, 0 ≤ i < Z.of_nat k → lcontent mode f c' (base + i) = part i) ∧
      (∀ lb, 0 ≤ lb → lb < base ∨ base + Z.of_nat k ≤ lb →
         lcontent mode f c' lb = lcontent mode f c lb))
    (seqZ 0 BLOCKS_PER_PAGE)) as ([] & s' & E & c' & Hinv' & Hnew & Hold);
    [| |exists c', s'; rewrite (bind_ok _ _ _ _ _ E); split_and!; [done..|]].
  - exists c. split_and!; [done|lia|done].
  - intros k i [] s0 [Hi Hk]%lookup_seqZ (c0 & Hinv0 & Hnew & Hold). rewrite Z.add_0_l in Hi.
    destruct (slot_block slot i) as [E1 Hlb]; [lia..|]. fold base in E1, Hlb.
    assert (length (part i) = bsize) as Hpart.
    { apply length_slice. rewrite Hsrc, Hpg, block_offset by lia. nia. }
    destruct (write_logical_ok mode c0 s0 mode f (base + i) (part i))
      as (s1 & E2 & Hinv1); [done..|unfold f, failed_of, FAILED_DISK; case_decide; lia|].
    exists tt, s1. split.
    + fold base. rewrite E1. erewrite bind_ok by (by unfold current_failed_disk, gets).
      erewrite bind_ok by (by unfold gets). destruct Hinv0 as [-> _]. exact E2.
    + pose proof (rinv_sized _ _ _ Hinv0). exists (lwrite mode f c0 (base + i) (part i)).
      split_and!; [done| |].
      * intros i' Hi'. destruct (decide (i' = i)) as [->|]; [apply lcontent_same; auto; lia|].
        rewrite lcontent_other by (auto; lia). apply Hnew. lia.
      * intros lb ? ?. rewrite lcontent_other by (auto; lia). apply Hold; lia.
  - intros j Hj. rewrite length_seqZ, Z2Nat.id in * by lia. case_decide as Hjs.
    + subst j. by apply slot_content_slices.
    + unfold slot_content. f_equal. apply list_fmap_ext. intros k i [-> Hk]%lookup_seqZ.
      apply Hold; unfold base; [nia|]. assert (j < slot ∨ slot < j) by lia. nia.
Qed.
End correctness.

(** ** The layer discharges the swap-device interface *)
#[export] Instance raid_swap_dev `{BlockParams} {S} `{!BlockIO S} : SwapDev (raid S) := {|
  dev_read := swap_disk_read;
  dev_write := swap_disk_write;
|}.

#[export, program] Instance raid_swap_spec `{BlockParams} {S} `{!BlockIO S} `{!BlockIOSpec S} :
  SwapDevSpec (raid S) := {|
  dev_inv s := valid_mode (raid_mode s) ∧ bio_inv (io s);
  dev_slots := MAX_SWAP_PAGES;
  dev_page s k := slot_content (raid_mode s) (failed_of (raid_mode s)) (bcontent (io s)) k;
|}.
Next Obligation.
  intros ???? s k [_ Hi] _. apply length_slot_content. intros n. by apply bcontent_length.
Qed.
Next Obligation.
  intros ???? s k dst [Hm Hi] Hk Hdst.
  destruct (swap_disk_read_ok (raid_mode s) (bcontent (io s)) s k dst)
    as (s' & E & Hm' & Hi' & Hc'); [done..|].
  exists s'. split; [done|]. rewrite Hm'. split; [done|]. intros j _.
  unfold slot_content. f_equal. apply list_fmap_ext. intros. by apply lcontent_ext.
Qed.
Next Obligation.
  intros ???? s k src [Hm Hi] Hk Hsrc.
  destruct (swap_disk_write_ok (raid_mode s) (bcontent (io s)) s k src)
    as (c' & s' & E & (Hm' & Hi' & Hc') & Hpages); [done..|].
  exists s'. split; [done|]. rewrite Hm'. split; [done|]. intros j Hj.
  rewrite <- Hpages by done.
  unfold slot_content. f_equal. apply list_fmap_ext. intros. by apply lcontent_ext.
Qed.

(** ** Parity *)
Definition parity_ok `{BlockParams} (c : Z → bytes) (stripe : Z) : Prop :=
  survivors_xor c (-1) stripe = replicate bsize 0.

Section parity.
Context `{BlockParams}.
#[local] Hint Resolve sized_at sized_upd length_survivors_xor : bytelen.

Lemma survivors_xor_split c d b :
  sized c → 0 ≤ d < 4 →
  survivors_xor c (-1) b = xorl (survivors_xor c d b) (c (phys d b)).
Proof.
  intros Hc Hd. unfold survivors_xor. change (seqZ 0 NDISKS) with [0; 1; 2; 3]. cbn [foldl].
  rewrite !(decide_False (P := _ = -1)) by lia.
  assert (d = 0 ∨ d = 1 ∨ d = 2 ∨ d = 3) as [->|[->|[->| ->]]] by lia;
    repeat case_decide; try lia; xor_solve bsize.
Qed.

Lemma parity_ok_recovers c d b :
  sized c → 0 ≤ d < 4 → parity_ok c b → survivors_xor c d b = c (phys d b).
Proof.
  intros Hc Hd. unfold parity_ok. rewrite (survivors_xor_split c d b) by done. intros Hz.
  rewrite <- (xorl_cancel (survivors_xor c d b) (c (phys d b)))
    by (rewrite length_survivors_xor; auto).
  rewrite Hz, xorl_comm, xorl_zero_l; [done|]. auto with bytelen.
Qed.

(** With good parity the content of a block does not depend on which disk is lost. *)
Lemma lcontent_any_failure c f lb :
  sized c → 0 ≤ lb → 0 ≤ f < 4 → parity_ok c (lb / 3) →
  lcontent RAID5 f c lb = lcontent RAID5 (-1) c lb.
Proof.
  intros Hc Hlb Hf Hp. unfold lcontent. rewrite !(decide_False (P := RAID5 = _)) by done.
  destruct (raid5_map lb) as [[data parity] stripe] eqn:E.
  apply raid5_map_spec in E as (-> & _ & Hd & _); [|done].
  rewrite (decide_False (P := -1 = data)) by lia.
  case_decide; [|done]. subst f. by apply parity_ok_recovers.
Qed.

Lemma parity_ok_lwrite c lb d b :
  sized c → length d = bsize → 0 ≤ lb → parity_ok c b →
  parity_ok (lwrite RAID5 (-1) c lb d) b.
Proof.
  intros Hc Hd Hlb Hp. unfold lwrite. rewrite !(decide_False (P := RAID5 = _)) by done.
  destruct (raid5_map lb) as [[data parity] stripe] eqn:E.
  apply raid5_map_spec in E as (_ & Hpar & Hdata & Hne & Hs & _); [|done].
  pose proof (Z.mod_pos_bound stripe 4 ltac:(lia)).
  rewrite !(decide_False (P := -1 = _)) by lia. unfold parity_ok in *. rewrite <- Hp.
  destruct (decide (stripe = b)) as [<-|].
  - rewrite !survivors_xor_upd by first [lia | auto 9 with bytelen].
    rewrite upd_ne by (intros ?%phys_inj; lia). xor_solve bsize.
  - apply survivors_xor_ext. intros e ? ?. rewrite !upd_ne; try done; intros ?%phys_inj; lia.
Qed.

Lemma lwrite_failed_disk m f c lb d b :
  m = RAID1 ∨ m = RAID5 → 0 ≤ lb → 0 ≤ f < 4 → lwrite m f c lb d (phys f b) = c (phys f b).
Proof.
  intros [-> | ->] Hlb Hf; unfold lwrite.
  - rewrite decide_False by done.
    rewrite decide_True by done. pose proof (Z.mod_pos_bound lb 2 ltac:(lia)).
    repeat case_decide; rewrite ?upd_ne; try done; intros ?%phys_inj; lia.
  - rewrite !(decide_False (P := RAID5 = _)) by done.
    destruct (raid5_map lb) as [[data parity] stripe] eqn:E.
    apply raid5_map_spec in E as (_ & -> & Hdata & Hne & Hs & _); [|done].
    pose proof (Z.mod_pos_bound stripe 4 ltac:(lia)).
    repeat case_decide; rewrite ?upd_ne; try done; intros [??]%phys_inj; lia.
Qed.

Lemma lcontent_failed_disk m f c c' lb :
  m = RAID1 ∨ m = RAID5 → 0 ≤ lb → 0 ≤ f < 4 →
  (∀ d b, 0 ≤ d < 4 → d ≠ f → c (phys d b) = c' (phys d b)) →
  lcontent m f c lb = lcontent m f c' lb.
Proof.
  intros [-> | ->] Hlb Hf Hc; unfold lcontent.
  - rewrite decide_False by done.
    rewrite decide_True by done. pose proof (Z.mod_pos_bound lb 2 ltac:(lia)). case_decide; apply Hc; lia.
  - rewrite !(decide_False (P := RAID5 = _)) by done.
    destruct (raid5_map lb) as [[data parity] stripe] eqn:E.
    apply raid5_map_spec in E as (_ & _ & Hdata & _); [|done].
    case_decide; [apply survivors_xor_ext; auto|apply Hc; lia].
Qed.
End parity.
