(* ===== verification/RaidProps.v ===== *)
(** * Properties of the RAID layer

    The statements about [swap_disk_read], [swap_disk_write] and the block
    operations under them, proved over any buffer cache that keeps its
    promise ([BlockIOSpec]), with runs on a concrete device as witnesses. *)
From S2P Require Import Prelude Interfaces Raid.
Local Open Scope Z_scope.

Section props.
Context `{BlockParams} {S : Type} `{!BlockIO S} `{!BlockIOSpec S}.
Implicit Types s : raid S.

(** [C5] Swap pages survive the round trip under every RAID mode, RAID 5 with
    its failed disk included: from any disk contents [c], writing the page
    [src] to a slot succeeds, reading the slot back returns [src], and
    reading any other slot returns what that slot held before the write. *)
Theorem raid_swap_roundtrip mode c s slot src :
  valid_mode mode → rinv mode c s → 0 ≤ slot < MAX_SWAP_PAGES → length src = pgsize →
  ∃ s1, swap_disk_write slot src s = Ok (0, s1) ∧
    ∀ j dst, 0 ≤ j < MAX_SWAP_PAGES → length dst = pgsize →
      ∃ s2 s3, swap_disk_read j dst s1 = Ok (0, if decide (j = slot) then src
                 else slot_content mode (failed_of mode) c j, s2) ∧
               swap_disk_read j dst s = Ok (0, slot_content mode (failed_of mode) c j, s3).
Proof.
  intros Hm Hinv Hslot Hsrc.
  destruct (swap_disk_write_ok mode c s slot src) as (c' & s1 & E & Hinv1 & Hpages); [done..|].
  exists s1. split; [done|]. intros j dst Hj Hdst.
  destruct (swap_disk_read_ok mode c' s1 j dst) as (s2 & E2 & _); [done..|].
  destruct (swap_disk_read_ok mode c s j dst) as (s3 & E3 & _); [done..|].
  exists s2, s3. by rewrite E2, E3, Hpages.
Qed.

(** [C6] RAID 5 tolerates any single failure.  If the parity of every stripe is
    good, a write made while all disks work ([failed_disk = -1]) keeps every
    parity good, and afterwards every block reads back through any one failed
    disk [f] exactly as a healthy array returns it: the written block as
    written, the others as before. *)
Theorem raid5_survives_any_failure mode c s lb d :
  rinv mode c s → 0 ≤ lb < 2 ^ 28 → length d = bsize → (∀ b, 0 ≤ b → parity_ok c b) →
  ∃ c' s', write_logical RAID5 (-1) lb d s = Ok (tt, s') ∧ rinv mode c' s' ∧
    (∀ b, 0 ≤ b → parity_ok c' b) ∧
    ∀ f lb', 0 ≤ f < 4 → 0 ≤ lb' < 2 ^ 28 →
      ∃ s2, read_logical RAID5 f lb' s' =
        Ok (if decide (lb' = lb) then d else lcontent RAID5 (-1) c lb', s2).
Proof.
  intros Hinv Hlb Hd Hpar. pose proof (rinv_sized _ _ _ Hinv) as Hsz.
  destruct (write_logical_ok mode c s RAID5 (-1) lb d) as (s' & E & Hinv'); [done..|lia|].
  exists (lwrite RAID5 (-1) c lb d), s'.
  assert (∀ b, 0 ≤ b → parity_ok (lwrite RAID5 (-1) c lb d) b) as Hpar'.
  { intros b Hb. apply parity_ok_lwrite; auto; lia. }
  split_and!; [done..|]. intros f lb' Hf Hlb'.
  destruct (read_logical_ok mode _ s' RAID5 f lb' Hinv' Hlb') as (s2 & E2 & _).
  exists s2. rewrite E2. do 2 f_equal.
  rewrite lcontent_any_failure; [|by eapply rinv_sized|lia|lia|apply Hpar', Z.div_pos; lia].
  case_decide; [subst; apply raid5_same|apply raid5_other]; auto; lia.
Qed.


(** [C8] The swap area stays in bounds.  For every slot and block of a page the
    [int] arithmetic does not overflow, and the physical blocks used lie at or
    above block 1000, below 1000 + 256 B under RAID 0, 1000 + 512 B under
    RAID 1 and 1000 + 4 (256 B / 3 + 1) under RAID 5, B the blocks per page;
    the data disk of RAID 5 is never the parity disk. *)
Theorem swap_area_bounds slot i :
  0 ≤ slot < MAX_SWAP_PAGES → 0 ≤ i < BLOCKS_PER_PAGE →
  let lb := i32 (slot * BLOCKS_PER_PAGE + i) in
  let '(d1, d2, b1) := raid1_map lb in
  let '(data, parity, b5) := raid5_map lb in
  lb = slot * BLOCKS_PER_PAGE + i ∧
  1000 ≤ swap_phys_block (Z.rem lb NDISKS) (Z.quot lb NDISKS) < 1000 + 256 * BLOCKS_PER_PAGE ∧
  1000 ≤ swap_phys_block d1 b1 < swap_phys_block d2 b1 ∧
  swap_phys_block d2 b1 < 1000 + 512 * BLOCKS_PER_PAGE ∧
  0 ≤ data < NDISKS ∧ 0 ≤ parity < NDISKS ∧ data ≠ parity ∧
  ∀ d, 0 ≤ d < NDISKS →
    1000 ≤ swap_phys_block d b5 < 1000 + 4 * (256 * BLOCKS_PER_PAGE / 3 + 1).
Proof.
  intros Hs Hi. destruct (slot_block slot i Hs Hi) as [-> Hlb]. cbv zeta.
  set (lb := slot * BLOCKS_PER_PAGE + i) in *.
  assert (lb < 256 * BLOCKS_PER_PAGE) as Hub by (unfold lb, MAX_SWAP_PAGES in *; nia).
  rewrite raid1_map_eq by lia. destruct (raid5_map lb) as [[data parity] b5] eqn:E.
  apply raid5_map_spec in E as (-> & -> & Hd & Hne & Hb & _); [|lia].
  unfold NDISKS in *. rewrite Z.rem_mod_nonneg, Z.quot_div_nonneg by lia.
  pose proof (Z.mod_pos_bound (lb / 3) 4 ltac:(lia)).
  assert (lb / 3 ≤ 256 * BLOCKS_PER_PAGE / 3) by (apply Z.div_le_mono; lia).
  pose proof (Z.mod_pos_bound lb 4 ltac:(lia)). pose proof (Z.mod_pos_bound lb 2 ltac:(lia)).
  pose proof (Z.div_mod lb 4 ltac:(lia)). pose proof (Z.div_mod lb 2 ltac:(lia)).
  split; [done|]. rewrite !swap_phys_block_phys by lia. unfold phys, SWAP_START_BLOCK, NDISKS.
  split_and!; try lia. intros d ?. rewrite swap_phys_block_phys by lia.
  unfold phys, SWAP_START_BLOCK, NDISKS. lia.
Qed.
End props.

(** ** Runs on the ideal device with the xv6 block sizes *)
Module RaidRuns.
#[local] Existing Instance xv6_block_params.

Definition start (mode : Z) (d : IdealDisk.t) : raid IdealDisk.t := mkRaid mode [] [] [] [] d.
Definition page (k : Z) : bytes := (λ i, (k + i) mod 256) <$> seqZ 0 4096.
Definition blank : bytes := replicate 4096 0.

Lemma fill_rinv mode : rinv mode (IdealDisk.blocks IdealDisk.fill) (start mode IdealDisk.fill).
Proof. split_and!; [done| |done]. intros n. apply length_replicate. Qed.

Lemma zero_rinv mode : rinv mode (IdealDisk.blocks IdealDisk.zero) (start mode IdealDisk.zero).
Proof. split_and!; [done| |done]. intros n. apply length_replicate. Qed.

Lemma raid_swap_roundtrip_witness :
  ∃ s1 s2, swap_disk_write 7 (page 3) (start RAID5 IdealDisk.fill) = Ok (0, s1) ∧
           swap_disk_read 7 blank s1 = Ok (0, page 3, s2).
Proof.
  destruct (raid_swap_roundtrip RAID5 (IdealDisk.blocks IdealDisk.fill) (start RAID5 IdealDisk.fill) 7 (page 3))
    as (s1 & E1 & Hread); [by right; right|apply fill_rinv|unfold MAX_SWAP_PAGES; lia|vm_compute; reflexivity|].
  destruct (Hread 7 blank) as (s2 & _ & E2 & _);
    [unfold MAX_SWAP_PAGES; lia|vm_compute; reflexivity|].
  rewrite decide_True in E2 by reflexivity. exact (ex_intro _ s1 (ex_intro _ s2 (conj E1 E2))).
Defined.

Lemma zero_parity b : parity_ok (IdealDisk.blocks IdealDisk.zero) b.
Proof. vm_compute. reflexivity. Qed.

Lemma raid5_survives_any_failure_witness :
  ∃ s1 s2, write_logical RAID5 (-1) 1 (slice (page 3) 0 1024) (start RAID5 IdealDisk.zero) = Ok (tt, s1) ∧
           read_logical RAID5 2 1 s1 = Ok (slice (page 3) 0 1024, s2).
Proof.
  destruct (raid5_survives_any_failure RAID5 (IdealDisk.blocks IdealDisk.zero) (start RAID5 IdealDisk.zero) 1
    (slice (page 3) 0 1024)) as (c' & s1 & E1 & _ & _ & Hread);
    [apply zero_rinv|lia|vm_compute; reflexivity|intros; apply zero_parity|].
  destruct (Hread 2 1) as (s2 & E2); [lia..|].
  rewrite decide_True in E2 by reflexivity. exact (ex_intro _ s1 (ex_intro _ s2 (conj E1 E2))).
Defined.

(** Disk 2 holds garbage on one of the two devices. *)
Definition garbled : IdealDisk.t :=
  IdealDisk.mk (λ n, if decide (n mod 4 = 2) then replicate bsize 9
                     else IdealDisk.blocks IdealDisk.fill n) (λ _, []).

Lemma garbled_rinv mode : rinv mode (IdealDisk.blocks garbled) (start mode garbled).
Proof.
  split_and!; [done| |done]. intros n.
  change (length (if decide (n mod 4 = 2) then replicate bsize 9
                  else replicate bsize (n mod 251)) = bsize).
  case_decide; apply length_replicate.
Qed.

Lemma garbled_agrees d b :
  0 ≤ d < 4 → d ≠ 2 →
  IdealDisk.blocks IdealDisk.fill (phys d b) = IdealDisk.blocks garbled (phys d b).
Proof.
  intros Hd Hne. unfold garbled. cbn [IdealDisk.blocks]. rewrite decide_False; [done|].
  unfold phys, SWAP_START_BLOCK, NDISKS.
  replace (1000 + b * 4 + d) with (d + (250 + b) * 4) by lia.
  rewrite Z.mod_add, Z.mod_small by lia. done.
Qed.


Lemma swap_area_bounds_witness :
  1000 ≤ swap_phys_block (Z.rem 1023 NDISKS) (Z.quot 1023 NDISKS) < 1000 + 256 * BLOCKS_PER_PAGE.
Proof.
  assert (0 ≤ 3 < BLOCKS_PER_PAGE) as Hi by (vm_compute; done).
  assert (0 ≤ 255 < MAX_SWAP_PAGES) as Hs by (vm_compute; done).
  pose proof (swap_area_bounds 255 3 Hs Hi) as Hb. cbv zeta in Hb.
  change (i32 (255 * BLOCKS_PER_PAGE + 3)) with 1023 in Hb.
  destruct (raid1_map 1023) as [[? ?] ?], (raid5_map 1023) as [[? ?] ?].
  exact (proj1 (proj2 Hb)).
Defined.

(** ** The shared scratch buffers

    [swap_disk_write] runs with no lock held, and [bread] sleeps, so another
    writer can run between the two halves of the read-modify-write.  [raced]
    does that: writer A begins a write of logical block 0, writer B writes
    logical block 9 in another stripe, writer A finishes.  [serial] runs the
    same writes one after the other.  Both return block 1, which nobody
    writes, before and after. *)
Definition raced : M (raid IdealDisk.t) (bytes * bytes) :=
  let* x := read_logical RAID5 FAILED_DISK 1 in
  raid5_rmw_begin 1 0 ;;;
  write_logical RAID5 FAILED_DISK 9 (replicate bsize 5) ;;;
  raid5_rmw_finish 1 0 0 (replicate bsize 7) ;;;
  let* y := read_logical RAID5 FAILED_DISK 1 in
  ret (x, y).

Definition serial : M (raid IdealDisk.t) (bytes * bytes) :=
  let* x := read_logical RAID5 FAILED_DISK 1 in
  write_logical RAID5 FAILED_DISK 0 (replicate bsize 7) ;;;
  write_logical RAID5 FAILED_DISK 9 (replicate bsize 5) ;;;
  let* y := read_logical RAID5 FAILED_DISK 1 in
  ret (x, y).

Definition changed (r : res (bytes * bytes * raid IdealDisk.t)) : option bool :=
  match r with Ok (x, y, _) => Some (bool_decide (x ≠ y)) | _ => None end.

(** [C9] The static RAID 5 buffers are not safe under concurrent writers: the
    write of block 0 is the two halves [raid5_rmw_begin] and
    [raid5_rmw_finish]; run back to back they leave block 1 alone, but with
    another writer in between, the parity is computed from that writer's old
    data and block 1, which no one wrote, reads back changed. *)
Theorem raid5_scratch_race :
  (∀ d, write_logical (S := IdealDisk.t) RAID5 FAILED_DISK 0 d =
        (raid5_rmw_begin 1 0 ;;; raid5_rmw_finish 1 0 0 d)) ∧
  changed (serial (start RAID5 IdealDisk.fill)) = Some false ∧
  changed (raced (start RAID5 IdealDisk.fill)) = Some true.
Proof. split; [done|]. split; vm_compute; reflexivity. Qed.
End RaidRuns.
