(* ===== verification/DiskQueue.v ===== *)
(** * The pending disk-request queue (kernel/bio.c:26-63, 94-183, 344-359)

    Requests live in a fixed pool and are linked through [next] pointers, here
    indices into the pool.  [alloc_req] and [free_req] manage the pool,
    [enqueue_disk_request_locked] appends, [dequeue_disk_request_locked] takes
    the head under FCFS and the nearest block under SSTF, the better MLFQ level
    first on a tie.  Everything here runs with [disk_queue.lock] held. *)
From S2P Require Import Prelude.
Local Open Scope Z_scope.

Definition DISK_REQ_READ : Z := 0.
Definition DISK_REQ_WRITE : Z := 1.
Definition DISK_LATENCY_C : Z := 5.
Definition MAX_DISK_REQS : nat := 64.

(** bio.c:33-41; [rq_b] and [rq_proc] index the buffers and the process table. *)
Record disk_request := mkReq {
  rq_b : nat;
  rq_blockno : Z;
  rq_type : Z;
  rq_proc : option nat;
  rq_used : bool;
  rq_completed : bool;
  rq_next : option nat;
}.

(** bio.c:43, 51-63 *)
Record disk_queue := mkQueue {
  req_pool : list disk_request;
  dq_head : option nat;
  dq_busy : bool;
  disk_sched_policy : Z;
  current_disk_head : Z;
  disk_reads : Z;
  disk_writes : Z;
  disk_total_latency : Z;
  disk_req_count : Z;
}.

Definition set_next (n : option nat) (r : disk_request) : disk_request :=
  mkReq (rq_b r) (rq_blockno r) (rq_type r) (rq_proc r) (rq_used r) (rq_completed r) n.
Definition set_completed (c : bool) (r : disk_request) : disk_request :=
  mkReq (rq_b r) (rq_blockno r) (rq_type r) (rq_proc r) (rq_used r) c (rq_next r).
Definition set_status (used completed : bool) (r : disk_request) : disk_request :=
  mkReq (rq_b r) (rq_blockno r) (rq_type r) (rq_proc r) used completed None.
Definition set_request (b : nat) (blockno type : Z) (p : option nat) (r : disk_request) :=
  mkReq b blockno type p (rq_used r) (rq_completed r) (rq_next r).

Definition with_pool (l : list disk_request) (q : disk_queue) : disk_queue :=
  mkQueue l (dq_head q) (dq_busy q) (disk_sched_policy q) (current_disk_head q)
    (disk_reads q) (disk_writes q) (disk_total_latency q) (disk_req_count q).
Definition with_head (h : option nat) (q : disk_queue) : disk_queue :=
  mkQueue (req_pool q) h (dq_busy q) (disk_sched_policy q) (current_disk_head q)
    (disk_reads q) (disk_writes q) (disk_total_latency q) (disk_req_count q).
Definition with_busy (b : bool) (q : disk_queue) : disk_queue :=
  mkQueue (req_pool q) (dq_head q) b (disk_sched_policy q) (current_disk_head q)
    (disk_reads q) (disk_writes q) (disk_total_latency q) (disk_req_count q).

(** [req_pool[i] = f(req_pool[i])] *)
Definition upd_req (i : nat) (f : disk_request → disk_request) : M disk_queue unit :=
  modify (λ q, with_pool (alter f i (req_pool q)) q).

Definition get_req (i : nat) : M disk_queue disk_request :=
  let* l := gets req_pool in deref (l !! i).

(** bio.c:95-107 *)
Definition alloc_req : M disk_queue (option nat) :=
  let* l := gets req_pool in
  match list_find (λ r, rq_used r = false) l with
  | Some (i, _) => upd_req i (set_status true false) ;;; ret (Some i)
  | None => ret None
  end.

(** bio.c:110-116 *)
Definition free_req (i : nat) : M disk_queue unit := upd_req i (set_status false false).

(** bio.c:129-131: [while(cur->next) cur = cur->next] *)
Fixpoint find_tail (fuel : nat) (cur : nat) : M disk_queue nat :=
  match fuel with
  | O => fail NoFuel
  | S fuel =>
    let* r := get_req cur in
    match rq_next r with
    | None => ret cur
    | Some n => find_tail fuel n
    end
  end.

(** bio.c:119-133 *)
Definition enqueue_disk_request_locked (i : nat) : M disk_queue unit :=
  upd_req i (set_next None) ;;;
  let* h := gets dq_head in
  match h with
  | None => modify (with_head (Some i))
  | Some cur =>
    let* n := gets (λ q, length (req_pool q)) in
    let* t := find_tail n cur in
    upd_req t (set_next (Some i))
  end.

(** [dist = blockno - current_disk_head; if(dist < 0) dist = -dist;] *)
Definition seek_dist (blockno head : Z) : Z :=
  let dist := i32 (blockno - head) in
  if decide (dist < 0) then i32 (- dist) else dist.

Section dequeue.
(** [lvl p] is [proc[p].level]. *)
Variable lvl : nat → Z.

Definition req_level (r : disk_request) : Z :=
  match rq_proc r with Some p => lvl p | None => 3 end.

(** bio.c:150-173 *)
Fixpoint sstf_scan (fuel : nat) (cur prev : option nat) (min_dist : Z)
    (selected : nat) (selected_prev : option nat) : M disk_queue (nat * option nat) :=
  match cur with
  | None => ret (selected, selected_prev)
  | Some c =>
    match fuel with
    | O => fail NoFuel
    | S fuel =>
      let* r := get_req c in
      let* head := gets current_disk_head in
      let dist := seek_dist (rq_blockno r) head in
      let* rs := get_req selected in
      let better := if decide (dist < min_dist) then true
                    else if decide (dist = min_dist)
                    then bool_decide (req_level r < req_level rs) else false in
      if better
      then sstf_scan fuel (rq_next r) (Some c) dist c prev
      else sstf_scan fuel (rq_next r) (Some c) min_dist selected selected_prev
    end
  end.

(** bio.c:176-182 *)
Definition unlink (selected : nat) (selected_prev : option nat) : M disk_queue unit :=
  let* r := get_req selected in
  match selected_prev with
  | None => modify (with_head (rq_next r))
  | Some p => upd_req p (set_next (rq_next r))
  end ;;;
  upd_req selected (set_next None).

(** bio.c:136-183 *)
Definition dequeue_disk_request_locked : M disk_queue (option nat) :=
  let* h := gets dq_head in
  match h with
  | None => ret None
  | Some first =>
    let* policy := gets disk_sched_policy in
    let* n := gets (λ q, length (req_pool q)) in
    let* (selected, selected_prev) :=
      (if decide (policy = 1) then sstf_scan n h None INT_MAX first None
       else ret (first, None)) in
    unlink selected selected_prev ;;;
    ret (Some selected)
  end.
End dequeue.

(** bio.c:344-350 *)
Definition set_disk_policy (policy : Z) : M disk_queue unit :=
  modify (λ q, mkQueue (req_pool q) (dq_head q) (dq_busy q) policy (current_disk_head q)
    (disk_reads q) (disk_writes q) (disk_total_latency q) (disk_req_count q)).

(** bio.c:352-359, [uint64] arithmetic *)
Definition get_avg_disk_latency : M disk_queue Z :=
  gets (λ q, if decide (disk_req_count q > 0)
             then disk_total_latency q / disk_req_count q else 0).

(** bio.c:199-202: computed before the lock is taken again *)
Definition seek_latency (r : disk_request) : M disk_queue Z :=
  gets (λ q, i32 (seek_dist (rq_blockno r) (current_disk_head q) + DISK_LATENCY_C)).

(** bio.c:204-212 *)
Definition account_request (r : disk_request) (latency : Z) : M disk_queue unit :=
  modify (λ q,
    let is_read := decide (rq_type r = DISK_REQ_READ) in
    mkQueue (req_pool q) (dq_head q) (dq_busy q) (disk_sched_policy q) (rq_blockno r)
      (if is_read then u64 (disk_reads q + 1) else disk_reads q)
      (if is_read then disk_writes q else u64 (disk_writes q + 1))
      (u64 (disk_total_latency q + latency)) (u64 (disk_req_count q + 1))).

(** bio.c:189-197: [None] when the queue is empty and the dispatcher stops *)
Definition dispatch_take (lvl : nat → Z) : M disk_queue (option nat) :=
  let* r := dequeue_disk_request_locked lvl in
  match r with
  | None => modify (with_busy false) ;;; ret None
  | Some i => ret (Some i)
  end.

(** bio.c:216-217 *)
Definition complete_request (i : nat) : M disk_queue unit := upd_req i (set_completed true).

(** bio.c:226-242: the request and whether the caller must run the dispatcher;
    [None] when the pool is exhausted (then the caller panics) *)
Definition submit_locked (b : nat) (blockno type : Z) (p : option nat) :
    M disk_queue (option (nat * bool)) :=
  let* o := alloc_req in
  match o with
  | None => ret None
  | Some i =>
    upd_req i (set_request b blockno type p) ;;;
    enqueue_disk_request_locked i ;;;
    let* busy := gets dq_busy in
    if busy then ret (Some (i, false))
    else modify (with_busy true) ;;; ret (Some (i, true))
  end.

Local Close Scope Z_scope.

(** ** Linked segments

    [lseg pool p l q]: following [next] from [p] visits the requests [l] and
    ends at [q].  A queue is a segment that ends at the null pointer. *)
Fixpoint lseg (pool : list disk_request) (p : option nat) (l : list nat) (q : option nat) : Prop :=
  match l with
  | [] => p = q
  | i :: l' => p = Some i ∧ ∃ r, pool !! i = Some r ∧ lseg pool (rq_next r) l' q
  end.

Definition is_queue (q : disk_queue) (l : list nat) : Prop :=
  lseg (req_pool q) (dq_head q) l None ∧ NoDup l.

(** Everything of a request but the link. *)
Definition req_data (r : disk_request) : disk_request := set_next None r.

Lemma lseg_app pool p l1 l2 q :
  lseg pool p (l1 ++ l2) q ↔ ∃ m, lseg pool p l1 m ∧ lseg pool m l2 q.
Proof.
  revert p. induction l1 as [|i l1 IH]; intros p; simpl; [naive_solver|].
  setoid_rewrite IH. naive_solver.
Qed.

Lemma lseg_frame pool pool' p l q :
  (∀ i, i ∈ l → pool !! i = pool' !! i) → lseg pool p l q → lseg pool' p l q.
Proof.
  revert p. induction l as [|i l IH]; intros p Hpool; simpl; [done|].
  intros (-> & r & Hr & Hl). split; [done|]. exists r.
  rewrite <- (Hpool i) by set_solver. split; [done|]. apply IH; [set_solver|done].
Qed.

Lemma lseg_alter pool f i p l q :
  i ∉ l → lseg pool p l q → lseg (alter f i pool) p l q.
Proof.
  intros Hi. apply lseg_frame. intros j Hj.
  by rewrite list_lookup_alter_ne by (intros ->; done).
Qed.

Lemma lseg_lookup pool p l q i : lseg pool p l q → i ∈ l → ∃ r, pool !! i = Some r.
Proof.
  revert p. induction l as [|j l IH]; intros p; simpl; [set_solver|].
  intros (-> & r & Hr & Hl) [->|Hi]%elem_of_cons; eauto.
Qed.

Lemma lseg_length pool p l q : lseg pool p l q → NoDup l → length l ≤ length pool.
Proof.
  intros Hl Hnd. rewrite <- (length_seq (length pool) 0).
  apply submseteq_length, NoDup_submseteq; [done|].
  intros i Hi. apply elem_of_seq. destruct (lseg_lookup _ _ _ _ _ Hl Hi) as [r Hr].
  apply lookup_lt_Some in Hr. lia.
Qed.

(** The last request of a segment links to its end. *)
Lemma lseg_snoc pool p l t q :
  lseg pool p (l ++ [t]) q ↔ lseg pool p l (Some t) ∧ ∃ r, pool !! t = Some r ∧ rq_next r = q.
Proof. rewrite lseg_app. simpl. naive_solver. Qed.

(** Redirecting the last request of a segment. *)
Lemma lseg_set_next pool p l t q q' :
  NoDup (l ++ [t]) → lseg pool p (l ++ [t]) q →
  lseg (alter (set_next q') t pool) p (l ++ [t]) q'.
Proof.
  intros Hnd. rewrite !lseg_snoc. intros (Hl & r & Hr & _).
  apply NoDup_app in Hnd as (_ & Hdis & _). split.
  - apply lseg_alter; [|done]. intros Ht. by apply (Hdis t Ht), list_elem_of_singleton.
  - exists (set_next q' r). by rewrite list_lookup_alter_eq, Hr.
Qed.

Lemma get_req_ok q i r : req_pool q !! i = Some r → get_req i q = Ok (r, q).
Proof. intros Hr. unfold get_req, bind, gets, deref. by rewrite Hr. Qed.

Lemma find_tail_ok fuel q l t c :
  lseg (req_pool q) (Some c) (l ++ [t]) None → length l < fuel →
  find_tail fuel c q = Ok (t, q).
Proof.
  revert c l. induction fuel as [|fuel IH]; intros c l Hl Hf; [lia|].
  destruct l as [|i l]; simpl in Hl.
  - destruct Hl as ([= ->] & r & Hr & Hn). simpl.
    erewrite bind_ok by (by apply get_req_ok). simpl. by rewrite Hn.
  - destruct Hl as ([= ->] & r & Hr & Hl). simpl.
    erewrite bind_ok by (by apply get_req_ok).
    destruct (rq_next r) as [n|] eqn:En.
    + apply (IH n l); [done|simpl in Hf; lia].
    + by destruct l; simpl in Hl; destruct Hl.
Qed.

Lemma data_alter_next (pool : list disk_request) n (i : nat) :
  req_data <$> alter (set_next n) i pool = req_data <$> pool.
Proof.
  apply list_eq. intros j. rewrite !list_lookup_fmap.
  destruct (decide (i = j)) as [->|].
  - rewrite list_lookup_alter_eq. by destruct (pool !! j).
  - by rewrite list_lookup_alter_ne.
Qed.

(** ** Operations on the queue *)

(** The fields other than pool and queue head are untouched. *)
Definition same_globals (q q' : disk_queue) : Prop :=
  dq_busy q' = dq_busy q ∧ disk_sched_policy q' = disk_sched_policy q ∧
  current_disk_head q' = current_disk_head q ∧ disk_reads q' = disk_reads q ∧
  disk_writes q' = disk_writes q ∧ disk_total_latency q' = disk_total_latency q ∧
  disk_req_count q' = disk_req_count q.

Lemma enqueue_ok q l i :
  is_queue q l → i ∉ l → i < length (req_pool q) →
  ∃ q', enqueue_disk_request_locked i q = Ok (tt, q') ∧ is_queue q' (l ++ [i]) ∧
        req_data <$> req_pool q' = req_data <$> req_pool q ∧ same_globals q q'.
Proof.
  intros [Hl Hnd] Hi Hlt. unfold enqueue_disk_request_locked.
  erewrite bind_ok by (by unfold upd_req, modify).
  erewrite bind_ok by (by unfold gets). simpl.
  set (pool := alter (set_next None) i (req_pool q)).
  destruct (lookup_lt_is_Some_2 _ _ Hlt) as [r Hr].
  assert (pool !! i = Some (set_next None r)) as Hpi.
  { unfold pool. by rewrite list_lookup_alter_eq, Hr. }
  assert (lseg pool (dq_head q) l None) as Hl' by (by apply lseg_alter).
  assert (NoDup (l ++ [i])) as Hnd'.
  { apply NoDup_app. split_and!; [done| |apply NoDup_singleton]. set_solver. }
  destruct l as [|t l _] using rev_ind.
  - simpl in Hl. rewrite Hl. eexists. split; [done|]. split_and!.
    + split; [|done]. simpl. eauto.
    + simpl. apply data_alter_next.
    + done.
  - destruct (dq_head q) as [c|] eqn:Eh; [|by destruct l; destruct Hl].
    erewrite bind_ok by (by unfold gets).
    erewrite bind_ok; [|apply (find_tail_ok _ _ l); [done|]].
    2:{ pose proof (lseg_length _ _ _ _ Hl' Hnd) as Hlen. rewrite length_app in Hlen.
        simpl in *. lia. }
    eexists. split; [done|]. split_and!.
    + split; [|done]. simpl. rewrite Eh. apply lseg_snoc. split.
      * eapply lseg_set_next; [by apply NoDup_app in Hnd' as [? _]|done].
      * rewrite list_lookup_alter_ne by set_solver. by eexists.
    + simpl. rewrite data_alter_next. apply data_alter_next.
    + done.
Qed.

Lemma unlink_ok q l1 i l2 :
  is_queue q (l1 ++ i :: l2) →
  ∃ q', unlink i (last l1) q = Ok (tt, q') ∧ is_queue q' (l1 ++ l2) ∧
        req_data <$> req_pool q' = req_data <$> req_pool q ∧ same_globals q q'.
Proof.
  intros [Hl Hnd]. pose proof Hl as (m & Hl1 & -> & r & Hr & Hl2)%lseg_app.
  assert ((i ∉ l1) ∧ (i ∉ l2)) as [Hi1 Hi2].
  { apply NoDup_app in Hnd as (_ & ? & [? _]%NoDup_cons). set_solver. }
  assert (NoDup (l1 ++ l2)) as Hnd'.
  { apply NoDup_app in Hnd as (? & ? & [_ ?]%NoDup_cons). apply NoDup_app. set_solver. }
  unfold unlink. erewrite bind_ok by (by apply get_req_ok).
  destruct l1 as [|t l1 _] using rev_ind.
  - simpl. eexists. split; [done|]. split_and!; [|apply data_alter_next|done].
    split; [|done]. simpl. by apply lseg_alter.
  - rewrite last_snoc. erewrite bind_ok by (by unfold upd_req, modify).
    eexists. split; [done|]. split_and!.
    + split; [|done]. simpl. apply lseg_alter; [set_solver|].
      apply lseg_app. exists (rq_next r). split.
      * eapply lseg_set_next; [by apply NoDup_app in Hnd' as [? _]|done].
      * apply lseg_alter; [|done].
        apply NoDup_app in Hnd' as (_ & Hd & _). apply Hd. set_solver.
    + simpl. rewrite data_alter_next. apply data_alter_next.
    + done.
Qed.

(** ** Which request is taken *)
Section choice.
Variable lvl : nat → Z.
Local Open Scope Z_scope.

(** Requests are compared by seek distance, then by MLFQ level. *)
Definition closer (head : Z) (r r' : disk_request) : Prop :=
  seek_dist (rq_blockno r) head < seek_dist (rq_blockno r') head ∨
  seek_dist (rq_blockno r) head = seek_dist (rq_blockno r') head ∧
  req_level lvl r < req_level lvl r'.

(** [k] is the first position of the queue that no other beats. *)
Definition sstf_choice (head : Z) (rs : list disk_request) (k : nat) : Prop :=
  ∃ r, rs !! k = Some r ∧
    ∀ j r', rs !! j = Some r' → ¬ closer head r' r ∧ ((j < k)%nat → closer head r r').

Definition policy_choice (policy head : Z) (rs : list disk_request) (k : nat) : Prop :=
  if decide (policy = 1) then sstf_choice head rs k else k = 0%nat.

(** The requests of a queue, in order. *)
Definition reqs_of (q : disk_queue) (l : list nat) (rs : list disk_request) : Prop :=
  Forall2 (λ i r, req_pool q !! i = Some r) l rs.

(** Blocks are the non-negative [int]s; the code relies on it for [-dist]. *)
Definition blocks_ok (head : Z) (rs : list disk_request) : Prop :=
  0 ≤ head < 2 ^ 31 ∧ Forall (λ r, 0 ≤ rq_blockno r < 2 ^ 31) rs.

Lemma seek_dist_abs b h : 0 ≤ b < 2 ^ 31 → 0 ≤ h < 2 ^ 31 → seek_dist b h = Z.abs (b - h).
Proof. intros. unfold seek_dist. rewrite i32_id by lia. case_decide; rewrite ?i32_id; lia. Qed.

Lemma sstf_choice_snoc head rs r k rk :
  sstf_choice head rs k → rs !! k = Some rk →
  (closer head r rk → sstf_choice head (rs ++ [r]) (length rs)) ∧
  (¬ closer head r rk → sstf_choice head (rs ++ [r]) k).
Proof.
  intros (r0 & Hr0 & Hbest) Hk. assert (r0 = rk) as -> by congruence. split; intros Hc.
  - exists r. split; [by rewrite lookup_app_r, Nat.sub_diag by lia|].
    intros j r' [Hj|[Hle Hj]]%lookup_app_Some.
    + destruct (Hbest j r' Hj) as [Hn Hlt]. apply lookup_lt_Some in Hj.
      unfold closer in *. split; [lia|]. intros _. lia.
    + apply list_lookup_singleton_Some in Hj as [Hj ->]. unfold closer. split; [lia|lia].
  - exists rk. split; [by rewrite lookup_app_l by (by eapply lookup_lt_Some)|].
    intros j r' [Hj|[Hle Hj]]%lookup_app_Some; [by apply Hbest|].
    apply list_lookup_singleton_Some in Hj as [Hj <-]. split; [done|].
    intros. apply lookup_lt_Some in Hk. lia.
Qed.

Lemma sstf_scan_ok fuel q p l1 l2 rs1 rs2 k rk i :
  lseg (req_pool q) p l2 None → reqs_of q l1 rs1 → reqs_of q l2 rs2 →
  (length l2 ≤ fuel)%nat → l1 !! k = Some i → rs1 !! k = Some rk →
  sstf_choice (current_disk_head q) rs1 k →
  ∃ k' i', sstf_scan lvl fuel p (last l1) (seek_dist (rq_blockno rk) (current_disk_head q))
      i (last (take k l1)) q = Ok (i', last (take k' (l1 ++ l2)), q) ∧
    (l1 ++ l2) !! k' = Some i' ∧ sstf_choice (current_disk_head q) (rs1 ++ rs2) k'.
Proof.
  revert fuel p l1 rs1 rs2 k rk i.
  induction l2 as [|c l2 IH]; intros fuel p l1 rs1 rs2 k rk i Hl H1 H2 Hf Hi Hrk Hch; simpl in Hl.
  - apply Forall2_nil_inv_l in H2 as ->. subst p. exists k, i. rewrite !app_nil_r.
    by destruct fuel.
  - apply Forall2_cons_inv_l in H2 as (r & rs2' & Hr & H2 & ->).
    destruct Hl as (-> & r0 & Hr0 & Hl). simplify_eq.
    destruct fuel as [|fuel]; simpl in Hf; [lia|]. simpl.
    assert (req_pool q !! i = Some rk) as Hqi.
    { by eapply (Forall2_lookup_lr _ l1 rs1 k i rk H1 Hi Hrk). }
    assert ((k < length l1)%nat) as Hkl by (by eapply lookup_lt_Some).
    erewrite bind_ok by (by apply get_req_ok). erewrite bind_ok by (by unfold gets).
    erewrite bind_ok by (by apply get_req_ok).
    set (dist := seek_dist (rq_blockno r0) (current_disk_head q)).
    set (mind := seek_dist (rq_blockno rk) (current_disk_head q)).
    destruct (sstf_choice_snoc (current_disk_head q) rs1 r0 k rk Hch Hrk) as [Hyes Hno].
    assert (reqs_of q (l1 ++ [c]) (rs1 ++ [r0])) as H1'.
    { apply Forall2_app; [done|]. by constructor. }
    assert (length l1 = length rs1) as Hlen by (by eapply Forall2_length).
    match goal with |- context [if ?b then sstf_scan _ _ _ _ _ _ _ else _] => set (better := b) end.
    assert (if better then closer (current_disk_head q) r0 rk
            else ¬ closer (current_disk_head q) r0 rk) as Hb.
    { unfold better, closer. fold dist mind.
      repeat case_decide; try case_bool_decide; lia. }
    destruct better.
    + destruct (IH fuel (rq_next r0) (l1 ++ [c]) (rs1 ++ [r0]) rs2' (length rs1) r0 c)
        as (k' & i' & E & Hk' & Hch'); [done..|lia| | |by apply Hyes|].
      * by rewrite <- Hlen, lookup_app_r, Nat.sub_diag by lia.
      * by rewrite lookup_app_r, Nat.sub_diag by lia.
      * exists k', i'. rewrite <- !app_assoc in *. simpl in *. split_and!; [|done..].
        rewrite last_snoc, <- Hlen, take_app_length in E. exact E.
    + destruct (IH fuel (rq_next r0) (l1 ++ [c]) (rs1 ++ [r0]) rs2' k rk i)
        as (k' & i' & E & Hk' & Hch'); [done..|lia| | |by apply Hno|].
      * by rewrite lookup_app_l by done.
      * by rewrite lookup_app_l by lia.
      * exists k', i'. rewrite <- !app_assoc in *. simpl in *. split_and!; [|done..].
        rewrite last_snoc, take_app_le in E by lia. exact E.
Qed.

Lemma reqs_of_exists q p l e : lseg (req_pool q) p l e → ∃ rs, reqs_of q l rs.
Proof.
  revert p. induction l as [|i l IH]; intros p Hl; [by exists []; constructor|].
  destruct Hl as (_ & r & Hr & Hl). destruct (IH _ Hl) as [rs Hrs].
  exists (r :: rs). by constructor.
Qed.

Lemma sstf_choice_one head r : sstf_choice head [r] 0.
Proof.
  exists r. split; [done|]. intros j r' [-> <-]%list_lookup_singleton_Some.
  unfold closer. split; [lia|lia].
Qed.

(** The first round of the scan keeps the head of the queue, whatever its
    distance: [min_dist] starts at the largest [int]. *)
Lemma sstf_scan_first fuel q first r :
  req_pool q !! first = Some r → 0 ≤ rq_blockno r < 2 ^ 31 → 0 ≤ current_disk_head q < 2 ^ 31 →
  sstf_scan lvl (S fuel) (Some first) None INT_MAX first None q =
  sstf_scan lvl fuel (rq_next r) (Some first)
    (seek_dist (rq_blockno r) (current_disk_head q)) first None q.
Proof.
  intros Hr Hb Hh. simpl. erewrite bind_ok by (by apply get_req_ok).
  erewrite bind_ok by (by unfold gets). erewrite bind_ok by (by apply get_req_ok).
  assert (seek_dist (rq_blockno r) (current_disk_head q) ≤ INT_MAX).
  { rewrite seek_dist_abs by lia. unfold INT_MAX. lia. }
  case_decide; [done|]. rewrite decide_True by lia.
  rewrite bool_decide_false by lia. do 2 f_equal. lia.
Qed.

Lemma dequeue_empty q : is_queue q [] → dequeue_disk_request_locked lvl q = Ok (None, q).
Proof.
  intros [Hl _]. simpl in Hl. unfold dequeue_disk_request_locked.
  erewrite bind_ok by (by unfold gets). by rewrite Hl.
Qed.

Lemma dequeue_ok q l rs :
  is_queue q l → l ≠ [] → reqs_of q l rs → blocks_ok (current_disk_head q) rs →
  ∃ k i q', dequeue_disk_request_locked lvl q = Ok (Some i, q') ∧ l !! k = Some i ∧
    policy_choice (disk_sched_policy q) (current_disk_head q) rs k ∧
    is_queue q' (delete k l) ∧
    req_data <$> req_pool q' = req_data <$> req_pool q ∧ same_globals q q'.
Proof.
  intros Hq Hne Hrs [Hhead Hblk]. pose proof Hq as [Hl Hnd].
  destruct l as [|first l]; [done|]. clear Hne. unfold dequeue_disk_request_locked.
  pose proof Hl as (Hh & r & Hr & Hl2). erewrite bind_ok by (by unfold gets). rewrite Hh.
  do 2 (erewrite bind_ok by (by unfold gets)).
  enough (∃ k i, (if decide (disk_sched_policy q = 1)
      then sstf_scan lvl (length (req_pool q)) (Some first) None INT_MAX first None
      else ret (first, None)) q = Ok (i, last (take k (first :: l)), q) ∧
      (first :: l) !! k = Some i ∧
      policy_choice (disk_sched_policy q) (current_disk_head q) rs k) as (k & i & E & Hk & Hc).
  { pose proof (take_drop_middle _ _ _ Hk) as Hsplit. rewrite <- Hsplit in Hq.
    destruct (unlink_ok _ _ _ _ Hq) as (q' & E' & Hq' & Hd & Hg).
    exists k, i, q'. rewrite (bind_ok _ _ _ _ _ E). erewrite bind_ok by (exact E').
    rewrite <- delete_take_drop in Hq'. done. }
  unfold policy_choice. case_decide; [|by exists 0%nat, first].
  inversion Hrs as [|? r' ? rs' Hr' Hrs']; subst. assert (r' = r) as -> by congruence.
  pose proof (lseg_length _ _ _ _ Hl Hnd) as Hlen. simpl in Hlen.
  destruct (length (req_pool q)) as [|fuel] eqn:Ef; [lia|].
  rewrite (sstf_scan_first fuel q first r) by (try done; by inversion Hblk).
  destruct (sstf_scan_ok fuel q (rq_next r) [first] l [r] rs' 0 r first)
    as (k & i & E & Hk & Hc); try done; [by constructor|lia|apply sstf_choice_one|].
  by exists k, i.
Qed.
End choice.
