(* ===== verification/DiskProto.v ===== *)
(** * The disk-request protocol between processes (kernel/bio.c:185-252)

    [submit_disk_request] and [run_disk_dispatcher] as a transition system:
    one transition per critical section of [disk_queue.lock], any number of
    processes, any interleaving.  A process that finds the disk idle becomes
    the dispatcher and serves requests until the queue is empty, the others
    sleep on their request.  The theorems say that no wake-up is lost, that
    there is one dispatcher at a time, that the request pool cannot run out,
    and that the system can always drain. *)
From stdpp Require Import relations.
From S2P Require Import Prelude DiskQueue.

(** Where a process is in [submit_disk_request] (its request is [own]) and
    [run_disk_dispatcher] (it serves [r]). *)
Inductive thread :=
| Idle
| Dispatch (own : nat)                       (* about to dequeue, bio.c:189 *)
| Seek (own r : nat)                         (* dequeued, lock released, :197 *)
| Account (own r : nat) (latency : Z)        (* latency computed, :203 *)
| Io (own r : nat)                           (* in virtio_disk_rw, :214 *)
| Complete (own r : nat)                     (* transfer done, :215 *)
| Asleep (own : nat)                         (* in sleep(req), :248 *)
| Awake (own : nat).                         (* about to test completed, :247 *)

Definition own (x : thread) : option nat :=
  match x with
  | Idle => None
  | Dispatch i | Seek i _ | Account i _ _ | Io i _ | Complete i _ | Asleep i | Awake i => Some i
  end.

(** The request a dispatcher has taken off the queue. *)
Definition serving (x : thread) : option nat :=
  match x with
  | Seek _ r | Account _ r _ | Io _ r | Complete _ r => Some r
  | _ => None
  end.

Definition dispatching (x : thread) : bool :=
  match x with Dispatch _ | Seek _ _ | Account _ _ _ | Io _ _ | Complete _ _ => true | _ => false end.

(** [wakeup(r)] on the processes (proc.c:652-668). *)
Definition wake (r : nat) (x : thread) : thread :=
  match x with
  | Asleep i => if decide (i = r) then Awake i else x
  | _ => x
  end.

Record sys := mkSys { sq : disk_queue; threads : list thread }.

(** One critical section of one process.  The MLFQ levels [lvl] may be
    different at every step; a sleeper may also be woken for another reason
    ([kkill]), which is why the code tests [completed] again. *)
Inductive step : sys → sys → Prop :=
| step_submit t b blockno type q q' th i d :
    th !! t = Some Idle → (0 ≤ blockno < 2 ^ 31)%Z →
    submit_locked b blockno type (Some t) q = Ok (Some (i, d), q') →
    step (mkSys q th) (mkSys q' (<[t := if d then Dispatch i else Asleep i]> th))
| step_take lvl t q q' th i r :
    th !! t = Some (Dispatch i) → dispatch_take lvl q = Ok (Some r, q') →
    step (mkSys q th) (mkSys q' (<[t := Seek i r]> th))
| step_stop lvl t q q' th i :
    th !! t = Some (Dispatch i) → dispatch_take lvl q = Ok (None, q') →
    step (mkSys q th) (mkSys q' (<[t := Awake i]> th))
| step_seek t q th i r req lat :
    th !! t = Some (Seek i r) → req_pool q !! r = Some req →
    seek_latency req q = Ok (lat, q) →
    step (mkSys q th) (mkSys q (<[t := Account i r lat]> th))
| step_account t q q' th i r req lat :
    th !! t = Some (Account i r lat) → req_pool q !! r = Some req →
    account_request req lat q = Ok (tt, q') →
    step (mkSys q th) (mkSys q' (<[t := Io i r]> th))
| step_io t q th i r :
    th !! t = Some (Io i r) → step (mkSys q th) (mkSys q (<[t := Complete i r]> th))
| step_complete t q q' th i r :
    th !! t = Some (Complete i r) → complete_request r q = Ok (tt, q') →
    step (mkSys q th) (mkSys q' (<[t := Dispatch i]> (wake r <$> th)))
| step_free t q q' th i req :
    th !! t = Some (Awake i) → req_pool q !! i = Some req → rq_completed req = true →
    free_req i q = Ok (tt, q') →
    step (mkSys q th) (mkSys q' (<[t := Idle]> th))
| step_sleep t q th i req :
    th !! t = Some (Awake i) → req_pool q !! i = Some req → rq_completed req = false →
    step (mkSys q th) (mkSys q (<[t := Asleep i]> th))
| step_spurious t q th i :
    th !! t = Some (Asleep i) → step (mkSys q th) (mkSys q (<[t := Awake i]> th)).

(** [binit] (bio.c:83-91) and no process inside the protocol. *)
Definition req0 : disk_request := mkReq 0 0 0 None false false None.
Definition queue0 (policy : Z) : disk_queue :=
  mkQueue (replicate MAX_DISK_REQS req0) None false policy 0 0 0 0 0.
Definition sys0 (policy : Z) (n : nat) : sys := mkSys (queue0 policy) (replicate n Idle).

Definition reachable (policy : Z) (n : nat) (s : sys) : Prop := rtc step (sys0 policy n) s.

(** ** What the critical sections do to the pool *)
Definition status (q : disk_queue) (i : nat) : option (bool * bool * Z) :=
  (λ r, (rq_used r, rq_completed r, rq_blockno r)) <$> req_pool q !! i.
Definition used (q : disk_queue) (i : nat) : Prop := ∃ c b, status q i = Some (true, c, b).
Definition pending (q : disk_queue) (i : nat) : Prop := ∃ b, status q i = Some (true, false, b).
Definition in_range (q : disk_queue) : Prop :=
  (0 ≤ current_disk_head q < 2 ^ 31)%Z ∧
  ∀ i c b, status q i = Some (true, c, b) → (0 ≤ b < 2 ^ 31)%Z.

Lemma pending_used q i : pending q i → used q i.
Proof. unfold pending, used. naive_solver. Qed.

Lemma status_data q q' :
  req_data <$> req_pool q' = req_data <$> req_pool q → ∀ i, status q' i = status q i.
Proof.
  intros Hd i. apply (f_equal (.!! i)) in Hd. rewrite !list_lookup_fmap in Hd. unfold status.
  destruct (req_pool q' !! i), (req_pool q !! i); simplify_eq/=; unfold req_data, set_next in *;
    congruence.
Qed.

Lemma status_alter q f i j :
  status (with_pool (alter f i (req_pool q)) q) j =
  if decide (i = j)
  then (λ r, (rq_used (f r), rq_completed (f r), rq_blockno (f r))) <$> req_pool q !! i
  else status q j.
Proof.
  unfold status. simpl. case_decide as Hij.
  - subst. rewrite list_lookup_alter_eq. by destruct (req_pool q !! j).
  - by rewrite list_lookup_alter_ne.
Qed.

Lemma alloc_req_inv q o q' :
  alloc_req q = Ok (o, q') →
  match o with
  | Some i => (∃ c b, status q i = Some (false, c, b)) ∧
      q' = with_pool (alter (set_status true false) i (req_pool q)) q
  | None => q' = q ∧ ∀ i r, req_pool q !! i = Some r → rq_used r = true
  end.
Proof.
  unfold alloc_req, bind, gets. destruct (list_find _ _) as [[i r]|] eqn:E; intros [= <- <-].
  - apply list_find_Some in E as (Hr & Hu & _). split; [|done].
    exists (rq_completed r), (rq_blockno r). unfold status. rewrite Hr. simpl. congruence.
  - split; [done|]. intros i r Hr. apply list_find_None in E.
    rewrite Forall_lookup in E. specialize (E i r Hr). by destruct (rq_used r).
Qed.

Lemma submit_inv q l b blockno type p i d q' :
  is_queue q l → (∀ j, j ∈ l → used q j) →
  submit_locked b blockno type p q = Ok (Some (i, d), q') →
  (i ∉ l) ∧ (∃ c b, status q i = Some (false, c, b)) ∧ is_queue q' (l ++ [i]) ∧
  status q' i = Some (true, false, blockno) ∧ (∀ j, j ≠ i → status q' j = status q j) ∧
  d = negb (dq_busy q) ∧ dq_busy q' = true ∧ current_disk_head q' = current_disk_head q ∧
  ∃ r, req_pool q' !! i = Some r ∧ rq_b r = b ∧ rq_type r = type.
Proof.
  intros [Hl Hnd] Hused E. unfold submit_locked in E.
  apply bind_inv in E as (o & q1 & E1 & E). apply alloc_req_inv in E1.
  destruct o as [i'|]; [|done].
  destruct E1 as [Hfree ->]. rewrite bind_ok with (a := tt) (s' := with_pool (alter
    (set_request b blockno type p) i' (alter (set_status true false) i' (req_pool q))) q) in E by done.
  set (pool2 := alter _ i' (alter _ i' _)) in *.
  assert (i' ∉ l) as Hi.
  { intros (c & b' & Hs)%Hused. destruct Hfree as (? & ? & ?). congruence. }
  assert (i' < length (req_pool q)) as Hlt.
  { destruct Hfree as (? & ? & Hs). unfold status in Hs. apply fmap_Some in Hs as (? & Hs & _).
    by eapply lookup_lt_Some. }
  destruct (lookup_lt_is_Some_2 _ _ Hlt) as [r Hr].
  destruct (enqueue_ok (with_pool pool2 q) l i') as (q2 & E2 & Hq2 & Hd & Hb & _ & Hh & _);
    [by split; [unfold pool2; simpl; do 2 (apply lseg_alter; [done|])|]|done
    |unfold pool2; simpl; by rewrite !length_alter|].
  rewrite (bind_ok _ _ _ _ _ E2) in E. simpl in Hb, Hh, Hd.
  assert (∀ j, status q2 j = status (with_pool pool2 q) j) as Hst by (by apply status_data).
  assert (∃ q3, q' = q3 ∧ i = i' ∧ d = negb (dq_busy q) ∧ dq_busy q3 = true ∧
    req_pool q3 = req_pool q2 ∧ dq_head q3 = dq_head q2 ∧
    current_disk_head q3 = current_disk_head q2) as (q3 & -> & -> & -> & Hb3 & Hp3 & Hh3 & Hc3).
  { unfold bind, gets in E. rewrite Hb in E.
    destruct (dq_busy q) eqn:Eb; cbn in E; injection E as <- <- <-; eexists; split_and!; done. }
  split_and!; try done.
  - unfold is_queue. by rewrite Hp3, Hh3.
  - unfold status in *. rewrite Hp3, Hst. simpl. unfold pool2.
    by rewrite list_lookup_alter_eq, list_lookup_alter_eq, Hr.
  - intros j Hj. unfold status in *. rewrite Hp3, Hst. simpl. unfold pool2.
    by rewrite !list_lookup_alter_ne.
  - congruence.
  - rewrite Hp3. apply (f_equal (.!! i')) in Hd. rewrite !list_lookup_fmap in Hd.
    unfold pool2 in Hd. rewrite !list_lookup_alter_eq, Hr in Hd. simpl in Hd.
    apply fmap_Some in Hd as (r2 & Hr2 & Heq). exists r2. by destruct r2; simplify_eq/=.
Qed.

Lemma reqs_in_range q l rs :
  in_range q → (∀ i, i ∈ l → pending q i) → reqs_of q l rs → blocks_ok (current_disk_head q) rs.
Proof.
  intros [Hh Hr] Hl Hrs. split; [done|]. apply Forall_lookup. intros k r Hk.
  destruct (Forall2_lookup_r _ _ _ _ _ Hrs Hk) as (i & Hi & Hp).
  destruct (Hl i) as [b Hb]; [by eapply list_elem_of_lookup_2|].
  apply (Hr i false). rewrite Hb. unfold status in Hb. rewrite Hp in Hb. simpl in Hb. congruence.
Qed.

Lemma take_inv lvl q l o q' :
  is_queue q l → in_range q → (∀ i, i ∈ l → pending q i) →
  dispatch_take lvl q = Ok (o, q') →
  match o with
  | None => l = [] ∧ q' = with_busy false q
  | Some r => ∃ k, l !! k = Some r ∧ is_queue q' (delete k l) ∧
      (∀ j, status q' j = status q j) ∧ dq_busy q' = dq_busy q ∧
      current_disk_head q' = current_disk_head q ∧
      req_data <$> req_pool q' = req_data <$> req_pool q
  end.
Proof.
  intros Hq Hr Hp E. unfold dispatch_take in E.
  destruct (decide (l = [])) as [->|Hne].
  - rewrite (bind_ok _ _ _ _ _ (dequeue_empty lvl q Hq)) in E. cbn in E. by injection E as <- <-.
  - destruct (reqs_of_exists _ _ _ _ (proj1 Hq)) as [rs Hrs].
    destruct (dequeue_ok lvl q l rs) as (k & i & q1 & E1 & Hk & _ & Hq1 & Hd & Hb & _ & Hh & _);
      [done..|by eapply reqs_in_range|].
    rewrite (bind_ok _ _ _ _ _ E1) in E. cbn in E. injection E as <- <-. exists k. split_and!; try done.
    by apply status_data.
Qed.

Lemma take_total lvl q l :
  is_queue q l → in_range q → (∀ i, i ∈ l → pending q i) →
  ∃ o q', dispatch_take lvl q = Ok (o, q').
Proof.
  intros Hq Hr Hp. unfold dispatch_take. destruct (decide (l = [])) as [->|Hne].
  - rewrite (bind_ok _ _ _ _ _ (dequeue_empty lvl q Hq)). by do 2 eexists.
  - destruct (reqs_of_exists _ _ _ _ (proj1 Hq)) as [rs Hrs].
    destruct (dequeue_ok lvl q l rs) as (k & i & q1 & E1 & _);
      [done..|by eapply reqs_in_range|].
    rewrite (bind_ok _ _ _ _ _ E1). by do 2 eexists.
Qed.

(** ** The invariant *)
Record inv (q : disk_queue) (th : list thread) (l : list nat) : Prop := {
  inv_queue : is_queue q l;
  inv_range : in_range q;
  inv_listed : ∀ i, i ∈ l → pending q i;
  inv_busy : dq_busy q = true ↔ ∃ t x, th !! t = Some x ∧ dispatching x = true;
  inv_nonempty : l ≠ [] → dq_busy q = true;
  inv_one : ∀ t1 t2 x1 x2, th !! t1 = Some x1 → th !! t2 = Some x2 →
    dispatching x1 = true → dispatching x2 = true → t1 = t2;
  inv_own : ∀ t x i, th !! t = Some x → own x = Some i → used q i;
  inv_own_inj : ∀ t1 t2 x1 x2 i, th !! t1 = Some x1 → th !! t2 = Some x2 →
    own x1 = Some i → own x2 = Some i → t1 = t2;
  inv_owned : ∀ i, used q i → ∃ t x, th !! t = Some x ∧ own x = Some i;
  inv_serving : ∀ t x r, th !! t = Some x → serving x = Some r → pending q r ∧ r ∉ l;
  inv_pending : ∀ i, pending q i → i ∈ l ∨ ∃ t x, th !! t = Some x ∧ serving x = Some i;
  inv_asleep : ∀ t i, th !! t = Some (Asleep i) → pending q i;
}.

Lemma serving_dispatching x r : serving x = Some r → dispatching x = true.
Proof. by destruct x. Qed.

Lemma insert_cases (th : list thread) t x t' y :
  <[t := x]> th !! t' = Some y → (t' = t ∧ y = x) ∨ (t' ≠ t ∧ th !! t' = Some y).
Proof. intros [(-> & -> & _)|[? ?]]%list_lookup_insert_Some; auto. Qed.

Lemma insert_same (th : list thread) t x y :
  th !! t = Some y → <[t := x]> th !! t = Some x.
Proof. intros H. apply list_lookup_insert_eq. by eapply lookup_lt_Some. Qed.

Ltac thread_cases :=
  repeat match goal with
  | H : <[_ := _]> _ !! _ = Some _ |- _ => apply insert_cases in H as [[-> ?]|[? H]]
  end; simplify_eq/=.

(** A property of some thread survives the update of thread [t] when the new
    state of [t] has it or the old state did not. *)
Lemma exists_thread_insert (P : thread → Prop) (th : list thread) (t : nat) x x' :
  th !! t = Some x → (P x → P x') →
  (∃ (u : nat) y, th !! u = Some y ∧ P y) → ∃ (u : nat) y, <[t := x']> th !! u = Some y ∧ P y.
Proof.
  intros Ht HP (u & y & Hu & Hy). destruct (decide (u = t)) as [->|Hne].
  - exists t, x'. split; [by eapply insert_same|]. apply HP. congruence.
  - exists u, y. by rewrite list_lookup_insert_ne.
Qed.

(** Moves of one process inside the dispatcher loop, and between sleeping and
    testing, that leave the pool as it is. *)
Lemma inv_local q q' th l t x x' :
  inv q th l → th !! t = Some x →
  own x' = own x → serving x' = serving x → dispatching x' = dispatching x →
  (∀ i, x' = Asleep i → pending q i) →
  is_queue q' l → (∀ i, status q' i = status q i) → in_range q' → dq_busy q' = dq_busy q →
  inv q' (<[t := x']> th) l.
Proof.
  intros [] Ht Hown Hser Hdis Hasl Hq' Hst Hr' Hb.
  assert (∀ i, used q' i ↔ used q i) as Hu by (intros; unfold used; by setoid_rewrite Hst).
  assert (∀ i, pending q' i ↔ pending q i) as Hp by (intros; unfold pending; by setoid_rewrite Hst).
  split; try done.
  - intros i. rewrite Hp. auto.
  - rewrite Hb, inv_busy0. split; intros (u & y & Hy & Hd).
    + apply (exists_thread_insert (λ x, dispatching x = true) _ _ x); [done|congruence|by eauto].
    + thread_cases; [rewrite Hdis in Hd|]; eauto.
  - by rewrite Hb.
  - intros t1 t2 x1 x2 H1 H2 D1 D2. thread_cases; try done; rewrite ?Hdis in *; eauto.
  - intros u y i Hy Ho. rewrite Hu. thread_cases; rewrite ?Hown in *; eauto.
  - intros t1 t2 x1 x2 i H1 H2 O1 O2. thread_cases; try done; rewrite ?Hown in *; eauto.
  - intros i. rewrite Hu. intros Hi%inv_owned0.
    apply (exists_thread_insert (λ x, own x = Some i) _ _ x); [done|congruence|done].
  - intros u y r Hy Hs. rewrite Hp. thread_cases; rewrite ?Hser in *; eauto.
  - intros i. rewrite Hp. intros [?|Hi]%inv_pending0; [by left|right].
    apply (exists_thread_insert (λ x, serving x = Some i) _ _ x); [done|congruence|done].
  - intros u i [[-> E]|[? E]]%insert_cases; rewrite Hp; eauto.
Qed.

Lemma in_range_status q q' :
  (∀ i, status q' i = status q i) → current_disk_head q' = current_disk_head q →
  in_range q → in_range q'.
Proof. intros Hs Hh [? ?]. split; [by rewrite Hh|]. intros i c b. rewrite Hs. eauto. Qed.

Lemma inv_submit q th l t b blockno type q' i d :
  inv q th l → th !! t = Some Idle → (0 ≤ blockno < 2 ^ 31)%Z →
  submit_locked b blockno type (Some t) q = Ok (Some (i, d), q') →
  inv q' (<[t := if d then Dispatch i else Asleep i]> th) (l ++ [i]).
Proof.
  intros [] Ht Hb E.
  destruct (submit_inv _ _ _ _ _ _ _ _ _ inv_queue0 (λ j Hj, pending_used _ _ (inv_listed0 j Hj)) E)
    as (Hil & (c0 & b0 & Hfree) & Hq' & Hi & Hoth & -> & Hbusy & Hhead & _).
  assert (¬ used q i) as Hnu by (intros (? & ? & ?); congruence).
  assert (∀ j, pending q j → pending q' j) as Hp.
  { intros j Hj. destruct (decide (j = i)) as [->|]; [by destruct Hnu; apply pending_used|].
    unfold pending. by rewrite Hoth. }
  assert (∀ j, j ≠ i → pending q' j → pending q j) as Hp' by (unfold pending; intros; by rewrite <- Hoth).
  assert (∀ j, used q j → used q' j) as Hu.
  { intros j Hj. destruct (decide (j = i)) as [->|]; [done|]. unfold used. by rewrite Hoth. }
  assert (pending q' i) as Hpi by (by eexists).
  set (x' := if negb (dq_busy q) then Dispatch i else Asleep i).
  assert (own x' = Some i ∧ serving x' = None ∧ dispatching x' = negb (dq_busy q)) as (Ho & Hs & Hd).
  { unfold x'. by destruct (dq_busy q). }
  split; try done.
  - split; [by rewrite Hhead; apply inv_range0|]. intros j c b' Hj.
    destruct (decide (j = i)) as [->|Hne]; [rewrite Hi in Hj; by simplify_eq|].
    rewrite Hoth in Hj by done. by eapply inv_range0.
  - intros j [?| ->%list_elem_of_singleton]%elem_of_app; auto.
  - split; [|done]. intros _. destruct (dq_busy q) eqn:Eb.
    + apply (exists_thread_insert (λ x, dispatching x = true) _ _ Idle); [done..|by apply inv_busy0].
    + exists t, x'. split; [by eapply insert_same|done].
  - intros t1 t2 x1 x2 H1 H2 D1 D2. thread_cases; try done; rewrite ?Hd in *; [| |by eauto];
      (assert (dq_busy q = true) as Hbt by (apply inv_busy0; eauto)); by rewrite Hbt in *.
  - intros u y j Hy Hj. thread_cases; [|by eauto].
    by apply pending_used.
  - intros t1 t2 x1 x2 j H1 H2 O1 O2. thread_cases; try done; [| |by eauto]; destruct Hnu; eauto.
  - intros j Hj. destruct (decide (j = i)) as [->|Hne].
    + exists t, x'. split; [by eapply insert_same|done].
    + apply (exists_thread_insert (λ x, own x = Some j) _ _ Idle); [done..|].
      apply inv_owned0. unfold used in *. by rewrite <- Hoth.
  - intros u y r Hy Hr. thread_cases.
    destruct (inv_serving0 _ _ _ Hy Hr) as [Hpr Hrl]. split; [by auto|].
    intros [?| ->%list_elem_of_singleton]%elem_of_app; [done|].
    by destruct Hnu; apply pending_used.
  - intros j Hj. destruct (decide (j = i)) as [->|Hne]; [left; set_solver|].
    destruct (inv_pending0 j (Hp' j Hne Hj)) as [?|Hx]; [left; set_solver|right].
    apply (exists_thread_insert (λ x, serving x = Some j) _ _ Idle); done.
  - intros u j [[-> E']|[? E']]%insert_cases; [|by eauto].
    unfold x' in E'. destruct (dq_busy q); simplify_eq/=; done.
Qed.

Lemma elem_of_delete_NoDup (l : list nat) k r i :
  NoDup l → l !! k = Some r → i ∈ delete k l ↔ i ∈ l ∧ i ≠ r.
Proof.
  intros Hnd Hk. rewrite delete_take_drop.
  pose proof (take_drop_middle _ _ _ Hk) as Hs. rewrite <- Hs in Hnd.
  assert (i ∈ l ↔ i ∈ take k l ∨ i = r ∨ i ∈ drop (S k) l) as ->.
  { rewrite <- Hs at 1. by rewrite elem_of_app, elem_of_cons. }
  rewrite elem_of_app.
  apply NoDup_app in Hnd as (_ & Hd & [Hr _]%NoDup_cons).
  split; [|naive_solver]. intros [Hi|Hi]; (split; [by auto|]); intros ->; [|done].
  apply (Hd r Hi), list_elem_of_here.
Qed.

Lemma inv_take lvl q th l t i r q' :
  inv q th l → th !! t = Some (Dispatch i) → dispatch_take lvl q = Ok (Some r, q') →
  ∃ l', inv q' (<[t := Seek i r]> th) l' ∧ S (length l') = length l.
Proof.
  intros [] Ht E.
  destruct (take_inv _ _ _ _ _ inv_queue0 inv_range0 inv_listed0 E)
    as (k & Hk & Hq' & Hst & Hb & Hh & _).
  pose proof inv_queue0 as [_ Hnd].
  pose proof (λ i, elem_of_delete_NoDup l k r i Hnd Hk) as Hdel.
  assert (r ∈ l) as Hrl by (by eapply list_elem_of_lookup_2).
  assert (∀ i, used q' i ↔ used q i) as Hu by (intros; unfold used; by setoid_rewrite Hst).
  assert (∀ i, pending q' i ↔ pending q i) as Hp by (intros; unfold pending; by setoid_rewrite Hst).
  exists (delete k l). split; [|pose proof (lookup_lt_Some _ _ _ Hk); rewrite length_delete by eauto; lia].
  split; try done.
  - by eapply in_range_status.
  - intros j. rewrite Hdel, Hp. intros [? _]. auto.
  - rewrite Hb. split; [|intros _; apply inv_busy0; by eauto].
    intros Hbt%inv_busy0. by apply (exists_thread_insert (λ x, dispatching x = true) _ _ (Dispatch i)).
  - intros _. rewrite Hb. apply inv_busy0. eauto.
  - intros t1 t2 x1 x2 H1 H2 D1 D2. thread_cases; eauto.
  - intros u y j Hy Ho. rewrite Hu. thread_cases; eauto.
  - intros t1 t2 x1 x2 j H1 H2 O1 O2. thread_cases; eauto.
  - intros j. rewrite Hu. intros Hj%inv_owned0.
    by apply (exists_thread_insert (λ x, own x = Some j) _ _ (Dispatch i)).
  - intros u y j Hy Hs. rewrite Hp, Hdel. thread_cases; [split; [by auto|by intros [_ ?]]|].
    destruct (inv_serving0 _ _ _ Hy Hs). naive_solver.
  - intros j. rewrite Hp. intros Hj. destruct (decide (j = r)) as [->|Hne].
    + right. exists t, (Seek i r). split; [by eapply insert_same|done].
    + destruct (inv_pending0 j Hj) as [?|Hx]; [left; by apply Hdel|right].
      by apply (exists_thread_insert (λ x, serving x = Some j) _ _ (Dispatch i)).
  - intros u j Hy. rewrite Hp. thread_cases; eauto.
Qed.

Lemma inv_stop lvl q th l t i q' :
  inv q th l → th !! t = Some (Dispatch i) → dispatch_take lvl q = Ok (None, q') →
  l = [] ∧ q' = with_busy false q ∧ inv q' (<[t := Awake i]> th) [].
Proof.
  intros [] Ht E.
  destruct (take_inv _ _ _ _ _ inv_queue0 inv_range0 inv_listed0 E) as [-> ->].
  split_and!; try done.
  assert (∀ u y, <[t := Awake i]> th !! u = Some y → dispatching y = false) as Hno.
  { intros u y Hy. thread_cases; [done|]. apply not_true_is_false. intros Hd.
    assert (u = t) by (by eapply inv_one0). done. }
  split; try done.
  - split; [done|]. intros (u & y & Hy & Hd). apply Hno in Hy. congruence.
  - intros t1 t2 x1 x2 H1 H2 D1 _. apply Hno in H1. congruence.
  - intros u y j Hy Ho. thread_cases; eauto.
  - intros t1 t2 x1 x2 j H1 H2 O1 O2. thread_cases; eauto.
  - intros j Hj%inv_owned0. by apply (exists_thread_insert (λ x, own x = Some j) _ _ (Dispatch i)).
  - intros u y j Hy Hs%serving_dispatching. apply Hno in Hy. congruence.
  - intros j [?|Hx]%inv_pending0; [by left|right].
    by apply (exists_thread_insert (λ x, serving x = Some j) _ _ (Dispatch i)).
  - intros u j Hy. thread_cases; eauto.
Qed.

Lemma wake_lookup r (th : list thread) t y :
  (wake r <$> th) !! t = Some y → ∃ x, th !! t = Some x ∧ y = wake r x.
Proof. rewrite list_lookup_fmap. intros (x & -> & Hx)%fmap_Some. eauto. Qed.

Lemma wake_own r x : own (wake r x) = own x.
Proof. destruct x; simpl; try done. by case_decide. Qed.
Lemma wake_serving r x : serving (wake r x) = serving x.
Proof. destruct x; simpl; try done. by case_decide. Qed.
Lemma wake_dispatching r x : dispatching (wake r x) = dispatching x.
Proof. destruct x; simpl; try done. by case_decide. Qed.
Lemma wake_asleep r x i : wake r x = Asleep i → x = Asleep i ∧ i ≠ r.
Proof. destruct x; simpl; try done. case_decide; naive_solver. Qed.

Lemma exists_thread_wake (P : thread → Prop) r (th : list thread) :
  (∀ x, P x → P (wake r x)) →
  (∃ (u : nat) y, th !! u = Some y ∧ P y) → ∃ (u : nat) y, (wake r <$> th) !! u = Some y ∧ P y.
Proof.
  intros HP (u & y & Hu & Hy). exists u, (wake r y). rewrite list_lookup_fmap, Hu. auto.
Qed.

Ltac wake_cases :=
  thread_cases;
  repeat match goal with
  | H : (wake _ <$> _) !! _ = Some _ |- _ =>
    let x := fresh "x" in apply wake_lookup in H as (x & H & ?)
  end; subst;
  rewrite ?wake_own, ?wake_serving, ?wake_dispatching in *.

Lemma inv_complete q th l t i r :
  inv q th l → th !! t = Some (Complete i r) →
  inv (with_pool (alter (set_completed true) r (req_pool q)) q)
      (<[t := Dispatch i]> (wake r <$> th)) l.
Proof.
  intros [] Ht. set (q' := with_pool _ q).
  destruct (inv_serving0 t _ r Ht eq_refl) as [[b Hrb] Hrl].
  assert (∀ j, j ≠ r → status q' j = status q j) as Hoth.
  { intros j Hj. unfold q'. rewrite status_alter. by rewrite decide_False. }
  assert (status q' r = Some (true, true, b)) as Hr.
  { unfold q'. rewrite status_alter, decide_True by done. unfold status in Hrb.
    destruct (req_pool q !! r); simplify_eq/=. congruence. }
  assert (∀ j, used q' j ↔ used q j) as Hu.
  { intros j. unfold used. destruct (decide (j = r)) as [->|]; [|by rewrite Hoth].
    rewrite Hr, Hrb. naive_solver. }
  assert (∀ j, pending q' j ↔ pending q j ∧ j ≠ r) as Hp.
  { intros j. unfold pending. destruct (decide (j = r)) as [->|]; [|rewrite Hoth by done; naive_solver].
    rewrite Hr. naive_solver. }
  assert (∀ P, (∀ x, P x → P (wake r x)) → (P (Complete i r) → P (Dispatch i)) →
    (∃ (u : nat) y, th !! u = Some y ∧ P y) →
    ∃ (u : nat) y, <[t := Dispatch i]> (wake r <$> th) !! u = Some y ∧ P y) as Hex.
  { intros P HP1 HP2 Hex. apply (exists_thread_insert _ _ _ (Complete i r)); [|done|].
    - by rewrite list_lookup_fmap, Ht.
    - by apply exists_thread_wake. }
  split; try done.
  - split; [by apply lseg_alter; [|apply inv_queue0]|apply inv_queue0].
  - split; [apply inv_range0|]. intros j c b' Hj. destruct (decide (j = r)) as [->|].
    + rewrite Hr in Hj. simplify_eq. by eapply inv_range0.
    + rewrite Hoth in Hj by done. by eapply inv_range0.
  - intros j Hj. apply Hp. split; [by auto|]. intros ->. done.
  - simpl. rewrite inv_busy0. split.
    + apply (Hex (λ x, dispatching x = true)); [|done]. intros x. by rewrite wake_dispatching.
    + intros (u & y & Hy & Hd). wake_cases; eauto.
  - intros t1 t2 x1 x2 H1 H2 D1 D2. wake_cases; eauto.
  - intros u y j Hy Ho. apply Hu. wake_cases; eauto.
  - intros t1 t2 x1 x2 j H1 H2 O1 O2. wake_cases; eauto.
  - intros j Hj%Hu%inv_owned0. apply (Hex (λ x, own x = Some j)); [|done|done].
    intros x. by rewrite wake_own.
  - intros u y j Hy Hs. wake_cases. rewrite Hp. destruct (inv_serving0 _ _ _ Hy Hs) as [? ?].
    split; [split; [done|]|done]. intros ->.
    assert (t = u) by (eapply inv_one0; eauto using serving_dispatching). done.
  - intros j [Hj Hne]%Hp. destruct (inv_pending0 j Hj) as [?|Hx]; [by left|right].
    apply (Hex (λ x, serving x = Some j)); [|naive_solver|done].
    intros x. by rewrite wake_serving.
  - intros u j Hy. wake_cases. rewrite Hp.
    match goal with H : Asleep j = wake r _ |- _ => symmetry in H; apply wake_asleep in H as [-> ?] end.
    eauto.
Qed.

Lemma inv_free q th l t i req :
  inv q th l → th !! t = Some (Awake i) → req_pool q !! i = Some req → rq_completed req = true →
  inv (with_pool (alter (set_status false false) i (req_pool q)) q) (<[t := Idle]> th) l.
Proof.
  intros [] Ht Hreq Hcomp. set (q' := with_pool _ q).
  assert (¬ pending q i) as Hnp.
  { unfold pending, status. rewrite Hreq. intros [b Hb]. simplify_eq/=. congruence. }
  assert (i ∉ l) as Hil by auto.
  assert (∀ j, j ≠ i → status q' j = status q j) as Hoth.
  { intros j Hj. unfold q'. rewrite status_alter. by rewrite decide_False. }
  assert (¬ used q' i) as Hnu.
  { unfold used, q'. rewrite status_alter, decide_True, Hreq by done. intros (? & ? & ?). by simplify_eq/=. }
  assert (∀ j, used q' j ↔ used q j ∧ j ≠ i) as Hu.
  { intros j. destruct (decide (j = i)) as [->|]; [naive_solver|].
    unfold used. rewrite Hoth by done. naive_solver. }
  assert (∀ j, pending q' j ↔ pending q j) as Hp.
  { intros j. destruct (decide (j = i)) as [->|]; [|unfold pending; by rewrite Hoth].
    split; [intros ?%pending_used; done|done]. }
  split; try done.
  - split; [by apply lseg_alter; [|apply inv_queue0]|apply inv_queue0].
  - split; [apply inv_range0|]. intros j c b' Hj. destruct (decide (j = i)) as [->|].
    + by destruct Hnu; eexists _, _.
    + rewrite Hoth in Hj by done. by eapply inv_range0.
  - intros j. rewrite Hp. auto.
  - simpl. rewrite inv_busy0. split.
    + by apply (exists_thread_insert (λ x, dispatching x = true) _ _ (Awake i)).
    + intros (u & y & Hy & Hd). thread_cases; eauto.
  - intros t1 t2 x1 x2 H1 H2 D1 D2. thread_cases; eauto.
  - intros u y j Hy Ho. apply Hu. thread_cases. split; [by eauto|]. intros ->.
    assert (u = t) by (by eapply inv_own_inj0). done.
  - intros t1 t2 x1 x2 j H1 H2 O1 O2. thread_cases; eauto.
  - intros j [Hj Hne]%Hu. apply inv_owned0 in Hj.
    apply (exists_thread_insert (λ x, own x = Some j) _ _ (Awake i)); [done|naive_solver|done].
  - intros u y j Hy Hs. rewrite Hp. thread_cases; eauto.
  - intros j. rewrite Hp. intros [?|Hx]%inv_pending0; [by left|right].
    by apply (exists_thread_insert (λ x, serving x = Some j) _ _ (Awake i)).
  - intros u j Hy. rewrite Hp. thread_cases; eauto.
Qed.

Definition sinv (s : sys) : Prop := ∃ l, inv (sq s) (threads s) l.

Lemma sinv_step s s' : sinv s → step s s' → sinv s'.
Proof.
  intros [l Hinv] Hstep. unfold sinv. destruct Hstep; simpl in *.
  - eexists. by eapply inv_submit.
  - edestruct inv_take as (l' & ? & _); eauto.
  - edestruct inv_stop as (_ & _ & ?); eauto.
  - exists l. eapply inv_local; eauto; first [done | apply Hinv].
  - exists l. pose proof Hinv as [[] [? Hblk] _ _ _ _ _ _ _ Hserv _ _].
    destruct (Hserv t (Account i r lat) r) as [[b Hb] _]; [done..|].
    unfold account_request, modify in *. simplify_eq.
    apply (inv_local q _ th l t (Account i r lat)); try done.
    split; [|done]. simpl. unfold status in Hb.
    match goal with H : req_pool q !! r = Some req |- _ => rewrite H in Hb end.
    simplify_eq/=. apply (Hblk r false). unfold status. rewrite H0. simpl. congruence.
  - exists l. eapply inv_local; eauto; first [done | apply Hinv].
  - exists l. unfold complete_request, upd_req, modify in *. simplify_eq. by apply inv_complete.
  - exists l. unfold free_req, upd_req, modify in *. simplify_eq. by eapply inv_free.
  - exists l. eapply inv_local; eauto; try apply Hinv. intros ? [= <-].
    destruct (inv_own _ _ _ Hinv t (Awake i) i) as (c & b & Hs); [done..|].
    exists b. rewrite Hs. unfold status in Hs.
    match goal with H : req_pool q !! i = Some req |- _ => rewrite H in Hs end.
    simplify_eq/=. congruence.
  - exists l. eapply inv_local; eauto; first [done | apply Hinv].
Qed.

Lemma sinv_init policy n : sinv (sys0 policy n).
Proof.
  assert (∀ t x, replicate n Idle !! t = Some x → x = Idle) as Hidle.
  { intros t x [-> _]%lookup_replicate. done. }
  assert (∀ i, ¬ used (queue0 policy) i) as Hunused.
  { intros i (c & b & Hs). unfold status in Hs. apply fmap_Some in Hs as (r & Hr & ?).
    unfold queue0 in Hr. cbn [req_pool] in Hr. apply lookup_replicate in Hr as [-> _]. done. }
  exists []. split; simpl.
  - split; [done|apply NoDup_nil_2].
  - split; [done|]. intros i c b Hs. by destruct (Hunused i); eexists _, _.
  - by intros i ?%elem_of_nil.
  - split; [done|]. by intros (t & x & ->%Hidle & ?).
  - done.
  - by intros t1 t2 x1 x2 ->%Hidle _ ?.
  - by intros t x i ->%Hidle ?.
  - by intros t1 t2 x1 x2 i ->%Hidle _ ?.
  - by intros i ?%Hunused.
  - by intros t x r ->%Hidle ?.
  - intros i Hi%pending_used. by destruct (Hunused i).
  - by intros t i ?%Hidle.
Qed.

Lemma sinv_reachable policy n s : reachable policy n s → sinv s.
Proof.
  unfold reachable. intros Hr. pose proof (sinv_init policy n) as H0. revert Hr H0.
  generalize (sys0 policy n). intros s0. induction 1; eauto using sinv_step.
Qed.

(** ** Sizes: no step changes the number of processes or of pool entries *)
Definition sized_sys (n : nat) (s : sys) : Prop :=
  (∀ i, i < MAX_DISK_REQS → is_Some (status (sq s) i)) ∧ length (threads s) = n.

Lemma submit_ok q l b blockno type p i c0 b0 :
  is_queue q l → (∀ j, j ∈ l → used q j) → status q i = Some (false, c0, b0) →
  ∃ i' d q', submit_locked b blockno type p q = Ok (Some (i', d), q').
Proof.
  intros Hq Hu Hi. unfold submit_locked.
  destruct (alloc_req q) as [[o q1]| | | |] eqn:Ea;
    try (by unfold alloc_req, bind, gets in Ea; destruct (list_find _ _) as [[??]|]).
  rewrite (bind_ok _ _ _ _ _ Ea). pose proof (alloc_req_inv _ _ _ Ea) as Hinv.
  destruct o as [i'|].
  2:{ destruct Hinv as [_ Hall]. unfold status in Hi. apply fmap_Some in Hi as (r & Hr & Hr2).
      specialize (Hall _ _ Hr). congruence. }
  destruct Hinv as [(c & b' & Hfree) ->]. erewrite bind_ok by (by unfold upd_req, modify).
  assert (i' ∉ l) as Hil by (intros (? & ? & ?)%Hu; congruence).
  assert (i' < length (req_pool q)) as Hlt.
  { unfold status in Hfree. apply fmap_Some in Hfree as (? & Hs & _). by eapply lookup_lt_Some. }
  match goal with |- context [bind (enqueue_disk_request_locked i') _ ?q1] =>
    destruct (enqueue_ok q1 l i') as (q2 & E2 & _); [| | |rewrite (bind_ok _ _ _ _ _ E2)] end.
  - split; [simpl; do 2 (apply lseg_alter; [done|])|]; apply Hq.
  - done.
  - simpl. by rewrite !length_alter.
  - unfold bind, gets. destruct (dq_busy q2); by do 3 eexists.
Qed.

Lemma sized_step n s s' : sinv s → sized_sys n s → step s s' → sized_sys n s'.
Proof.
  intros [l Hinv] [Hpool Hlen] Hstep.
  pose proof (λ j Hj, pending_used _ _ (inv_listed _ _ _ Hinv j Hj)) as Hlu.
  destruct Hstep; simpl in *; (split; simpl; [|by rewrite ?length_insert, ?length_fmap]); try done.
  - match goal with H : submit_locked _ _ _ _ _ = _ |- _ =>
      apply (submit_inv _ _ _ _ _ _ _ _ _ (inv_queue _ _ _ Hinv) Hlu) in H
        as (_ & _ & _ & Hi & Hoth & _) end.
    intros j Hj. destruct (decide (j = i)) as [->|]; [by rewrite Hi|]. rewrite Hoth by done. auto.
  - match goal with H : dispatch_take _ _ = _ |- _ =>
      apply (take_inv _ _ _ _ _ (inv_queue _ _ _ Hinv) (inv_range _ _ _ Hinv) (inv_listed _ _ _ Hinv)) in H
        as (_ & _ & _ & Hst & _) end.
    intros j Hj. rewrite Hst. auto.
  - match goal with H : dispatch_take _ _ = _ |- _ =>
      apply (take_inv _ _ _ _ _ (inv_queue _ _ _ Hinv) (inv_range _ _ _ Hinv) (inv_listed _ _ _ Hinv)) in H
        as (_ & ->) end.
    done.
  - unfold account_request, modify in *. by simplify_eq.
  - unfold complete_request, upd_req, modify in *. simplify_eq. intros j Hj. rewrite status_alter.
    specialize (Hpool j Hj). unfold status in Hpool. rewrite fmap_is_Some in Hpool.
    case_decide; [subst; by rewrite fmap_is_Some|by apply fmap_is_Some].
  - unfold free_req, upd_req, modify in *. simplify_eq. intros j Hj. rewrite status_alter.
    specialize (Hpool j Hj). unfold status in Hpool. rewrite fmap_is_Some in Hpool.
    case_decide; [subst; by rewrite fmap_is_Some|by apply fmap_is_Some].
Qed.

Lemma sized_reachable policy n s : reachable policy n s → sized_sys n s.
Proof.
  unfold reachable. intros Hr.
  assert (sized_sys n (sys0 policy n)) as H1.
  { split; [|apply length_replicate]. intros i Hi. unfold status, sys0, queue0. cbn [sq req_pool].
    by rewrite lookup_replicate_2. }
  pose proof (sinv_init policy n) as H0. revert Hr H0 H1.
  generalize (sys0 policy n). intros s0. induction 1; eauto using sinv_step, sized_step.
Qed.

(** A pool entry is free as soon as one process is outside the protocol and
    there are at most as many processes as entries. *)
Lemma free_entry_exists n s t :
  sinv s → sized_sys n s → n ≤ MAX_DISK_REQS → threads s !! t = Some Idle →
  ∃ i c b, status (sq s) i = Some (false, c, b).
Proof.
  intros [l Hinv] [Hpool Hlen] Hn Ht.
  destruct (list_find (λ i, fst ∘ fst <$> status (sq s) i = Some false) (seq 0 MAX_DISK_REQS))
    as [[k i]|] eqn:E.
  { apply list_find_Some in E as (_ & Hi & _). exists i.
    destruct (status (sq s) i) as [[[u c] b]|]; simplify_eq/=; eauto. }
  exfalso. apply list_find_None in E. rewrite Forall_forall in E.
  assert (∀ i, i < MAX_DISK_REQS → i ∈ omap own (threads s)) as Hown.
  { intros i Hi. destruct (Hpool i Hi) as [[[u c] b] Hs]. apply list_elem_of_omap.
    destruct u.
    - destruct (inv_owned _ _ _ Hinv i) as (t' & x & Hx & Ho); [by eexists _, _|].
      exists x. split; [by eapply list_elem_of_lookup_2|done].
    - destruct (E i); [apply elem_of_seq; lia|]. by rewrite Hs. }
  assert (seq 0 MAX_DISK_REQS ⊆+ omap own (threads s)) as Hsub.
  { apply NoDup_submseteq; [apply NoDup_seq|]. intros i [_ Hi]%elem_of_seq. auto. }
  apply submseteq_length in Hsub. rewrite length_seq in Hsub.
  rewrite <- (take_drop_middle _ _ _ Ht), omap_app, length_app in Hsub.
  change (omap own (Idle :: ?th)) with (omap own th) in Hsub.
  assert (∀ th, length (omap own th) ≤ length th) as Hle.
  { unfold omap. induction th as [|x th IH]; simpl; [lia|]. destruct (own x); simpl; lia. }
  pose proof (Hle (take t (threads s))) as H1. pose proof (Hle (drop (S t) (threads s))) as H2.
  apply lookup_lt_Some in Ht. rewrite length_take in H1. rewrite length_drop in H2. lia.
Qed.

(** ** Draining: with no new request every process gets out *)
Definition weight (x : thread) : nat :=
  match x with
  | Idle => 0 | Awake _ => 1 | Asleep _ | Dispatch _ => 2
  | Complete _ _ => 4 | Io _ _ => 5 | Account _ _ _ => 6 | Seek _ _ => 7
  end.

Definition load (th : list thread) (l : list nat) : nat :=
  sum_list (weight <$> th) + 8 * length l.

Lemma load_insert th t x x' l :
  th !! t = Some x → load (<[t := x']> th) l + weight x = load th l + weight x'.
Proof.
  intros Ht. unfold load.
  enough (sum_list (weight <$> <[t := x']> th) + weight x = sum_list (weight <$> th) + weight x')
    by lia.
  revert t Ht. induction th as [|y th IH]; intros [|t] Ht; simplify_eq/=; [lia|].
  specialize (IH t Ht). lia.
Qed.

Lemma load_wake r th l : load (wake r <$> th) l ≤ load th l.
Proof.
  unfold load. apply Nat.add_le_mono_r. induction th as [|x th IH]; [done|].
  rewrite !fmap_cons. simpl sum_list_with in *.
  assert (weight (wake r x) ≤ weight x) by (destruct x; simpl; try case_decide; simpl; lia).
  lia.
Qed.

Lemma used_lookup q i : used q i → ∃ req, req_pool q !! i = Some req ∧ rq_used req = true.
Proof.
  intros (c & b & Hs). unfold status in Hs. apply fmap_Some in Hs as (req & Hr & ?).
  exists req. split; [done|]. congruence.
Qed.

(** The next move of a dispatcher, and the load it takes away. *)
Lemma dispatcher_moves q th l t x :
  inv q th l → th !! t = Some x → dispatching x = true →
  ∃ q' th' l', step (mkSys q th) (mkSys q' th') ∧ inv q' th' l' ∧ load th' l' < load th l.
Proof.
  intros Hinv Ht Hd. pose proof (λ x' l, load_insert th t x x' l Ht) as Hload.
  destruct x as [|i|i r|i r lat|i r|i r|i|i]; try done.
  - destruct (take_total (λ _, 0%Z) q l) as (o & q' & E); [apply Hinv..|].
    destruct o as [r|].
    + destruct (inv_take _ _ _ _ _ _ _ _ Hinv Ht E) as (l' & Hinv' & Hlen).
      exists q', (<[t := Seek i r]> th), l'. split_and!; [by eapply step_take|done|].
      specialize (Hload (Seek i r) l'). unfold load in *. simpl in *. lia.
    + destruct (inv_stop _ _ _ _ _ _ _ Hinv Ht E) as (-> & _ & Hinv').
      exists q', (<[t := Awake i]> th), []. split_and!; [by eapply step_stop|done|].
      specialize (Hload (Awake i) []). simpl in *. lia.
  - destruct (inv_serving _ _ _ Hinv t _ r Ht eq_refl) as [Hp _].
    destruct (used_lookup q r (pending_used _ _ Hp)) as (req & Hreq & _).
    eexists q, _, l. split_and!; [by eapply step_seek| |].
    + eapply inv_local; eauto; first [done | apply Hinv].
    + match goal with |- load (<[t := ?y]> _) _ < _ => specialize (Hload y l) end. simpl in *. lia.
  - destruct (inv_serving _ _ _ Hinv t _ r Ht eq_refl) as [Hp _].
    destruct (used_lookup q r (pending_used _ _ Hp)) as (req & Hreq & _).
    eexists _, _, l. split_and!; [by eapply step_account| |].
    + apply (inv_local q _ th l t (Account i r lat)); try done; try apply Hinv.
      destruct Hp as [b Hb]. split; [|apply Hinv]. simpl.
      apply (inv_range _ _ _ Hinv) with (i := r) (c := false). rewrite Hb. unfold status in Hb.
      rewrite Hreq in Hb. simpl in Hb. congruence.
    + specialize (Hload (Io i r) l). simpl in *. lia.
  - eexists q, _, l. split_and!; [by eapply step_io| |].
    + eapply inv_local; eauto; first [done | apply Hinv].
    + specialize (Hload (Complete i r) l). simpl in *. lia.
  - eexists _, _, l. split_and!; [by eapply step_complete|by apply inv_complete|].
    assert ((wake r <$> th) !! t = Some (Complete i r)) as Ht' by (by rewrite list_lookup_fmap, Ht).
    pose proof (load_insert _ _ _ (Dispatch i) l Ht'). pose proof (load_wake r th l).
    simpl in *. lia.
Qed.

(** With no dispatcher every waiting process finds its request completed. *)
Lemma waiter_moves q th l t x :
  inv q th l → dq_busy q = false → th !! t = Some x → x ≠ Idle →
  ∃ q' th', step (mkSys q th) (mkSys q' th') ∧ inv q' th' l ∧ load th' l < load th l.
Proof.
  intros Hinv Hb Ht Hx.
  assert (∀ i, ¬ pending q i) as Hnp.
  { intros i [Hi|(u & y & Hy & Hs)]%(inv_pending _ _ _ Hinv).
    - rewrite (inv_nonempty _ _ _ Hinv) in Hb; [done|]. intros ->. by apply elem_of_nil in Hi.
    - rewrite (proj2 (inv_busy _ _ _ Hinv)) in Hb; [done|eauto using serving_dispatching]. }
  assert (dispatching x = false) as Hnd.
  { apply not_true_is_false. intros Hd. rewrite (proj2 (inv_busy _ _ _ Hinv)) in Hb; [done|eauto]. }
  destruct x as [| | | | | |i|i]; try done; [by destruct (Hnp i); eapply inv_asleep|].
  destruct (inv_own _ _ _ Hinv t _ i Ht eq_refl) as (c & b & Hs).
  destruct (used_lookup q i) as (req & Hreq & _); [by eexists _, _|].
  assert (rq_completed req = true) as Hc.
  { destruct c; [|by destruct (Hnp i); eexists]. unfold status in Hs. rewrite Hreq in Hs.
    simpl in Hs. congruence. }
  eexists _, _. split_and!; [by eapply step_free|by eapply inv_free|].
  pose proof (load_insert th t (Awake i) Idle l Ht). simpl in *. lia.
Qed.

Lemma drain_ind m q th l :
  inv q th l → load th l ≤ m →
  ∃ s', rtc step (mkSys q th) s' ∧ ∀ t x, threads s' !! t = Some x → x = Idle.
Proof.
  revert q th l. induction m as [m IH] using lt_wf_ind. intros q th l Hinv Hm.
  destruct (list_find (λ x, dispatching x = true) th) as [[t x]|] eqn:E.
  { apply list_find_Some in E as (Ht & Hd & _).
    destruct (dispatcher_moves _ _ _ _ _ Hinv Ht Hd) as (q' & th' & l' & Hs & Hinv' & Hlt).
    destruct (IH (load th' l') ltac:(lia) q' th' l' Hinv' ltac:(done)) as (s' & Hr & Hi).
    exists s'. split; [by eapply rtc_l|done]. }
  apply list_find_None in E. rewrite Forall_lookup in E.
  assert (dq_busy q = false) as Hb.
  { apply not_true_is_false. intros (t & x & Hx & Hd)%(inv_busy _ _ _ Hinv). by eapply E. }
  destruct (list_find (λ x, weight x ≠ 0) th) as [[t x]|] eqn:E2.
  - apply list_find_Some in E2 as (Ht & Hw & _).
    destruct (waiter_moves q th l t x) as (q' & th' & Hs & Hinv' & Hlt);
      [done..|intros ->; done|].
    destruct (IH (load th' l) ltac:(lia) q' th' l Hinv' ltac:(done)) as (s' & Hr & Hi).
    exists s'. split; [by eapply rtc_l|done].
  - exists (mkSys q th). split; [done|]. simpl. intros t x Hx.
    apply list_find_None in E2. rewrite Forall_lookup in E2. specialize (E2 t x Hx).
    destruct x; simpl in E2; try done; by destruct E2.
Qed.

(** ** The latency is computed outside the lock but never stale *)
Definition fresh_latency (s : sys) : Prop :=
  ∀ t i r lat, threads s !! t = Some (Account i r lat) →
    ∃ u c b, status (sq s) r = Some (u, c, b) ∧
      lat = i32 (seek_dist b (current_disk_head (sq s)) + DISK_LATENCY_C).

Lemma fresh_latency_step s s' : sinv s → fresh_latency s → step s s' → fresh_latency s'.
Proof.
  intros [l Hinv] Hf Hstep.
  pose proof (λ j Hj, pending_used _ _ (inv_listed _ _ _ Hinv j Hj)) as Hlu.
  (* another dispatcher in [Account] while thread [t] dispatches *)
  assert (∀ t x t0 i0 r0 lat0, threads s !! t = Some x → dispatching x = true → t0 ≠ t →
    threads s !! t0 = Some (Account i0 r0 lat0) → False) as Hone.
  { intros t x t0 i0 r0 lat0 Hx Hd Hne H0. apply Hne. by eapply (inv_one _ _ _ Hinv). }
  assert (∀ t0 i0 r0 lat0, threads s !! t0 = Some (Account i0 r0 lat0) → pending (sq s) r0) as Hpend.
  { intros t0 i0 r0 lat0 H0. by apply (inv_serving _ _ _ Hinv t0 _ r0 H0). }
  destruct Hstep; intros t0 i0 r0 lat0 Hacc; simpl in *.
  - match goal with H : submit_locked _ _ _ _ _ = _ |- _ =>
      apply (submit_inv _ _ _ _ _ _ _ _ _ (inv_queue _ _ _ Hinv) Hlu) in H
      as (_ & (c' & b' & Hi) & _ & _ & Hoth & _ & _ & Hh & _) end.
    thread_cases; [by destruct d|]. destruct (Hpend _ _ _ _ Hacc) as [b0 Hb0].
    rewrite Hoth, Hh by (intros ->; congruence). eauto.
  - thread_cases. exfalso. eauto.
  - thread_cases. exfalso. eauto.
  - thread_cases; [|exfalso; eauto]. unfold status.
    match goal with H : req_pool q !! _ = Some _ |- _ => rewrite H end. simpl.
    unfold seek_latency, gets in *. simplify_eq. eauto.
  - thread_cases. exfalso. eauto.
  - thread_cases. exfalso. eauto.
  - thread_cases. apply wake_lookup in Hacc as (x & Hacc & Hx).
    destruct x; simpl in Hx; try (by case_decide); simplify_eq. exfalso. eauto.
  - thread_cases. unfold free_req, upd_req, modify in *. simplify_eq. rewrite status_alter.
    destruct (Hpend _ _ _ _ Hacc) as [b0 Hb0]. rewrite decide_False; [by eauto|]. intros ->.
    unfold status in Hb0. match goal with H : req_pool q !! _ = Some _ |- _ => rewrite H in Hb0 end.
    simplify_eq/=. congruence.
  - thread_cases. eauto.
  - thread_cases. eauto.
Qed.

Lemma fresh_latency_reachable policy n s : reachable policy n s → fresh_latency s.
Proof.
  unfold reachable. intros Hr.
  assert (fresh_latency (sys0 policy n)) as H1.
  { intros t i r lat Ht. simpl in Ht. by apply lookup_replicate in Ht as [? _]. }
  pose proof (sinv_init policy n) as H0. revert Hr H0 H1.
  generalize (sys0 policy n). intros s0. induction 1; eauto using sinv_step, fresh_latency_step.
Qed.
