(* ===== verification/DiskProps.v ===== *)
(** * Properties of disk scheduling

    The request queue refines a list served in policy order; the protocol
    around it loses no wake-up, has one dispatcher, never exhausts its pool
    and can always drain. *)
From stdpp Require Import relations.
From S2P Require Import Prelude DiskQueue DiskProto.

Section props.
Variable lvl : nat → Z.

(** [C10] [dequeue_disk_request_locked] refines the scheduling policy.  On a
    queue that holds the requests [rs] at pool entries [l], it returns null
    and changes nothing when the queue is empty; otherwise it takes one
    entry out, leaves the others in order with their data, and touches no
    other global.  Under FCFS the entry is the oldest.  Under SSTF no other
    request is nearer to the disk head, on equal distance none belongs to a
    process of a better MLFQ level, and it is the oldest such request. *)
Theorem dequeue_refines_policy q l rs :
  is_queue q l → reqs_of q l rs → blocks_ok (current_disk_head q) rs →
  (l = [] ∧ dequeue_disk_request_locked lvl q = Ok (None, q)) ∨
  ∃ k i r q', dequeue_disk_request_locked lvl q = Ok (Some i, q') ∧
    l !! k = Some i ∧ rs !! k = Some r ∧
    is_queue q' (delete k l) ∧ req_data <$> req_pool q' = req_data <$> req_pool q ∧
    same_globals q q' ∧
    (disk_sched_policy q ≠ 1%Z → k = 0) ∧
    (disk_sched_policy q = 1%Z → ∀ j r', rs !! j = Some r' →
      let d x := Z.abs (rq_blockno x - current_disk_head q) in
      (d r ≤ d r')%Z ∧
      (d r = d r' → req_level lvl r ≤ req_level lvl r')%Z ∧
      (d r = d r' → req_level lvl r = req_level lvl r' → k ≤ j)).
Proof.
  intros Hq Hrs Hok. destruct (decide (l = [])) as [->|Hne].
  { left. split; [done|]. by apply dequeue_empty. }
  right. destruct (dequeue_ok lvl q l rs Hq Hne Hrs Hok)
    as (k & i & q' & E & Hk & Hpol & Hq' & Hd & Hg).
  destruct (Forall2_lookup_l _ _ _ _ _ Hrs Hk) as (r & Hr & _).
  exists k, i, r, q'. split_and!; try done.
  - intros Hp. unfold policy_choice in Hpol. by rewrite decide_False in Hpol.
  - intros Hp j r' Hj d. unfold policy_choice in Hpol. rewrite decide_True in Hpol by done.
    destruct Hpol as (r0 & Hr0 & Hbest). assert (r0 = r) as -> by congruence.
    destruct (Hbest j r' Hj) as [Hn Hlt]. destruct Hok as [Hh Hb]. rewrite Forall_lookup in Hb.
    unfold closer in Hn, Hlt. rewrite !seek_dist_abs in Hn, Hlt by eauto.
    subst d. split_and!; [lia..|]. intros He Hl. destruct (decide (j < k)); [|lia].
    destruct Hlt; lia.
Qed.

(** [enqueue_disk_request_locked] appends: the walk to the tail ends
    within the pool size, the queue becomes the old one with the request at
    its end, and the requests keep their data. *)
Theorem enqueue_appends q l i :
  is_queue q l → i ∉ l → i < length (req_pool q) →
  ∃ q', enqueue_disk_request_locked i q = Ok (tt, q') ∧ is_queue q' (l ++ [i]) ∧
        req_data <$> req_pool q' = req_data <$> req_pool q ∧ same_globals q q'.
Proof. apply enqueue_ok. Qed.
End props.

(** [C12] No wake-up is lost.  Whenever a process sleeps on its request, the
    request is not completed, it is still in the queue or in service, and some
    process is running the dispatcher that will complete it and wake the
    sleeper. *)
Theorem no_lost_wakeup policy n s t i :
  reachable policy n s → threads s !! t = Some (Asleep i) →
  pending (sq s) i ∧
  ∃ l t' x', is_queue (sq s) l ∧ threads s !! t' = Some x' ∧ dispatching x' = true ∧
    (i ∈ l ∨ serving x' = Some i).
Proof.
  intros [l Hinv]%sinv_reachable Ht. pose proof (inv_asleep _ _ _ Hinv t i Ht) as Hp.
  split; [done|]. exists l. destruct (inv_pending _ _ _ Hinv i Hp) as [Hi|(t' & x' & Hx & Hs)].
  - assert (dq_busy (sq s) = true) as Hb.
    { apply (inv_nonempty _ _ _ Hinv). intros ->. by apply elem_of_nil in Hi. }
    apply (inv_busy _ _ _ Hinv) in Hb as (t' & x' & Hx & Hd).
    exists t', x'. split_and!; [apply Hinv|done..|by left].
  - exists t', x'. split_and!; [apply Hinv|done|by eapply serving_dispatching|by right].
Qed.

(** [C13] [disk_queue.busy] is a lock: it is set exactly while some process is
    in [run_disk_dispatcher], there is never more than one, and when that
    process finds the queue empty and leaves, its own request has been
    completed, so it does not go to sleep with nobody to wake it. *)
Theorem one_dispatcher policy n s :
  reachable policy n s →
  (dq_busy (sq s) = true ↔ ∃ t x, threads s !! t = Some x ∧ dispatching x = true) ∧
  (∀ t1 t2 x1 x2, threads s !! t1 = Some x1 → threads s !! t2 = Some x2 →
     dispatching x1 = true → dispatching x2 = true → t1 = t2) ∧
  (∀ lvl t i q', threads s !! t = Some (Dispatch i) → dispatch_take lvl (sq s) = Ok (None, q') →
     ∃ b, status q' i = Some (true, true, b)).
Proof.
  intros [l Hinv]%sinv_reachable. split_and!; [apply Hinv..|].
  intros lvl t i q' Ht E. destruct (inv_stop _ _ _ _ _ _ _ Hinv Ht E) as (-> & -> & Hinv').
  destruct (inv_own _ _ _ Hinv t _ i Ht eq_refl) as ([] & b & Hs); [by exists b|].
  destruct (inv_pending _ _ _ Hinv i) as [Hi|(u & y & Hy & Hser)]; [by exists b| |].
  - by apply elem_of_nil in Hi.
  - assert (u = t) as -> by (eapply (inv_one _ _ _ Hinv); eauto using serving_dispatching).
    by simplify_eq/=.
Qed.

(** The panic "request pool exhausted" cannot happen with at most
    [MAX_DISK_REQS] processes: whenever a process enters
    [submit_disk_request], a request is allocated and queued. *)
Theorem pool_never_exhausted policy n s t b blockno type :
  reachable policy n s → n ≤ MAX_DISK_REQS → threads s !! t = Some Idle →
  ∃ i d q', submit_locked b blockno type (Some t) (sq s) = Ok (Some (i, d), q').
Proof.
  intros Hr Hn Ht. pose proof (sinv_reachable _ _ _ Hr) as Hs.
  destruct (free_entry_exists n s t) as (i & c & b0 & Hi); eauto using sized_reachable.
  destruct Hs as [l Hinv]. eapply submit_ok; [apply Hinv| |done].
  intros j Hj. apply pending_used. by apply Hinv.
Qed.


(** The dispatcher computes the latency of a request with no lock held,
    and the value is still right when it is added to the statistics: at that
    point it is the distance from the current head position plus the
    constant 5, and no [int] overflow happened in it. *)
Theorem latency_never_stale policy n s t i r lat :
  reachable policy n s → threads s !! t = Some (Account i r lat) →
  ∃ b, status (sq s) r = Some (true, false, b) ∧
    (lat = i32 (Z.abs (b - current_disk_head (sq s)) + 5))%Z ∧
    (Z.abs (b - current_disk_head (sq s)) < 2 ^ 31 - 5 →
     lat = Z.abs (b - current_disk_head (sq s)) + 5)%Z.
Proof.
  intros Hr Ht. destruct (fresh_latency_reachable _ _ _ Hr t i r lat Ht) as (u & c & b & Hs & ->).
  destruct (sinv_reachable _ _ _ Hr) as [l Hinv].
  destruct (inv_serving _ _ _ Hinv t _ r Ht eq_refl) as [[b' Hb'] _].
  rewrite Hs in Hb'. simplify_eq. exists b'. split; [done|].
  destruct (inv_range _ _ _ Hinv) as [Hh Hblk]. specialize (Hblk _ _ _ Hs).
  rewrite seek_dist_abs by done. unfold DISK_LATENCY_C. split; [done|].
  intros. rewrite i32_id; lia.
Qed.

(** ** A concrete run: two processes, SSTF *)
Module DiskRuns.

Definition run_q {A} (m : M disk_queue A) (q : disk_queue) : disk_queue :=
  match m q with Ok (_, q') => q' | _ => q end.

(** Process 0 asks for block 30 and becomes the dispatcher, process 1 asks
    for block 7 and sleeps; then the dispatcher takes block 7. *)
Definition q1 := run_q (submit_locked 0 30 DISK_REQ_READ (Some 0)) (queue0 1).
Definition q2 := run_q (submit_locked 1 7 DISK_REQ_WRITE (Some 1)) q1.
Definition q3 := run_q (dispatch_take (λ _, 0%Z)) q2.

Definition s2 := mkSys q2 [Dispatch 0; Asleep 1].
Definition s3 := mkSys q3 [Seek 0 1; Asleep 1].
Definition s4 := mkSys q3 [Account 0 1 12; Asleep 1].

Lemma s2_reachable : reachable 1 2 s2.
Proof.
  apply (rtc_l _ _ (mkSys q1 [Dispatch 0; Idle])).
  - apply (step_submit 0 0 30 DISK_REQ_READ _ q1 [Idle; Idle] 0 true); [done|done|].
    vm_compute. reflexivity.
  - apply rtc_once. apply (step_submit 1 1 7 DISK_REQ_WRITE _ q2 [Dispatch 0; Idle] 1 false);
      [done|done|]. vm_compute. reflexivity.
Qed.

Lemma s4_reachable : reachable 1 2 s4.
Proof.
  apply (rtc_r _ s3); [apply (rtc_r _ s2); [apply s2_reachable|]|].
  - apply (step_take (λ _, 0%Z) 0 _ q3 [Dispatch 0; Asleep 1] 0 1); [done|].
    vm_compute. reflexivity.
  - eapply (step_seek 0 _ [Seek 0 1; Asleep 1] 0 1); [done|vm_compute; reflexivity|].
    vm_compute. reflexivity.
Qed.

Definition w_reqs : list disk_request :=
  [mkReq 0 30 DISK_REQ_READ (Some 0) true false (Some 1);
   mkReq 1 7 DISK_REQ_WRITE (Some 1) true false None].

Lemma q2_queue : is_queue q2 [0; 1] ∧ reqs_of q2 [0; 1] w_reqs ∧ blocks_ok (current_disk_head q2) w_reqs.
Proof.
  split_and!.
  - split; [|by apply (bool_decide_unpack (NoDup [0; 1])); vm_compute].
    simpl. split; [done|]. eexists. split; [vm_compute; reflexivity|].
    split; [done|]. eexists. split; [vm_compute; reflexivity|done].
  - repeat constructor; vm_compute; reflexivity.
  - split; [vm_compute; done|]. repeat constructor; vm_compute; done.
Qed.

Lemma dequeue_refines_policy_witness :
  ∃ k i q', dequeue_disk_request_locked (λ _, 0%Z) q2 = Ok (Some i, q') ∧ [0; 1] !! k = Some i.
Proof.
  destruct q2_queue as (Hq & Hr & Hb).
  destruct (dequeue_refines_policy (λ _, 0%Z) q2 [0; 1] w_reqs Hq Hr Hb)
    as [[? _]|(k & i & r & q' & E & Hk & _)]; [discriminate|].
  exists k, i, q'. split; [exact E|exact Hk].
Defined.

Lemma enqueue_appends_witness :
  ∃ q', enqueue_disk_request_locked 5 q2 = Ok (tt, q') ∧ is_queue q' [0; 1; 5].
Proof.
  destruct q2_queue as (Hq & _ & _).
  destruct (enqueue_appends q2 [0; 1] 5 Hq) as (q' & E & Hq' & _);
    [apply (bool_decide_unpack (5 ∉ [0; 1])); vm_compute; exact I|vm_compute; lia|].
  exists q'. split; [exact E|exact Hq'].
Defined.

Lemma no_lost_wakeup_witness : pending (sq s2) 1.
Proof. exact (proj1 (no_lost_wakeup 1 2 s2 1 1 s2_reachable eq_refl)). Defined.

Lemma one_dispatcher_witness :
  dq_busy (sq s2) = true ↔ ∃ t x, threads s2 !! t = Some x ∧ dispatching x = true.
Proof. exact (proj1 (one_dispatcher 1 2 s2 s2_reachable)). Defined.

Lemma pool_never_exhausted_witness :
  ∃ i d q', submit_locked 3 9 DISK_REQ_READ (Some 2) (sq (sys0 0 3)) = Ok (Some (i, d), q').
Proof.
  apply (pool_never_exhausted 0 3 (sys0 0 3) 2); [apply rtc_refl|vm_compute; lia|reflexivity].
Defined.


Lemma latency_never_stale_witness : ∃ b, status (sq s4) 1 = Some (true, false, b).
Proof.
  destruct (latency_never_stale 1 2 s4 0 0 1 12 s4_reachable eq_refl) as (b & Hb & _).
  exists b. exact Hb.
Defined.
End DiskRuns.
