(* ===== verification/Bio.v ===== *)
(** * The buffer cache (kernel/bio.c:45-92, 185-342)

    [NBUF] buffers on a circular doubly linked list whose head is the
    sentinel [bcache.head]; the list is ordered by last release.  [bget]
    looks a block up or recycles the least recently used free buffer, [bread]
    fills it through the request queue, [bwrite] writes it through, [brelse]
    moves it to the front.  This file runs one process at a time: its
    requests go through [submit_disk_request] and the dispatcher of
    [DiskQueue], and a [sleep] that nobody could end is the outcome
    [Blocked].  The interface [BlockIO] that the RAID layer uses is
    discharged at the end. *)
From S2P Require Import Prelude Interfaces DiskQueue DiskProto.
Local Open Scope Z_scope.

(** [struct buf] (buf.h), the fields bio.c uses; pointers are indices, the
    sentinel is index [NBUF]; [dev], [blockno] and [refcnt] are [uint]. *)
Record buf `{SleepLock} := mkBuf {
  b_valid : bool;
  b_dev : Z;
  b_blockno : Z;
  b_lock : sleeplock;
  b_refcnt : Z;
  b_prev : nat;
  b_next : nat;
  b_data : bytes;
}.

(** The globals of bio.c with the driver below, the running process and the
    MLFQ levels the scheduler reads. *)
Record bio `{SleepLock} (D : Type) := mkBio {
  bufs : list buf;
  bq : disk_queue;
  drv : D;
  self : option nat;
  levels : nat → Z;
}.
Arguments mkBio {_ D}.
Arguments bufs {_ D}.
Arguments bq {_ D}.
Arguments drv {_ D}.
Arguments self {_ D}.
Arguments levels {_ D}.

Section setters.
Context `{SleepLock}.
Definition set_valid (v : bool) (b : buf) : buf :=
  mkBuf _ v (b_dev b) (b_blockno b) (b_lock b) (b_refcnt b) (b_prev b) (b_next b) (b_data b).
Definition set_id (dev blockno : Z) (b : buf) : buf :=
  mkBuf _ (b_valid b) dev blockno (b_lock b) (b_refcnt b) (b_prev b) (b_next b) (b_data b).
Definition set_lock (l : sleeplock) (b : buf) : buf :=
  mkBuf _ (b_valid b) (b_dev b) (b_blockno b) l (b_refcnt b) (b_prev b) (b_next b) (b_data b).
Definition set_refcnt (n : Z) (b : buf) : buf :=
  mkBuf _ (b_valid b) (b_dev b) (b_blockno b) (b_lock b) n (b_prev b) (b_next b) (b_data b).
Definition set_prev (p : nat) (b : buf) : buf :=
  mkBuf _ (b_valid b) (b_dev b) (b_blockno b) (b_lock b) (b_refcnt b) p (b_next b) (b_data b).
Definition set_bnext (n : nat) (b : buf) : buf :=
  mkBuf _ (b_valid b) (b_dev b) (b_blockno b) (b_lock b) (b_refcnt b) (b_prev b) n (b_data b).
Definition set_data (d : bytes) (b : buf) : buf :=
  mkBuf _ (b_valid b) (b_dev b) (b_blockno b) (b_lock b) (b_refcnt b) (b_prev b) (b_next b) d.

Context {D : Type}.
Definition with_bufs (l : list buf) (s : bio D) : bio D :=
  mkBio l (bq s) (drv s) (self s) (levels s).
Definition with_bq (q : disk_queue) (s : bio D) : bio D :=
  mkBio (bufs s) q (drv s) (self s) (levels s).
Definition with_drv (d : D) (s : bio D) : bio D :=
  mkBio (bufs s) (bq s) d (self s) (levels s).

Definition upd_buf (i : nat) (f : buf → buf) : M (bio D) unit :=
  modify (λ s, with_bufs (alter f i (bufs s)) s).
Definition get_buf (i : nat) : M (bio D) buf :=
  let* l := gets bufs in deref (l !! i).

(** An operation on the request queue, and one of the driver. *)
Definition lift_q {A} (m : M disk_queue A) : M (bio D) A := λ s,
  match m (bq s) with
  | Ok (a, q) => Ok (a, with_bq q s)
  | Panic msg => Panic msg
  | Ub => Ub
  | Blocked => Blocked
  | NoFuel => NoFuel
  end.
Definition lift_drv {A} (m : M D A) : M (bio D) A := λ s,
  match m (drv s) with
  | Ok (a, d) => Ok (a, with_drv d s)
  | Panic msg => Panic msg
  | Ub => Ub
  | Blocked => Blocked
  | NoFuel => NoFuel
  end.
End setters.

Section ops.
Context `{BlockParams} `{BcacheParams} `{SleepLock} {D : Type} `{!DiskDriver D}.

(** [&bcache.head] *)
Definition bhead : nat := NBUF.

(** bio.c:75-81, one round: insert [b] after the head *)
Definition insert_front (b : nat) : M (bio D) unit :=
  let* h := get_buf bhead in
  upd_buf b (set_bnext (b_next h)) ;;;
  upd_buf b (set_prev bhead) ;;;
  upd_buf (b_next h) (set_prev b) ;;;
  upd_buf bhead (set_bnext b).

(** bio.c:65-92 *)
Definition binit : M (bio D) unit :=
  upd_buf bhead (set_prev bhead) ;;;
  upd_buf bhead (set_bnext bhead) ;;;
  for_list (seq 0 NBUF) (λ b _,
    let* h := get_buf bhead in
    upd_buf b (set_bnext (b_next h)) ;;;
    upd_buf b (set_prev bhead) ;;;
    upd_buf b (set_lock initsleeplock) ;;;
    upd_buf (b_next h) (set_prev b) ;;;
    upd_buf bhead (set_bnext b)) tt ;;;
  lift_q (modify (with_head None) ;;;
          modify (with_busy false) ;;;
          modify (λ q, with_pool (set_status false false <$> req_pool q) q)).

(** bio.c:214: [virtio_disk_rw(r->b, r->type == DISK_REQ_WRITE)] *)
Definition transfer (r : disk_request) : M (bio D) unit :=
  let* b := get_buf (rq_b r) in
  let* d := lift_drv (virtio_disk_rw (b_blockno b) (b_data b)
                        (bool_decide (rq_type r = DISK_REQ_WRITE))) in
  upd_buf (rq_b r) (set_data d).

(** bio.c:185-221 *)
Fixpoint run_disk_dispatcher (fuel : nat) : M (bio D) unit :=
  match fuel with
  | O => fail NoFuel
  | S fuel =>
    let* lvl := gets levels in
    let* o := lift_q (dispatch_take lvl) in
    match o with
    | None => ret tt
    | Some i =>
      let* r := lift_q (get_req i) in
      let* latency := lift_q (seek_latency r) in
      lift_q (account_request r latency) ;;;
      transfer r ;;;
      lift_q (complete_request i) ;;;
      run_disk_dispatcher fuel
    end
  end.

(** bio.c:223-252; [2 + MAX_DISK_REQS] rounds of the dispatcher are enough,
    one per request and one that finds the queue empty *)
Definition submit_disk_request (b : nat) (type : Z) : M (bio D) unit :=
  let* x := get_buf b in
  let* p := gets self in
  let* o := lift_q (submit_locked b (i32 (b_blockno x)) type p) in
  match o with
  | None => panic "submit_disk_request: request pool exhausted"
  | Some (i, dispatch) =>
    (if dispatch then run_disk_dispatcher (2 + MAX_DISK_REQS) else ret tt) ;;;
    let* r := lift_q (get_req i) in
    if rq_completed r then lift_q (free_req i) else fail Blocked
  end.

(** bio.c:261-268: the buffer that already holds the block *)
Fixpoint find_cached (fuel : nat) (dev blockno : Z) (p : nat) : M (bio D) (option nat) :=
  if decide (p = bhead) then ret None else
  match fuel with
  | O => fail NoFuel
  | S fuel =>
    let* b := get_buf p in
    if decide (b_dev b = dev ∧ b_blockno b = blockno) then ret (Some p)
    else find_cached fuel dev blockno (b_next b)
  end.

(** bio.c:270-280: the least recently used free buffer *)
Fixpoint find_victim (fuel : nat) (p : nat) : M (bio D) (option nat) :=
  if decide (p = bhead) then ret None else
  match fuel with
  | O => fail NoFuel
  | S fuel =>
    let* b := get_buf p in
    if decide (b_refcnt b = 0) then ret (Some p) else find_victim fuel (b_prev b)
  end.

Definition acquire_buf (i : nat) : M (bio D) unit :=
  let* b := get_buf i in
  match acquiresleep (b_lock b) with
  | Ok l => upd_buf i (set_lock l)
  | Panic msg => panic msg
  | Ub => fail Ub
  | Blocked => fail Blocked
  | NoFuel => fail NoFuel
  end.

(** bio.c:254-283 *)
Definition bget (dev blockno : Z) : M (bio D) nat :=
  let* h := get_buf bhead in
  let* o := find_cached NBUF dev blockno (b_next h) in
  match o with
  | Some i =>
    upd_buf i (λ b, set_refcnt (u32 (b_refcnt b + 1)) b) ;;;
    acquire_buf i ;;;
    ret i
  | None =>
    let* h := get_buf bhead in
    let* v := find_victim NBUF (b_prev h) in
    match v with
    | Some i =>
      upd_buf i (set_id dev blockno) ;;;
      upd_buf i (set_valid false) ;;;
      upd_buf i (set_refcnt 1) ;;;
      acquire_buf i ;;;
      ret i
    | None => panic "bget: no buffers"
    end
  end.

(** bio.c:285-296 *)
Definition bio_bread (dev blockno : Z) : M (bio D) nat :=
  let* i := bget dev blockno in
  let* b := get_buf i in
  (if b_valid b then ret tt
   else submit_disk_request i DISK_REQ_READ ;;; upd_buf i (set_valid true)) ;;;
  ret i.

(** bio.c:298-305 *)
Definition bio_bwrite (i : nat) : M (bio D) unit :=
  let* b := get_buf i in
  if holdingsleep (b_lock b) then submit_disk_request i DISK_REQ_WRITE else panic "bwrite".

(** bio.c:307-326 *)
Definition bio_brelse (i : nat) : M (bio D) unit :=
  let* b := get_buf i in
  if holdingsleep (b_lock b) then
    upd_buf i (λ b, set_lock (releasesleep (b_lock b)) b) ;;;
    upd_buf i (λ b, set_refcnt (u32 (b_refcnt b - 1)) b) ;;;
    let* b := get_buf i in
    if decide (b_refcnt b = 0) then
      upd_buf (b_next b) (set_prev (b_prev b)) ;;;
      upd_buf (b_prev b) (set_bnext (b_next b)) ;;;
      insert_front i
    else ret tt
  else panic "brelse".

(** bio.c:328-342 *)
Definition bpin (i : nat) : M (bio D) unit := upd_buf i (λ b, set_refcnt (u32 (b_refcnt b + 1)) b).
Definition bunpin (i : nat) : M (bio D) unit := upd_buf i (λ b, set_refcnt (u32 (b_refcnt b - 1)) b).

#[export] Instance bio_block_io : BlockIO (bio D) := {|
  handle := nat;
  bread := bio_bread;
  bdata s i := match bufs s !! i with Some b => b_data b | None => [] end;
  set_bdata i d s := with_bufs (alter (set_data d) i (bufs s)) s;
  bwrite := bio_bwrite;
  brelse := bio_brelse;
|}.
End ops.
Local Close Scope Z_scope.

(** ** The ring of buffers *)
Section ring.
Context `{BcacheParams} `{SleepLock}.
Implicit Types bs : list buf.

Definition nxt bs (a : nat) : option nat := b_next <$> bs !! a.
Definition prv bs (a : nat) : option nat := b_prev <$> bs !! a.
Definition adj bs (a b : nat) : Prop := nxt bs a = Some b ∧ prv bs b = Some a.

Fixpoint adjs bs (l : list nat) : Prop :=
  match l with
  | a :: ((b :: _) as t) => adj bs a b ∧ adjs bs t
  | _ => True
  end.

(** [l] is the list from the head on, most recently released first. *)
Definition ring bs (l : list nat) : Prop :=
  adjs bs (bhead :: l ++ [bhead]) ∧ l ≡ₚ seq 0 NBUF.

Lemma adjs_cons bs a b t : adjs bs (a :: b :: t) ↔ adj bs a b ∧ adjs bs (b :: t).
Proof. done. Qed.

Lemma adjs_app bs l1 x l2 : adjs bs (l1 ++ x :: l2) ↔ adjs bs (l1 ++ [x]) ∧ adjs bs (x :: l2).
Proof.
  induction l1 as [|a l1 IH]; [simpl; tauto|].
  destruct l1 as [|b l1]; [simpl in *; tauto|].
  change (adj bs a b ∧ adjs bs ((b :: l1) ++ x :: l2) ↔
    (adj bs a b ∧ adjs bs ((b :: l1) ++ [x])) ∧ adjs bs (x :: l2)).
  rewrite IH. tauto.
Qed.

(** Only the [next] fields of all but the last and the [prev] fields of all
    but the first matter. *)
Lemma adjs_ext bs bs' l x :
  (∀ a, a ∈ removelast (x :: l) → nxt bs' a = nxt bs a) →
  (∀ a, a ∈ l → prv bs' a = prv bs a) →
  adjs bs (x :: l) → adjs bs' (x :: l).
Proof.
  revert x. induction l as [|y l IH]; intros x Hn Hp; [done|].
  rewrite !adjs_cons. intros [[H1 H2] H3]. split.
  - unfold adj. rewrite Hn, Hp; [done|set_solver|]. simpl. destruct l; set_solver.
  - apply IH; [|set_solver|done]. intros a Ha. apply Hn. simpl in *. destruct l; set_solver.
Qed.

Lemma nxt_alter f i bs a :
  nxt (alter f i bs) a = if decide (a = i) then (λ b, b_next (f b)) <$> bs !! i else nxt bs a.
Proof.
  unfold nxt. case_decide as Hai; [subst; rewrite list_lookup_alter_eq|by rewrite list_lookup_alter_ne].
  by destruct (bs !! i).
Qed.
Lemma prv_alter f i bs a :
  prv (alter f i bs) a = if decide (a = i) then (λ b, b_prev (f b)) <$> bs !! i else prv bs a.
Proof.
  unfold prv. case_decide as Hai; [subst; rewrite list_lookup_alter_eq|by rewrite list_lookup_alter_ne].
  by destruct (bs !! i).
Qed.

(** Updates of the other fields leave the ring alone. *)
Lemma ring_alter f i bs l :
  (∀ b, b_next (f b) = b_next b) → (∀ b, b_prev (f b) = b_prev b) →
  ring bs l → ring (alter f i bs) l.
Proof.
  intros Hn Hp [Ha Hperm]. split; [|done]. revert Ha. apply adjs_ext; intros a _.
  - rewrite nxt_alter. case_decide; [subst|done]. unfold nxt. destruct (bs !! i); simpl; congruence.
  - rewrite prv_alter. case_decide; [subst|done]. unfold prv. destruct (bs !! i); simpl; congruence.
Qed.

Lemma ring_NoDup bs l : ring bs l → NoDup l ∧ bhead ∉ l.
Proof.
  intros [_ Hp]. split; [rewrite Hp; apply NoDup_seq|]. rewrite Hp.
  unfold bhead. rewrite elem_of_seq. lia.
Qed.

(** The neighbours of a buffer of the ring. *)
Lemma ring_split bs l1 i l2 :
  ring bs (l1 ++ i :: l2) →
  ∃ A p n B, bhead :: l1 = A ++ [p] ∧ l2 ++ [bhead] = n :: B ∧
    adjs bs (A ++ [p]) ∧ adj bs p i ∧ adj bs i n ∧ adjs bs (n :: B).
Proof.
  intros [Ha _].
  destruct (exists_last (l := bhead :: l1)) as (A & p & HA); [done|].
  destruct (l2 ++ [bhead]) as [|n B] eqn:HB; [by destruct l2|].
  exists A, p, n, B. rewrite <- app_assoc in Ha.
  change (bhead :: l1 ++ (i :: l2) ++ [bhead]) with ((bhead :: l1) ++ i :: (l2 ++ [bhead])) in Ha.
  rewrite HA, HB, <- app_assoc in Ha. simpl in Ha.
  apply adjs_app in Ha as [H1 H2]. rewrite !adjs_cons in H2.
  split; [by rewrite <- HA|]. tauto.
Qed.

Lemma adjs_ext_snoc bs bs' A p :
  (∀ a, a ∈ A → nxt bs' a = nxt bs a) →
  (∀ a, a ∈ A ++ [p] → head (A ++ [p]) ≠ Some a → prv bs' a = prv bs a) →
  NoDup (A ++ [p]) → adjs bs (A ++ [p]) → adjs bs' (A ++ [p]).
Proof.
  intros Hn Hp Hnd. destruct A as [|x A]; [done|]. simpl. apply adjs_ext.
  - intros a Ha. apply Hn. rewrite app_comm_cons, removelast_last in Ha. done.
  - intros a Ha. apply Hp; [set_solver|]. simpl. intros [= ->].
    simpl in Hnd. apply NoDup_cons in Hnd as [? _]. done.
Qed.

Lemma is_Some_nxt bs a : is_Some (bs !! a) ↔ is_Some (nxt bs a).
Proof. unfold nxt. by rewrite fmap_is_Some. Qed.
Lemma is_Some_prv bs a : is_Some (bs !! a) ↔ is_Some (prv bs a).
Proof. unfold prv. by rewrite fmap_is_Some. Qed.

(** bio.c:318-319 takes a buffer out of the ring. *)
Lemma ring_unlink bs l1 i l2 p n :
  ring bs (l1 ++ i :: l2) → prv bs i = Some p → nxt bs i = Some n →
  adjs (alter (set_bnext n) p (alter (set_prev p) n bs)) (bhead :: (l1 ++ l2) ++ [bhead]).
Proof.
  intros Hr Hpi Hni. pose proof (ring_NoDup _ _ Hr) as [Hnd Hbh].
  destruct (ring_split _ _ _ _ Hr) as (A & p' & n' & B & HA & HB & Ha1 & [Hp1 Hp2] & [Hn1 Hn2] & Ha2).
  assert (p' = p) as -> by congruence. assert (n' = n) as -> by congruence.
  assert (NoDup (A ++ [p])) as HndA.
  { rewrite <- HA. apply NoDup_cons. apply NoDup_app in Hnd as [? _]. set_solver. }
  assert (NoDup (n :: B)) as HndB.
  { rewrite <- HB. apply NoDup_app in Hnd as (_ & _ & [_ ?]%NoDup_cons).
    apply NoDup_app. split_and!; [done| |apply NoDup_singleton]. set_solver. }
  assert (∀ a, a ∈ l1 → a ∉ l2) as Hdis.
  { apply NoDup_app in Hnd as (_ & Hd & _). set_solver. }
  assert (p ∈ bhead :: l1) as HpA by (rewrite HA; set_solver).
  assert (n ∈ l2 ++ [bhead]) as HnB by (rewrite HB; set_solver).
  replace (bhead :: (l1 ++ l2) ++ [bhead]) with (A ++ p :: n :: B).
  2:{ rewrite <- HB. rewrite <- app_assoc. change (bhead :: l1 ++ ?t) with ((bhead :: l1) ++ t).
      rewrite HA. by rewrite <- app_assoc. }
  apply adjs_app. split.
  - revert Ha1. apply adjs_ext_snoc; [| |done].
    + intros a Ha. rewrite !nxt_alter. rewrite decide_False.
      * case_decide as Han; [|done]. subst. unfold nxt. by destruct (bs !! n).
      * intros ->. apply NoDup_app in HndA as (_ & Hd & _). apply (Hd p Ha). set_solver.
    + intros a Ha Hhd. assert (a ∈ l1) as Hal.
      { rewrite <- HA in Ha, Hhd. simpl in Hhd. apply elem_of_cons in Ha as [->|?]; [done|done]. }
      rewrite !prv_alter. rewrite !(decide_False (P := a = n)) by (intros ->; set_solver).
      case_decide as Hap; [|done]. subst. rewrite list_lookup_alter_ne by (intros ->; set_solver).
      unfold prv. by destruct (bs !! p).
  - apply adjs_cons. split.
    + split.
      * rewrite nxt_alter, decide_True by done. apply mk_is_Some, is_Some_nxt in Hp1 as [bp Hbp].
        destruct (decide (p = n)) as [->|]; [rewrite list_lookup_alter_eq|rewrite list_lookup_alter_ne by done];
          by rewrite Hbp.
      * rewrite prv_alter. apply mk_is_Some, is_Some_prv in Hn2 as [bn Hbn].
        case_decide as Hnp; [subst; by rewrite list_lookup_alter_eq, Hbn|].
        by rewrite prv_alter, decide_True, Hbn.
    + revert Ha2. apply adjs_ext.
      * intros a Ha. assert (a ∈ l2) as Hal.
        { rewrite <- HB in Ha. by rewrite removelast_last in Ha. }
        rewrite !nxt_alter, decide_False by (intros ->; set_solver).
        case_decide as Han; [|done]. subst. unfold nxt. by destruct (bs !! n).
      * intros a Ha. apply NoDup_cons in HndB as [HnB' _].
        rewrite !prv_alter. rewrite !(decide_False (P := a = n)) by (intros ->; done).
        case_decide as Hap; [|done]. subst a. rewrite list_lookup_alter_ne by (intros ->; done).
        unfold prv. by destruct (bs !! p).
Qed.

(** bio.c:320-323 (and 76-80) puts a buffer right after the head. *)
Lemma ring_insert bs l i n :
  adjs bs (bhead :: l ++ [bhead]) → i ∉ l → i ≠ bhead → bhead ∉ l → NoDup l →
  is_Some (bs !! i) → nxt bs bhead = Some n →
  adjs (alter (set_bnext i) bhead (alter (set_prev i) n
    (alter (set_prev bhead) i (alter (set_bnext n) i bs)))) (bhead :: (i :: l) ++ [bhead]).
Proof.
  intros Ha Hil Hib Hbl Hnd [bi Hbi] Hn.
  destruct (l ++ [bhead]) as [|n' B] eqn:HB; [by destruct l|].
  apply adjs_cons in Ha as [[Hn' Hpn] Ha]. assert (n' = n) as -> by congruence.
  assert (i ≠ n) as Hin.
  { intros ->. assert (n ∈ l ++ [bhead]) by (rewrite HB; set_solver). set_solver. }
  assert (n ∉ B) as HnB.
  { assert (NoDup (l ++ [bhead])) as Hnd'.
    { apply NoDup_app. split_and!; [done|set_solver|apply NoDup_singleton]. }
    rewrite HB in Hnd'. by apply NoDup_cons in Hnd' as [? _]. }
  assert (i ∉ B) as HiB.
  { intros ?. assert (i ∈ l ++ [bhead]) by (rewrite HB; set_solver). set_solver. }
  assert (∀ a, nxt (alter (set_bnext i) bhead (alter (set_prev i) n
    (alter (set_prev bhead) i (alter (set_bnext n) i bs)))) a =
    if decide (a = bhead) then Some i else if decide (a = i) then Some n else nxt bs a) as HN.
  { intros a. rewrite nxt_alter. case_decide as Ea.
    - subst a. apply mk_is_Some, is_Some_nxt in Hn as [bh Hbh].
      destruct (decide (bhead = n)) as [<-|]; [rewrite list_lookup_alter_eq|rewrite list_lookup_alter_ne by done];
        rewrite !list_lookup_alter_ne by done; by rewrite Hbh.
    - rewrite nxt_alter. case_decide as En.
      + subst a. rewrite !list_lookup_alter_ne by done. rewrite decide_False by done.
        unfold nxt. by destruct (bs !! n).
      + rewrite nxt_alter. case_decide; [by rewrite list_lookup_alter_eq, Hbi|].
        by rewrite nxt_alter, decide_False. }
  assert (∀ a, prv (alter (set_bnext i) bhead (alter (set_prev i) n
    (alter (set_prev bhead) i (alter (set_bnext n) i bs)))) a =
    if decide (a = n) then Some i else if decide (a = i) then Some bhead else prv bs a) as HP.
  { intros a. apply mk_is_Some, is_Some_prv in Hpn as [bn Hbn].
    assert (∀ x, prv (alter (set_bnext i) bhead x) a = prv x a) as ->.
    { intros x. rewrite prv_alter. case_decide; [subst|done]. unfold prv. by destruct (x !! bhead). }
    rewrite prv_alter. case_decide as En.
    - subst a. rewrite !list_lookup_alter_ne by done. by rewrite Hbn.
    - rewrite prv_alter. case_decide; [by rewrite list_lookup_alter_eq, Hbi|].
      rewrite prv_alter. by rewrite decide_False. }
  change ((i :: l) ++ [bhead]) with (i :: (l ++ [bhead])). rewrite HB.
  rewrite !adjs_cons. split; [|split].
  { unfold adj. rewrite HN, HP. repeat case_decide; try done. }
  { unfold adj. rewrite HN, HP. repeat case_decide; try done. }
  revert Ha. apply adjs_ext; intros a Ha.
  - rewrite HN. rewrite <- HB, removelast_last in Ha.
    rewrite !decide_False by (intros ->; done). done.
  - rewrite HP. rewrite !decide_False by (intros ->; done). done.
Qed.
End ring.

(** ** Correctness of the cache operations *)
Section correctness.
Context `{BlockParams} `{BcacheParams} `{SleepLock} {D : Type} `{!DiskDriver D} `{!DiskDriverSpec D}.
Implicit Types s : bio D.

Lemma get_buf_ok s i b : bufs s !! i = Some b → get_buf i s = Ok (b, s).
Proof. intros Hb. unfold get_buf, bind, gets, deref. by rewrite Hb. Qed.

Lemma lift_q_ok {A} (m : M disk_queue A) s a q :
  m (bq s) = Ok (a, q) → lift_q m s = Ok (a, with_bq q s).
Proof. unfold lift_q. by intros ->. Qed.

Lemma lift_drv_ok {A} (m : M D A) s a d :
  m (drv s) = Ok (a, d) → lift_drv m s = Ok (a, with_drv d s).
Proof. unfold lift_drv. by intros ->. Qed.

(** The forward walk of [bget]: the first match in list order, or none. *)
Lemma find_cached_ok fuel dev n s p l :
  adjs (bufs s) (l ++ [bhead]) → head (l ++ [bhead]) = Some p → bhead ∉ l →
  (∀ i, i ∈ l → is_Some (bufs s !! i)) → length l ≤ fuel →
  ∃ o, find_cached fuel dev n p s = Ok (o, s) ∧
    match o with
    | Some i => i ∈ l ∧ ∃ b, bufs s !! i = Some b ∧ b_dev b = dev ∧ b_blockno b = n
    | None => ∀ i b, i ∈ l → bufs s !! i = Some b → ¬ (b_dev b = dev ∧ b_blockno b = n)
    end.
Proof.
  revert fuel p. induction l as [|i l IH]; intros fuel p Ha Hp Hbl Hsome Hf.
  - simpl in Hp. simplify_eq. exists None. split; [|by intros ? ? ?%elem_of_nil].
    destruct fuel; simpl; by rewrite decide_True.
  - simpl in Hp. simplify_eq. destruct fuel as [|fuel]; simpl in Hf; [lia|].
    simpl. rewrite decide_False by set_solver.
    destruct (Hsome p) as [b Hb]; [set_solver|]. erewrite bind_ok by (by apply get_buf_ok).
    case_decide as Hm.
    + exists (Some p). split; [done|]. split; [set_solver|]. eauto.
    + destruct (l ++ [bhead]) as [|p' B] eqn:HB; [by destruct l|].
      change ((p :: l) ++ [bhead]) with (p :: (l ++ [bhead])) in Ha. rewrite HB in Ha.
      apply adjs_cons in Ha as [[Hn _] Ha]. unfold nxt in Hn. rewrite Hb in Hn. simplify_eq/=.
      destruct (IH fuel (b_next b)) as (o & E & Ho); [done|done|set_solver|set_solver|lia|].
      exists o. split; [done|]. destruct o as [i|].
      * destruct Ho as [? ?]. split; [set_solver|done].
      * intros i b' [->|Hi]%elem_of_cons Hb'; [by simplify_eq|by eauto].
Qed.

(** The backward walk: the free buffer that was released longest ago. *)
Lemma find_victim_ok fuel s p l :
  adjs (bufs s) (bhead :: l) → last (bhead :: l) = Some p → bhead ∉ l →
  (∀ i, i ∈ l → is_Some (bufs s !! i)) → length l ≤ fuel →
  ∃ o, find_victim fuel p s = Ok (o, s) ∧
    match o with
    | Some i => ∃ l1 l2 b, l = l1 ++ i :: l2 ∧ bufs s !! i = Some b ∧ b_refcnt b = 0%Z ∧
        ∀ j b', j ∈ l2 → bufs s !! j = Some b' → b_refcnt b' ≠ 0%Z
    | None => ∀ j b, j ∈ l → bufs s !! j = Some b → b_refcnt b ≠ 0%Z
    end.
Proof.
  revert fuel p. induction l as [|i l IH] using rev_ind; intros fuel p Ha Hp Hbl Hsome Hf.
  - simpl in Hp. simplify_eq. exists None. split; [|by intros ? ? ?%elem_of_nil].
    destruct fuel; simpl; by rewrite decide_True.
  - rewrite app_comm_cons, last_snoc in Hp. simplify_eq.
    rewrite length_app in Hf. simpl in Hf. destruct fuel as [|fuel]; [lia|].
    simpl. rewrite decide_False by set_solver.
    destruct (Hsome p) as [b Hb]; [set_solver|]. erewrite bind_ok by (by apply get_buf_ok).
    case_decide as Hz.
    + exists (Some p). split; [done|]. exists l, [], b. split_and!; [done..|].
      by intros ? ? ?%elem_of_nil.
    + destruct (exists_last (l := bhead :: l)) as (A & p' & HA); [done|].
      rewrite app_comm_cons, HA, <- app_assoc in Ha. simpl in Ha.
      apply adjs_app in Ha as [Ha1 Ha2]. rewrite adjs_cons in Ha2. destruct Ha2 as [[_ Hpr] _].
      unfold prv in Hpr. rewrite Hb in Hpr. simplify_eq/=. rewrite <- HA in Ha1.
      destruct (IH fuel (b_prev b)) as (o & E & Ho);
        [done|by rewrite HA, last_snoc|set_solver|set_solver|lia|].
      exists o. split; [done|]. destruct o as [i|].
      * destruct Ho as (l1 & l2 & bi & -> & Hbi & Hz' & Hall). exists l1, (l2 ++ [p]), bi.
        split_and!; [by rewrite <- app_assoc|done..|].
        intros j b' [?| ->%list_elem_of_singleton]%elem_of_app Hj; [by eauto|]. congruence.
      * intros j b' [?| ->%list_elem_of_singleton]%elem_of_app Hj; [by eauto|]. congruence.
Qed.

(** *** The request queue between two requests *)
Definition idle (q : disk_queue) : Prop :=
  is_queue q [] ∧ dq_busy q = false ∧ (0 ≤ current_disk_head q < 2 ^ 31)%Z ∧
  (∀ i, ¬ used q i) ∧ ∃ i c b, status q i = Some (false, c, b).

(** The dispatcher run by the only requester: one round for its request, one
    that finds the queue empty. *)
Lemma dispatcher_one fuel s i r j b d dv :
  is_queue (bq s) [i] → in_range (bq s) → pending (bq s) i →
  req_pool (bq s) !! i = Some r → rq_b r = j → rq_blockno r = b_blockno b →
  bufs s !! j = Some b →
  virtio_disk_rw (b_blockno b) (b_data b) (bool_decide (rq_type r = DISK_REQ_WRITE)) (drv s)
    = Ok (d, dv) →
  ∃ q', run_disk_dispatcher (2 + fuel) s =
      Ok (tt, mkBio (alter (set_data d) j (bufs s)) q' dv (self s) (levels s)) ∧
    is_queue q' [] ∧ dq_busy q' = false ∧ current_disk_head q' = b_blockno b ∧
    (∃ bb, status q' i = Some (true, true, bb)) ∧ (∀ k, k ≠ i → status q' k = status (bq s) k).
Proof.
  intros Hq Hrange [bb Hpend] Hr Hj Hblk Hb Hdrv.
  assert (∀ k, k ∈ [i] → pending (bq s) k) as Hp by (intros k ->%list_elem_of_singleton; by exists bb).
  destruct (take_total (levels s) (bq s) [i] Hq Hrange Hp) as (o & q2 & E2).
  pose proof (take_inv _ _ _ _ _ Hq Hrange Hp E2) as Ht. destruct o as [i'|]; [|by destruct Ht].
  destruct Ht as (k & [-> <-]%list_lookup_singleton_Some & Hq2 & Hst2 & _ & Hh2 & Hd2).
  assert (∃ r2, req_pool q2 !! i = Some r2 ∧ rq_b r2 = j ∧ rq_blockno r2 = b_blockno b ∧
    rq_type r2 = rq_type r) as (r2 & Hr2 & Hj2 & Hblk2 & Hty2).
  { apply (f_equal (.!! i)) in Hd2. rewrite !list_lookup_fmap, Hr in Hd2. simpl in Hd2.
    apply fmap_Some in Hd2 as (r2 & -> & Heq). exists r2.
    unfold req_data, set_next in Heq. by injection Heq as <- <- <- _ _ _. }
  simpl. erewrite bind_ok by (by unfold gets).
  erewrite bind_ok by (by apply lift_q_ok). simpl.
  erewrite bind_ok by (apply lift_q_ok, get_req_ok; exact Hr2).
  erewrite bind_ok by (by apply lift_q_ok). erewrite bind_ok by (by apply lift_q_ok).
  erewrite bind_ok.
  2:{ unfold transfer. rewrite Hj2. erewrite bind_ok by (by apply get_buf_ok).
      erewrite bind_ok by (apply lift_drv_ok; simpl; by rewrite Hty2).
      by unfold upd_buf, modify. }
  erewrite bind_ok by (by apply lift_q_ok).
  erewrite bind_ok by (by unfold gets).
  set (q4 := with_pool _ _).
  assert (is_queue q4 []) as Hq4 by (split; [apply Hq2|apply NoDup_nil_2]).
  erewrite bind_ok.
  2:{ apply lift_q_ok. simpl. unfold dispatch_take.
      by rewrite (bind_ok _ _ _ _ _ (dequeue_empty _ _ Hq4)). }
  eexists. split; [done|]. split_and!; try done; simpl.
  - exists (rq_blockno r2). unfold status. simpl. rewrite list_lookup_alter_eq, Hr2. simpl.
    assert (rq_used r2 = true) as ->; [|done]. specialize (Hst2 i). rewrite Hpend in Hst2.
    unfold status in Hst2. rewrite Hr2 in Hst2. simpl in Hst2. congruence.
  - intros k Hk. rewrite <- Hst2. unfold status. simpl. by rewrite list_lookup_alter_ne.
Qed.

(** A request made while no other is pending is served at once. *)
Lemma submit_request_ok s j b type d dv :
  idle (bq s) → bufs s !! j = Some b → (0 ≤ b_blockno b < 2 ^ 31)%Z →
  virtio_disk_rw (b_blockno b) (b_data b) (bool_decide (type = DISK_REQ_WRITE)) (drv s)
    = Ok (d, dv) →
  ∃ q', submit_disk_request j type s =
      Ok (tt, mkBio (alter (set_data d) j (bufs s)) q' dv (self s) (levels s)) ∧ idle q'.
Proof.
  intros (Hq & Hbusy & Hhead & Hnu & (i0 & c0 & b0 & Hfree)) Hb Hblk Hdrv.
  unfold submit_disk_request. erewrite bind_ok by (by apply get_buf_ok).
  erewrite bind_ok by (by unfold gets). rewrite i32_id by lia.
  assert (∀ k, k ∈ [] → used (bq s) k) as Hu by (by intros k ?%elem_of_nil).
  destruct (submit_ok (bq s) [] j (b_blockno b) type (self s) _ _ _ Hq Hu Hfree)
    as (i & dis & q1 & E1).
  destruct (submit_inv _ _ _ _ _ _ _ _ _ Hq Hu E1)
    as (_ & _ & Hq1 & Hst1 & Hoth & -> & _ & Hh1 & r & Hr & Hrb & Hrt).
  rewrite Hbusy in E1. change (negb false) with true in E1.
  erewrite bind_ok by (by apply lift_q_ok). cbv iota.
  destruct (dispatcher_one MAX_DISK_REQS (with_bq q1 s) i r j b d dv)
    as (q2 & E2 & Hq2 & Hb2 & Hh2 & [bb Hs2] & Ho2); try done.
  - split; [simpl; by rewrite Hh1|]. intros k c bk. simpl. destruct (decide (k = i)) as [->|].
    + rewrite Hst1. intros [= <- <-]. done.
    + rewrite Hoth by done. intros Hk. by destruct (Hnu k); eexists _, _.
  - by exists (b_blockno b).
  - unfold status in Hst1. rewrite Hr in Hst1. simpl in Hst1. congruence.
  - by rewrite Hrt.
  - rewrite (bind_ok _ _ _ _ _ E2).
    pose proof Hs2 as Hs2'. unfold status in Hs2'. apply fmap_Some in Hs2' as (r2 & Hr2 & Heq).
    erewrite bind_ok by (apply lift_q_ok, get_req_ok; exact Hr2).
    assert (rq_completed r2 = true) as -> by congruence.
    eexists. split; [by erewrite lift_q_ok by (by unfold free_req, upd_req, modify)|].
    split_and!; try done; simpl; [rewrite Hh2; lia|rewrite Hh2; lia| |].
    + intros k. destruct (decide (k = i)) as [->|Hne].
      * intros (c & bk & Hk). rewrite status_alter, decide_True, Hr2 in Hk by done. done.
      * intros (c & bk & Hk). rewrite status_alter, decide_False in Hk by done.
        rewrite Ho2, Hoth in Hk by done. by destruct (Hnu k); eexists _, _.
    + exists i. do 2 eexists. by rewrite status_alter, decide_True, Hr2.
Qed.

(** *** The cache invariant, with the buffer the process holds, if any *)
Record cinv (s : bio D) (held : option nat) : Prop := {
  ci_length : length (bufs s) = S NBUF;
  ci_ring : ∃ l, ring (bufs s) l;
  ci_unique : ∀ i j b b', i < NBUF → j < NBUF → bufs s !! i = Some b → bufs s !! j = Some b' →
    b_dev b = ROOTDEV → b_dev b' = ROOTDEV → b_blockno b = b_blockno b' → i = j;
  ci_free : ∀ i b, i < NBUF → bufs s !! i = Some b → held ≠ Some i →
    b_refcnt b = 0%Z ∧ sl_free (b_lock b);
  ci_held : ∀ i b, held = Some i → bufs s !! i = Some b →
    b_refcnt b = 1%Z ∧ holdingsleep (b_lock b) = true;
  ci_held_lt : ∀ i, held = Some i → i < NBUF;
  ci_coherent : ∀ i b, i < NBUF → bufs s !! i = Some b → held ≠ Some i →
    b_valid b = true → b_dev b = ROOTDEV → b_data b = drv_block (drv s) (b_blockno b);
  ci_queue : idle (bq s);
  ci_drv : drv_inv (drv s);
}.

Lemma ci_lookup s held i : cinv s held → i < NBUF → ∃ b, bufs s !! i = Some b.
Proof. intros Hs Hi. apply lookup_lt_is_Some_2. rewrite (ci_length _ _ Hs). lia. Qed.

Lemma ring_elem bs l i : ring bs l → i ∈ l ↔ i < NBUF.
Proof. intros [_ ->]. rewrite elem_of_seq. lia. Qed.

(** Changes to the held buffer, or taking hold of one, as long as no other
    buffer caches its block and the other buffers stay coherent. *)
Lemma cinv_change s h i f q dv :
  cinv s h → h = None ∨ h = Some i → i < NBUF →
  (∀ b, b_next (f b) = b_next b) → (∀ b, b_prev (f b) = b_prev b) →
  (∀ b, bufs s !! i = Some b → b_refcnt (f b) = 1%Z ∧ holdingsleep (b_lock (f b)) = true) →
  (∀ j b b', j < NBUF → j ≠ i → bufs s !! i = Some b → bufs s !! j = Some b' →
     b_dev (f b) = ROOTDEV → b_dev b' = ROOTDEV → b_blockno (f b) ≠ b_blockno b') →
  idle q → drv_inv dv →
  (∀ j b, j < NBUF → j ≠ i → bufs s !! j = Some b → b_valid b = true → b_dev b = ROOTDEV →
     drv_block dv (b_blockno b) = drv_block (drv s) (b_blockno b)) →
  cinv (mkBio (alter f i (bufs s)) q dv (self s) (levels s)) (Some i).
Proof.
  intros [] Hh Hi Hfn Hfp Hf Hu Hq Hdv Hcoh. set (bs' := alter f i (bufs s)).
  assert (∀ j b', bs' !! j = Some b' → ∃ b, bufs s !! j = Some b ∧
    b' = if decide (j = i) then f b else b) as Hinv.
  { intros j b' Hj. unfold bs' in Hj. destruct (decide (j = i)) as [->|].
    - rewrite list_lookup_alter_eq in Hj. apply fmap_Some in Hj as (b & ? & ->). eauto.
    - rewrite list_lookup_alter_ne in Hj by done. eauto. }
  split; simpl; try done.
  - unfold bs'. by rewrite length_alter.
  - destruct ci_ring0 as [l Hl]. exists l. by apply ring_alter.
  - intros j k b1 b2 Hj Hk (c1 & Hc1 & ->)%Hinv (c2 & Hc2 & ->)%Hinv.
    repeat case_decide; subst; intros Hd1 Hd2 Heq; [done| | |by eauto].
    + by destruct (Hu k c1 c2).
    + by destruct (Hu j c2 c1).
  - intros j b Hj (c & Hc & ->)%Hinv Hne. rewrite decide_False by congruence.
    apply (ci_free0 j); [done..|]. destruct Hh; congruence.
  - intros j b [= <-] (c & Hc & ->)%Hinv. rewrite decide_True by done. eauto.
  - by intros j [= <-].
  - intros j b Hj (c & Hc & ->)%Hinv Hne. rewrite decide_False by congruence. intros Hv Hdev.
    rewrite Hcoh with (j := j) by (done || congruence).
    apply (ci_coherent0 j); [done..| |done|done]. destruct Hh; congruence.
Qed.

(** Letting go of the held buffer once it is coherent. *)
Lemma cinv_release s i f :
  cinv s (Some i) →
  (∀ b, b_next (f b) = b_next b) → (∀ b, b_prev (f b) = b_prev b) →
  (∀ b, b_dev (f b) = b_dev b) → (∀ b, b_blockno (f b) = b_blockno b) →
  (∀ b, bufs s !! i = Some b → b_refcnt (f b) = 0%Z ∧ sl_free (b_lock (f b)) ∧
     (b_valid (f b) = true → b_dev b = ROOTDEV → b_data (f b) = drv_block (drv s) (b_blockno b))) →
  cinv (with_bufs (alter f i (bufs s)) s) None.
Proof.
  intros [] Hfn Hfp Hfd Hfb Hf. set (bs' := alter f i (bufs s)).
  assert (∀ j b', bs' !! j = Some b' → ∃ b, bufs s !! j = Some b ∧
    b' = if decide (j = i) then f b else b) as Hinv.
  { intros j b' Hj. unfold bs' in Hj. destruct (decide (j = i)) as [->|].
    - rewrite list_lookup_alter_eq in Hj. apply fmap_Some in Hj as (b & ? & ->). eauto.
    - rewrite list_lookup_alter_ne in Hj by done. eauto. }
  assert (∀ j b, b_dev (if decide (j = i) then f b else b) = b_dev b ∧
    b_blockno (if decide (j = i) then f b else b) = b_blockno b) as Hid.
  { intros j b. by case_decide. }
  split; simpl; try done.
  - unfold bs'. by rewrite length_alter.
  - destruct ci_ring0 as [l Hl]. exists l. by apply ring_alter.
  - intros j k b1 b2 Hj Hk (c1 & Hc1 & ->)%Hinv (c2 & Hc2 & ->)%Hinv.
    destruct (Hid j c1) as [-> ->], (Hid k c2) as [-> ->]. eauto.
  - intros j b Hj (c & Hc & ->)%Hinv _. case_decide; [subst; naive_solver|].
    apply (ci_free0 j); congruence.
  - intros j b Hj (c & Hc & ->)%Hinv _. case_decide.
    + subst. rewrite Hfd, Hfb. naive_solver.
    + intros. apply (ci_coherent0 j); congruence.
Qed.

(** Everything but the links. *)
Definition core (b : buf) : bool * Z * Z * sleeplock * Z * bytes :=
  (b_valid b, b_dev b, b_blockno b, b_lock b, b_refcnt b, b_data b).

(** Re-linking keeps the invariant when it leaves a ring. *)
Lemma cinv_relink s h bs' l :
  cinv s h → core <$> bs' = core <$> bufs s → ring bs' l → cinv (with_bufs bs' s) h.
Proof.
  intros [] Hcore Hring.
  assert (∀ j b', bs' !! j = Some b' → ∃ b, bufs s !! j = Some b ∧ core b' = core b) as Hinv.
  { intros j b' Hj. apply (f_equal (.!! j)) in Hcore. rewrite !list_lookup_fmap, Hj in Hcore.
    simpl in Hcore. symmetry in Hcore. by apply fmap_Some in Hcore. }
  split; simpl; try done.
  - apply (f_equal length) in Hcore. rewrite !length_fmap in Hcore. congruence.
  - eauto.
  - intros j k b1 b2 Hj Hk (c1 & Hc1 & [= ? -> -> ? ? ?])%Hinv (c2 & Hc2 & [= ? -> -> ? ? ?])%Hinv. eauto.
  - intros j b Hj (c & Hc & [= ? ? ? -> -> ?])%Hinv. eauto.
  - intros j b Hj (c & Hc & [= ? ? ? -> -> ?])%Hinv. eauto.
  - intros j b Hj (c & Hc & [= -> -> -> ? ? ->])%Hinv. eauto.
Qed.

Lemma core_alter f i (bs : list buf) : (∀ b, core (f b) = core b) → core <$> alter f i bs = core <$> bs.
Proof.
  intros Hf. apply list_eq. intros j. rewrite !list_lookup_fmap.
  destruct (decide (j = i)) as [->|]; [rewrite list_lookup_alter_eq|by rewrite list_lookup_alter_ne].
  destruct (bs !! i); simpl; by rewrite ?Hf.
Qed.

(** *** [bget] *)
Definition no_match (s : bio D) (dev n : Z) : Prop :=
  ∀ i b, i < NBUF → bufs s !! i = Some b → ¬ (b_dev b = dev ∧ b_blockno b = n).

Definition bget_hit (i : nat) : M (bio D) nat :=
  upd_buf i (λ b, set_refcnt (u32 (b_refcnt b + 1)) b) ;;; acquire_buf i ;;; ret i.
Definition bget_recycle (dev n : Z) (i : nat) : M (bio D) nat :=
  upd_buf i (set_id dev n) ;;; upd_buf i (set_valid false) ;;; upd_buf i (set_refcnt 1) ;;;
  acquire_buf i ;;; ret i.

(** The three ways out of [bget], on any ring. *)
Lemma bget_cases s l dev n :
  ring (bufs s) l → length (bufs s) = S NBUF →
  (∃ i b, i < NBUF ∧ bufs s !! i = Some b ∧ b_dev b = dev ∧ b_blockno b = n ∧
     bget dev n s = bget_hit i s) ∨
  (no_match s dev n ∧ ∃ l1 i l2 b, l = l1 ++ i :: l2 ∧ bufs s !! i = Some b ∧ b_refcnt b = 0%Z ∧
     (∀ j b', j ∈ l2 → bufs s !! j = Some b' → b_refcnt b' ≠ 0%Z) ∧
     bget dev n s = bget_recycle dev n i s) ∨
  (no_match s dev n ∧ (∀ j b, j < NBUF → bufs s !! j = Some b → b_refcnt b ≠ 0%Z) ∧
     bget dev n s = Panic "bget: no buffers").
Proof.
  intros Hr Hlen. pose proof (ring_NoDup _ _ Hr) as [Hnd Hbh].
  assert (∀ i, i ∈ l → is_Some (bufs s !! i)) as Hsome.
  { intros i Hi%(ring_elem _ _ _ Hr). apply lookup_lt_is_Some_2. lia. }
  assert (length l = NBUF) as Hll by (destruct Hr as [_ ->]; by rewrite length_seq).
  destruct (lookup_lt_is_Some_2 (bufs s) bhead) as [h Hh]; [rewrite Hlen; unfold bhead; lia|].
  pose proof Hr as [Ha _].
  assert (adjs (bufs s) (l ++ [bhead]) ∧ head (l ++ [bhead]) = Some (b_next h)) as [Hf Hfh].
  { destruct (l ++ [bhead]) as [|n' B] eqn:HB; [by destruct l|].
    apply adjs_cons in Ha as [[Hn _] Ha]. unfold nxt in Hn. rewrite Hh in Hn. by simplify_eq/=. }
  assert (adjs (bufs s) (bhead :: l) ∧ last (bhead :: l) = Some (b_prev h)) as [Hb Hbl].
  { destruct (exists_last (l := bhead :: l)) as (A & p & HA); [done|].
    rewrite app_comm_cons, HA, <- app_assoc in Ha. simpl in Ha. apply adjs_app in Ha as [Ha1 [[_ Hp] _]].
    rewrite HA, last_snoc. split; [done|]. unfold prv in Hp. rewrite Hh in Hp. by simplify_eq/=. }
  destruct (find_cached_ok NBUF dev n s _ l Hf Hfh Hbh Hsome) as (o & E & Ho); [lia|].
  unfold bget. erewrite bind_ok by (by apply get_buf_ok). rewrite (bind_ok _ _ _ _ _ E).
  destruct o as [i|].
  { destruct Ho as (Hi%(ring_elem _ _ _ Hr) & b & ? & ? & ?). left. by exists i, b. }
  right. assert (no_match s dev n) as Hnm.
  { intros i b Hi%(ring_elem _ _ _ Hr). by apply Ho. }
  destruct (find_victim_ok NBUF s _ l Hb Hbl Hbh Hsome) as (v & E2 & Hv); [lia|].
  erewrite bind_ok by (by apply get_buf_ok). rewrite (bind_ok _ _ _ _ _ E2).
  destruct v as [i|]; [left|right]; (split; [done|]).
  - destruct Hv as (l1 & l2 & b & -> & ? & ? & ?). by exists l1, i, l2, b.
  - split; [|done]. intros j b Hj%(ring_elem _ _ _ Hr). by apply Hv.
Qed.

Lemma acquire_buf_ok s i b :
  bufs s !! i = Some b → sl_free (b_lock b) →
  ∃ lk, holdingsleep lk = true ∧
    acquire_buf i s = Ok (tt, with_bufs (alter (set_lock lk) i (bufs s)) s).
Proof.
  intros Hb Hf. destruct (sl_acquire _ Hf) as (lk & E & Hlk). exists lk. split; [done|].
  unfold acquire_buf. erewrite bind_ok by (by apply get_buf_ok). by rewrite E.
Qed.

(** What [bget] leaves in the held buffer. *)
Definition holds (s : bio D) (i : nat) (n : Z) (P : buf → Prop) : Prop :=
  ∃ b, bufs s !! i = Some b ∧ b_dev b = ROOTDEV ∧ b_blockno b = n ∧ P b.

Lemma bget_ok s n :
  cinv s None →
  ∃ i s', bget ROOTDEV n s = Ok (i, s') ∧ cinv s' (Some i) ∧ drv s' = drv s ∧
    holds s' i n (λ b, b_valid b = true → b_data b = drv_block (drv s) n).
Proof.
  intros Hs. pose proof (ci_ring _ _ Hs) as [l Hl].
  destruct (bget_cases s l ROOTDEV n Hl (ci_length _ _ Hs))
    as [(i & b & Hi & Hb & Hd & Hn & E)|[(Hnm & l1 & i & l2 & b & -> & Hb & Hz & _ & E)|(_ & Hall & _)]].
  - destruct (ci_free _ _ Hs i b Hi Hb) as [Hz Hfree]; [done|].
    set (s1 := with_bufs (alter (λ b, set_refcnt (u32 (b_refcnt b + 1)) b) i (bufs s)) s).
    destruct (acquire_buf_ok s1 i (set_refcnt (u32 (b_refcnt b + 1)) b)) as (lk & Hlk & E2).
    { simpl. by rewrite list_lookup_alter_eq, Hb. } { done. }
    exists i, (with_bufs (alter (set_lock lk) i (bufs s1)) s1). rewrite E. split_and!.
    + unfold bget_hit. erewrite bind_ok by (by unfold upd_buf, modify).
      by rewrite (bind_ok _ _ _ _ _ E2).
    + unfold s1, with_bufs. simpl. rewrite alter_alter. eapply cinv_change; try done; eauto.
      * intros b' Hb'. simplify_eq. simpl. by rewrite Hz.
      * intros j b1 b2 Hj Hne Hb1 Hb2. simplify_eq. simpl. intros Hd1 Hd2 Heq.
        by destruct Hne; eapply (ci_unique _ _ Hs j i).
      * apply Hs.
      * apply Hs.
    + done.
    + eexists. split; [simpl; by rewrite !list_lookup_alter_eq, Hb|]. simpl. split_and!; [done..|].
      intros Hv. rewrite <- Hn. by apply (ci_coherent _ _ Hs i).
  - assert (i < NBUF) as Hi by (apply (ring_elem _ _ _ Hl); set_solver).
    destruct (ci_free _ _ Hs i b Hi Hb) as [_ Hfree]; [done|].
    set (s1 := with_bufs (alter (set_refcnt 1) i (alter (set_valid false) i
                 (alter (set_id ROOTDEV n) i (bufs s)))) s).
    destruct (acquire_buf_ok s1 i (set_refcnt 1 (set_valid false (set_id ROOTDEV n b)))) as (lk & Hlk & E2).
    { simpl. by rewrite !list_lookup_alter_eq, Hb. } { done. }
    exists i, (with_bufs (alter (set_lock lk) i (bufs s1)) s1). rewrite E. split_and!.
    + unfold bget_recycle. do 3 erewrite bind_ok by (by unfold upd_buf, modify).
      by erewrite bind_ok by exact E2.
    + unfold s1, with_bufs. simpl. rewrite !alter_alter. eapply cinv_change; try done; eauto.
      * intros j b1 b2 Hj Hne Hb1 Hb2 _ Hd2. simpl. intros ->. by eapply (Hnm j b2).
      * apply Hs.
      * apply Hs.
    + done.
    + eexists. split; [simpl; by rewrite !list_lookup_alter_eq, Hb|]. simpl. by split_and!.
  - pose proof NBUF_pos as Hp. destruct (ci_lookup s None 0) as [b Hb]; [done|done|].
    destruct (ci_free _ _ Hs 0 b Hp Hb) as [Hz _]; [done|]. by destruct (Hall 0 b).
Qed.

(** *** [bread], [bwrite], [brelse] *)
Lemma bread_ok s n :
  cinv s None → (0 ≤ n < 2 ^ 31)%Z →
  ∃ i s', bio_bread ROOTDEV n s = Ok (i, s') ∧ cinv s' (Some i) ∧
    holds s' i n (λ b, b_valid b = true ∧ b_data b = drv_block (drv s) n) ∧
    ∀ m, drv_block (drv s') m = drv_block (drv s) m.
Proof.
  intros Hs Hn. destruct (bget_ok s n Hs) as (i & s1 & E & Hs1 & Hd & b & Hb & Hdev & Hbn & Hv).
  unfold bio_bread. rewrite (bind_ok _ _ _ _ _ E). erewrite bind_ok by (by apply get_buf_ok).
  pose proof (ci_held_lt _ _ Hs1 i eq_refl) as Hi.
  destruct (b_valid b) eqn:Hval.
  { exists i, s1. split_and!; [done|done| |by rewrite Hd]. exists b. naive_solver. }
  destruct (drv_read (drv s1) n (b_data b) (ci_drv _ _ Hs1) Hn) as (dv & Erw & Hdv & Hblk).
  destruct (submit_request_ok s1 i b DISK_REQ_READ (drv_block (drv s1) n) dv)
    as (q & Esub & Hq); [apply Hs1|done|by rewrite Hbn|by rewrite Hbn|].
  assert ((submit_disk_request i DISK_REQ_READ ;;; upd_buf i (set_valid true)) s1 =
    Ok (tt, mkBio (alter (λ b, set_valid true (set_data (drv_block (drv s1) n) b)) i (bufs s1))
              q dv (self s1) (levels s1))) as E2.
  { rewrite (bind_ok _ _ _ _ _ Esub). unfold upd_buf, modify, with_bufs. simpl.
    by rewrite alter_alter. }
  rewrite (bind_ok _ _ _ _ _ E2). do 2 eexists. split; [done|]. split_and!.
  - eapply cinv_change; try done; eauto.
    + intros b' Hb'. by destruct (ci_held _ _ Hs1 i b').
    + intros j b1 b2 Hj Hne Hb1 Hb2. simpl. intros Hd1 Hd2 Heq.
      by destruct Hne; eapply (ci_unique _ _ Hs1 j i).
  - eexists. simpl. rewrite list_lookup_alter_eq, Hb. split; [done|]. simpl. by rewrite Hd.
  - intros m. simpl. by rewrite Hblk, Hd.
Qed.

Lemma cinv_set_data s i d :
  cinv s (Some i) → cinv (with_bufs (alter (set_data d) i (bufs s)) s) (Some i).
Proof.
  intros Hs. eapply (cinv_change s (Some i)); try done; eauto.
  - by apply (ci_held_lt _ _ Hs).
  - intros b Hb. by destruct (ci_held _ _ Hs i b).
  - intros j b1 b2 Hj Hne Hb1 Hb2. simpl. intros Hd1 Hd2 Heq.
    destruct Hne. eapply (ci_unique _ _ Hs j i); try done. by apply (ci_held_lt _ _ Hs).
  - apply Hs.
  - apply Hs.
Qed.

Lemma bwrite_ok s i n d :
  cinv s (Some i) → (0 ≤ n < 2 ^ 31)%Z → holds s i n (λ b, b_data b = d) → length d = bsize →
  ∃ s', bio_bwrite i s = Ok (tt, s') ∧ cinv s' (Some i) ∧ holds s' i n (λ b, b_data b = d) ∧
    ∀ m, drv_block (drv s') m = if decide (m = n) then d else drv_block (drv s) m.
Proof.
  intros Hs Hn (b & Hb & Hdev & Hbn & Hd) Hlen.
  pose proof (ci_held_lt _ _ Hs i eq_refl) as Hi.
  destruct (drv_write (drv s) n d (ci_drv _ _ Hs) Hn Hlen) as (dv & Erw & Hdv & Hblk).
  destruct (submit_request_ok s i b DISK_REQ_WRITE d dv)
    as (q & Esub & Hq); [apply Hs|done|by rewrite Hbn|by rewrite Hbn, Hd|].
  unfold bio_bwrite. erewrite bind_ok by (by apply get_buf_ok).
  destruct (ci_held _ _ Hs i b) as [_ ->]; [done..|]. rewrite Esub.
  eexists. split; [done|]. split_and!; [|eexists; simpl; by rewrite list_lookup_alter_eq, Hb|done].
  eapply cinv_change; try done; eauto.
  - intros b' Hb'. by destruct (ci_held _ _ Hs i b').
  - intros j b1 b2 Hj Hne Hb1 Hb2. simpl. intros Hd1 Hd2 Heq.
    by destruct Hne; eapply (ci_unique _ _ Hs j i).
  - intros j b' Hj Hne Hb' Hv Hd'. rewrite Hblk. rewrite decide_False; [done|].
    intros Heq. destruct Hne. apply (ci_unique _ _ Hs j i b' b); congruence.
Qed.

(** The re-linking part of [brelse]. *)
Definition move_front (i : nat) : M (bio D) unit :=
  let* b := get_buf i in
  upd_buf (b_next b) (set_prev (b_prev b)) ;;;
  upd_buf (b_prev b) (set_bnext (b_next b)) ;;;
  insert_front i.

Lemma move_front_ok s l1 i l2 :
  length (bufs s) = S NBUF → ring (bufs s) (l1 ++ i :: l2) →
  ∃ bs', move_front i s = Ok (tt, with_bufs bs' s) ∧ core <$> bs' = core <$> bufs s ∧
    ring bs' (i :: l1 ++ l2).
Proof.
  intros Hlen Hr. pose proof (ring_NoDup _ _ Hr) as [Hnd Hbh].
  assert (i < NBUF) as Hi by (apply (ring_elem _ _ _ Hr); set_solver).
  destruct (lookup_lt_is_Some_2 (bufs s) i) as [b Hb]; [lia|].
  pose proof (ring_unlink _ _ _ _ (b_prev b) (b_next b) Hr) as Hul.
  unfold prv, nxt in Hul. rewrite Hb in Hul. specialize (Hul eq_refl eq_refl).
  unfold move_front. erewrite bind_ok by (by apply get_buf_ok).
  do 2 erewrite bind_ok by (by unfold upd_buf, modify). simpl.
  set (bs2 := alter (set_bnext (b_next b)) (b_prev b) _) in *.
  assert (length bs2 = S NBUF) as Hlen2 by (unfold bs2; by rewrite !length_alter).
  destruct (lookup_lt_is_Some_2 bs2 bhead) as [h Hh]; [rewrite Hlen2; unfold bhead; lia|].
  apply NoDup_app in Hnd as (Hnd1 & Hdis & [Hil2 Hnd2]%NoDup_cons).
  assert (i ∉ l1) as Hil1 by (intros Hin; apply (Hdis i Hin); set_solver).
  pose proof (ring_insert bs2 (l1 ++ l2) i (b_next h) Hul) as Hins.
  unfold insert_front. erewrite bind_ok by (by apply get_buf_ok).
  do 3 erewrite bind_ok by (by unfold upd_buf, modify).
  eexists. split; [by unfold upd_buf, modify|]. simpl. split.
  - rewrite !core_alter by done. unfold bs2. by rewrite !core_alter by done.
  - split.
    + apply Hins; [set_solver|unfold bhead; lia|set_solver| | |].
      * apply NoDup_app. split_and!; [done| |done]. set_solver.
      * apply lookup_lt_is_Some_2. lia.
      * unfold nxt. by rewrite Hh.
    + destruct Hr as [_ <-]. by rewrite Permutation_middle.
Qed.

Lemma brelse_ok s i n :
  cinv s (Some i) → holds s i n (λ b, b_valid b = true → b_data b = drv_block (drv s) n) →
  ∃ s', bio_brelse i s = Ok (tt, s') ∧ cinv s' None ∧ drv s' = drv s ∧
    ∀ l1 l2, ring (bufs s) (l1 ++ i :: l2) → ring (bufs s') (i :: l1 ++ l2).
Proof.
  intros Hs (b & Hb & Hdev & Hbn & Hv).
  pose proof (ci_held_lt _ _ Hs i eq_refl) as Hi.
  destruct (ci_held _ _ Hs i b eq_refl Hb) as [Href Hhold].
  set (f := λ b : buf, set_refcnt (u32 (b_refcnt b - 1)) (set_lock (releasesleep (b_lock b)) b)).
  set (s1 := with_bufs (alter f i (bufs s)) s).
  assert (cinv s1 None) as Hs1.
  { eapply cinv_release; try done. intros b' Hb'. simplify_eq. simpl. rewrite Href.
    split_and!; [done|by apply sl_release|naive_solver]. }
  assert (∀ l, ring (bufs s) l → ring (bufs s1) l) as Hring1 by (intros l; by apply ring_alter).
  destruct (ci_ring _ _ Hs) as [l Hl].
  assert (i ∈ l) as (l1 & l2 & ->)%list_elem_of_split by by apply (ring_elem _ _ _ Hl).
  destruct (move_front_ok s1 l1 i l2 (ci_length _ _ Hs1) (Hring1 _ Hl)) as (bs' & E & Hc & Hr).
  exists (with_bufs bs' s1). split_and!.
  - unfold bio_brelse. erewrite bind_ok by (by apply get_buf_ok). rewrite Hhold.
    do 2 erewrite bind_ok by (by unfold upd_buf, modify). simpl. rewrite alter_alter.
    assert (bufs s1 !! i = Some (f b)) as Hb1 by (simpl; by rewrite list_lookup_alter_eq, Hb).
    unfold move_front in E. erewrite bind_ok by exact (get_buf_ok s1 i _ Hb1).
    erewrite bind_ok in E by (by apply get_buf_ok).
    rewrite decide_True by (simpl; by rewrite Href). exact E.
  - by eapply cinv_relink.
  - done.
  - intros l1' l2' Hl'.
    destruct (move_front_ok s1 l1' i l2' (ci_length _ _ Hs1) (Hring1 _ Hl')) as (bs2 & E2 & _ & Hr2).
    rewrite E in E2. by simplify_eq.
Qed.

(** *** [binit] *)
Lemma adjs_alter f i (bs : list buf) l :
  (∀ b : buf, b_next (f b) = b_next b) → (∀ b : buf, b_prev (f b) = b_prev b) →
  adjs bs l → adjs (alter f i bs) l.
Proof.
  intros Hn Hp. destruct l as [|x l]; [done|]. apply adjs_ext; intros a _.
  - rewrite nxt_alter. case_decide; [subst|done]. unfold nxt. destruct (bs !! i); simpl; congruence.
  - rewrite prv_alter. case_decide; [subst|done]. unfold prv. destruct (bs !! i); simpl; congruence.
Qed.

(** The globals before [binit]: static storage, all zero. *)
Record zeroed (s : bio D) : Prop := {
  z_bufs : length (bufs s) = S NBUF;
  z_buf : ∀ i b, bufs s !! i = Some b → b_valid b = false ∧ b_refcnt b = 0%Z ∧ b_dev b = 0%Z;
  z_pool : length (req_pool (bq s)) = MAX_DISK_REQS;
  z_head : current_disk_head (bq s) = 0%Z;
  z_drv : drv_inv (drv s);
}.

(** The state of the buffer array after [k] rounds of the loop of [binit]. *)
Definition linked (k : nat) (bs : list buf) : Prop :=
  length bs = S NBUF ∧
  (∀ i b, bs !! i = Some b → b_valid b = false ∧ b_refcnt b = 0%Z ∧ b_dev b = 0%Z) ∧
  (∀ i b, i < k → bs !! i = Some b → sl_free (b_lock b)) ∧
  adjs bs (bhead :: rev (seq 0 k) ++ [bhead]).

Lemma linked_alter f i (bs : list buf) :
  (∀ b, b_valid (f b) = b_valid b ∧ b_refcnt (f b) = b_refcnt b ∧ b_dev (f b) = b_dev b) →
  (∀ i b, bs !! i = Some b → b_valid b = false ∧ b_refcnt b = 0%Z ∧ b_dev b = 0%Z) →
  ∀ j b, alter f i bs !! j = Some b → b_valid b = false ∧ b_refcnt b = 0%Z ∧ b_dev b = 0%Z.
Proof.
  intros Hf Hz j b Hj. destruct (decide (j = i)) as [->|].
  - rewrite list_lookup_alter_eq in Hj. apply fmap_Some in Hj as (b' & Hb' & ->).
    destruct (Hf b') as (-> & -> & ->). eauto.
  - rewrite list_lookup_alter_ne in Hj by done. eauto.
Qed.

Lemma linked_step k bs h :
  linked k bs → k < NBUF → bs !! bhead = Some h →
  linked (S k) (alter (set_bnext k) bhead (alter (set_prev k) (b_next h)
    (alter (set_lock initsleeplock) k (alter (set_prev bhead) k (alter (set_bnext (b_next h)) k bs))))).
Proof.
  intros (Hlen & Hz & Hfree & Ha) Hk Hh.
  set (bs0 := alter (set_lock initsleeplock) k bs).
  assert (alter (set_lock initsleeplock) k (alter (set_prev bhead) k (alter (set_bnext (b_next h)) k bs))
    = alter (set_prev bhead) k (alter (set_bnext (b_next h)) k bs0)) as ->.
  { unfold bs0. by rewrite !alter_alter. }
  assert (length bs0 = S NBUF) as Hlen0 by (unfold bs0; by rewrite length_alter).
  split; [by rewrite !length_alter|]. split; [|split].
  - do 5 (apply linked_alter; [done|]). exact Hz.
  - intros i b Hi Hb.
    assert (∃ b0, bs0 !! i = Some b0 ∧ b_lock b = b_lock b0) as (b0 & Hb0 & ->).
    { assert (∀ (f : buf → buf) j (l : list buf), (∀ b, b_lock (f b) = b_lock b) →
        b_lock <$> alter f j l !! i = b_lock <$> l !! i) as Hl.
      { intros f j l Hf. destruct (decide (i = j)) as [->|];
          [rewrite list_lookup_alter_eq|by rewrite list_lookup_alter_ne].
        destruct (l !! j); simpl; by rewrite ?Hf. }
      apply (f_equal (fmap b_lock)) in Hb. rewrite !Hl in Hb by done.
      simpl in Hb. apply fmap_Some in Hb as (b0 & ? & ?). eauto. }
    unfold bs0 in Hb0. destruct (decide (i = k)) as [->|].
    + rewrite list_lookup_alter_eq in Hb0. apply fmap_Some in Hb0 as (? & _ & ->). apply sl_init_free.
    + rewrite list_lookup_alter_ne in Hb0 by done. apply (Hfree i); [lia|done].
  - rewrite seq_S, rev_app_distr. simpl. apply ring_insert.
    + by apply adjs_alter.
    + rewrite <- Permutation_rev, elem_of_seq. lia.
    + unfold bhead; lia.
    + rewrite <- Permutation_rev, elem_of_seq. unfold bhead; lia.
    + rewrite <- Permutation_rev. apply NoDup_seq.
    + apply lookup_lt_is_Some_2. lia.
    + unfold nxt, bs0. rewrite list_lookup_alter_ne by (unfold bhead; lia). by rewrite Hh.
Qed.

(** [binit] leaves an empty, consistent cache and an idle queue. *)
Lemma binit_ok s :
  zeroed s →
  ∃ s', binit s = Ok (tt, s') ∧ cinv s' None ∧ drv s' = drv s ∧ ring (bufs s') (rev (seq 0 NBUF)).
Proof.
  intros [Hlen Hz Hpool Hhd Hdrv]. unfold binit.
  do 2 erewrite bind_ok by (by unfold upd_buf, modify). simpl.
  set (s1 := with_bufs _ _).
  assert (linked 0 (bufs s1)) as Hl0.
  { simpl. split; [by rewrite !length_alter|]. split; [|split].
    - apply linked_alter; [done|]. apply linked_alter; [done|]. exact Hz.
    - intros; lia.
    - destruct (lookup_lt_is_Some_2 (bufs s) bhead) as [h Hh]; [rewrite Hlen; unfold bhead; lia|].
      simpl. split; [|done]. split; unfold nxt, prv; by rewrite !list_lookup_alter_eq, Hh. }
  match goal with |- context [for_list _ ?b0 _] => set (body := b0) end.
  destruct (for_list_inv (λ k (_ : unit) s', linked k (bufs s') ∧ bq s' = bq s ∧ drv s' = drv s)
    (seq 0 NBUF) body tt s1) as ([] & s2 & E & Hl & Hq & Hd); [done| |].
  { intros k x [] s' Hx (Hl & Hq & Hd). apply lookup_seq in Hx as [-> Hk]. simpl.
    destruct (lookup_lt_is_Some_2 (bufs s') bhead) as [h Hh]; [rewrite (proj1 Hl); unfold bhead; lia|].
    unfold body. erewrite bind_ok by (by apply get_buf_ok).
    do 4 erewrite bind_ok by (by unfold upd_buf, modify).
    exists tt. eexists. split; [by unfold upd_buf, modify|]. simpl. split; [|done].
    rewrite Nat.add_1_r. by apply linked_step. }
  rewrite length_seq in Hl. destruct Hl as (Hlen2 & Hz2 & Hfree & Hadj).
  rewrite (bind_ok _ _ _ _ _ E). eexists. split; [by apply lift_q_ok|].
  assert (ring (bufs s2) (rev (seq 0 NBUF))) as Hring.
  { split; [done|]. by rewrite <- Permutation_rev. }
  split; [|done]. split; simpl; try done.
  - eauto.
  - intros i j b b' _ _ Hb _ Hdv. destruct (Hz2 _ _ Hb) as (_ & _ & Hd0).
    pose proof ROOTDEV_range. lia.
  - intros i b Hi Hb _. split; [by destruct (Hz2 _ _ Hb) as (_ & ? & _)|by eapply Hfree].
  - intros i b Hi Hb _ Hv. destruct (Hz2 _ _ Hb) as (? & _ & _). congruence.
  - rewrite Hq. split_and!; simpl; [by split; [|apply NoDup_nil_2]|done|lia|lia| |].
    + intros i (c & b & Hi). unfold status in Hi. simpl in Hi.
      rewrite list_lookup_fmap in Hi. by destruct (req_pool (bq s) !! i).
    + exists 0. unfold status. simpl. rewrite list_lookup_fmap.
      destruct (req_pool (bq s)) as [|r t]; [done|]. simpl. eauto.
  - by rewrite Hd.
Qed.

(** *** The cache discharges the interface of its clients *)
#[export, program] Instance bio_block_spec : BlockIOSpec (bio D) := {|
  bio_inv s := cinv s None;
  bcontent s n := drv_block (drv s) n;
|}.
Next Obligation. intros s n Hs. apply drv_block_length, Hs. Qed.
Next Obligation.
  intros s n Hs Hn. destruct (bread_ok s n Hs Hn) as (i & s1 & E1 & Hs1 & (b & Hb & Hd & Hbn & Hv & Hdata) & Hm).
  destruct (brelse_ok s1 i n Hs1) as (s2 & E2 & Hs2 & Hdrv & _).
  { exists b. split_and!; [done..|]. intros _. by rewrite Hm. }
  exists i, s1, s2. split_and!; [done| |done|done|].
  - simpl. by rewrite Hb.
  - intros m. by rewrite Hdrv, Hm.
Qed.
Next Obligation.
  intros s n d Hs Hn Hlen.
  destruct (bread_ok s n Hs Hn) as (i & s1 & E1 & Hs1 & (b & Hb & Hd & Hbn & Hv & Hdata) & Hm).
  destruct (bwrite_ok _ i n d (cinv_set_data s1 i d Hs1) Hn) as (s2 & E2 & Hs2 & Hh & Hw); [|done|].
  { eexists. simpl. rewrite list_lookup_alter_eq, Hb. done. }
  destruct (brelse_ok s2 i n Hs2) as (s3 & E3 & Hs3 & Hdrv & _).
  { destruct Hh as (b2 & Hb2 & Hd2 & Hn2 & Hdata2). exists b2. split_and!; [done..|].
    intros _. by rewrite Hw, decide_True. }
  exists i, s1, s2, s3. split_and!; [done..|].
  intros m. rewrite Hdrv, Hw. simpl. case_decide; [done|]. by rewrite Hm.
Qed.
End correctness.
