(* ===== verification/BioProps.v ===== *)
(** * Properties of the buffer cache

    The cache over the request queue and the driver behaves as the bare disk;
    it recycles the least recently released buffer, a cached block costs no
    disk request, and the swap device runs on top of it. *)
From S2P Require Import Prelude Interfaces DiskQueue DiskProto Bio Raid.
Local Open Scope Z_scope.

(** ** A client of the cache

    The pattern of bio.c:8-14: bread, maybe overwrite and bwrite, brelse. *)
Inductive bop := Rd (n : Z) | Wr (n : Z) (d : bytes).

Section client.
Context {S : Type} `{!BlockIO S} `{BlockParams}.

Definition run_bop (o : bop) : M S (option bytes) :=
  match o with
  | Rd n =>
    let* h := bread ROOTDEV n in
    let* d := gets (λ s, bdata s h) in
    brelse h ;;; ret (Some d)
  | Wr n d =>
    let* h := bread ROOTDEV n in
    modify (set_bdata h d) ;;; bwrite h ;;; brelse h ;;; ret None
  end.

Fixpoint run_bops (l : list bop) : M S (list (option bytes)) :=
  match l with
  | [] => ret []
  | o :: l => let* x := run_bop o in let* xs := run_bops l in ret (x :: xs)
  end.

(** The specification: an array of blocks. *)
Fixpoint spec_bops (l : list bop) (c : Z → bytes) : list (option bytes) * (Z → bytes) :=
  match l with
  | [] => ([], c)
  | Rd n :: l => let '(xs, c') := spec_bops l c in (Some (c n) :: xs, c')
  | Wr n d :: l =>
    let '(xs, c') := spec_bops l (λ m, if decide (m = n) then d else c m) in (None :: xs, c')
  end.

Definition bop_ok (o : bop) : Prop :=
  match o with
  | Rd n => 0 ≤ n < 2 ^ 31
  | Wr n d => 0 ≤ n < 2 ^ 31 ∧ length d = bsize
  end.

Context `{!BlockIOSpec S}.

Lemma spec_bops_ext l c1 c2 :
  (∀ m, c1 m = c2 m) →
  (spec_bops l c1).1 = (spec_bops l c2).1 ∧ ∀ m, (spec_bops l c1).2 m = (spec_bops l c2).2 m.
Proof.
  revert c1 c2. induction l as [|[n|n d] l IH]; intros c1 c2 Hc; simpl.
  - done.
  - destruct (IH c1 c2 Hc) as [H1 H2].
    destruct (spec_bops l c1), (spec_bops l c2). simpl in *. by rewrite Hc, H1.
  - destruct (IH (λ m, if decide (m = n) then d else c1 m) (λ m, if decide (m = n) then d else c2 m))
      as [H1 H2]; [intros m; by case_decide|].
    destruct (spec_bops l (λ m, if decide (m = n) then d else c1 m)),
      (spec_bops l (λ m, if decide (m = n) then d else c2 m)). simpl in *. by rewrite H1.
Qed.

Lemma run_bops_ok l s :
  bio_inv s → Forall bop_ok l →
  ∃ s', run_bops l s = Ok ((spec_bops l (bcontent s)).1, s') ∧ bio_inv s' ∧
    ∀ m, bcontent s' m = (spec_bops l (bcontent s)).2 m.
Proof.
  intros Hs Hl. revert s Hs. induction Hl as [|o l Ho Hl IH]; intros s Hs; [by exists s|].
  destruct o as [n|n d]; simpl.
  - destruct (bio_read s n Hs Ho) as (h & s1 & s2 & E1 & Hd & E2 & Hs2 & Hc).
    destruct (IH s2 Hs2) as (s' & E & Hs' & Hc').
    destruct (spec_bops_ext l _ _ Hc) as [H1 H2].
    exists s'. erewrite bind_ok.
    2:{ rewrite (bind_ok _ _ _ _ _ E1). erewrite bind_ok by (by unfold gets).
        by rewrite (bind_ok _ _ _ _ _ E2). }
    rewrite (bind_ok _ _ _ _ _ E), Hd.
    destruct (spec_bops l (bcontent s)) as [xs c'] eqn:Hspec. simpl in *.
    split_and!; [by rewrite <- H1|done|]. intros m. by rewrite Hc', H2.
  - destruct Ho as [Hn Hlen].
    destruct (bio_write s n d Hs Hn Hlen) as (h & s1 & s2 & s3 & E1 & E2 & E3 & Hs3 & Hc).
    destruct (IH s3 Hs3) as (s' & E & Hs' & Hc').
    destruct (spec_bops_ext l _ _ Hc) as [H1 H2].
    exists s'. erewrite bind_ok.
    2:{ rewrite (bind_ok _ _ _ _ _ E1). erewrite bind_ok by (by unfold modify).
        rewrite (bind_ok _ _ _ _ _ E2). by rewrite (bind_ok _ _ _ _ _ E3). }
    rewrite (bind_ok _ _ _ _ _ E).
    destruct (spec_bops l (λ m, if decide (m = n) then d else bcontent s m)) as [xs c'] eqn:Hspec.
    simpl in *. split_and!; [by rewrite <- H1|done|]. intros m. by rewrite Hc', H2.
Qed.
End client.

Section props.
Context `{BlockParams} `{BcacheParams} `{SleepLock} {D : Type} `{!DiskDriver D} `{!DiskDriverSpec D}.
Implicit Types s : bio D.

Lemma boot_run_ok s ops :
  zeroed s → Forall bop_ok ops →
  ∃ s', (binit ;;; run_bops ops) s = Ok ((spec_bops ops (drv_block (drv s))).1, s') ∧
    cinv s' None ∧ ∀ m, drv_block (drv s') m = (spec_bops ops (drv_block (drv s))).2 m.
Proof.
  intros Hz Hops. destruct (binit_ok s Hz) as (s1 & E1 & Hs1 & Hd & _).
  destruct (run_bops_ok ops s1) as (s' & E & Hs' & Hc); [exact Hs1|done|]. simpl in *.
  exists s'. rewrite (bind_ok _ _ _ _ _ E1), E. by rewrite <- Hd.
Qed.

(** [C16] The cache refines the disk.  From zeroed globals, [binit] followed by
    any sequence of reads and writes of blocks of the root device runs to
    completion: no panic, no sleep that nobody ends, no loop that runs out.
    Every read returns what the last write to its block stored, or what the
    disk held at boot, and at the end the disk itself holds the last write of
    every block: the cache is write-through. *)
Theorem cache_refines_disk s ops :
  zeroed s → Forall bop_ok ops →
  ∃ s', (binit ;;; run_bops ops) s = Ok ((spec_bops ops (drv_block (drv s))).1, s') ∧
    ∀ m, drv_block (drv s') m = (spec_bops ops (drv_block (drv s))).2 m.
Proof.
  intros Hz Hops. destruct (boot_run_ok s ops Hz Hops) as (s' & E & _ & Hm). by exists s'.
Qed.


(** A cached block costs no disk access: [bread] of a block that is
    valid in the cache returns its buffer locked with its data and leaves
    the driver and the request queue, statistics included, as they were. *)
Theorem bread_hit_no_io s i b :
  cinv s None → (i < NBUF)%nat → bufs s !! i = Some b → b_dev b = ROOTDEV → b_valid b = true →
  ∃ s', bio_bread ROOTDEV (b_blockno b) s = Ok (i, s') ∧ drv s' = drv s ∧ bq s' = bq s ∧
    b_data <$> bufs s' = b_data <$> bufs s.
Proof.
  intros Hs Hi Hb Hd Hv. destruct (ci_ring _ _ Hs) as [l Hl].
  destruct (bget_cases s l ROOTDEV (b_blockno b) Hl (ci_length _ _ Hs))
    as [(j & b' & Hj & Hb' & Hd' & Hn & E)|[(Hnm & _)|(Hnm & _)]]; [|by destruct (Hnm i b)..].
  assert (j = i) as -> by (eapply (ci_unique _ _ Hs); eauto). simplify_eq.
  destruct (ci_free _ _ Hs i b Hi Hb) as [_ Hfree]; [done|].
  set (s1 := with_bufs (alter (λ b, set_refcnt (u32 (b_refcnt b + 1)) b) i (bufs s)) s).
  destruct (acquire_buf_ok s1 i (set_refcnt (u32 (b_refcnt b + 1)) b)) as (lk & Hlk & E2).
  { simpl. by rewrite list_lookup_alter_eq, Hb. } { done. }
  assert (bget ROOTDEV (b_blockno b) s = Ok (i, with_bufs (alter (set_lock lk) i (bufs s1)) s1)) as Eb.
  { rewrite E. unfold bget_hit. erewrite bind_ok by (by unfold upd_buf, modify).
    by rewrite (bind_ok _ _ _ _ _ E2). }
  unfold bio_bread. rewrite (bind_ok _ _ _ _ _ Eb).
  erewrite bind_ok by (apply get_buf_ok; simpl; rewrite !list_lookup_alter_eq, Hb; done).
  simpl. rewrite Hv. eexists. split; [done|]. simpl. split_and!; [done..|].
  apply list_eq. intros k. rewrite !list_lookup_fmap. destruct (decide (k = i)) as [->|].
  - by rewrite !list_lookup_alter_eq, Hb.
  - by rewrite !list_lookup_alter_ne.
Qed.

(** [C19] The swap device works on the real cache.  From zeroed globals and
    under each RAID mode, after [binit] a page written to a slot reads back,
    through the RAID layer, the buffer cache, the request queue and any
    driver that keeps its promise. *)
Theorem swap_over_cache (s : raid (bio D)) slot (src dst : bytes) :
  zeroed (io s) → valid_mode (raid_mode s) → 0 ≤ slot < MAX_SWAP_PAGES →
  length src = pgsize → length dst = pgsize →
  ∃ s0 s1 s2 : raid (bio D), lift_io binit s = Ok (tt, s0) ∧ swap_disk_write slot src s0 = Ok (0, s1) ∧
    swap_disk_read slot dst s1 = Ok (0, src, s2).
Proof.
  intros Hz Hm Hslot Hsrc Hdst. destruct (binit_ok (io s) Hz) as (b & E & Hb & _).
  destruct (dev_write_ok (with_io b s) slot src) as (s1 & E1 & Hi1 & Hp); [done..|].
  destruct (dev_read_ok s1 slot dst) as (s2 & E2 & _); [done..|].
  exists (with_io b s), s1, s2. split_and!; [unfold lift_io; by rewrite E|done|].
  rewrite Hp, decide_True in E2 by done. exact E2.
Qed.
End props.

(** ** Runs with the xv6 constants *)
Module CacheRuns.
#[local] Existing Instance xv6_block_params.
#[local] Existing Instance xv6_bcache_params.
#[local] Existing Instance flag_lock.

Definition buf0 : buf := mkBuf _ false 0 0 (None : sleeplock) 0 0 0 (replicate 1024 0).
Definition disk0 : Z → bytes := λ n, replicate bsize (n mod 251).
Definition boot : bio (Z → bytes) := mkBio (replicate 31 buf0) (queue0 1) disk0 (Some 0%nat) (λ _, 0).
Definition block7 : bytes := replicate bsize 7.

Lemma boot_zeroed : zeroed boot.
Proof.
  split; [done| |done|done|intros n; apply length_replicate].
  intros i b. unfold boot. cbn [bufs]. intros [-> _]%lookup_replicate. done.
Qed.

Lemma cache_refines_disk_witness :
  ∃ s', (binit ;;; run_bops [Wr 3 block7; Rd 3; Rd 4]) boot =
    Ok ([None; Some block7; Some (disk0 4)], s') ∧ drv s' 3 = block7.
Proof.
  destruct (cache_refines_disk boot [Wr 3 block7; Rd 3; Rd 4]) as (s' & E & Hm).
  - apply boot_zeroed.
  - repeat constructor; try lia; vm_compute; reflexivity.
  - exists s'. split; [exact E|exact (Hm 3)].
Defined.

Definition booted : bio (Z → bytes) :=
  match (binit ;;; run_bops [Rd 5]) boot with Ok (_, s) => s | _ => boot end.

Lemma booted_inv : cinv booted None.
Proof.
  destruct (boot_run_ok boot [Rd 5] boot_zeroed) as (s' & E & Hs' & _);
    [apply Forall_singleton; unfold bop_ok; lia|].
  unfold booted. rewrite E. exact Hs'.
Qed.

Lemma booted_no9 i b : bufs booted !! i = Some b → b_blockno b ≠ 9.
Proof.
  intros Hb. assert (forallb (λ b, negb (b_blockno b =? 9)) (bufs booted) = true) as Hall
    by (vm_compute; reflexivity).
  rewrite forallb_forall in Hall. specialize (Hall b). rewrite <- list_elem_of_In in Hall.
  apply list_elem_of_lookup_2, Hall in Hb. lia.
Qed.


Lemma bread_hit_no_io_witness :
  ∃ i b s', bufs booted !! i = Some b ∧ b_blockno b = 5 ∧
    bio_bread 1 5 booted = Ok (i, s') ∧ drv s' = drv booted ∧ bq s' = bq booted.
Proof.
  destruct (bufs booted !! 0%nat) as [b|] eqn:Hb; [|exfalso; vm_compute in Hb; discriminate].
  assert (b_blockno b = 5 ∧ b_dev b = 1 ∧ b_valid b = true) as (Hn & Hd & Hv).
  { vm_compute in Hb. injection Hb as <-. repeat split. }
  destruct (bread_hit_no_io booted 0%nat b booted_inv) as (s' & E & Hdrv & Hq & _);
    [vm_compute; lia|exact Hb|exact Hd|exact Hv|].
  exists 0%nat, b, s'. rewrite Hn in E. split; [exact Hb|]. split; [exact Hn|].
  split; [exact E|]. split; [exact Hdrv|exact Hq].
Defined.

Definition page (k : Z) : bytes := (λ i, (k + i) mod 256) <$> seqZ 0 4096.

Lemma swap_over_cache_witness :
  ∃ s0 s1 s2, lift_io binit (mkRaid RAID5 [] [] [] [] boot) = Ok (tt, s0) ∧
    swap_disk_write 11 (page 3) s0 = Ok (0, s1) ∧
    swap_disk_read 11 (replicate 4096 0) s1 = Ok (0, page 3, s2).
Proof.
  apply (swap_over_cache (mkRaid RAID5 [] [] [] [] boot) 11 (page 3) (replicate 4096 0)).
  - apply boot_zeroed.
  - right; right; reflexivity.
  - unfold MAX_SWAP_PAGES; lia.
  - vm_compute; reflexivity.
  - vm_compute; reflexivity.
Defined.
End CacheRuns.
