(* ===== verification/Mem.v ===== *)
(** * Physical memory and Sv39 page-table entries

    The kernel runs with physical memory mapped at its own addresses, so a
    pointer is a physical address and memory is a function from addresses to
    bytes.  Words are little-endian.  The constants of riscv.h and
    memlayout.h are not in the repository; [Layout] and [Sv39] state what
    the kernel code relies on, and [xv6_layout], [xv6_sv39] discharge it. *)
From S2P Require Import Prelude Interfaces.
Local Open Scope Z_scope.

Definition memory : Type := Z → Z.

(** Little-endian words of [n] bytes; a cell holds one byte. *)
Fixpoint rdn (n : nat) (m : memory) (a : Z) : Z :=
  match n with
  | O => 0
  | S n => m a mod 256 + 256 * rdn n m (a + 1)
  end.
Definition rd64 (m : memory) (a : Z) : Z := rdn 8 m a.
Definition wr64 (m : memory) (a v : Z) : memory := λ x,
  if decide (a ≤ x < a + 8) then (v / 256 ^ (x - a)) mod 256 else m x.

(** [memset], and a block of bytes read from or copied to memory. *)
Definition fill (m : memory) (a c n : Z) : memory := λ x,
  if decide (a ≤ x < a + n) then c else m x.
Definition rdbytes (m : memory) (a n : Z) : bytes := m <$> seqZ a n.
Definition wrbytes (m : memory) (a : Z) (l : bytes) : memory := λ x,
  if decide (a ≤ x) then default (m x) (l !! Z.to_nat (x - a)) else m x.

Lemma rdn_ext n m m' a :
  (∀ x, a ≤ x < a + Z.of_nat n → m' x = m x) → rdn n m' a = rdn n m a.
Proof.
  revert a. induction n as [|n IH]; intros a Hx; [done|]. simpl.
  rewrite Hx by lia. f_equal. f_equal. apply IH. intros x ?. apply Hx. lia.
Qed.

Lemma rd64_ext m m' a : (∀ x, a ≤ x < a + 8 → m' x = m x) → rd64 m' a = rd64 m a.
Proof. intros Hx. apply rdn_ext. intros x ?. apply Hx. lia. Qed.

Lemma rdn_range n m a : 0 ≤ rdn n m a < 256 ^ Z.of_nat n.
Proof.
  revert a. induction n as [|n IH]; intros a; [done|]. cbn [rdn]. rewrite Nat2Z.inj_succ, Z.pow_succ_r by lia.
  pose proof (Z.mod_pos_bound (m a) 256). specialize (IH (a + 1)). lia.
Qed.

Lemma rd64_range m a : 0 ≤ rd64 m a < 2 ^ 64.
Proof. exact (rdn_range 8 m a). Qed.

Lemma rdn_digits n v m a :
  0 ≤ v → (∀ k, 0 ≤ k < Z.of_nat n → m (a + k) = (v / 256 ^ k) mod 256) →
  rdn n m a = v mod 256 ^ Z.of_nat n.
Proof.
  revert v a. induction n as [|n IH]; intros v a Hv Hm.
  - simpl. by rewrite Z.mod_1_r.
  - cbn [rdn]. rewrite <- (Z.add_0_r a) at 1. rewrite Hm by lia. rewrite Z.pow_0_r, Z.div_1_r, Z.mod_mod by lia.
    rewrite (IH (v / 256)).
    + rewrite Nat2Z.inj_succ, Z.pow_succ_r by lia. symmetry.
      apply Z.rem_mul_r; [lia|]. apply Z.pow_pos_nonneg; lia.
    + apply Z.div_pos; lia.
    + intros k Hk. rewrite <- Z.add_assoc, Hm by lia.
      rewrite Z.add_1_l, Z.pow_succ_r by lia. by rewrite Z.div_div by lia.
Qed.

Lemma rd64_wr64 m a v : 0 ≤ v < 2 ^ 64 → rd64 (wr64 m a v) a = v.
Proof.
  intros Hv. unfold rd64. rewrite (rdn_digits 8 v) by
    (try lia; intros k Hk; unfold wr64; rewrite decide_True by lia; by rewrite Z.add_simpl_l).
  change (256 ^ Z.of_nat 8) with (2 ^ 64). by apply Z.mod_small.
Qed.

Lemma rd64_wr64_ne m a b v : b + 8 ≤ a ∨ a + 8 ≤ b → rd64 (wr64 m a v) b = rd64 m b.
Proof. intros Hd. apply rd64_ext. intros x ?. unfold wr64. rewrite decide_False; [done|lia]. Qed.

Lemma rd64_fill m a n b : a ≤ b → b + 8 ≤ a + n → rd64 (fill m a 0 n) b = 0.
Proof.
  intros ? ?. unfold rd64. rewrite (rdn_digits 8 0); [done|lia|].
  intros k Hk. unfold fill. rewrite decide_True by lia. by rewrite Z.div_0_l by lia.
Qed.

Lemma length_rdbytes m a n : length (rdbytes m a n) = Z.to_nat n.
Proof. unfold rdbytes. by rewrite length_fmap, length_seqZ. Qed.

Lemma rdbytes_ext m m' a n :
  (∀ x, a ≤ x < a + n → m' x = m x) → rdbytes m' a n = rdbytes m a n.
Proof.
  intros Hx. unfold rdbytes. apply list_fmap_ext. intros i x Hi.
  apply lookup_seqZ in Hi as [-> ?]. apply Hx. lia.
Qed.

Lemma rdbytes_wrbytes m a l : rdbytes (wrbytes m a l) a (Z.of_nat (length l)) = l.
Proof.
  apply list_eq. intros i. unfold rdbytes. rewrite list_lookup_fmap.
  destruct (decide (i < length l)%nat) as [Hi|Hi].
  - rewrite lookup_seqZ_lt by lia. simpl. unfold wrbytes. rewrite decide_True by lia.
    replace (Z.to_nat (a + Z.of_nat i - a)) with i by lia.
    destruct (l !! i) eqn:E; [done|]. apply lookup_ge_None in E. lia.
  - rewrite lookup_seqZ_ge by lia. symmetry. apply lookup_ge_None. lia.
Qed.

Lemma wrbytes_out m a l x :
  ¬ (a ≤ x < a + Z.of_nat (length l)) → wrbytes m a l x = m x.
Proof.
  intros Hx. unfold wrbytes. case_decide; [|done].
  rewrite lookup_ge_None_2; [done|lia].
Qed.

Lemma rdbytes_fill m a c n : rdbytes (fill m a c n) a n = replicate (Z.to_nat n) c.
Proof.
  apply list_eq. intros i. unfold rdbytes. rewrite list_lookup_fmap.
  destruct (decide (i < Z.to_nat n)%nat) as [Hi|Hi].
  - rewrite lookup_seqZ_lt by lia. simpl. unfold fill. rewrite decide_True by lia.
    symmetry. apply lookup_replicate_2. lia.
  - rewrite lookup_seqZ_ge by lia. symmetry. apply lookup_ge_None. rewrite length_replicate. lia.
Qed.

(** ** Where things are (memlayout.h, riscv.h, the linker script) *)
Class Layout `{BlockParams} := {
  KERNBASE : Z;
  kend : Z;               (* [end], the first address after the kernel *)
  PHYSTOP : Z;
  MAXVA : Z;
  TRAMPOLINE : Z;
  TRAPFRAME : Z;
  NPROC : nat;
  KERNBASE_pos : 0 < KERNBASE;
  kend_range : KERNBASE ≤ kend ≤ PHYSTOP;
  PHYSTOP_range : PHYSTOP < 2 ^ 55;
  PHYSTOP_aligned : (PGSIZE | PHYSTOP);
  MAXVA_range : 2 * PGSIZE < MAXVA ≤ 2 ^ 38;
  MAXVA_aligned : (PGSIZE | MAXVA);
  TRAMPOLINE_top : TRAMPOLINE = MAXVA - PGSIZE;
  TRAPFRAME_below : TRAPFRAME = TRAMPOLINE - PGSIZE;
}.

Definition PGROUNDUP `{BlockParams} (sz : Z) : Z := u64 (sz + PGSIZE - 1) / PGSIZE * PGSIZE.
Definition PGROUNDDOWN `{BlockParams} (a : Z) : Z := a / PGSIZE * PGSIZE.

(** ** Page-table entries (riscv.h; the scheme is described at vm.c:99-106)

    A PTE holds a page number and ten flag bits; a virtual address splits
    into three 9-bit indices and the offset. *)
Definition pa_ok `{BlockParams} (pa : Z) : Prop := 0 ≤ pa < 2 ^ 55 ∧ (PGSIZE | pa).

Class Sv39 `{Layout} := {
  PTE_V : Z;
  PTE_R : Z;
  PTE_W : Z;
  PTE_X : Z;
  PTE_U : Z;
  PX : Z → Z → Z;
  PTE2PA : Z → Z;
  PA2PTE : Z → Z;
  PTE_FLAGS : Z → Z;
  PX_range level va : 0 ≤ PX level va < 512;
  PX_split va : 0 ≤ va < MAXVA → va / PGSIZE = (PX 2 va * 512 + PX 1 va) * 512 + PX 0 va;
  pte_bits : PTE_V = 1 ∧ PTE_R = 2 ∧ PTE_W = 4 ∧ PTE_X = 8 ∧ PTE_U = 16;
  pte_range pa fl : pa_ok pa → 0 ≤ fl < 1024 → 0 ≤ Z.lor (PA2PTE pa) fl < 2 ^ 64;
  pte_pa pa fl : pa_ok pa → 0 ≤ fl < 1024 → PTE2PA (Z.lor (PA2PTE pa) fl) = pa;
  pte_flags pa fl : pa_ok pa → 0 ≤ fl < 1024 → PTE_FLAGS (Z.lor (PA2PTE pa) fl) = fl;
  pte_and pa fl k : pa_ok pa → 0 ≤ fl < 1024 → 0 ≤ k < 1024 →
    Z.land (Z.lor (PA2PTE pa) fl) k = Z.land fl k;
  PTE_FLAGS_range pte : 0 ≤ PTE_FLAGS pte < 1024;
  PTE_FLAGS_land pte k : 0 ≤ k < 1024 → Z.land (PTE_FLAGS pte) k = Z.land pte k;
}.

(** [*pte & PTE_V] *)
Definition valid_pte `{Sv39} (pte : Z) : bool := negb (Z.land pte PTE_V =? 0).

Lemma valid_pte_0 `{Sv39} : valid_pte 0 = false.
Proof. done. Qed.

Lemma valid_pte_mk `{Sv39} pa fl :
  pa_ok pa → 0 ≤ fl < 1024 → valid_pte (Z.lor (PA2PTE pa) fl) = Z.odd fl.
Proof.
  intros Hpa Hfl. unfold valid_pte. destruct pte_bits as (-> & _).
  rewrite pte_and by (done || lia). rewrite (Z.land_ones _ 1) by lia. rewrite Zmod_odd.
  by destruct (Z.odd fl).
Qed.

(** ** The xv6 values *)
Definition xv6_layout (stop : Z) (Hlo : 2147483648 + 4096 * 16 ≤ stop) (Hhi : stop < 2 ^ 55)
    (Hal : (4096 | stop)) : @Layout xv6_block_params.
Proof.
  refine (@Build_Layout xv6_block_params 2147483648 (2147483648 + 4096 * 8) stop (2 ^ 38)
    (2 ^ 38 - 4096) (2 ^ 38 - 8192) 64 _ _ _ _ _ _ _ _); [lia|simpl; lia|done|done|simpl; lia| |done|done].
  exists (2 ^ 26). done.
Defined.

Lemma lor_low x fl : 0 ≤ x → 0 ≤ fl < 1024 → Z.lor (x * 1024) fl = x * 1024 + fl.
Proof.
  intros Hx Hfl. rewrite <- Z.add_lor_land. enough (Z.land (x * 1024) fl = 0) as -> by lia.
  apply Z.bits_inj'. intros n Hn. rewrite Z.land_spec, Z.bits_0.
  change 1024 with (2 ^ 10). destruct (decide (n < 10)).
  - by rewrite Z.mul_pow2_bits_low.
  - rewrite (Z.bits_above_log2 fl n); [apply andb_false_r|lia|].
    destruct (decide (fl = 0)) as [->|]; [simpl; lia|]. apply Z.log2_lt_pow2; [lia|].
    apply Z.lt_le_trans with (2 ^ 10); [done || lia|]. apply Z.pow_le_mono_r; lia.
Qed.

Lemma land_low x fl k : 0 ≤ x → 0 ≤ fl < 1024 → 0 ≤ k < 1024 →
  Z.land (x * 1024 + fl) k = Z.land fl k.
Proof.
  intros Hx Hfl Hk. assert (Z.land k (Z.ones 10) = k) as Hk' by (rewrite Z.land_ones by lia; apply Z.mod_small; lia).
  rewrite <- Hk' at 1. rewrite (Z.land_comm k), Z.land_assoc, Z.land_ones by lia.
  change (2 ^ 10) with 1024. rewrite Z.add_comm, Z.mod_add, Z.mod_small by lia. done.
Qed.

Lemma land_mod_low x k : 0 ≤ k < 1024 → Z.land (x mod 1024) k = Z.land x k.
Proof.
  intros Hk. assert (Z.land k (Z.ones 10) = k) as Hk' by (rewrite Z.land_ones by lia; apply Z.mod_small; lia).
  change 1024 with (2 ^ 10). rewrite <- Z.land_ones by lia.
  rewrite <- Z.land_assoc, (Z.land_comm (Z.ones 10)). by rewrite Hk'.
Qed.

Definition xv6_sv39 stop Hlo Hhi Hal : @Sv39 _ (xv6_layout stop Hlo Hhi Hal).
Proof.
  refine (@Build_Sv39 _ (xv6_layout stop Hlo Hhi Hal) 1 2 4 8 16
    (λ level va, Z.land (Z.shiftr va (12 + 9 * level)) 511)
    (λ pte, Z.shiftl (Z.shiftr pte 10) 12) (λ pa, Z.shiftl (Z.shiftr pa 12) 10)
    (λ pte, Z.land pte 1023) _ _ _ _ _ _ _ _ _).
  - intros level va. change 511 with (Z.ones 9). rewrite Z.land_ones by lia. apply Z.mod_pos_bound. lia.
  - intros va Hva. simpl in Hva. change 511 with (Z.ones 9). rewrite !Z.land_ones, !Z.shiftr_div_pow2 by lia.
    simpl. change (2 ^ 9) with 512. change (2 ^ (12 + 9 * 2)) with 1073741824.
    change (2 ^ (12 + 9 * 1)) with 2097152. change (2 ^ (12 + 9 * 0)) with 4096.
    change (2 ^ 30) with 1073741824. change (2 ^ 21) with 2097152. change (2 ^ 12) with 4096.
    change (2 ^ 38) with 274877906944 in Hva.
    change 1073741824 with (4096 * (512 * 512)). change 2097152 with (4096 * 512).
    rewrite <- !Z.div_div by lia. rewrite (Z.mod_small (va / 4096 / 512 / 512)); [|split; [apply Z.div_pos; [apply Z.div_pos; [apply Z.div_pos|]|]; lia|]].
    + pose proof (Z.div_mod (va / 4096) 512). pose proof (Z.div_mod (va / 4096 / 512) 512). lia.
    + apply Z.div_lt_upper_bound; [lia|]. apply Z.div_lt_upper_bound; [lia|].
      apply Z.div_lt_upper_bound; lia.
  - done.
  - intros pa fl [Hpa _] Hfl. rewrite Z.shiftl_mul_pow2, Z.shiftr_div_pow2 by lia.
    change (2 ^ 10) with 1024. change (2 ^ 12) with 4096.
    pose proof (Z.div_pos pa 4096). rewrite lor_low by lia.
    assert (pa / 4096 < 2 ^ 43) by (apply Z.div_lt_upper_bound; lia). lia.
  - intros pa fl [Hpa [k ->]] Hfl. simpl (PGSIZE) in *.
    change (@PGSIZE xv6_block_params) with 4096 in *.
    rewrite Z.shiftl_mul_pow2, Z.shiftr_div_pow2 by lia. rewrite (Z.shiftl_mul_pow2 _ 10), (Z.shiftr_div_pow2 _ 12) by lia.
    change (2 ^ 10) with 1024. change (2 ^ 12) with 4096.
    rewrite Z.div_mul by lia. rewrite lor_low by lia.
    rewrite Z.add_comm, Z.div_add, Z.div_small by lia. lia.
  - intros pa fl [Hpa _] Hfl. rewrite Z.shiftl_mul_pow2, Z.shiftr_div_pow2 by lia.
    change (2 ^ 10) with 1024. change (2 ^ 12) with 4096.
    pose proof (Z.div_pos pa 4096). rewrite lor_low, land_low by lia.
    change 1023 with (Z.ones 10). rewrite Z.land_ones by lia. apply Z.mod_small. lia.
  - intros pa fl k [Hpa _] Hfl Hk. rewrite Z.shiftl_mul_pow2, Z.shiftr_div_pow2 by lia.
    change (2 ^ 10) with 1024. change (2 ^ 12) with 4096.
    pose proof (Z.div_pos pa 4096). rewrite lor_low, land_low by lia. done.
  - intros pte. change 1023 with (Z.ones 10). rewrite Z.land_ones by lia. apply Z.mod_pos_bound. lia.
  - intros pte k Hk. change 1023 with (Z.ones 10). rewrite Z.land_ones by lia.
    change (2 ^ 10) with 1024. by apply land_mod_low.
Defined.
