(* ===== verification/KState.v ===== *)
(** * The kernel state of kalloc.c, vm.c, proc.c and trap.c

    The data types of proc.h and defs.h, the globals of the four files in one
    record, and the accessors the components share.  [myproc()] is the field
    [cur]: the code is modelled as it runs on one CPU. *)
From S2P Require Import Prelude Interfaces Mem.
Local Open Scope Z_scope.

(** defs.h:11-12 *)
Definition MAX_FRAMES : nat := 20.
Definition MAX_SWAP : nat := 256.

(** proc.h, [enum procstate] *)
Inductive procstate := UNUSED | USED | SLEEPING | RUNNABLE | RUNNING | ZOMBIE.
#[export] Instance procstate_eq_dec : EqDecision procstate.
Proof. solve_decision. Defined.

(** defs.h:14-21, [struct frame]; a process pointer is an index into [proc[]]. *)
Record frame := mkFrame {
  f_used : bool;
  f_user : bool;
  f_proc : option nat;
  f_va : Z;
  f_ref : bool;
}.

(** defs.h:25-31, [struct swap_entry] *)
Record swap_entry := mkSwap {
  s_used : bool;
  s_proc : option nat;
  s_va : Z;
  s_slot : Z;
}.

(** proc.h, [struct proc] without the lock and the register save area, which
    only locking code and assembly use; addresses are numbers, 0 is null. *)
Record proc := mkProc {
  p_state : procstate;
  p_chan : Z;
  p_killed : Z;
  p_xstate : Z;
  p_pid : Z;
  p_parent : option nat;
  p_kstack : Z;
  p_sz : Z;
  p_pagetable : Z;
  p_trapframe : Z;
  p_ofile : list Z;
  p_cwd : Z;
  p_name : bytes;
  p_syscount : Z;
  p_level : Z;
  p_ticks_used : Z;
  p_ticks : list Z;
  p_times_scheduled : Z;
  p_last_syscall_count : Z;
  p_page_faults : Z;
  p_pages_evicted : Z;
  p_pages_swapped_in : Z;
  p_pages_swapped_out : Z;
  p_resident_pages : Z;
}.

Definition set_p_state (x : procstate) (p : proc) : proc := mkProc x (p_chan p) (p_killed p)
    (p_xstate p) (p_pid p) (p_parent p) (p_kstack p) (p_sz p) (p_pagetable p) (p_trapframe p)
    (p_ofile p) (p_cwd p) (p_name p) (p_syscount p) (p_level p) (p_ticks_used p) (p_ticks p)
    (p_times_scheduled p) (p_last_syscall_count p) (p_page_faults p) (p_pages_evicted p)
    (p_pages_swapped_in p) (p_pages_swapped_out p) (p_resident_pages p).
Definition set_p_chan (x : Z) (p : proc) : proc := mkProc (p_state p) x (p_killed p) (p_xstate
    p) (p_pid p) (p_parent p) (p_kstack p) (p_sz p) (p_pagetable p) (p_trapframe p) (p_ofile p)
    (p_cwd p) (p_name p) (p_syscount p) (p_level p) (p_ticks_used p) (p_ticks p)
    (p_times_scheduled p) (p_last_syscall_count p) (p_page_faults p) (p_pages_evicted p)
    (p_pages_swapped_in p) (p_pages_swapped_out p) (p_resident_pages p).
Definition set_p_killed (x : Z) (p : proc) : proc := mkProc (p_state p) (p_chan p) x (p_xstate
    p) (p_pid p) (p_parent p) (p_kstack p) (p_sz p) (p_pagetable p) (p_trapframe p) (p_ofile p)
    (p_cwd p) (p_name p) (p_syscount p) (p_level p) (p_ticks_used p) (p_ticks p)
    (p_times_scheduled p) (p_last_syscall_count p) (p_page_faults p) (p_pages_evicted p)
    (p_pages_swapped_in p) (p_pages_swapped_out p) (p_resident_pages p).
Definition set_p_xstate (x : Z) (p : proc) : proc := mkProc (p_state p) (p_chan p) (p_killed p)
    x (p_pid p) (p_parent p) (p_kstack p) (p_sz p) (p_pagetable p) (p_trapframe p) (p_ofile p)
    (p_cwd p) (p_name p) (p_syscount p) (p_level p) (p_ticks_used p) (p_ticks p)
    (p_times_scheduled p) (p_last_syscall_count p) (p_page_faults p) (p_pages_evicted p)
    (p_pages_swapped_in p) (p_pages_swapped_out p) (p_resident_pages p).
Definition set_p_pid (x : Z) (p : proc) : proc := mkProc (p_state p) (p_chan p) (p_killed p)
    (p_xstate p) x (p_parent p) (p_kstack p) (p_sz p) (p_pagetable p) (p_trapframe p) (p_ofile
    p) (p_cwd p) (p_name p) (p_syscount p) (p_level p) (p_ticks_used p) (p_ticks p)
    (p_times_scheduled p) (p_last_syscall_count p) (p_page_faults p) (p_pages_evicted p)
    (p_pages_swapped_in p) (p_pages_swapped_out p) (p_resident_pages p).
Definition set_p_parent (x : option nat) (p : proc) : proc := mkProc (p_state p) (p_chan p)
    (p_killed p) (p_xstate p) (p_pid p) x (p_kstack p) (p_sz p) (p_pagetable p) (p_trapframe p)
    (p_ofile p) (p_cwd p) (p_name p) (p_syscount p) (p_level p) (p_ticks_used p) (p_ticks p)
    (p_times_scheduled p) (p_last_syscall_count p) (p_page_faults p) (p_pages_evicted p)
    (p_pages_swapped_in p) (p_pages_swapped_out p) (p_resident_pages p).
Definition set_p_kstack (x : Z) (p : proc) : proc := mkProc (p_state p) (p_chan p) (p_killed p)
    (p_xstate p) (p_pid p) (p_parent p) x (p_sz p) (p_pagetable p) (p_trapframe p) (p_ofile p)
    (p_cwd p) (p_name p) (p_syscount p) (p_level p) (p_ticks_used p) (p_ticks p)
    (p_times_scheduled p) (p_last_syscall_count p) (p_page_faults p) (p_pages_evicted p)
    (p_pages_swapped_in p) (p_pages_swapped_out p) (p_resident_pages p).
Definition set_p_sz (x : Z) (p : proc) : proc := mkProc (p_state p) (p_chan p) (p_killed p)
    (p_xstate p) (p_pid p) (p_parent p) (p_kstack p) x (p_pagetable p) (p_trapframe p) (p_ofile
    p) (p_cwd p) (p_name p) (p_syscount p) (p_level p) (p_ticks_used p) (p_ticks p)
    (p_times_scheduled p) (p_last_syscall_count p) (p_page_faults p) (p_pages_evicted p)
    (p_pages_swapped_in p) (p_pages_swapped_out p) (p_resident_pages p).
Definition set_p_pagetable (x : Z) (p : proc) : proc := mkProc (p_state p) (p_chan p) (p_killed
    p) (p_xstate p) (p_pid p) (p_parent p) (p_kstack p) (p_sz p) x (p_trapframe p) (p_ofile p)
    (p_cwd p) (p_name p) (p_syscount p) (p_level p) (p_ticks_used p) (p_ticks p)
    (p_times_scheduled p) (p_last_syscall_count p) (p_page_faults p) (p_pages_evicted p)
    (p_pages_swapped_in p) (p_pages_swapped_out p) (p_resident_pages p).
Definition set_p_trapframe (x : Z) (p : proc) : proc := mkProc (p_state p) (p_chan p) (p_killed
    p) (p_xstate p) (p_pid p) (p_parent p) (p_kstack p) (p_sz p) (p_pagetable p) x (p_ofile p)
    (p_cwd p) (p_name p) (p_syscount p) (p_level p) (p_ticks_used p) (p_ticks p)
    (p_times_scheduled p) (p_last_syscall_count p) (p_page_faults p) (p_pages_evicted p)
    (p_pages_swapped_in p) (p_pages_swapped_out p) (p_resident_pages p).
Definition set_p_ofile (x : list Z) (p : proc) : proc := mkProc (p_state p) (p_chan p) (p_killed
    p) (p_xstate p) (p_pid p) (p_parent p) (p_kstack p) (p_sz p) (p_pagetable p) (p_trapframe p)
    x (p_cwd p) (p_name p) (p_syscount p) (p_level p) (p_ticks_used p) (p_ticks p)
    (p_times_scheduled p) (p_last_syscall_count p) (p_page_faults p) (p_pages_evicted p)
    (p_pages_swapped_in p) (p_pages_swapped_out p) (p_resident_pages p).
Definition set_p_cwd (x : Z) (p : proc) : proc := mkProc (p_state p) (p_chan p) (p_killed p)
    (p_xstate p) (p_pid p) (p_parent p) (p_kstack p) (p_sz p) (p_pagetable p) (p_trapframe p)
    (p_ofile p) x (p_name p) (p_syscount p) (p_level p) (p_ticks_used p) (p_ticks p)
    (p_times_scheduled p) (p_last_syscall_count p) (p_page_faults p) (p_pages_evicted p)
    (p_pages_swapped_in p) (p_pages_swapped_out p) (p_resident_pages p).
Definition set_p_name (x : bytes) (p : proc) : proc := mkProc (p_state p) (p_chan p) (p_killed
    p) (p_xstate p) (p_pid p) (p_parent p) (p_kstack p) (p_sz p) (p_pagetable p) (p_trapframe p)
    (p_ofile p) (p_cwd p) x (p_syscount p) (p_level p) (p_ticks_used p) (p_ticks p)
    (p_times_scheduled p) (p_last_syscall_count p) (p_page_faults p) (p_pages_evicted p)
    (p_pages_swapped_in p) (p_pages_swapped_out p) (p_resident_pages p).
Definition set_p_syscount (x : Z) (p : proc) : proc := mkProc (p_state p) (p_chan p) (p_killed
    p) (p_xstate p) (p_pid p) (p_parent p) (p_kstack p) (p_sz p) (p_pagetable p) (p_trapframe p)
    (p_ofile p) (p_cwd p) (p_name p) x (p_level p) (p_ticks_used p) (p_ticks p)
    (p_times_scheduled p) (p_last_syscall_count p) (p_page_faults p) (p_pages_evicted p)
    (p_pages_swapped_in p) (p_pages_swapped_out p) (p_resident_pages p).
Definition set_p_level (x : Z) (p : proc) : proc := mkProc (p_state p) (p_chan p) (p_killed p)
    (p_xstate p) (p_pid p) (p_parent p) (p_kstack p) (p_sz p) (p_pagetable p) (p_trapframe p)
    (p_ofile p) (p_cwd p) (p_name p) (p_syscount p) x (p_ticks_used p) (p_ticks p)
    (p_times_scheduled p) (p_last_syscall_count p) (p_page_faults p) (p_pages_evicted p)
    (p_pages_swapped_in p) (p_pages_swapped_out p) (p_resident_pages p).
Definition set_p_ticks_used (x : Z) (p : proc) : proc := mkProc (p_state p) (p_chan p) (p_killed
    p) (p_xstate p) (p_pid p) (p_parent p) (p_kstack p) (p_sz p) (p_pagetable p) (p_trapframe p)
    (p_ofile p) (p_cwd p) (p_name p) (p_syscount p) (p_level p) x (p_ticks p) (p_times_scheduled
    p) (p_last_syscall_count p) (p_page_faults p) (p_pages_evicted p) (p_pages_swapped_in p)
    (p_pages_swapped_out p) (p_resident_pages p).
Definition set_p_ticks (x : list Z) (p : proc) : proc := mkProc (p_state p) (p_chan p) (p_killed
    p) (p_xstate p) (p_pid p) (p_parent p) (p_kstack p) (p_sz p) (p_pagetable p) (p_trapframe p)
    (p_ofile p) (p_cwd p) (p_name p) (p_syscount p) (p_level p) (p_ticks_used p) x
    (p_times_scheduled p) (p_last_syscall_count p) (p_page_faults p) (p_pages_evicted p)
    (p_pages_swapped_in p) (p_pages_swapped_out p) (p_resident_pages p).
Definition set_p_times_scheduled (x : Z) (p : proc) : proc := mkProc (p_state p) (p_chan p)
    (p_killed p) (p_xstate p) (p_pid p) (p_parent p) (p_kstack p) (p_sz p) (p_pagetable p)
    (p_trapframe p) (p_ofile p) (p_cwd p) (p_name p) (p_syscount p) (p_level p) (p_ticks_used p)
    (p_ticks p) x (p_last_syscall_count p) (p_page_faults p) (p_pages_evicted p)
    (p_pages_swapped_in p) (p_pages_swapped_out p) (p_resident_pages p).
Definition set_p_last_syscall_count (x : Z) (p : proc) : proc := mkProc (p_state p) (p_chan p)
    (p_killed p) (p_xstate p) (p_pid p) (p_parent p) (p_kstack p) (p_sz p) (p_pagetable p)
    (p_trapframe p) (p_ofile p) (p_cwd p) (p_name p) (p_syscount p) (p_level p) (p_ticks_used p)
    (p_ticks p) (p_times_scheduled p) x (p_page_faults p) (p_pages_evicted p)
    (p_pages_swapped_in p) (p_pages_swapped_out p) (p_resident_pages p).
Definition set_p_page_faults (x : Z) (p : proc) : proc := mkProc (p_state p) (p_chan p)
    (p_killed p) (p_xstate p) (p_pid p) (p_parent p) (p_kstack p) (p_sz p) (p_pagetable p)
    (p_trapframe p) (p_ofile p) (p_cwd p) (p_name p) (p_syscount p) (p_level p) (p_ticks_used p)
    (p_ticks p) (p_times_scheduled p) (p_last_syscall_count p) x (p_pages_evicted p)
    (p_pages_swapped_in p) (p_pages_swapped_out p) (p_resident_pages p).
Definition set_p_pages_evicted (x : Z) (p : proc) : proc := mkProc (p_state p) (p_chan p)
    (p_killed p) (p_xstate p) (p_pid p) (p_parent p) (p_kstack p) (p_sz p) (p_pagetable p)
    (p_trapframe p) (p_ofile p) (p_cwd p) (p_name p) (p_syscount p) (p_level p) (p_ticks_used p)
    (p_ticks p) (p_times_scheduled p) (p_last_syscall_count p) (p_page_faults p) x
    (p_pages_swapped_in p) (p_pages_swapped_out p) (p_resident_pages p).
Definition set_p_pages_swapped_in (x : Z) (p : proc) : proc := mkProc (p_state p) (p_chan p)
    (p_killed p) (p_xstate p) (p_pid p) (p_parent p) (p_kstack p) (p_sz p) (p_pagetable p)
    (p_trapframe p) (p_ofile p) (p_cwd p) (p_name p) (p_syscount p) (p_level p) (p_ticks_used p)
    (p_ticks p) (p_times_scheduled p) (p_last_syscall_count p) (p_page_faults p)
    (p_pages_evicted p) x (p_pages_swapped_out p) (p_resident_pages p).
Definition set_p_pages_swapped_out (x : Z) (p : proc) : proc := mkProc (p_state p) (p_chan p)
    (p_killed p) (p_xstate p) (p_pid p) (p_parent p) (p_kstack p) (p_sz p) (p_pagetable p)
    (p_trapframe p) (p_ofile p) (p_cwd p) (p_name p) (p_syscount p) (p_level p) (p_ticks_used p)
    (p_ticks p) (p_times_scheduled p) (p_last_syscall_count p) (p_page_faults p)
    (p_pages_evicted p) (p_pages_swapped_in p) x (p_resident_pages p).
Definition set_p_resident_pages (x : Z) (p : proc) : proc := mkProc (p_state p) (p_chan p)
    (p_killed p) (p_xstate p) (p_pid p) (p_parent p) (p_kstack p) (p_sz p) (p_pagetable p)
    (p_trapframe p) (p_ofile p) (p_cwd p) (p_name p) (p_syscount p) (p_level p) (p_ticks_used p)
    (p_ticks p) (p_times_scheduled p) (p_last_syscall_count p) (p_page_faults p)
    (p_pages_evicted p) (p_pages_swapped_in p) (p_pages_swapped_out p) x.

(** The globals. *)
Record kernel (D : Type) := mkKernel {
  mem : memory;
  freelist : Z;
  frame_table : list frame;
  clock_hand : Z;
  swap_used : list bool;
  swap_map : list swap_entry;
  user_frame_count : Z;
  procs : list proc;
  cur : option nat;
  swapdev : D;
  nextpid : Z;
  initproc : option nat;
  ticks : Z;
  mlfq_global_ticks : Z;
}.
Arguments mkKernel {D}.
Arguments mem {D}.
Arguments freelist {D}.
Arguments frame_table {D}.
Arguments clock_hand {D}.
Arguments swap_used {D}.
Arguments swap_map {D}.
Arguments user_frame_count {D}.
Arguments procs {D}.
Arguments cur {D}.
Arguments swapdev {D}.
Arguments nextpid {D}.
Arguments initproc {D}.
Arguments ticks {D}.
Arguments mlfq_global_ticks {D}.

Section setters.
Context {D : Type}.
Implicit Types s : kernel D.
Definition with_mem (x : memory) s : kernel D := mkKernel x (freelist s) (frame_table s)
    (clock_hand s) (swap_used s) (swap_map s) (user_frame_count s) (procs s) (cur s) (swapdev s)
    (nextpid s) (initproc s) (ticks s) (mlfq_global_ticks s).
Definition with_freelist (x : Z) s : kernel D := mkKernel (mem s) x (frame_table s) (clock_hand
    s) (swap_used s) (swap_map s) (user_frame_count s) (procs s) (cur s) (swapdev s) (nextpid s)
    (initproc s) (ticks s) (mlfq_global_ticks s).
Definition with_frame_table (x : list frame) s : kernel D := mkKernel (mem s) (freelist s) x
    (clock_hand s) (swap_used s) (swap_map s) (user_frame_count s) (procs s) (cur s) (swapdev s)
    (nextpid s) (initproc s) (ticks s) (mlfq_global_ticks s).
Definition with_clock_hand (x : Z) s : kernel D := mkKernel (mem s) (freelist s) (frame_table s)
    x (swap_used s) (swap_map s) (user_frame_count s) (procs s) (cur s) (swapdev s) (nextpid s)
    (initproc s) (ticks s) (mlfq_global_ticks s).
Definition with_swap_used (x : list bool) s : kernel D := mkKernel (mem s) (freelist s)
    (frame_table s) (clock_hand s) x (swap_map s) (user_frame_count s) (procs s) (cur s)
    (swapdev s) (nextpid s) (initproc s) (ticks s) (mlfq_global_ticks s).
Definition with_swap_map (x : list swap_entry) s : kernel D := mkKernel (mem s) (freelist s)
    (frame_table s) (clock_hand s) (swap_used s) x (user_frame_count s) (procs s) (cur s)
    (swapdev s) (nextpid s) (initproc s) (ticks s) (mlfq_global_ticks s).
Definition with_user_frame_count (x : Z) s : kernel D := mkKernel (mem s) (freelist s)
    (frame_table s) (clock_hand s) (swap_used s) (swap_map s) x (procs s) (cur s) (swapdev s)
    (nextpid s) (initproc s) (ticks s) (mlfq_global_ticks s).
Definition with_procs (x : list proc) s : kernel D := mkKernel (mem s) (freelist s) (frame_table
    s) (clock_hand s) (swap_used s) (swap_map s) (user_frame_count s) x (cur s) (swapdev s)
    (nextpid s) (initproc s) (ticks s) (mlfq_global_ticks s).
Definition with_cur (x : option nat) s : kernel D := mkKernel (mem s) (freelist s) (frame_table
    s) (clock_hand s) (swap_used s) (swap_map s) (user_frame_count s) (procs s) x (swapdev s)
    (nextpid s) (initproc s) (ticks s) (mlfq_global_ticks s).
Definition with_swapdev (x : D) s : kernel D := mkKernel (mem s) (freelist s) (frame_table s)
    (clock_hand s) (swap_used s) (swap_map s) (user_frame_count s) (procs s) (cur s) x (nextpid
    s) (initproc s) (ticks s) (mlfq_global_ticks s).
Definition with_nextpid (x : Z) s : kernel D := mkKernel (mem s) (freelist s) (frame_table s)
    (clock_hand s) (swap_used s) (swap_map s) (user_frame_count s) (procs s) (cur s) (swapdev s)
    x (initproc s) (ticks s) (mlfq_global_ticks s).
Definition with_initproc (x : option nat) s : kernel D := mkKernel (mem s) (freelist s)
    (frame_table s) (clock_hand s) (swap_used s) (swap_map s) (user_frame_count s) (procs s)
    (cur s) (swapdev s) (nextpid s) x (ticks s) (mlfq_global_ticks s).
Definition with_ticks (x : Z) s : kernel D := mkKernel (mem s) (freelist s) (frame_table s)
    (clock_hand s) (swap_used s) (swap_map s) (user_frame_count s) (procs s) (cur s) (swapdev s)
    (nextpid s) (initproc s) x (mlfq_global_ticks s).
Definition with_mlfq_global_ticks (x : Z) s : kernel D := mkKernel (mem s) (freelist s)
    (frame_table s) (clock_hand s) (swap_used s) (swap_map s) (user_frame_count s) (procs s)
    (cur s) (swapdev s) (nextpid s) (initproc s) (ticks s) x.
End setters.


Section access.
Context `{Layout} {D : Type}.

(** An access to physical memory outside RAM is a fault. *)
Definition in_ram (a n : Z) : bool := (KERNBASE <=? a) && (a + n <=? PHYSTOP).

Definition load64 (a : Z) : M (kernel D) Z := λ s,
  if in_ram a 8 then Ok (rd64 (mem s) a, s) else Ub.
Definition store64 (a v : Z) : M (kernel D) unit := λ s,
  if in_ram a 8 then Ok (tt, with_mem (wr64 (mem s) a v) s) else Ub.
Definition memset (a c n : Z) : M (kernel D) unit := λ s,
  if in_ram a n then Ok (tt, with_mem (fill (mem s) a c n) s) else Ub.
Definition load_bytes (a n : Z) : M (kernel D) bytes := λ s,
  if in_ram a n then Ok (rdbytes (mem s) a n, s) else Ub.
Definition store_bytes (a : Z) (l : bytes) : M (kernel D) unit := λ s,
  if in_ram a (Z.of_nat (length l)) then Ok (tt, with_mem (wrbytes (mem s) a l) s) else Ub.

Definition get_proc (p : nat) : M (kernel D) proc := let* l := gets procs in deref (l !! p).
Definition upd_proc (p : nat) (f : proc → proc) : M (kernel D) unit :=
  modify (λ s, with_procs (alter f p (procs s)) s).

Definition get_frame (i : nat) : M (kernel D) frame := let* l := gets frame_table in deref (l !! i).
Definition upd_frame (i : nat) (f : frame → frame) : M (kernel D) unit :=
  modify (λ s, with_frame_table (alter f i (frame_table s)) s).
Definition set_swap_used (k : nat) (b : bool) : M (kernel D) unit :=
  modify (λ s, with_swap_used (<[k := b]> (swap_used s)) s).
Definition upd_swap (k : nat) (e : swap_entry) : M (kernel D) unit :=
  modify (λ s, with_swap_map (<[k := e]> (swap_map s)) s).

(** A call of the swap device. *)
Definition lift_dev {A} (m : M D A) : M (kernel D) A := λ s,
  match m (swapdev s) with
  | Ok (a, d) => Ok (a, with_swapdev d s)
  | Panic msg => Panic msg
  | Ub => Ub
  | Blocked => Blocked
  | NoFuel => NoFuel
  end.
End access.

(** Cleared table entries. *)
Definition frame0 : frame := mkFrame false false None 0 false.
Definition swap0 : swap_entry := mkSwap false None 0 (-1).
