(* ===== verification/Kmem.v ===== *)
(** * The physical page allocator (kernel/kalloc.c:227-234, 262-284, 311-325)

    Free pages form a list through their first word.  [kmem_inv] ties the
    list to an ownership map: every page of RAM that the kernel manages has
    one role, and the pages on the list are exactly the free ones. *)
From S2P Require Import Prelude Interfaces Mem KState.
Local Open Scope Z_scope.

Section ops.
Context `{Layout} {D : Type}.

(** kalloc.c:270-284 *)
Definition kfree (pa : Z) : M (kernel D) unit :=
  if decide (pa mod PGSIZE ≠ 0 ∨ pa < kend ∨ PHYSTOP ≤ pa) then panic "kfree" else
  memset pa 1 PGSIZE ;;;
  let* fl := gets freelist in
  store64 pa fl ;;;
  modify (with_freelist pa).

(** kalloc.c:314-319 and 342-346: take the head of the list *)
Definition pop_page : M (kernel D) Z :=
  let* r := gets freelist in
  (if decide (r ≠ 0) then let* n := load64 r in modify (with_freelist n) else ret tt) ;;;
  ret r.

(** kalloc.c:311-325 *)
Definition kalloc : M (kernel D) Z :=
  let* r := pop_page in
  (if decide (r ≠ 0) then memset r 5 PGSIZE else ret tt) ;;;
  ret r.

(** kalloc.c:266-267 *)
Fixpoint freerange_loop (fuel : nat) (p pa_end : Z) : M (kernel D) unit :=
  if decide (p + PGSIZE ≤ pa_end) then
    match fuel with
    | O => fail NoFuel
    | S fuel => kfree p ;;; freerange_loop fuel (p + PGSIZE) pa_end
    end
  else ret tt.

(** kalloc.c:262-268; one round per page of the range *)
Definition freerange (pa_start pa_end : Z) : M (kernel D) unit :=
  freerange_loop (Z.to_nat ((pa_end - pa_start) / PGSIZE)) (PGROUNDUP pa_start) pa_end.
End ops.

(** ** Roles of pages *)
Inductive role :=
| RNone                          (* not a page the allocator manages *)
| RFree                          (* on the free list *)
| RKern                          (* held by kernel code *)
| RTab (root : Z) (level : nat) (pre : Z)
                                 (* page-table page of [root], for the addresses
                                    that start with the indices [pre] *)
| RPage (root va : Z)            (* user page of [root] at [va] *)
| RPin (p : nat).                (* trapframe of process [p] *)

#[export] Instance role_eq_dec : EqDecision role.
Proof. solve_decision. Defined.

Definition owners : Type := Z → role.
Definition give (a : Z) (r : role) (own : owners) : owners := λ x,
  if decide (x = a) then r else own x.

Lemma give_eq a r own : give a r own a = r.
Proof. unfold give. by rewrite decide_True. Qed.
Lemma give_ne a b r own : b ≠ a → give a r own b = own b.
Proof. intros. unfold give. by rewrite decide_False. Qed.

Section inv.
Context `{Layout}.

Definition page_addr (a : Z) : Prop := (PGSIZE | a) ∧ kend ≤ a ∧ a + PGSIZE ≤ PHYSTOP.

(** [m'] differs from [m] at most inside the page [a]. *)
Definition only_page (a : Z) (m m' : memory) : Prop :=
  ∀ x, ¬ (a ≤ x < a + PGSIZE) → m' x = m x.

Fixpoint chain (m : memory) (p : Z) (l : list Z) : Prop :=
  match l with
  | [] => p = 0
  | a :: l => p = a ∧ a ≠ 0 ∧ chain m (rd64 m a) l
  end.

Definition kmem_inv (m : memory) (fl : Z) (own : owners) : Prop :=
  (∀ a, own a ≠ RNone → page_addr a) ∧
  ∃ l, chain m fl l ∧ NoDup l ∧ ∀ a, a ∈ l ↔ own a = RFree.

Lemma page_addr_pos a : page_addr a → 0 < a.
Proof. intros (_ & ? & _). pose proof KERNBASE_pos. pose proof kend_range. lia. Qed.

Lemma page_ram a x n : page_addr a → a ≤ x → x + n ≤ a + PGSIZE → in_ram x n = true.
Proof.
  intros (_ & ? & ?) ? ?. pose proof kend_range. unfold in_ram.
  apply andb_true_iff. split; apply Z.leb_le; lia.
Qed.

Lemma page_pa_ok a : page_addr a → pa_ok a.
Proof.
  intros Ha. pose proof (page_addr_pos _ Ha). destruct Ha as (? & ? & ?).
  pose proof PHYSTOP_range. pose proof PGSIZE_4096. split; [lia|done].
Qed.

(** Different pages do not overlap. *)
Lemma pages_apart a b : page_addr a → page_addr b → a ≠ b → a + PGSIZE ≤ b ∨ b + PGSIZE ≤ a.
Proof.
  intros ([i Hi] & _) ([j Hj] & _) Hne. pose proof PGSIZE_4096. subst.
  destruct (decide (i < j)); nia.
Qed.

Lemma only_page_rd64 a b m m' x :
  only_page a m m' → page_addr a → page_addr b → a ≠ b → b ≤ x → x + 8 ≤ b + PGSIZE →
  rd64 m' x = rd64 m x.
Proof.
  intros Ho Ha Hb Hne ? ?. apply rd64_ext. intros y ?. apply Ho.
  pose proof (pages_apart a b Ha Hb Hne). lia.
Qed.

Lemma only_page_bytes a b m m' :
  only_page a m m' → page_addr a → page_addr b → a ≠ b →
  rdbytes m' b PGSIZE = rdbytes m b PGSIZE.
Proof.
  intros Ho Ha Hb Hne. apply rdbytes_ext. intros y ?. apply Ho.
  pose proof (pages_apart a b Ha Hb Hne). lia.
Qed.

Lemma only_page_trans a m1 m2 m3 : only_page a m1 m2 → only_page a m2 m3 → only_page a m1 m3.
Proof. intros H1 H2 x Hx. by rewrite H2, H1. Qed.

Lemma only_page_fill a m c : only_page a m (fill m a c PGSIZE).
Proof. intros x Hx. unfold fill. by rewrite decide_False. Qed.
Lemma only_page_wr64 a b m v : a ≤ b → b + 8 ≤ a + PGSIZE → only_page a m (wr64 m b v).
Proof. intros ? ? x Hx. unfold wr64. rewrite decide_False; [done|lia]. Qed.
Lemma only_page_wrbytes a m l :
  Z.of_nat (length l) ≤ PGSIZE → only_page a m (wrbytes m a l).
Proof. intros ? x Hx. apply wrbytes_out. lia. Qed.

Lemma chain_ext m m' p l : (∀ a, a ∈ l → rd64 m' a = rd64 m a) → chain m p l → chain m' p l.
Proof.
  revert p. induction l as [|a l IH]; intros p Hx; [done|]. simpl.
  intros (? & ? & Hc). split_and!; [done..|]. rewrite Hx by set_solver.
  apply IH; [set_solver|done].
Qed.

Lemma chain_unique m p l l' : chain m p l → chain m p l' → l = l'.
Proof.
  revert p l'. induction l as [|a l IH]; intros p [|b l']; simpl; intros; destruct_and?; subst; try done.
  f_equal. by eapply IH.
Qed.

Lemma kmem_page m fl own a : kmem_inv m fl own → own a ≠ RNone → page_addr a.
Proof. intros [Hp _]. apply Hp. Qed.

(** Changes inside a page that is not free do not disturb the list. *)
Lemma kmem_only_page m m' fl own a :
  kmem_inv m fl own → page_addr a → own a ≠ RFree → only_page a m m' → kmem_inv m' fl own.
Proof.
  intros [Hp (l & Hc & Hnd & Hl)] Ha Hnf Ho. split; [done|]. exists l. split_and!; [|done..].
  eapply chain_ext; [|done]. intros b Hb%Hl. pose proof PGSIZE_4096.
  apply (only_page_rd64 a b); try done; [|by intros ->|lia]. apply Hp. by rewrite Hb.
Qed.

(** A page that is not free may take any other role but [RFree]. *)
Lemma kmem_give m fl own a r :
  kmem_inv m fl own → own a ≠ RNone → own a ≠ RFree → r ≠ RFree → kmem_inv m fl (give a r own).
Proof.
  intros [Hp (l & Hc & Hnd & Hl)] Ha Hnf Hr. split.
  - intros b. unfold give. case_decide; subst; eauto.
  - exists l. split_and!; [done..|]. intros b. rewrite Hl. unfold give. case_decide; [|done].
    subst. naive_solver.
Qed.
End inv.

Section correctness.
Context `{Layout} {D : Type}.
Implicit Types s : kernel D.

Lemma load64_ok s a : in_ram a 8 = true → load64 a s = Ok (rd64 (mem s) a, s).
Proof. unfold load64. by intros ->. Qed.
Lemma store64_ok s a v : in_ram a 8 = true → store64 a v s = Ok (tt, with_mem (wr64 (mem s) a v) s).
Proof. unfold store64. by intros ->. Qed.
Lemma memset_ok s a c n : in_ram a n = true → memset a c n s = Ok (tt, with_mem (fill (mem s) a c n) s).
Proof. unfold memset. by intros ->. Qed.

(** The head of the list, if there is one. *)
Lemma pop_page_ok s own :
  kmem_inv (mem s) (freelist s) own →
  (freelist s = 0 ∧ (∀ a, own a ≠ RFree) ∧ pop_page s = Ok (0, s)) ∨
  ∃ fl', own (freelist s) = RFree ∧ freelist s ≠ 0 ∧
    pop_page s = Ok (freelist s, with_freelist fl' s) ∧
    kmem_inv (mem s) fl' (give (freelist s) RKern own).
Proof.
  intros [Hp (l & Hc & Hnd & Hl)]. unfold pop_page. rewrite (bind_ok _ _ _ (freelist s) s) by done.
  destruct l as [|a l].
  - left. simpl in Hc. rewrite Hc. rewrite decide_False by lia. split_and!; [done| |done].
    intros a Ha%Hl. by apply elem_of_nil in Ha.
  - destruct Hc as (Hfl & Ha & Hc). right. exists (rd64 (mem s) a). rewrite Hfl.
    assert (own a = RFree) as Hown by (apply Hl; set_solver).
    assert (page_addr a) as Hpa by (apply Hp; by rewrite Hown).
    rewrite decide_True by done. rewrite bind_assoc.
    erewrite bind_ok by (apply load64_ok, (page_ram a); [done|lia|rewrite PGSIZE_4096; lia]).
    split_and!; [done..|]. apply NoDup_cons in Hnd as [Hal Hnd]. split.
    + intros b. unfold give. case_decide; [by subst|apply Hp].
    + exists l. split_and!; [done..|]. intros b. unfold give. case_decide; [naive_solver|].
      rewrite <- Hl. set_solver.
Qed.

(** [kalloc]: null exactly when no page is free; otherwise a free page, now
    held by the caller, with nothing changed outside it. *)
Lemma kalloc_ok s own :
  kmem_inv (mem s) (freelist s) own →
  (freelist s = 0 ∧ (∀ a, own a ≠ RFree) ∧ kalloc s = Ok (0, s)) ∨
  ∃ a fl' m', own a = RFree ∧ a ≠ 0 ∧
    kalloc s = Ok (a, with_mem m' (with_freelist fl' s)) ∧
    only_page a (mem s) m' ∧ kmem_inv m' fl' (give a RKern own).
Proof.
  intros Hk. destruct (pop_page_ok s own Hk) as [(Hz & Hn & E)|(fl' & Hf & Hne & E & Hk')].
  - left. split_and!; [done..|]. unfold kalloc. rewrite (bind_ok _ _ _ _ _ E). by rewrite decide_False by lia.
  - right. assert (page_addr (freelist s)) as Hpa by (apply (kmem_page _ _ _ _ Hk); by rewrite Hf).
    exists (freelist s), fl', (fill (mem s) (freelist s) 5 PGSIZE). split_and!; [done..| | |].
    + unfold kalloc. rewrite (bind_ok _ _ _ _ _ E). rewrite decide_True by done.
      by erewrite bind_ok by (apply memset_ok, (page_ram (freelist s)); [done|lia|lia]).
    + apply only_page_fill.
    + apply (kmem_only_page (mem s) _ _ _ (freelist s)); [done..|by rewrite give_eq|apply only_page_fill].
Qed.

(** [kfree] of a page that is not on the list. *)
Lemma kfree_page s own a :
  kmem_inv (mem s) (freelist s) own → page_addr a → own a ≠ RFree →
  ∃ m', kfree a s = Ok (tt, with_mem m' (with_freelist a s)) ∧
    only_page a (mem s) m' ∧ kmem_inv m' a (give a RFree own).
Proof.
  intros Hk Hpa Ha. pose proof PGSIZE_4096 as Hpg. pose proof (page_addr_pos _ Hpa).
  exists (wr64 (fill (mem s) a 1 PGSIZE) a (freelist s)).
  assert (only_page a (mem s) (wr64 (fill (mem s) a 1 PGSIZE) a (freelist s))) as Ho.
  { eapply only_page_trans; [apply only_page_fill|apply only_page_wr64; lia]. }
  split_and!; [|done|].
  - unfold kfree. rewrite decide_False.
    2:{ destruct Hpa as (Hal & ? & ?). apply Z.mod_divide in Hal; [|lia]. lia. }
    erewrite bind_ok by (apply memset_ok, (page_ram a); [done|lia|lia]).
    rewrite (bind_ok _ _ _ (freelist s) (with_mem (fill (mem s) a 1 PGSIZE) s)) by done.
    by erewrite bind_ok by (apply store64_ok, (page_ram a); [done|lia|lia]).
  - pose proof (kmem_only_page _ _ _ _ a Hk Hpa Ha Ho)
      as [Hp (l & Hc & Hnd & Hl)]. split.
    + intros b. unfold give. case_decide; [by subst|apply Hp].
    + exists (a :: l). split_and!.
      * simpl. split_and!; [done|lia|]. rewrite rd64_wr64; [done|].
        destruct l as [|b l]; simpl in Hc; [lia|]. destruct Hc as (-> & ? & _).
        assert (page_addr b) as Hb by (apply Hp; rewrite (proj1 (Hl b)) by set_solver; done).
        pose proof (page_addr_pos _ Hb). destruct Hb as (_ & _ & ?). pose proof PHYSTOP_range. lia.
      * apply NoDup_cons. split; [|done]. by rewrite Hl.
      * intros b. rewrite elem_of_cons, Hl. unfold give. case_decide; naive_solver.
Qed.

(** [kfree] of a page the caller holds. *)
Lemma kfree_ok s own a :
  kmem_inv (mem s) (freelist s) own → own a = RKern →
  ∃ m', kfree a s = Ok (tt, with_mem m' (with_freelist a s)) ∧
    only_page a (mem s) m' ∧ kmem_inv m' a (give a RFree own).
Proof.
  intros Hk Ha. apply kfree_page; [done| |by rewrite Ha].
  apply (kmem_page _ _ _ _ Hk). by rewrite Ha.
Qed.
End correctness.
