(* ===== verification/PageTable.v ===== *)
(** * Sv39 page tables (kernel/vm.c:95-201, 641-649)

    [walk], [walkaddr], [mappages], [uvmcreate], [uvmclear] and [ismapped]
    on page tables in memory.  [pt_inv] relates the tables to the ownership
    map of the allocator: a page-table page belongs to one tree at one place,
    a user page to one address of one tree.  The lemmas say how installing
    and clearing entries moves pages between roles. *)
From S2P Require Import Prelude Interfaces Mem KState Kmem.
Local Open Scope Z_scope.

Section ops.
Context `{Sv39} {D : Type}.

(** vm.c:115-126: one level of the walk; [None] is the return of 0 *)
Definition walk_step (level pagetable va : Z) (alloc : bool) : M (kernel D) (option Z) :=
  let pte := pagetable + 8 * PX level va in
  let* v := load64 pte in
  if valid_pte v then ret (Some (PTE2PA v))
  else if alloc then
    let* pt := kalloc in
    if decide (pt = 0) then ret None
    else
      memset pt 0 PGSIZE ;;;
      store64 pte (Z.lor (PA2PTE pt) PTE_V) ;;;
      ret (Some pt)
  else ret None.

(** vm.c:107-129: the address of the PTE, or null *)
Definition walk (pagetable va : Z) (alloc : bool) : M (kernel D) (option Z) :=
  if decide (MAXVA ≤ va) then panic "walk" else
  let* o := walk_step 2 pagetable va alloc in
  match o with
  | None => ret None
  | Some p1 =>
    let* o := walk_step 1 p1 va alloc in
    match o with
    | None => ret None
    | Some p0 => ret (Some (p0 + 8 * PX 0 va))
    end
  end.

(** vm.c:134-152 *)
Definition walkaddr (pagetable va : Z) : M (kernel D) Z :=
  if decide (MAXVA ≤ va) then ret 0 else
  let* o := walk pagetable va false in
  match o with
  | None => ret 0
  | Some pte =>
    let* v := load64 pte in
    if negb (valid_pte v) then ret 0
    else if decide (Z.land v PTE_U = 0) then ret 0
    else ret (PTE2PA v)
  end.

(** vm.c:175-186 *)
Fixpoint mappages_loop (fuel : nat) (pagetable a last pa perm : Z) : M (kernel D) Z :=
  match fuel with
  | O => fail NoFuel
  | S fuel =>
    let* o := walk pagetable a true in
    match o with
    | None => ret (-1)
    | Some pte =>
      let* v := load64 pte in
      if valid_pte v then panic "mappages: remap" else
      store64 pte (Z.lor (Z.lor (PA2PTE pa) perm) PTE_V) ;;;
      if decide (a = last) then ret 0
      else mappages_loop fuel pagetable (u64 (a + PGSIZE)) last (u64 (pa + PGSIZE)) perm
    end
  end.

(** vm.c:159-188; one round per page *)
Definition mappages (pagetable va size pa perm : Z) : M (kernel D) Z :=
  if decide (va mod PGSIZE ≠ 0) then panic "mappages: va not aligned"
  else if decide (size mod PGSIZE ≠ 0) then panic "mappages: size not aligned"
  else if decide (size = 0) then panic "mappages: size"
  else mappages_loop (Z.to_nat (size / PGSIZE)) pagetable va (u64 (va + size - PGSIZE)) pa perm.

(** vm.c:192-201 *)
Definition uvmcreate : M (kernel D) Z :=
  let* pagetable := kalloc in
  if decide (pagetable = 0) then ret 0
  else memset pagetable 0 PGSIZE ;;; ret pagetable.

(** vm.c:509-517 *)
Definition uvmclear (pagetable va : Z) : M (kernel D) unit :=
  let* o := walk pagetable va false in
  match o with
  | None => panic "uvmclear"
  | Some pte => let* v := load64 pte in store64 pte (Z.land v (Z.lnot PTE_U))
  end.

(** vm.c:641-649 *)
Definition ismapped (pagetable va : Z) : M (kernel D) bool :=
  let* o := walk pagetable va false in
  match o with
  | None => ret false
  | Some pte => let* v := load64 pte in ret (valid_pte v)
  end.
End ops.

(** ** The tables in memory *)
Section inv.
Context `{Sv39}.

Definition entry (m : memory) (b i : Z) : Z := rd64 m (b + 8 * i).

(** A valid entry [i] of table [b] that points to [a]. *)
Definition points (m : memory) (b i a : Z) : Prop :=
  valid_pte (entry m b i) = true ∧ PTE2PA (entry m b i) = a.

(** [PTE_R | PTE_W | PTE_X]: an entry with none of them points to a table. *)
Definition PTE_RWX : Z := Z.lor (Z.lor PTE_R PTE_W) PTE_X.

(** A leaf entry lies below MAXVA, and the pages above user memory (trapframe
    and trampoline) are not accessible from user mode. *)
Definition guarded (va v : Z) : Prop := va < MAXVA ∧ (TRAPFRAME ≤ va → Z.land v PTE_U = 0).

Record pt_inv (m : memory) (own : owners) : Prop := {
  pt_node : ∀ b root l pre i a, own b = RTab root (S l) pre → 0 ≤ i < 512 →
    points m b i a → own a = RTab root l (pre * 512 + i);
  pt_leaf : ∀ b root pre i a, own b = RTab root 0 pre → 0 ≤ i < 512 → points m b i a →
    (pre * 512 + i) * PGSIZE < TRAPFRAME → own a = RPage root ((pre * 512 + i) * PGSIZE);
  pt_root : ∀ a root l pre, own a = RTab root l pre → (l ≤ 2)%nat ∧ (l = 2%nat → a = root ∧ pre = 0);
  pt_parent : ∀ a root l pre, own a = RTab root l pre → (l < 2)%nat →
    ∃ b p i, own b = RTab root (S l) p ∧ 0 ≤ i < 512 ∧ pre = p * 512 + i ∧ points m b i a;
  pt_page : ∀ a root va, own a = RPage root va →
    ∃ b pre i, own b = RTab root 0 pre ∧ 0 ≤ i < 512 ∧ va = (pre * 512 + i) * PGSIZE ∧
      points m b i a;
  pt_flags : ∀ b root l pre i a, own b = RTab root (S l) pre → 0 ≤ i < 512 →
    points m b i a → Z.land (entry m b i) PTE_RWX = 0;
  pt_high : ∀ b root pre i a, own b = RTab root 0 pre → 0 ≤ i < 512 → points m b i a →
    guarded ((pre * 512 + i) * PGSIZE) (entry m b i);
  pt_low : ∀ a root va, own a = RPage root va → va < TRAPFRAME;
}.

Lemma points_fun m b i a a' : points m b i a → points m b i a' → a = a'.
Proof. intros [_ <-] [_ <-]. done. Qed.

(** One table per place of a tree, one page per address. *)
Lemma tab_unique m own a a' root l pre :
  pt_inv m own → own a = RTab root l pre → own a' = RTab root l pre → a = a'.
Proof.
  intros Hp. remember (2 - l)%nat as d eqn:Hd. revert l pre a a' Hd.
  induction d as [|d IH]; intros l pre a a' Hd Ha Ha'.
  - destruct (pt_root _ _ Hp a root l pre Ha) as [Hl Hr].
    destruct (pt_root _ _ Hp a' root l pre Ha') as [_ Hr'].
    destruct Hr as [-> _]; [lia|]. destruct Hr' as [-> _]; [lia|done].
  - destruct (pt_parent _ _ Hp a root l pre Ha) as (b & p & i & Hb & Hi & Hpre & Hpt); [lia|].
    destruct (pt_parent _ _ Hp a' root l pre Ha') as (b' & p' & i' & Hb' & Hi' & Hpre' & Hpt'); [lia|].
    assert (p' = p ∧ i' = i) as [-> ->] by lia.
    assert (b' = b) as -> by (eapply (IH (S l)); eauto; lia). by eapply points_fun.
Qed.

Lemma page_unique m own a a' root va :
  pt_inv m own → own a = RPage root va → own a' = RPage root va → a = a'.
Proof.
  intros Hp Ha Ha'. pose proof PGSIZE_4096.
  destruct (pt_page _ _ Hp a root va Ha) as (b & p & i & Hb & Hi & Hva & Hpt).
  destruct (pt_page _ _ Hp a' root va Ha') as (b' & p' & i' & Hb' & Hi' & Hva' & Hpt').
  assert (p' = p ∧ i' = i) as [-> ->] by nia.
  assert (b' = b) as -> by (by eapply tab_unique). by eapply points_fun.
Qed.

Lemma entry_in b i : page_addr b → 0 ≤ i < 512 → b ≤ b + 8 * i ∧ b + 8 * i + 8 ≤ b + PGSIZE.
Proof. intros _ ?. rewrite PGSIZE_4096. lia. Qed.

Lemma entry_ram b i : page_addr b → 0 ≤ i < 512 → in_ram (b + 8 * i) 8 = true.
Proof. intros Hb Hi. destruct (entry_in b i Hb Hi). by apply (page_ram b). Qed.

Lemma entry_ext m m' a b i :
  only_page a m m' → page_addr a → page_addr b → a ≠ b → 0 ≤ i < 512 →
  entry m' b i = entry m b i.
Proof.
  intros Ho Ha Hb Hne Hi. destruct (entry_in b i Hb Hi). by eapply (only_page_rd64 a b).
Qed.

(** What a word stored in a table does to its entries. *)
Lemma entry_wr64 m b i v b' i' :
  page_addr b → page_addr b' → 0 ≤ i < 512 → 0 ≤ i' < 512 → 0 ≤ v < 2 ^ 64 →
  entry (wr64 m (b + 8 * i) v) b' i' = if decide (b' = b ∧ i' = i) then v else entry m b' i'.
Proof.
  intros Hb Hb' Hi Hi' Hv. unfold entry. case_decide as Hc.
  - destruct Hc as [-> ->]. by apply rd64_wr64.
  - apply rd64_wr64_ne. pose proof PGSIZE_4096. destruct (decide (b' = b)) as [->|].
    + assert (i' ≠ i) by naive_solver. lia.
    + pose proof (pages_apart b b' Hb Hb'). lia.
Qed.

Definition sane (own : owners) : Prop := ∀ a, own a ≠ RNone → page_addr a.

Lemma sane_tab own b root l pre : sane own → own b = RTab root l pre → page_addr b.
Proof. intros Hs Hb. apply Hs. by rewrite Hb. Qed.

(** Changes inside a page that is not a table. *)
Lemma pt_only_page m m' own a :
  pt_inv m own → sane own → page_addr a → (∀ root l pre, own a ≠ RTab root l pre) →
  only_page a m m' → pt_inv m' own.
Proof.
  intros [] Hs Ha Hnt Ho.
  assert (∀ b root l pre i, own b = RTab root l pre → 0 ≤ i < 512 →
    entry m' b i = entry m b i) as He.
  { intros b root l pre i Hb Hi. apply (entry_ext m m' a); eauto using sane_tab.
    intros ->. by eapply Hnt. }
  split; unfold points in *; eauto.
  - intros b root l pre i c Hb Hi. rewrite (He b root (S l) pre) by done. eauto.
  - intros b root pre i c Hb Hi. rewrite (He b root 0%nat pre) by done. eauto.
  - intros c root l pre Hc Hl. destruct (pt_parent0 c root l pre Hc Hl) as (b & p & i & Hb & Hi & Hpr & Hpt).
    exists b, p, i. rewrite (He b root (S l) p) by done. eauto.
  - intros c root va Hc. destruct (pt_page0 c root va Hc) as (b & p & i & Hb & Hi & Hpr & Hpt).
    exists b, p, i. rewrite (He b root 0%nat p) by done. eauto.
  - intros b root l pre i c Hb Hi. rewrite (He b root (S l) pre) by done. eauto.
  - intros b root pre i c Hb Hi. rewrite (He b root 0%nat pre) by done. eauto.
Qed.

(** A role that is no part of a tree. *)
Definition loose (r : role) : Prop :=
  match r with RNone | RFree | RKern | RPin _ => True | _ => False end.

Lemma pt_give m own a r : pt_inv m own → loose (own a) → loose r → pt_inv m (give a r own).
Proof.
  intros [] Ha Hr.
  assert (∀ b root l pre, give a r own b = RTab root l pre ↔ own b = RTab root l pre) as Ht.
  { intros b root l pre. unfold give. case_decide; [subst|done]. split.
    - intros ->. done.
    - intros Hb. by rewrite Hb in Ha. }
  assert (∀ b root va, give a r own b = RPage root va ↔ own b = RPage root va) as Hpg.
  { intros b root va. unfold give. case_decide; [subst|done]. split.
    - intros ->. done.
    - intros Hb. by rewrite Hb in Ha. }
  split; unfold points in *.
  - intros b root l pre i c Hb%Ht. rewrite Ht. eauto.
  - intros b root pre i c Hb%Ht. rewrite Hpg. eauto.
  - intros c root l pre Hc%Ht. eauto.
  - intros c root l pre Hc%Ht Hl. destruct (pt_parent0 c root l pre Hc Hl) as (b & p & i & Hb & ?).
    exists b, p, i. by rewrite Ht.
  - intros c root va Hc%Hpg. destruct (pt_page0 c root va Hc) as (b & p & i & Hb & ?).
    exists b, p, i. by rewrite Ht.
  - intros b root l pre i c Hb%Ht. eauto.
  - intros b root pre i c Hb%Ht. eauto.
  - intros c root va Hc%Hpg. eauto.
Qed.

(** Entries after a word is stored at entry [i] of table [b]. *)
Lemma points_wr m own b i v b' i' a root l pre root' l' pre' :
  sane own → own b = RTab root l pre → own b' = RTab root' l' pre' →
  0 ≤ i < 512 → 0 ≤ i' < 512 → 0 ≤ v < 2 ^ 64 →
  points (wr64 m (b + 8 * i) v) b' i' a ↔
    if decide (b' = b ∧ i' = i) then valid_pte v = true ∧ PTE2PA v = a else points m b' i' a.
Proof.
  intros Hs Hb Hb' Hi Hi' Hv. unfold points.
  rewrite entry_wr64 by eauto using sane_tab. by case_decide.
Qed.

(** Stores in leaf tables do not touch the inner ones. *)
Lemma flags_leaf_write m own b root pre i v :
  pt_inv m own → sane own → own b = RTab root 0 pre → 0 ≤ i < 512 → 0 ≤ v < 2 ^ 64 →
  ∀ b' root' l' pre' i' a, own b' = RTab root' (S l') pre' → 0 ≤ i' < 512 →
    points (wr64 m (b + 8 * i) v) b' i' a → Z.land (entry (wr64 m (b + 8 * i) v) b' i') PTE_RWX = 0.
Proof.
  intros Hp Hs Hb Hi Hv b' root' l' pre' i' a Hb' Hi'. unfold points.
  rewrite entry_wr64 by eauto using sane_tab. rewrite decide_False by (intros [-> _]; congruence).
  intros Hpt. by eapply (pt_flags _ _ Hp).
Qed.

Lemma high_leaf_write m own b root pre i v :
  pt_inv m own → sane own → own b = RTab root 0 pre → 0 ≤ i < 512 → 0 ≤ v < 2 ^ 64 →
  (valid_pte v = true → guarded ((pre * 512 + i) * PGSIZE) v) →
  ∀ b' root' pre' i' a, own b' = RTab root' 0 pre' → 0 ≤ i' < 512 → points (wr64 m (b + 8 * i) v) b' i' a →
    guarded ((pre' * 512 + i') * PGSIZE) (entry (wr64 m (b + 8 * i) v) b' i').
Proof.
  intros Hp Hs Hb Hi Hv Hg b' root' pre' i' a Hb' Hi'. unfold points.
  rewrite entry_wr64 by eauto using sane_tab. case_decide as Hd.
  - destruct Hd as [-> ->]. rewrite Hb in Hb'. simplify_eq. intros [Hval _]. auto.
  - intros Hpt. by eapply (pt_high _ _ Hp).
Qed.

Lemma guarded_low va v : va < TRAPFRAME → guarded va v.
Proof. intros Hva. pose proof TRAMPOLINE_top. pose proof TRAPFRAME_below. pose proof PGSIZE_4096. split; lia. Qed.

(** Installing a page at an invalid leaf entry. *)
Lemma pt_map m own b root pre i c v :
  pt_inv m own → sane own → own b = RTab root 0 pre → 0 ≤ i < 512 →
  valid_pte (entry m b i) = false → loose (own c) →
  0 ≤ v < 2 ^ 64 → valid_pte v = true → PTE2PA v = c →
  (pre * 512 + i) * PGSIZE < TRAPFRAME →
  pt_inv (wr64 m (b + 8 * i) v) (give c (RPage root ((pre * 512 + i) * PGSIZE)) own).
Proof.
  intros Hp Hs Hb Hi Hinv Hc Hv Hval Hpa Hlt. set (va := (pre * 512 + i) * PGSIZE).
  assert (∀ x root' l' pre', give c (RPage root va) own x = RTab root' l' pre' ↔
    own x = RTab root' l' pre') as Ht.
  { intros x root' l' pre'. unfold give. case_decide; [subst|done].
    split; [done|]. intros Hx. by rewrite Hx in Hc. }
  assert (∀ b' i' a root' l' pre', own b' = RTab root' l' pre' → 0 ≤ i' < 512 → points m b' i' a →
    points (wr64 m (b + 8 * i) v) b' i' a) as Hkeep.
  { intros b' i' a root' l' pre' Hb' Hi' Hpt. eapply points_wr; eauto.
    rewrite decide_False; [done|]. intros [-> ->]. destruct Hpt. congruence. }
  assert (∀ x root' va', own x = RPage root' va' → x ≠ c) as Hpc.
  { intros x root' va' Hx ->. by rewrite Hx in Hc. }
  split.
  - intros b' root' l' pre' i' a Hb'%Ht Hi' Hpt. rewrite Ht.
    eapply points_wr in Hpt; eauto. rewrite decide_False in Hpt.
    + by eapply (pt_node _ _ Hp).
    + intros [-> ->]. congruence.
  - intros b' root' pre' i' a Hb'%Ht Hi' Hpt Hlt'. eapply points_wr in Hpt; eauto.
    case_decide as Hd.
    + destruct Hd as [-> ->], Hpt as [_ <-]. rewrite Hpa, give_eq. rewrite Hb in Hb'. by simplify_eq.
    + pose proof (pt_leaf _ _ Hp b' root' pre' i' a Hb' Hi' Hpt Hlt') as Hx.
      rewrite give_ne; [done|by eapply Hpc].
  - intros a root' l' pre' Ha%Ht. by eapply (pt_root _ _ Hp).
  - intros a root' l' pre' Ha%Ht Hl. destruct (pt_parent _ _ Hp a root' l' pre' Ha Hl)
      as (b' & p & i' & Hb' & Hi' & ? & Hpt). exists b', p, i'. rewrite Ht. eauto 6.
  - intros a root' va' Ha. unfold give in Ha. case_decide as Hd.
    + simplify_eq. exists b, pre, i. rewrite Ht. split_and!; [done|lia|lia|done|].
      eapply points_wr; eauto. by rewrite decide_True.
    + destruct (pt_page _ _ Hp a root' va' Ha) as (b' & p & i' & Hb' & Hi' & ? & Hpt).
      exists b', p, i'. rewrite Ht. eauto 6.
  - intros b' root' l' pre' i' a Hb'%Ht. by eapply (flags_leaf_write m own b root pre).
  - intros b' root' pre' i' a Hb'%Ht. eapply (high_leaf_write m own b root pre); eauto using guarded_low.
  - intros a root' va' Ha. unfold give in Ha. case_decide; [by simplify_eq|by eapply (pt_low _ _ Hp)].
Qed.

(** Clearing the entry of a user page. *)
Lemma pt_unmap m own b root pre i c :
  pt_inv m own → sane own → own b = RTab root 0 pre → 0 ≤ i < 512 → points m b i c →
  own c = RPage root ((pre * 512 + i) * PGSIZE) →
  pt_inv (wr64 m (b + 8 * i) 0) (give c RKern own).
Proof.
  intros Hp Hs Hb Hi Hptc Hc. pose proof PGSIZE_4096.
  assert (∀ x root' l' pre', give c RKern own x = RTab root' l' pre' ↔ own x = RTab root' l' pre') as Ht.
  { intros x root' l' pre'. unfold give. case_decide; [subst|done]. by rewrite Hc. }
  assert (∀ b' i' a root' l' pre', own b' = RTab root' l' pre' → 0 ≤ i' < 512 →
    points (wr64 m (b + 8 * i) 0) b' i' a ↔ ¬ (b' = b ∧ i' = i) ∧ points m b' i' a) as Hpw.
  { intros b' i' a root' l' pre' Hb' Hi'. rewrite points_wr by (eauto || lia).
    case_decide; [|tauto]. rewrite valid_pte_0. naive_solver. }
  split.
  - intros b' root' l' pre' i' a Hb'%Ht Hi' [_ Hpt]%(Hpw _ _ _ _ _ _ Hb' Hi'). rewrite Ht.
    by eapply (pt_node _ _ Hp).
  - intros b' root' pre' i' a Hb'%Ht Hi' [Hne Hpt]%(Hpw _ _ _ _ _ _ Hb' Hi') Hlt.
    pose proof (pt_leaf _ _ Hp b' root' pre' i' a Hb' Hi' Hpt Hlt) as Ha.
    rewrite give_ne; [done|]. intros ->. destruct Hne. rewrite Hc in Ha. injection Ha as -> Hva.
    assert (pre' = pre ∧ i' = i) as [-> ->] by nia. split; [by eapply tab_unique|done].
  - intros a root' l' pre' Ha%Ht. by eapply (pt_root _ _ Hp).
  - intros a root' l' pre' Ha%Ht Hl. destruct (pt_parent _ _ Hp a root' l' pre' Ha Hl)
      as (b' & p & i' & Hb' & Hi' & ? & Hpt). exists b', p, i'. rewrite Ht. split_and!; [done|lia|lia|done|].
    apply (Hpw _ _ _ _ _ _ Hb' Hi'). split; [|done]. intros [-> ->]. congruence.
  - intros a root' va' Ha. unfold give in Ha. case_decide as Hd; [done|].
    destruct (pt_page _ _ Hp a root' va' Ha) as (b' & p & i' & Hb' & Hi' & ? & Hpt).
    exists b', p, i'. rewrite Ht. split_and!; [done|lia|lia|done|].
    apply (Hpw _ _ _ _ _ _ Hb' Hi'). split; [|done]. intros [-> ->]. destruct Hd. by eapply points_fun.
  - intros b' root' l' pre' i' a Hb'%Ht. by eapply (flags_leaf_write m own b root pre).
  - intros b' root' pre' i' a Hb'%Ht. by eapply (high_leaf_write m own b root pre); rewrite ?valid_pte_0.
  - intros a root' va' Ha. unfold give in Ha. case_decide; [done|by eapply (pt_low _ _ Hp)].
Qed.

(** Linking a zeroed page in as a table. *)
Lemma pt_newtab m own b root l pre i c v :
  pt_inv m own → sane own → own b = RTab root (S l) pre → 0 ≤ i < 512 →
  valid_pte (entry m b i) = false → loose (own c) → page_addr c → (∀ j, 0 ≤ j < 512 → entry m c j = 0) →
  0 ≤ v < 2 ^ 64 → valid_pte v = true → PTE2PA v = c → Z.land v PTE_RWX = 0 →
  pt_inv (wr64 m (b + 8 * i) v) (give c (RTab root l (pre * 512 + i)) own).
Proof.
  intros Hp Hs Hb Hi Hinv Hc Hpc Hz Hv Hval Hpa Hfl.
  assert (c ≠ b) as Hcb by (intros ->; by rewrite Hb in Hc).
  destruct (pt_root _ _ Hp b _ _ _ Hb) as [Hl _].
  assert (∀ x root' l' pre', own x = RTab root' l' pre' → x ≠ c) as Htc.
  { intros x root' l' pre' Hx ->. by rewrite Hx in Hc. }
  assert (∀ x root' va', own x = RPage root' va' → x ≠ c) as Hpgc.
  { intros x root' va' Hx ->. by rewrite Hx in Hc. }
  assert (∀ b' i' a root' l' pre', own b' = RTab root' l' pre' → 0 ≤ i' < 512 → points m b' i' a →
    points (wr64 m (b + 8 * i) v) b' i' a) as Hkeep.
  { intros b' i' a root' l' pre' Hb' Hi' Hpt. eapply points_wr; eauto.
    rewrite decide_False; [done|]. intros [-> ->]. destruct Hpt. congruence. }
  assert (∀ i' a, 0 ≤ i' < 512 → ¬ points (wr64 m (b + 8 * i) v) c i' a) as Hcz.
  { intros i' a Hi' [Hva _]. rewrite entry_wr64 in Hva by eauto using sane_tab.
    rewrite decide_False in Hva by naive_solver. by rewrite Hz, valid_pte_0 in Hva. }
  split.
  - intros b' root' l' pre' i' a Hb' Hi' Hpt. unfold give in Hb'. case_decide as Hd.
    { simplify_eq. by destruct (Hcz i' a). }
    eapply points_wr in Hpt; eauto. case_decide as Hd'.
    + destruct Hd' as [-> ->], Hpt as [_ <-]. rewrite Hb in Hb'. simplify_eq. by rewrite give_eq.
    + pose proof (pt_node _ _ Hp _ _ _ _ _ _ Hb' Hi' Hpt) as Hx. rewrite give_ne; eauto.
  - intros b' root' pre' i' a Hb' Hi' Hpt Hlt. unfold give in Hb'. case_decide as Hd.
    { simplify_eq. by destruct (Hcz i' a). }
    eapply points_wr in Hpt; eauto. rewrite decide_False in Hpt by (intros [-> ->]; congruence).
    pose proof (pt_leaf _ _ Hp _ _ _ _ _ Hb' Hi' Hpt Hlt) as Hx. rewrite give_ne; eauto.
  - intros a root' l' pre' Ha. unfold give in Ha. case_decide; [simplify_eq; split; lia|].
    by eapply (pt_root _ _ Hp).
  - intros a root' l' pre' Ha Hl'. unfold give in Ha. case_decide as Hd.
    + simplify_eq. exists b, pre, i. rewrite give_ne by done. split_and!; [done|lia|lia|done|].
      eapply points_wr; eauto. by rewrite decide_True.
    + destruct (pt_parent _ _ Hp a root' l' pre' Ha Hl') as (b' & p & i' & Hb' & Hi' & ? & Hpt).
      exists b', p, i'. rewrite give_ne by eauto. eauto 6.
  - intros a root' va' Ha. unfold give in Ha. case_decide as Hd; [done|].
    destruct (pt_page _ _ Hp a root' va' Ha) as (b' & p & i' & Hb' & Hi' & ? & Hpt).
    exists b', p, i'. rewrite give_ne by eauto. eauto 6.
  - intros b' root' l' pre' i' a Hb' Hi' Hpt. unfold give in Hb'. case_decide as Hd.
    { simplify_eq. by destruct (Hcz i' a). }
    unfold points in Hpt. rewrite entry_wr64 in Hpt |- * by eauto using sane_tab. case_decide; [done|].
    by eapply (pt_flags _ _ Hp).
  - intros b' root' pre' i' a Hb' Hi' Hpt. unfold give in Hb'. case_decide as Hd.
    { simplify_eq. by destruct (Hcz i' a). }
    unfold points in Hpt. rewrite entry_wr64 in Hpt |- * by eauto using sane_tab.
    rewrite decide_False in Hpt |- * by (intros [-> ->]; congruence). by eapply (pt_high _ _ Hp).
  - intros a root' va' Ha. unfold give in Ha. case_decide; [done|by eapply (pt_low _ _ Hp)].
Qed.
End inv.

(** ** Correctness of the operations *)
Section correctness.
Context `{Sv39} {D : Type}.
Implicit Types s : kernel D.

Definition tree_inv (m : memory) (fl : Z) (own : owners) : Prop := kmem_inv m fl own ∧ pt_inv m own.

Definition data (r : role) : Prop := match r with RKern | RPin _ | RPage _ _ => True | _ => False end.

(** From [own] to [own'] free pages may become tables; the pages that hold
    data keep their role and contents. *)
Record grow (m : memory) (own : owners) (m' : memory) (own' : owners) : Prop := {
  grow_kept : ∀ a, own a ≠ RFree → own' a = own a;
  grow_free : ∀ a, own a = RFree → own' a = RFree ∨ ∃ root l pre, own' a = RTab root l pre ∧ (l < 2)%nat;
  grow_data : ∀ a, data (own a) → rdbytes m' a PGSIZE = rdbytes m a PGSIZE;
}.

Lemma grow_refl m own : grow m own m own.
Proof. split; auto. Qed.

Lemma grow_trans m1 o1 m2 o2 m3 o3 : grow m1 o1 m2 o2 → grow m2 o2 m3 o3 → grow m1 o1 m3 o3.
Proof.
  intros [K1 F1 D1] [K2 F2 D2]. split.
  - intros a Ha. rewrite K2, K1; [done..|by rewrite K1].
  - intros a Ha. destruct (F1 a Ha) as [Hf|(root & l & pre & Ht & ?)]; [by apply F2|].
    right. exists root, l, pre. rewrite K2; [done|by rewrite Ht].
  - intros a Ha. assert (o2 a = o1 a) as He by (apply K1; intros He; by rewrite He in Ha).
    rewrite D2, D1; [done..|]. by rewrite He.
Qed.

(** A walk of [r] adds tables to it; the valid leaf entries are those of before. *)
Record extend (r : Z) (m : memory) (own : owners) (m' : memory) (own' : owners) : Prop := {
  ext_grow : grow m own m' own';
  ext_mine : ∀ a root l pre, own' a = RTab root l pre → own a = RTab root l pre ∨ root = r;
  ext_leaf : ∀ b root pre i, own' b = RTab root 0 pre → 0 ≤ i < 512 →
    valid_pte (entry m' b i) = true → own b = RTab root 0 pre ∧ entry m' b i = entry m b i;
}.

Lemma extend_refl r m own : extend r m own m own.
Proof. split; [apply grow_refl|by left|done]. Qed.

Lemma extend_trans r m1 o1 m2 o2 m3 o3 :
  extend r m1 o1 m2 o2 → extend r m2 o2 m3 o3 → extend r m1 o1 m3 o3.
Proof.
  intros [G1 X1 L1] [G2 X2 L2]. split; [by eapply grow_trans| |].
  { intros a root l pre Ha. destruct (X2 _ _ _ _ Ha) as [Ha2|?]; [by apply X1|by right]. }
  intros b root pre i Hb Hi Hv.
  destruct (L2 b root pre i Hb Hi Hv) as [Hb2 E2]. rewrite E2 in Hv |- *. by apply (L1 b root pre i).
Qed.

(** Only free pages and pages of the tree [root] change their role. *)
Definition mine (root : Z) (r : role) : Prop :=
  match r with RFree => True | RTab r' _ _ | RPage r' _ => r' = root | _ => False end.
Definition confined (root : Z) (own own' : owners) : Prop :=
  ∀ a, own' a = own a ∨ mine root (own a) ∧ mine root (own' a).

Lemma confined_refl root own : confined root own own.
Proof. by left. Qed.

Lemma confined_trans root o1 o2 o3 : confined root o1 o2 → confined root o2 o3 → confined root o1 o3.
Proof.
  intros C1 C2 a. destruct (C1 a) as [E1|[M1 N1]], (C2 a) as [E2|[M2 N2]].
  - left. congruence.
  - right. by rewrite <- E1.
  - right. by rewrite E2.
  - by right.
Qed.

Lemma confined_page root own own' a r v :
  confined root own own' → own' a = RPage r v → own a = RPage r v ∨ r = root.
Proof. intros Hc Ha. destruct (Hc a) as [E|[_ Hm]]; [left; congruence|right]. by rewrite Ha in Hm. Qed.

Lemma extend_confined root m own m' own' : extend root m own m' own' → confined root own own'.
Proof.
  intros [[K F _] X _] a. destruct (decide (own a = RFree)) as [Ha|Ha]; [|left; auto].
  destruct (F a Ha) as [Hf|(r & l & p & Ht & _)]; [left; congruence|]. right. rewrite Ha, Ht. split; [done|].
  destruct (X a r l p Ht) as [?| ->]; [congruence|done].
Qed.

Lemma tree_sane m fl own : tree_inv m fl own → sane own.
Proof. intros [[Hp _] _]. exact Hp. Qed.

Lemma pte_V_flags : PTE_V = 1 ∧ 0 ≤ PTE_V < 1024.
Proof. destruct pte_bits as (-> & _). lia. Qed.

Lemma table_pte c : page_addr c →
  0 ≤ Z.lor (PA2PTE c) PTE_V < 2 ^ 64 ∧ valid_pte (Z.lor (PA2PTE c) PTE_V) = true ∧
  PTE2PA (Z.lor (PA2PTE c) PTE_V) = c ∧ Z.land (Z.lor (PA2PTE c) PTE_V) PTE_RWX = 0.
Proof.
  intros Hc%page_pa_ok. destruct pte_V_flags as [HV Hr].
  assert (PTE_RWX = 14) as HR by (unfold PTE_RWX; by destruct pte_bits as (_ & -> & -> & -> & _)).
  split_and!; [by apply pte_range..| |by apply pte_pa|].
  - rewrite valid_pte_mk by done. by rewrite HV.
  - rewrite HR, pte_and by (done || lia). by rewrite HV.
Qed.

Lemma walk_step_ok s own root l pre pt va alloc :
  tree_inv (mem s) (freelist s) own → own pt = RTab root (S l) pre →
  ∃ o m' fl' own', walk_step (Z.of_nat (S l)) pt va alloc s = Ok (o, with_mem m' (with_freelist fl' s)) ∧
    tree_inv m' fl' own' ∧ extend root (mem s) own m' own' ∧
    match o with
    | Some p => own' p = RTab root l (pre * 512 + PX (Z.of_nat (S l)) va)
    | None => own' = own ∧ (∀ p, own p ≠ RTab root l (pre * 512 + PX (Z.of_nat (S l)) va)) ∧
        (alloc = true → ∀ a, own a ≠ RFree)
    end ∧ (alloc = false → m' = mem s ∧ fl' = freelist s ∧ own' = own).
Proof.
  intros Ht Hpt. pose proof (tree_sane _ _ _ Ht) as Hs. destruct Ht as [Hk Hp].
  set (lev := Z.of_nat (S l)). pose proof (PX_range lev va) as Hi.
  pose proof (sane_tab _ _ _ _ _ Hs Hpt) as Hpa.
  assert (s = with_mem (mem s) (with_freelist (freelist s) s)) as Hss by by destruct s.
  unfold walk_step. erewrite bind_ok by (apply load64_ok; by apply entry_ram).
  change (rd64 (mem s) (pt + 8 * PX lev va)) with (entry (mem s) pt (PX lev va)).
  destruct (valid_pte (entry (mem s) pt (PX lev va))) eqn:Hv.
  - exists (Some (PTE2PA (entry (mem s) pt (PX lev va)))), (mem s), (freelist s), own.
    split_and!; [by rewrite <- Hss|done|apply extend_refl| |done].
    by apply (pt_node _ _ Hp pt).
  - assert (∀ p, own p ≠ RTab root l (pre * 512 + PX lev va)) as Hno.
    { intros p Hown. destruct (pt_root _ _ Hp _ _ _ _ Hpt) as [Hl _].
      destruct (pt_parent _ _ Hp p _ _ _ Hown) as (b & p' & i & Hb & Hi' & He & Hpo); [lia|].
      assert (p' = pre ∧ i = PX lev va) as [-> ->] by lia.
      assert (b = pt) as -> by (by eapply tab_unique). destruct Hpo. congruence. }
    destruct alloc.
    2:{ exists None, (mem s), (freelist s), own. rewrite <- Hss. split_and!; try done. apply extend_refl. }
    destruct (kalloc_ok s own Hk) as [(_ & Hnf & E)|(c & fl1 & m1 & Hc & Hc0 & E & Ho1 & Hk1)].
    { exists None, (mem s), (freelist s), own. rewrite (bind_ok _ _ _ _ _ E).
      rewrite decide_True, <- Hss by done. split_and!; try done. apply extend_refl. }
    assert (page_addr c) as Hpc by (apply Hs; by rewrite Hc).
    assert (c ≠ pt) as Hne by (intros ->; congruence).
    set (m2 := fill m1 c 0 PGSIZE). set (v := Z.lor (PA2PTE c) PTE_V).
    set (m3 := wr64 m2 (pt + 8 * PX lev va) v).
    destruct (table_pte c Hpc) as (Hv1 & Hv2 & Hv3 & Hv4).
    assert (only_page c (mem s) m2) as Ho2 by (eapply only_page_trans; [done|apply only_page_fill]).
    destruct (entry_in pt (PX lev va) Hpa Hi) as [Hlo Hhi].
    exists (Some c), m3, fl1, (give c (RTab root l (pre * 512 + PX lev va)) own). split_and!.
    + rewrite (bind_ok _ _ _ _ _ E). rewrite decide_False by done.
      erewrite bind_ok by (apply memset_ok, (page_ram c); [done|lia|lia]).
      by erewrite bind_ok by (apply store64_ok; by apply entry_ram).
    + split.
      * apply (kmem_only_page m2 m3 fl1 _ pt); [| done | |by apply only_page_wr64].
        2:{ by rewrite give_ne, Hpt. }
        apply (kmem_only_page m1 m2 fl1 _ c); [|done|by rewrite give_eq|apply only_page_fill].
        assert (kmem_inv m1 fl1 (give c (RTab root l (pre * 512 + PX lev va)) (give c RKern own))) as Hg.
        { apply kmem_give; [done|by rewrite give_eq..|done]. }
        destruct Hg as [Hg1 (l' & Hg2 & Hg3 & Hg4)]. split.
        -- intros a Ha. apply Hs. unfold give in Ha. case_decide; [subst; by rewrite Hc|done].
        -- exists l'. split_and!; [done..|]. intros a. rewrite Hg4. unfold give. by case_decide.
      * apply pt_newtab; try done; [|by rewrite entry_ext with (m := mem s) (a := c)|by rewrite Hc|].
        -- apply (pt_only_page (mem s) _ _ c); [done..|by rewrite Hc|done].
        -- intros j Hj. destruct (entry_in c j Hpc Hj). by apply rd64_fill.
    + split; [split| |].
      * intros a Ha. rewrite give_ne; [done|]. intros ->. done.
      * intros a Ha. unfold give. case_decide; [right|by left]. eexists _, _, _. split; [done|].
        destruct (pt_root _ _ Hp _ _ _ _ Hpt) as [Hl _]. lia.
      * intros a Ha. assert (a ≠ c ∧ a ≠ pt ∧ page_addr a) as (Hac & Hap & Haa).
        { split_and!; [intros ->; by rewrite ?Hc, ?Hpt in Ha..|].
          apply Hs. intros Hn. by rewrite Hn in Ha. }
        rewrite (only_page_bytes pt a m2 m3); [|by apply only_page_wr64|done|done|by intros ->].
        apply (only_page_bytes c a); [done..|by intros ->].
      * intros a r l' p Ha. unfold give in Ha. case_decide; [right; congruence|by left].
      * intros b r p i Hb Hi'. unfold m3. rewrite entry_wr64; [|done| |done|done|done].
        2:{ unfold give in Hb. case_decide; [by subst|by eapply sane_tab]. }
        unfold give in Hb. case_decide as Hbc.
        { subst. rewrite decide_False by (intros [? _]; done). destruct (entry_in c i Hpc Hi').
          unfold entry, m2. by rewrite rd64_fill, valid_pte_0. }
        rewrite decide_False by (intros [-> _]; congruence). intros _. split; [done|].
        apply (entry_ext (mem s) m2 c); [done|done|by eapply sane_tab|by intros ->|done].
    + by rewrite give_eq.
    + done.
Qed.

(** [pte] is the address of the leaf entry for [va] in the tree [root]. *)
Definition leaf_at (own : owners) (root va pte : Z) : Prop :=
  ∃ b pre, own b = RTab root 0 pre ∧ pte = b + 8 * PX 0 va ∧ va / PGSIZE = pre * 512 + PX 0 va.

Definition no_leaf (own : owners) (root va : Z) : Prop :=
  ∀ b, own b ≠ RTab root 0 (va / PGSIZE / 512).

Lemma walk_ok s own root va alloc :
  tree_inv (mem s) (freelist s) own → own root = RTab root 2 0 → 0 ≤ va < MAXVA →
  ∃ o m' fl' own', walk root va alloc s = Ok (o, with_mem m' (with_freelist fl' s)) ∧
    tree_inv m' fl' own' ∧ extend root (mem s) own m' own' ∧
    match o with
    | Some pte => leaf_at own' root va pte
    | None => no_leaf own' root va ∧ (alloc = true → ∀ a, own' a ≠ RFree)
    end ∧ (alloc = false → m' = mem s ∧ fl' = freelist s ∧ own' = own).
Proof.
  intros Ht Hroot Hva. pose proof (PX_split va Hva) as Hsplit.
  pose proof (PX_range 0 va). pose proof (PX_range 1 va). pose proof (PX_range 2 va).
  assert (va / PGSIZE / 512 = PX 2 va * 512 + PX 1 va) as Hpre.
  { rewrite Hsplit, Z.div_add_l by lia. rewrite (Z.div_small (PX 0 va)) by lia. lia. }
  unfold walk. rewrite decide_False by lia.
  destruct (walk_step_ok s own root 1 0 root va alloc Ht Hroot)
    as (o1 & m1 & fl1 & own1 & E1 & Ht1 & Hg1 & Ho1 & Hro1).
  change (Z.of_nat 2) with 2 in *. rewrite (bind_ok _ _ _ _ _ E1). destruct o1 as [p1|].
  2:{ destruct Ho1 as (-> & Hno & Hfree). exists None, m1, fl1, own. split_and!; try done.
      intros b Hb. rewrite Hpre in Hb.
      destruct (pt_parent _ _ (proj2 Ht) b _ _ _ Hb) as (b' & p & i & Hb' & ? & ? & _); [lia|].
      apply (Hno b'). rewrite Hb'. f_equal. lia. }
  replace (0 * 512 + PX 2 va) with (PX 2 va) in Ho1 by lia.
  set (s1 := with_mem m1 (with_freelist fl1 s)) in *.
  destruct (walk_step_ok s1 own1 root 0 (PX 2 va) p1 va alloc Ht1 Ho1)
    as (o2 & m2 & fl2 & own2 & E2 & Ht2 & Hg2 & Ho2 & Hro2).
  change (Z.of_nat 1) with 1 in *. rewrite (bind_ok _ _ _ _ _ E2).
  assert (alloc = false → m2 = mem s ∧ fl2 = freelist s ∧ own2 = own) as Hro.
  { intros Ha. destruct (Hro1 Ha) as (-> & -> & ->). by destruct (Hro2 Ha) as (-> & -> & ->). }
  pose proof (extend_trans _ _ _ _ _ _ _ Hg1 Hg2) as Hg.
  destruct o2 as [p0|].
  - exists (Some (p0 + 8 * PX 0 va)), m2, fl2, own2. split_and!; try done.
    exists p0, (PX 2 va * 512 + PX 1 va). done.
  - destruct Ho2 as (-> & Hno & Hfree). exists None, m2, fl2, own1. split_and!; try done.
    intros b Hb. rewrite Hpre in Hb. by apply (Hno b).
Qed.

(** A leaf entry decides whether the page is there. *)
Lemma leaf_page m fl own root va pte :
  tree_inv m fl own → leaf_at own root va pte → 0 ≤ va < TRAPFRAME → (PGSIZE | va) →
  in_ram pte 8 = true ∧
  if valid_pte (rd64 m pte) then own (PTE2PA (rd64 m pte)) = RPage root va
  else ∀ a, own a ≠ RPage root va.
Proof.
  intros Ht (b & pre & Hb & -> & Hsplit) Hva [k Hk]. pose proof PGSIZE_4096 as Hpg.
  pose proof (tree_sane _ _ _ Ht) as Hs. destruct Ht as [_ Hp].
  pose proof (PX_range 0 va) as Hi. split; [by eapply entry_ram; [eapply sane_tab|]|].
  assert (va = (pre * 512 + PX 0 va) * PGSIZE) as Hva'.
  { rewrite <- Hsplit, Hk, Z.div_mul by lia. done. }
  change (rd64 m (b + 8 * PX 0 va)) with (entry m b (PX 0 va)).
  destruct (valid_pte (entry m b (PX 0 va))) eqn:Hv.
  - rewrite Hva' at 2. eapply (pt_leaf _ _ Hp b); try done. lia.
  - intros a Ha. destruct (pt_page _ _ Hp _ _ _ Ha) as (b' & p & i & Hb' & ? & Heq & Hpo).
    assert (p * 512 + i = pre * 512 + PX 0 va) by (apply (Z.mul_reg_r _ _ PGSIZE); [lia|congruence]).
    assert (p = pre ∧ i = PX 0 va) as [-> ->] by lia.
    assert (b' = b) as -> by (by eapply tab_unique). destruct Hpo. congruence.
Qed.

Lemma no_leaf_page m fl own root va :
  tree_inv m fl own → no_leaf own root va → 0 ≤ va → ∀ a, own a ≠ RPage root va.
Proof.
  intros [_ Hp] Hno Hva a Ha. pose proof PGSIZE_4096 as Hpg.
  destruct (pt_page _ _ Hp _ _ _ Ha) as (b & p & i & Hb & Hi & Heq & _).
  apply (Hno b). rewrite Hb. f_equal. rewrite Heq, Z.div_mul by lia.
  rewrite Z.div_add_l by lia. rewrite (Z.div_small i) by lia. lia.
Qed.

(** *** Installing and clearing a leaf entry *)
Definition same_data (own : owners) (m m' : memory) : Prop :=
  ∀ a, data (own a) → rdbytes m' a PGSIZE = rdbytes m a PGSIZE.

Lemma leaf_write_data m own root va pte v :
  sane own → leaf_at own root va pte → same_data own m (wr64 m pte v).
Proof.
  intros Hs (b & pre & Hb & -> & _) a Ha. pose proof (sane_tab _ _ _ _ _ Hs Hb) as Hpb.
  destruct (entry_in b (PX 0 va) Hpb (PX_range 0 va)).
  apply (only_page_bytes b a); [by apply only_page_wr64|done| |].
  - apply Hs. intros Hn. by rewrite Hn in Ha.
  - intros ->. by rewrite Hb in Ha.
Qed.

Lemma leaf_write_kmem m fl own root va pte v :
  kmem_inv m fl own → leaf_at own root va pte → kmem_inv (wr64 m pte v) fl own.
Proof.
  intros Hk (b & pre & Hb & -> & _). pose proof (sane_tab _ _ _ _ _ (proj1 Hk) Hb) as Hpb.
  destruct (entry_in b (PX 0 va) Hpb (PX_range 0 va)).
  apply (kmem_only_page m _ fl own b); [done..|by rewrite Hb|by apply only_page_wr64].
Qed.

Lemma leaf_va own root va pte :
  leaf_at own root va pte → (PGSIZE | va) →
  ∃ b pre, own b = RTab root 0 pre ∧ pte = b + 8 * PX 0 va ∧ va = (pre * 512 + PX 0 va) * PGSIZE.
Proof.
  intros (b & pre & Hb & -> & Hsplit) [k Hk]. pose proof PGSIZE_4096.
  exists b, pre. split_and!; [done..|]. rewrite <- Hsplit, Hk, Z.div_mul by lia. done.
Qed.

Lemma map_leaf m fl own root va pte c v :
  tree_inv m fl own → leaf_at own root va pte → 0 ≤ va < TRAPFRAME → (PGSIZE | va) →
  valid_pte (rd64 m pte) = false → own c = RKern →
  0 ≤ v < 2 ^ 64 → valid_pte v = true → PTE2PA v = c →
  tree_inv (wr64 m pte v) fl (give c (RPage root va) own) ∧ same_data own m (wr64 m pte v).
Proof.
  intros Ht Hleaf Hva Hal Hinv Hc Hv Hval Hpa. pose proof (tree_sane _ _ _ Ht) as Hs.
  pose proof Ht as [Hk Hp]. split; [split|by eapply leaf_write_data].
  - apply kmem_give; [by eapply leaf_write_kmem|by rewrite Hc..|done].
  - destruct (leaf_va _ _ _ _ Hleaf Hal) as (b & pre & Hb & -> & Heq). rewrite Heq at 2.
    apply pt_map; try done; [apply PX_range|by rewrite Hc|lia].
Qed.

Lemma unmap_leaf m fl own root va pte c :
  tree_inv m fl own → leaf_at own root va pte → (PGSIZE | va) →
  valid_pte (rd64 m pte) = true → PTE2PA (rd64 m pte) = c → own c = RPage root va →
  tree_inv (wr64 m pte 0) fl (give c RKern own) ∧ same_data own m (wr64 m pte 0).
Proof.
  intros Ht Hleaf Hal Hv Hpa Hc. pose proof (tree_sane _ _ _ Ht) as Hs.
  pose proof Ht as [Hk Hp]. split; [split|by eapply leaf_write_data].
  - apply kmem_give; [by eapply leaf_write_kmem|by rewrite Hc..|done].
  - destruct (leaf_va _ _ _ _ Hleaf Hal) as (b & pre & Hb & -> & Heq).
    eapply pt_unmap; try done; [apply PX_range|]. by rewrite <- Heq.
Qed.

(** The entry [mappages] writes. *)
Lemma user_pte c perm : pa_ok c → 0 ≤ perm < 1024 →
  let v := Z.lor (Z.lor (PA2PTE c) perm) PTE_V in
  0 ≤ v < 2 ^ 64 ∧ valid_pte v = true ∧ PTE2PA v = c.
Proof.
  intros Hc Hperm. destruct pte_V_flags as [HV _]. rewrite HV.
  rewrite <- Z.lor_assoc. assert (0 ≤ Z.lor perm 1 < 1024) as Hr.
  { split; [apply Z.lor_nonneg; lia|]. apply Z.log2_lt_cancel. rewrite Z.log2_lor by lia.
    change (Z.log2 1024) with 10. apply Z.max_lub_lt; [|done].
    destruct (decide (perm = 0)) as [->|]; [done|]. apply Z.log2_lt_pow2; lia. }
  split_and!; [by apply pte_range..| |by apply pte_pa].
  rewrite valid_pte_mk by done. rewrite <- Z.bit0_odd, Z.lor_spec. by rewrite orb_true_r.
Qed.

(** [mappages] of one page the caller holds at an address with no page. *)
Lemma mappages_one_ok s own root va c perm :
  tree_inv (mem s) (freelist s) own → own root = RTab root 2 0 →
  0 ≤ va < TRAPFRAME → (PGSIZE | va) → own c = RKern → (∀ a, own a ≠ RPage root va) →
  0 ≤ perm < 1024 →
  ∃ r m' fl' own', mappages root va PGSIZE c perm s = Ok (r, with_mem m' (with_freelist fl' s)) ∧
    grow (mem s) own m' own' ∧ confined root own own' ∧
    ((r = 0 ∧ tree_inv m' fl' (give c (RPage root va) own')) ∨
     (r = -1 ∧ tree_inv m' fl' own' ∧ ∀ a, own' a ≠ RFree)).
Proof.
  intros Ht Hroot Hva Hal Hc Hno Hperm. pose proof PGSIZE_4096 as Hpg.
  pose proof MAXVA_range. pose proof TRAMPOLINE_top. pose proof TRAPFRAME_below.
  assert (page_addr c) as Hpc by (apply (tree_sane _ _ _ Ht); by rewrite Hc).
  unfold mappages. rewrite decide_False by (intros []; by apply Z.mod_divide; [lia|]).
  rewrite decide_False by (rewrite Z.mod_same by lia; lia). rewrite decide_False by lia.
  rewrite Z.div_same by lia. replace (u64 (va + PGSIZE - PGSIZE)) with va by (rewrite u64_id; lia).
  simpl. destruct (walk_ok s own root va true Ht Hroot) as (o & m1 & fl1 & own1 & E & Ht1 & Hext & Ho & _); [lia|].
  pose proof (extend_confined _ _ _ _ _ Hext) as Hcf. destruct Hext as [Hg _ _].
  rewrite (bind_ok _ _ _ _ _ E). destruct o as [pte|].
  2:{ destruct Ho as [_ Hfree]. exists (-1), m1, fl1, own1. split_and!; [done..|right]. auto. }
  assert (∀ a, own1 a ≠ RPage root va) as Hno1.
  { intros a Ha. destruct (decide (own a = RFree)) as [Hf|Hf].
    - destruct (grow_free _ _ _ _ Hg a Hf) as [Hx|(?&?&?&Hx&_)]; congruence.
    - apply (Hno a). by rewrite <- (grow_kept _ _ _ _ Hg a Hf). }
  assert (own1 c = RKern) as Hc1 by (rewrite (grow_kept _ _ _ _ Hg); congruence).
  destruct (leaf_page _ _ _ _ _ _ Ht1 Ho Hva Hal) as [Hram Hv].
  destruct (valid_pte (rd64 m1 pte)) eqn:Hval; [by destruct (Hno1 _ Hv)|].
  destruct (user_pte c perm (page_pa_ok _ Hpc) Hperm) as (Hr & Hvv & Hpa).
  erewrite bind_ok by (by apply load64_ok). simpl. rewrite Hval.
  erewrite bind_ok by (by apply store64_ok). rewrite decide_True by done.
  destruct (map_leaf m1 fl1 own1 root va pte c _ Ht1 Ho Hva Hal Hval Hc1 Hr Hvv Hpa) as [Ht2 Hd].
  exists 0. eexists _, fl1, own1. split_and!; [reflexivity| |done|left; done].
  destruct Hg as [G1 G2 G3]. split; [done..|]. intros a Ha. rewrite <- G3 by done.
  apply Hd. rewrite G1; [done|]. intros Hn. by rewrite Hn in Ha.
Qed.

(** *** The allocator keeps the trees *)
Lemma tree_write m fl own a m' :
  tree_inv m fl own → data (own a) → only_page a m m' → tree_inv m' fl own.
Proof.
  intros Ht Ha Ho. pose proof (tree_sane _ _ _ Ht) as Hs. destruct Ht as [Hk Hp].
  assert (page_addr a) as Hpa by (apply Hs; intros Hn; by rewrite Hn in Ha).
  split; [by apply (kmem_only_page m _ fl own a); [..|intros Hn; rewrite Hn in Ha|]|].
  apply (pt_only_page m _ own a); [done..| |done]. intros ??? Hn. by rewrite Hn in Ha.
Qed.

Lemma kfree_tree s own a :
  tree_inv (mem s) (freelist s) own → own a = RKern →
  ∃ m', kfree a s = Ok (tt, with_mem m' (with_freelist a s)) ∧
    only_page a (mem s) m' ∧ tree_inv m' a (give a RFree own).
Proof.
  intros Ht Ha. destruct (kfree_ok s own a (proj1 Ht) Ha) as (m' & E & Ho & Hk).
  exists m'. split_and!; [done..|]. split; [done|].
  apply pt_give; [|by rewrite Ha|done].
  eapply (tree_write _ _ _ _ _ Ht); [|done]. by rewrite Ha.
Qed.

Lemma pop_tree s own :
  tree_inv (mem s) (freelist s) own →
  (freelist s = 0 ∧ (∀ a, own a ≠ RFree) ∧ pop_page s = Ok (0, s)) ∨
  ∃ fl', own (freelist s) = RFree ∧ freelist s ≠ 0 ∧
    pop_page s = Ok (freelist s, with_freelist fl' s) ∧
    tree_inv (mem s) fl' (give (freelist s) RKern own).
Proof.
  intros [Hk Hp]. destruct (pop_page_ok s own Hk) as [?|(fl' & Hf & Hne & E & Hk')]; [by left|].
  right. exists fl'. split_and!; [done..|]. split; [done|]. apply pt_give; [done|by rewrite Hf|done].
Qed.

Lemma kalloc_tree s own :
  tree_inv (mem s) (freelist s) own →
  (freelist s = 0 ∧ (∀ a, own a ≠ RFree) ∧ kalloc s = Ok (0, s)) ∨
  ∃ a fl' m', own a = RFree ∧ a ≠ 0 ∧ kalloc s = Ok (a, with_mem m' (with_freelist fl' s)) ∧
    only_page a (mem s) m' ∧ tree_inv m' fl' (give a RKern own).
Proof.
  intros Ht. pose proof Ht as [Hk Hp].
  destruct (kalloc_ok s own Hk) as [?|(a & fl' & m' & Hf & Hne & E & Ho & Hk')]; [by left|].
  right. exists a, fl', m'. split_and!; [done..|]. split; [done|].
  apply pt_give; [|by rewrite Hf|done].
  apply (pt_only_page (mem s) _ own a); [done|by eapply tree_sane| | |done].
  - apply (tree_sane _ _ _ Ht). by rewrite Hf.
  - intros ???. by rewrite Hf.
Qed.
End correctness.
