(* ===== verification/Frames.v ===== *)
(** * The frame table and eviction (kernel/kalloc.c:16-222, 236-260, 286-375)

    A table of at most [MAX_FRAMES] resident user pages, the clock that picks
    a victim among them, eviction to a swap slot, and the allocator of user
    pages that evicts when it has to.  The swap device is the interface
    [SwapDev]. *)
From S2P Require Import Prelude Interfaces Mem KState Kmem PageTable.
Local Open Scope Z_scope.

(** The swap entry of page [va] of process [p] (vm.c:241-243, 403-405, 703-705). *)
Definition is_entry (p : nat) (va : Z) (e : swap_entry) : Prop :=
  s_used e = true ∧ s_proc e = Some p ∧ s_va e = va.
#[global] Instance is_entry_dec p va e : Decision (is_entry p va e).
Proof. unfold is_entry. apply _. Defined.

Section ops.
Context `{Sv39} {D : Type} `{!SwapDev D}.

(** [swap_disk_write(slot, (char* )pa)] and [swap_disk_read(slot, (char* )pa)] *)
Definition swap_out (slot pa : Z) : M (kernel D) Z :=
  let* d := load_bytes pa PGSIZE in
  lift_dev (dev_write slot d).
Definition swap_in (slot pa : Z) : M (kernel D) Z :=
  let* d := load_bytes pa PGSIZE in
  let* (r, d') := lift_dev (dev_read slot d) in
  store_bytes pa d' ;;;
  ret r.

(** [if(user_frame_count > 0) user_frame_count--] *)
Definition dec_count : M (kernel D) unit :=
  modify (λ s, if decide (0 < user_frame_count s)
               then with_user_frame_count (user_frame_count s - 1) s else s).

(** kalloc.c:34-49 *)
Definition register_user_frame (p : nat) (va : Z) : M (kernel D) Z :=
  let* ft := gets frame_table in
  match list_find (λ f, f_used f = false) ft with
  | Some (i, _) =>
    upd_frame i (λ _, mkFrame true true (Some p) va true) ;;;
    modify (λ s, with_user_frame_count (i32 (user_frame_count s + 1)) s) ;;;
    ret 0
  | None => ret (-1)
  end.

(** kalloc.c:51-59 *)
Definition has_free_frame_slot : M (kernel D) bool :=
  let* ft := gets frame_table in
  ret (bool_decide (is_Some (list_find (λ f, f_used f = false) ft))).

(** kalloc.c:61-69 *)
Definition restore_victim_frame (victim : nat) (evict_proc : option nat) (evict_va : Z) :
    M (kernel D) unit :=
  upd_frame victim (λ _, mkFrame true true evict_proc evict_va true).

(** kalloc.c:93-94 *)
Definition owner_level (o : option nat) : M (kernel D) Z :=
  match o with
  | Some p => let* x := get_proc p in ret (p_level x)
  | None => ret 0
  end.

(** kalloc.c:81-103: [n] more rounds of the clock *)
Fixpoint clock_scan (n : nat) (best : option nat) (best_level : Z) : M (kernel D) (option nat) :=
  match n with
  | O => ret best
  | S n =>
    let* hand := gets clock_hand in
    let idx := Z.to_nat hand in
    let* f := get_frame idx in
    modify (with_clock_hand ((hand + 1) mod Z.of_nat MAX_FRAMES)) ;;;
    if negb (f_used f) || negb (f_user f) then clock_scan n best best_level
    else if f_ref f then
      upd_frame idx (λ f, mkFrame (f_used f) (f_user f) (f_proc f) (f_va f) false) ;;;
      clock_scan n best best_level
    else
      let* plevel := owner_level (f_proc f) in
      let '(best, best_level) :=
        if decide (best_level < plevel) then (Some idx, plevel) else (best, best_level) in
      if decide (best_level = 3) then ret best else clock_scan n best best_level
  end.

(** kalloc.c:75-116; [None] is [-1] *)
Definition select_victim_frame : M (kernel D) (option nat) :=
  let* best := clock_scan (MAX_FRAMES * 2) None (-1) in
  match best with
  | Some i => ret (Some i)
  | None =>
    let* ft := gets frame_table in
    ret (fst <$> list_find (λ f, f_used f = true ∧ f_user f = true) ft)
  end.

(** kalloc.c:142-148 *)
Definition reserve_swap_slot : M (kernel D) (option nat) :=
  let* su := gets swap_used in
  match list_find (λ b, b = false) su with
  | Some (i, _) => set_swap_used i true ;;; ret (Some i)
  | None => ret None
  end.

(** kalloc.c:159-167 and 174-182: the victim was not resident after all *)
Definition drop_victim (victim slot : nat) : M (kernel D) unit :=
  set_swap_used slot false ;;;
  upd_frame victim (λ _, frame0) ;;;
  dec_count.

(** kalloc.c:202-210: the second critical section *)
Definition commit_evict (victim slot p : nat) (va : Z) : M (kernel D) unit :=
  upd_swap slot (mkSwap true (Some p) va (Z.of_nat slot)) ;;;
  upd_frame victim (λ f, mkFrame false (f_user f) (f_proc f) (f_va f) (f_ref f)) ;;;
  dec_count.

(** kalloc.c:192-218: the victim's page, already unmapped, goes to the slot *)
Definition evict_write (victim slot p : nat) (va pte oldpte : Z) : M (kernel D) Z :=
  let pa := PTE2PA oldpte in
  let* r := swap_out (Z.of_nat slot) pa in
  if decide (r < 0) then
    store64 pte oldpte ;;;
    set_swap_used slot false ;;;
    restore_victim_frame victim (Some p) va ;;;
    ret (-1)
  else
    commit_evict victim slot p va ;;;
    upd_proc p (λ x, set_p_pages_evicted (i32 (p_pages_evicted x + 1)) x) ;;;
    upd_proc p (λ x, if decide (0 < p_resident_pages x)
                     then set_p_resident_pages (p_resident_pages x - 1) x else x) ;;;
    upd_proc p (λ x, set_p_pages_swapped_out (i32 (p_pages_swapped_out x + 1)) x) ;;;
    kfree pa ;;;
    ret 0.

(** kalloc.c:187-190: the entry is cleared; the result is its old value *)
Definition evict_unmap (pte : Z) : M (kernel D) Z :=
  let* oldpte := load64 pte in
  store64 pte 0 ;;;
  ret oldpte.

(** kalloc.c:187-218 *)
Definition evict_page (victim slot p : nat) (va pte : Z) : M (kernel D) Z :=
  let* oldpte := evict_unmap pte in
  evict_write victim slot p va pte oldpte.

(** kalloc.c:124-156: the first critical section, which picks a victim and
    reserves a slot; the frame is the victim's before it is cleared *)
Definition evict_select : M (kernel D) (option (nat * frame * nat)) :=
  let* o := select_victim_frame in
  match o with
  | None => ret None
  | Some victim =>
    let* f := get_frame victim in
    upd_frame victim (λ f, mkFrame (f_used f) false None 0 false) ;;;
    let* o := reserve_swap_slot in
    match o with
    | None => restore_victim_frame victim (f_proc f) (f_va f) ;;; ret None
    | Some slot => ret (Some (victim, f, slot))
    end
  end.

(** kalloc.c:124-219: one attempt; [None] is [continue] *)
Definition evict_round : M (kernel D) (option Z) :=
  let* o := evict_select in
  match o with
  | None => ret (Some (-1))
  | Some (victim, f, slot) =>
    match f_proc f with
    | None => drop_victim victim slot ;;; ret None
    | Some p =>
      let* x := get_proc p in
      if decide (p_pagetable x = 0) then drop_victim victim slot ;;; ret None
      else
        let* o := walk (p_pagetable x) (f_va f) false in
        match o with
        | None => drop_victim victim slot ;;; ret None
        | Some pte =>
          let* v := load64 pte in
          if valid_pte v then
            let* r := evict_page victim slot p (f_va f) pte in ret (Some r)
          else drop_victim victim slot ;;; ret None
        end
    end
  end.

(** kalloc.c:120-222 *)
Fixpoint evict_attempts (n : nat) : M (kernel D) Z :=
  match n with
  | O => ret (-1)
  | S n =>
    let* o := evict_round in
    match o with Some r => ret r | None => evict_attempts n end
  end.
Definition evict_one_user_frame : M (kernel D) Z := evict_attempts MAX_FRAMES.

(** kalloc.c:236-260 *)
Definition kinit : M (kernel D) unit :=
  freerange kend PHYSTOP ;;;
  modify (with_user_frame_count 0) ;;;
  modify (with_clock_hand 0) ;;;
  modify (with_frame_table (replicate MAX_FRAMES frame0)) ;;;
  modify (with_swap_used (replicate MAX_SWAP false)) ;;;
  modify (with_swap_map (replicate MAX_SWAP swap0)).

(** kalloc.c:286-308 *)
Definition free_user_frame (p : nat) (va pa : Z) : M (kernel D) unit :=
  let* ft := gets frame_table in
  match list_find (λ f, f_used f = true ∧ f_user f = true ∧ f_proc f = Some p ∧ f_va f = va) ft with
  | Some (i, _) => upd_frame i (λ _, frame0) ;;; dec_count
  | None => ret tt
  end ;;;
  kfree pa.

(** kalloc.c:334-372: [n] more attempts *)
Fixpoint kalloc_user_attempts (n : nat) (p : nat) (va : Z) : M (kernel D) Z :=
  match n with
  | O => ret 0
  | S n =>
    let* count := gets user_frame_count in
    let* free := has_free_frame_slot in
    let* ok := if bool_decide (Z.of_nat MAX_FRAMES ≤ count) || negb free
               then let* r := evict_one_user_frame in ret (bool_decide (0 ≤ r))
               else ret true in
    if negb ok then ret 0 else
    let* r := pop_page in
    if decide (r = 0) then
      let* count := gets user_frame_count in
      if decide (count > 0) then
        let* e := evict_one_user_frame in
        if decide (e < 0) then ret 0 else kalloc_user_attempts n p va
      else ret 0
    else
      memset r 0 PGSIZE ;;;
      let* reg := register_user_frame p va in
      if decide (reg = 0) then ret r
      else
        kfree r ;;;
        let* e := evict_one_user_frame in
        if decide (e < 0) then ret 0 else kalloc_user_attempts n p va
  end.

(** kalloc.c:329-375 *)
Definition kalloc_user (p : nat) (va : Z) : M (kernel D) Z := kalloc_user_attempts 2 p va.
End ops.
