(* ===== verification/Paging.v ===== *)
(** * What user memory contains, and the invariant of the paging code

    [user_page s p va] is page [va] of process [p] as the process sees it:
    the resident page, else the page in its swap slot, else zeros (memory
    that was never touched).  [vinv] is the invariant of kalloc.c and vm.c;
    the lemmas show that the frame table, the clock, eviction and the page
    allocator keep it and leave every [user_page] as it was. *)
From S2P Require Import Prelude Interfaces Mem KState Kmem PageTable Frames.
Local Open Scope Z_scope.

Section view.
Context `{Sv39} {D : Type} `{!SwapDev D} `{!SwapDevSpec D}.
Implicit Types s : kernel D.

(** The hardware's walk of a page table. *)
Definition pt_step (m : memory) (level pt va : Z) : option Z :=
  let v := rd64 m (pt + 8 * PX level va) in
  if valid_pte v then Some (PTE2PA v) else None.
Definition pt_find (m : memory) (root va : Z) : option Z :=
  p1 ← pt_step m 2 root va; p0 ← pt_step m 1 p1 va; pt_step m 0 p0 va.

Definition swap_find s (p : nat) (va : Z) : option swap_entry :=
  snd <$> list_find (is_entry p va) (swap_map s).

Definition swapped_page s (p : nat) (va : Z) : bytes :=
  match swap_find s p va with
  | Some e => dev_page (swapdev s) (s_slot e)
  | None => replicate pgsize 0
  end.

Definition user_page s (p : nat) (va : Z) : bytes :=
  match procs s !! p with
  | Some x =>
    match pt_find (mem s) (p_pagetable x) va with
    | Some a => rdbytes (mem s) a PGSIZE
    | None => swapped_page s p va
    end
  | None => []
  end.

Definition va_ok (va : Z) : Prop := 0 ≤ va < TRAPFRAME ∧ (PGSIZE | va).

(** A process with an address space. *)
Definition live s (p : nat) (root : Z) : Prop :=
  ∃ x, procs s !! p = Some x ∧ p_pagetable x = root ∧ root ≠ 0.

Definition same_views s s' : Prop :=
  ∀ p root va, live s p root → va_ok va → user_page s' p va = user_page s p va.

(** ** The invariant *)
Definition frame_ok s (f : frame) : Prop :=
  f_used f = true → f_user f = true ∧ va_ok (f_va f) ∧
    ∃ p, f_proc f = Some p ∧ is_Some (procs s !! p).

Definition entry_ok s (own : owners) (i : nat) (e : swap_entry) : Prop :=
  s_used e = true → s_slot e = Z.of_nat i ∧ va_ok (s_va e) ∧
    ∃ p root, s_proc e = Some p ∧ live s p root ∧ ∀ a, own a ≠ RPage root (s_va e).

(** The number of frames in use. *)
Fixpoint nused (ft : list frame) : Z :=
  match ft with
  | [] => 0
  | f :: ft => (if f_used f then 1 else 0) + nused ft
  end.

Record vinv s (own : owners) : Prop := {
  vi_tree : tree_inv (mem s) (freelist s) own;
  vi_live : ∀ p root, live s p root → own root = RTab root 2 0;
  vi_roots : ∀ p q root, live s p root → live s q root → p = q;
  vi_flen : length (frame_table s) = MAX_FRAMES;
  vi_frames : ∀ i f, frame_table s !! i = Some f → frame_ok s f;
  vi_count : user_frame_count s = nused (frame_table s);
  vi_hand : 0 ≤ clock_hand s < Z.of_nat MAX_FRAMES;
  vi_slen : length (swap_map s) = MAX_SWAP;
  vi_used : swap_used s = s_used <$> swap_map s;
  vi_swap : ∀ i e, swap_map s !! i = Some e → entry_ok s own i e;
  vi_suniq : ∀ i j e e' p va, swap_map s !! i = Some e → swap_map s !! j = Some e' →
    is_entry p va e → is_entry p va e' → i = j;
  vi_dev : dev_inv (swapdev s);
  vi_slots : Z.of_nat MAX_SWAP ≤ dev_slots;
}.

Lemma va_ok_max va : va_ok va → 0 ≤ va < MAXVA.
Proof.
  intros [? _]. pose proof TRAMPOLINE_top. pose proof TRAPFRAME_below. pose proof PGSIZE_4096. lia.
Qed.

(** The walk finds exactly the pages the ownership map gives to the tree. *)
Lemma pt_find_own m fl own root va a :
  tree_inv m fl own → own root = RTab root 2 0 → va_ok va →
  pt_find m root va = Some a ↔ own a = RPage root va.
Proof.
  intros Ht Hroot Hva. pose proof (va_ok_max va Hva) as Hmax. destruct Hva as [Hva Hal].
  pose proof (PX_split va Hmax) as Hsplit. pose proof (tree_sane _ _ _ Ht) as Hs.
  pose proof Ht as [Hk Hp]. pose proof PGSIZE_4096 as Hpg.
  pose proof (PX_range 0 va) as Hx0. pose proof (PX_range 1 va) as Hx1. pose proof (PX_range 2 va) as Hx2.
  assert (∀ lev pt b, pt_step m lev pt va = Some b ↔ points m pt (PX lev va) b) as Hstep.
  { intros lev pt b. unfold pt_step, points, entry. destruct (valid_pte _); naive_solver. }
  assert (va = ((PX 2 va * 512 + PX 1 va) * 512 + PX 0 va) * PGSIZE) as Hva'.
  { rewrite <- Hsplit. destruct Hal as [k ->]. by rewrite Z.div_mul by lia. }
  unfold pt_find. split.
  - intros (p1 & Hp1%Hstep & (p0 & Hp0%Hstep & Hpa%Hstep)%bind_Some)%bind_Some.
    pose proof (pt_node _ _ Hp _ _ _ _ (PX 2 va) _ Hroot Hx2 Hp1) as Ho1.
    pose proof (pt_node _ _ Hp _ _ _ _ (PX 1 va) _ Ho1 Hx1 Hp0) as Ho0.
    rewrite Z.mul_0_l, Z.add_0_l in Ho0.
    pose proof (pt_leaf _ _ Hp _ _ _ (PX 0 va) _ Ho0 Hx0 Hpa) as Hpage.
    rewrite <- Hva' in Hpage. apply Hpage. lia.
  - intros Ha. destruct (pt_page _ _ Hp _ _ _ Ha) as (b0 & pre0 & i0 & Hb0 & Hi0 & He0 & Hpt0).
    assert (pre0 * 512 + i0 = (PX 2 va * 512 + PX 1 va) * 512 + PX 0 va) by
      (apply (Z.mul_reg_r _ _ PGSIZE); [lia|congruence]).
    assert (i0 = PX 0 va) as -> by lia. assert (pre0 = PX 2 va * 512 + PX 1 va) as -> by lia.
    destruct (pt_parent _ _ Hp _ _ _ _ Hb0) as (b1 & p1 & i1 & Hb1 & Hi1 & He1 & Hpt1); [lia|].
    assert (i1 = PX 1 va) as -> by lia. assert (p1 = PX 2 va) as -> by lia.
    destruct (pt_parent _ _ Hp _ _ _ _ Hb1) as (b2 & p2 & i2 & Hb2 & Hi2 & He2 & Hpt2); [lia|].
    destruct (pt_root _ _ Hp _ _ _ _ Hb2) as [_ Hr]. destruct Hr as [-> ->]; [done|].
    assert (i2 = PX 2 va) as -> by lia.
    apply Hstep in Hpt0, Hpt1, Hpt2. rewrite Hpt2. simpl. rewrite Hpt1. simpl. done.
Qed.

Lemma user_page_res s own p root va a :
  tree_inv (mem s) (freelist s) own → own root = RTab root 2 0 → live s p root → va_ok va →
  own a = RPage root va → user_page s p va = rdbytes (mem s) a PGSIZE.
Proof.
  intros Ht Hr (x & Hx & Hroot & _) Hva Ha. unfold user_page. rewrite Hx, Hroot.
  by rewrite (proj2 (pt_find_own _ _ _ _ _ _ Ht Hr Hva) Ha).
Qed.

Lemma user_page_swp s own p root va :
  tree_inv (mem s) (freelist s) own → own root = RTab root 2 0 → live s p root → va_ok va →
  (∀ a, own a ≠ RPage root va) → user_page s p va = swapped_page s p va.
Proof.
  intros Ht Hr (x & Hx & Hroot & _) Hva Hno. unfold user_page. rewrite Hx, Hroot.
  destruct (pt_find (mem s) root va) as [a|] eqn:E; [|done].
  by destruct (Hno a); eapply pt_find_own.
Qed.

(** Resident or not is decidable. *)
Lemma resident_dec m fl own root va :
  tree_inv m fl own → own root = RTab root 2 0 → va_ok va →
  (∃ a, own a = RPage root va) ∨ (∀ a, own a ≠ RPage root va).
Proof.
  intros Ht Hr Hva. destruct (pt_find m root va) as [a|] eqn:E.
  - left. exists a. by eapply pt_find_own.
  - right. intros a Ha. eapply pt_find_own in Ha; eauto. congruence.
Qed.

(** Steps that leave user pages, their contents and the swap area alone. *)
Lemma same_views_keep s s' own own' :
  vinv s own → tree_inv (mem s') (freelist s') own' →
  (∀ p root, live s p root → live s' p root ∧ own' root = RTab root 2 0) →
  (∀ a root va, own' a = RPage root va ↔ own a = RPage root va) →
  (∀ a root va, own a = RPage root va → rdbytes (mem s') a PGSIZE = rdbytes (mem s) a PGSIZE) →
  (∀ p va, swapped_page s' p va = swapped_page s p va) →
  same_views s s'.
Proof.
  intros [] Ht Hlive Hpg Hdata Hswp p root va Hl Hva. destruct (Hlive p root Hl) as [Hl' Hr'].
  pose proof (vi_live0 p root Hl) as Hr.
  destruct (resident_dec _ _ _ root va vi_tree0 Hr Hva) as [[a Ha]|Hno].
  - rewrite (user_page_res s own p root va a), (user_page_res s' own' p root va a); eauto.
    by apply Hpg.
  - rewrite (user_page_swp s own p root va), (user_page_swp s' own' p root va); eauto.
    intros a Ha%Hpg. by eapply Hno.
Qed.

Lemma same_views_refl s : same_views s s.
Proof. by intros p root va _ _. Qed.

(** A process without the counters of the paging code. *)
Definition core (x : proc) : proc :=
  set_p_page_faults 0 (set_p_pages_evicted 0 (set_p_pages_swapped_in 0
    (set_p_pages_swapped_out 0 (set_p_resident_pages 0 x)))).

Definition same_procs s s' : Prop := core <$> procs s' = core <$> procs s.

Lemma same_procs_lookup s s' p x :
  same_procs s s' → procs s !! p = Some x → ∃ y, procs s' !! p = Some y ∧ core y = core x.
Proof.
  intros Hp Hx. assert ((core <$> procs s') !! p = (core <$> procs s) !! p) as Hl by by rewrite Hp.
  rewrite !list_lookup_fmap, Hx in Hl. apply fmap_Some in Hl as (y & ? & ?). by exists y.
Qed.

Lemma same_procs_sym s s' : same_procs s s' → same_procs s' s.
Proof. unfold same_procs. by intros ->. Qed.

Lemma core_pagetable x y : core x = core y → p_pagetable x = p_pagetable y.
Proof. intros Hc. exact (f_equal p_pagetable Hc). Qed.

Lemma live_same s s' p root : same_procs s s' → live s p root ↔ live s' p root.
Proof.
  assert (∀ s1 s2, same_procs s1 s2 → live s1 p root → live s2 p root) as Himp.
  { intros s1 s2 Hp (x & Hx & Hr & Hz). destruct (same_procs_lookup _ _ _ _ Hp Hx) as (y & Hy & Hc).
    exists y. split_and!; [done| |done]. by rewrite (core_pagetable _ _ Hc). }
  intros Hp. split; [by apply Himp|by apply Himp, same_procs_sym].
Qed.

Lemma same_views_trans s1 s2 s3 :
  same_procs s1 s2 → same_views s1 s2 → same_views s2 s3 → same_views s1 s3.
Proof.
  intros Hp Hv1 Hv2 p root va Hl Hva. rewrite (Hv2 p root va), (Hv1 p root va); [done..| |done].
  by apply (live_same s1).
Qed.

Lemma proc_same s s' p : same_procs s s' → is_Some (procs s !! p) ↔ is_Some (procs s' !! p).
Proof.
  intros Hp. split; intros [x Hx].
  - by destruct (same_procs_lookup _ _ _ _ Hp Hx) as (y & -> & _).
  - by destruct (same_procs_lookup _ _ _ _ (same_procs_sym _ _ Hp) Hx) as (y & -> & _).
Qed.

(** Steps of the allocator and of [walk]: tables may be added, pages stay. *)
Lemma vinv_tree s own m' fl' own' :
  vinv s own → tree_inv m' fl' own' →
  (∀ p root, live s p root → own' root = RTab root 2 0) →
  (∀ a root va, own' a = RPage root va ↔ own a = RPage root va) →
  vinv (with_mem m' (with_freelist fl' s)) own'.
Proof.
  intros [] Ht Htab Hpg. split; try done.
  intros i e He Hu. destruct (vi_swap0 i e He Hu) as (? & ? & p & root & ? & ? & Hno).
  split_and!; [done..|]. exists p, root. split_and!; [done..|]. intros a Ha%Hpg. by eapply Hno.
Qed.

Lemma grow_tab m own m' own' a root l pre :
  grow m own m' own' → own a = RTab root l pre → own' a = RTab root l pre.
Proof. intros Hg Ha. rewrite (grow_kept _ _ _ _ Hg); [done|by rewrite Ha]. Qed.

Lemma grow_page m own m' own' a root va :
  grow m own m' own' → own' a = RPage root va ↔ own a = RPage root va.
Proof.
  intros Hg. destruct (decide (own a = RFree)) as [Hf|Hf].
  - rewrite Hf. destruct (grow_free _ _ _ _ Hg a Hf) as [->|(? & ? & ? & -> & _)]; done.
  - by rewrite (grow_kept _ _ _ _ Hg a Hf).
Qed.

(** ** Counting frames *)
Lemma nused_alter f g i ft :
  ft !! i = Some f →
  nused (alter g i ft) = nused ft - (if f_used f then 1 else 0) + (if f_used (g f) then 1 else 0).
Proof.
  revert i. induction ft as [|f' ft IH]; intros [|i] Hi; simplify_eq/=; [lia|].
  change (alter g (S i) (f' :: ft)) with (f' :: alter g i ft). simpl. rewrite (IH i Hi). lia.
Qed.

Lemma nused_range ft : 0 ≤ nused ft ≤ Z.of_nat (length ft).
Proof. induction ft as [|f ft IH]; simpl; [lia|]. destruct (f_used f); lia. Qed.

Lemma nused_pos ft i f : ft !! i = Some f → f_used f = true → 0 < nused ft.
Proof.
  revert i. induction ft as [|f' ft IH]; intros [|i] Hi Hu; simplify_eq/=.
  - rewrite Hu. pose proof (nused_range ft). lia.
  - specialize (IH i Hi Hu). destruct (f_used f'); lia.
Qed.

Lemma nused_ext ft ft' : f_used <$> ft' = f_used <$> ft → nused ft' = nused ft.
Proof.
  revert ft'. induction ft as [|f ft IH]; intros [|f' ft'] He; simplify_eq/=; [done|].
  match goal with Hu : f_used _ = f_used _ |- _ => rewrite Hu end. f_equal. by apply IH.
Qed.

Lemma nused_full ft : nused ft = Z.of_nat (length ft) ↔ ∀ i f, ft !! i = Some f → f_used f = true.
Proof.
  induction ft as [|f ft IH]; simpl; [done|]. pose proof (nused_range ft). split.
  - intros He [|i] f' Hi; simplify_eq/=.
    + destruct (f_used f'); [done|lia].
    + apply (proj1 IH) with i; [|done]. destruct (f_used f); lia.
  - intros Hall. rewrite (Hall 0%nat f) by done.
    rewrite (proj2 IH); [lia|]. intros i f' Hi. by apply (Hall (S i)).
Qed.

(** ** The clock *)
Definition frame_id (f : frame) : bool * bool * option nat * Z :=
  (f_used f, f_user f, f_proc f, f_va f).
Definition same_frames (ft ft' : list frame) : Prop := frame_id <$> ft' = frame_id <$> ft.
Definition evictable (ft : list frame) (i : nat) : Prop :=
  ∃ f, ft !! i = Some f ∧ f_used f = true ∧ f_user f = true.

Lemma same_frames_lookup ft ft' i f' :
  same_frames ft ft' → ft' !! i = Some f' → ∃ f, ft !! i = Some f ∧ frame_id f' = frame_id f.
Proof.
  intros Hs Hi. apply (f_equal (.!! i)) in Hs. rewrite !list_lookup_fmap, Hi in Hs.
  simpl in Hs. symmetry in Hs. by apply fmap_Some in Hs.
Qed.

Lemma same_frames_sym ft ft' : same_frames ft ft' → same_frames ft' ft.
Proof. by unfold same_frames. Qed.

Lemma same_frames_alter ft i g :
  (∀ f, frame_id (g f) = frame_id f) → same_frames ft (alter g i ft).
Proof.
  intros Hg. apply list_eq. intros j. rewrite !list_lookup_fmap.
  destruct (decide (j = i)) as [->|]; [rewrite list_lookup_alter_eq|by rewrite list_lookup_alter_ne].
  destruct (ft !! i); simpl; by rewrite ?Hg.
Qed.

Lemma same_frames_evictable ft ft' i : same_frames ft ft' → evictable ft' i → evictable ft i.
Proof.
  intros Hs (f' & Hf' & Hu & Hu'). destruct (same_frames_lookup _ _ _ _ Hs Hf') as (f & Hf & [= ? ? ? ?]).
  exists f. split_and!; congruence.
Qed.

Lemma same_frames_nused ft ft' : same_frames ft ft' → nused ft' = nused ft.
Proof.
  intros Hs. apply nused_ext. apply (f_equal (fmap (λ x, x.1.1.1))) in Hs.
  by rewrite <- !list_fmap_compose in Hs.
Qed.

Lemma same_frames_ok s ft ft' :
  same_frames ft ft' → (∀ i f, ft !! i = Some f → frame_ok s f) →
  ∀ i f, ft' !! i = Some f → frame_ok s f.
Proof.
  intros Hs Hok i f' Hf'. destruct (same_frames_lookup _ _ _ _ Hs Hf') as (f & Hf & [= H1' H2' H3' H4']).
  unfold frame_ok. rewrite H1', H2', H3', H4'. by apply (Hok i).
Qed.

Lemma get_frame_ok s i f : frame_table s !! i = Some f → get_frame i s = Ok (f, s).
Proof. intros Hf. unfold get_frame. rewrite (bind_ok _ _ _ (frame_table s) s) by done. by rewrite Hf. Qed.

Lemma get_proc_ok s p x : procs s !! p = Some x → get_proc p s = Ok (x, s).
Proof. intros Hx. unfold get_proc. rewrite (bind_ok _ _ _ (procs s) s) by done. by rewrite Hx. Qed.

Lemma owner_level_ok s f :
  frame_ok s f → f_used f = true →
  ∃ p x, f_proc f = Some p ∧ procs s !! p = Some x ∧ owner_level (f_proc f) s = Ok (p_level x, s).
Proof.
  intros Hok Hu. destruct (Hok Hu) as (_ & _ & p & Hp & x & Hx). exists p, x. split_and!; [done..|].
  rewrite Hp. simpl. by rewrite (bind_ok _ _ _ _ _ (get_proc_ok s p x Hx)).
Qed.

(** A scan moves the hand and clears reference bits, nothing else. *)
Lemma clock_scan_ok n best bl s :
  length (frame_table s) = MAX_FRAMES → 0 ≤ clock_hand s < Z.of_nat MAX_FRAMES →
  (∀ i f, frame_table s !! i = Some f → frame_ok s f) →
  (∀ i, best = Some i → evictable (frame_table s) i) →
  ∃ o h ft, clock_scan n best bl s = Ok (o, with_clock_hand h (with_frame_table ft s)) ∧
    0 ≤ h < Z.of_nat MAX_FRAMES ∧ same_frames (frame_table s) ft ∧
    (∀ i, o = Some i → evictable (frame_table s) i).
Proof.
  revert best bl s. induction n as [|n IH]; intros best bl s Hlen Hh Hok Hbest.
  { exists best, (clock_hand s), (frame_table s). split_and!; [by destruct s|lia|lia|done|done]. }
  cbn [clock_scan]. rewrite (bind_ok _ _ _ (clock_hand s) s) by done.
  destruct (lookup_lt_is_Some_2 (frame_table s) (Z.to_nat (clock_hand s))) as [f Hf]; [lia|].
  rewrite (bind_ok _ _ _ _ _ (get_frame_ok s _ f Hf)).
  set (h1 := (clock_hand s + 1) mod Z.of_nat MAX_FRAMES).
  rewrite (bind_ok _ _ _ tt (with_clock_hand h1 s)) by done.
  assert (0 ≤ h1 < Z.of_nat MAX_FRAMES) as Hh1 by (apply Z.mod_pos_bound; done).
  destruct (negb (f_used f) || negb (f_user f)) eqn:Huse.
  { destruct (IH best bl (with_clock_hand h1 s)) as (o & h & ft & E & ?); [done..|].
    exists o, h, ft. rewrite E. done. }
  apply orb_false_iff in Huse as [Hu%negb_false_iff Hu'%negb_false_iff].
  destruct (f_ref f).
  - set (g := λ f, mkFrame (f_used f) (f_user f) (f_proc f) (f_va f) false).
    rewrite (bind_ok _ _ _ tt (with_frame_table (alter g (Z.to_nat (clock_hand s)) (frame_table s))
      (with_clock_hand h1 s))) by done.
    assert (same_frames (frame_table s) (alter g (Z.to_nat (clock_hand s)) (frame_table s))) as Hsf
      by by apply same_frames_alter.
    destruct (IH best bl (with_frame_table (alter g (Z.to_nat (clock_hand s)) (frame_table s))
      (with_clock_hand h1 s))) as (o & h & ft & E & Hh' & Hsf' & Ho).
    + simpl. by rewrite length_alter.
    + done.
    + simpl. intros i f' Hf'. by apply (same_frames_ok s _ _ Hsf Hok i).
    + simpl. intros i Hi. eapply same_frames_evictable; [by apply same_frames_sym|eauto].
    + exists o, h, ft. rewrite E. split_and!; [done|lia..| |].
      * unfold same_frames in *. simpl in Hsf'. congruence.
      * intros i Hi. eapply same_frames_evictable; [done|]. by apply Ho.
  - destruct (owner_level_ok (with_clock_hand h1 s) f) as (p & x & Hp & Hx & El); [by apply (Hok _ f Hf)|done|].
    rewrite (bind_ok _ _ _ _ _ El).
    assert (evictable (frame_table s) (Z.to_nat (clock_hand s))) as Hev by (by exists f).
    destruct (if decide (bl < p_level x) then _ else _) as [best' bl'] eqn:Hb.
    assert (∀ i, best' = Some i → evictable (frame_table s) i) as Hbest'.
    { intros i ->. case_decide; simplify_eq; auto. }
    destruct (decide (bl' = 3)).
    + exists best', h1, (frame_table s). split_and!; [reflexivity|lia|lia|done|done].
    + destruct (IH best' bl' (with_clock_hand h1 s)) as (o & h & ft & E & ?); [done..|].
      exists o, h, ft. rewrite E. done.
Qed.

Lemma select_victim_ok s :
  length (frame_table s) = MAX_FRAMES → 0 ≤ clock_hand s < Z.of_nat MAX_FRAMES →
  (∀ i f, frame_table s !! i = Some f → frame_ok s f) →
  ∃ o h ft, select_victim_frame s = Ok (o, with_clock_hand h (with_frame_table ft s)) ∧
    0 ≤ h < Z.of_nat MAX_FRAMES ∧ same_frames (frame_table s) ft ∧
    match o with
    | Some i => evictable ft i
    | None => ∀ i, ¬ evictable ft i
    end.
Proof.
  intros Hlen Hh Hok. unfold select_victim_frame.
  destruct (clock_scan_ok (MAX_FRAMES * 2) None (-1) s) as (o & h & ft & E & Hh' & Hsf & Ho); [done..|].
  rewrite (bind_ok _ _ _ _ _ E). destruct o as [i|].
  - exists (Some i), h, ft. split_and!; [done|lia..|done|].
    eapply same_frames_evictable; [by apply same_frames_sym|auto].
  - rewrite (bind_ok _ _ _ ft (with_clock_hand h (with_frame_table ft s))) by done.
    eexists _, h, ft. split_and!; [reflexivity|lia..|done|].
    destruct (list_find _ ft) as [[i f]|] eqn:Ef; simpl.
    + apply list_find_Some in Ef as (? & ? & _). by exists f.
    + apply list_find_None in Ef. intros i (f & Hf & Hu). rewrite Forall_lookup in Ef. by apply (Ef i f).
Qed.

(** ** The swap map *)
Definition unique_entries (sm : list swap_entry) : Prop :=
  ∀ i j e e' p va, sm !! i = Some e → sm !! j = Some e' → is_entry p va e → is_entry p va e' → i = j.

Lemma swap_find_Some s p va i e :
  unique_entries (swap_map s) → swap_map s !! i = Some e → is_entry p va e → swap_find s p va = Some e.
Proof.
  intros Hu Hi He. unfold swap_find. destruct (list_find _ _) as [[j e']|] eqn:Hf; simpl.
  - apply list_find_Some in Hf as (Hj & He' & _).
    assert (j = i) as -> by (by eapply Hu). congruence.
  - apply list_find_None in Hf. rewrite Forall_lookup in Hf. by destruct (Hf i e Hi).
Qed.

Lemma swap_find_inv s p va e :
  swap_find s p va = Some e → ∃ i, swap_map s !! i = Some e ∧ is_entry p va e.
Proof.
  unfold swap_find. intros ([i e'] & Hf & ->)%fmap_Some. apply list_find_Some in Hf as (? & ? & _). eauto.
Qed.

Lemma swap_find_None s p va :
  (∀ i e, swap_map s !! i = Some e → ¬ is_entry p va e) → swap_find s p va = None.
Proof.
  intros Hno. destruct (swap_find s p va) as [e|] eqn:E; [|done].
  apply swap_find_inv in E as (i & Hi & He). by destruct (Hno i e).
Qed.

Lemma swapped_same s s' p va :
  unique_entries (swap_map s) → unique_entries (swap_map s') →
  (∀ i e, is_entry p va e → swap_map s' !! i = Some e ↔ swap_map s !! i = Some e) →
  (∀ i e, swap_map s !! i = Some e → is_entry p va e →
     dev_page (swapdev s') (s_slot e) = dev_page (swapdev s) (s_slot e)) →
  swapped_page s' p va = swapped_page s p va.
Proof.
  intros Hu Hu' Hiff Hdev. unfold swapped_page. destruct (swap_find s p va) as [e|] eqn:E.
  - apply swap_find_inv in E as (i & Hi & He). rewrite (swap_find_Some s' p va i e); [|done|by apply Hiff|done].
    by eapply Hdev.
  - rewrite swap_find_None; [done|]. intros i e Hi He.
    apply Hiff in Hi; [|done]. by rewrite (swap_find_Some s p va i e) in E.
Qed.

(** ** Steps on the frame table alone *)
Lemma vinv_frames s own ft cnt h :
  vinv s own → length ft = MAX_FRAMES → (∀ i f, ft !! i = Some f → frame_ok s f) →
  cnt = nused ft → 0 ≤ h < Z.of_nat MAX_FRAMES →
  vinv (with_clock_hand h (with_user_frame_count cnt (with_frame_table ft s))) own.
Proof. intros [] Hlen Hok -> Hh. by split. Qed.

Lemma frame_ok_alter s (ft : list frame) i g :
  (∀ i f, ft !! i = Some f → frame_ok s f) → (∀ f, ft !! i = Some f → frame_ok s (g f)) →
  ∀ j f, alter g i ft !! j = Some f → frame_ok s f.
Proof.
  intros Hok Hg j f. destruct (decide (j = i)) as [->|].
  - rewrite list_lookup_alter_eq. intros (f' & Hf' & ->)%fmap_Some. by apply Hg.
  - rewrite list_lookup_alter_ne by done. apply Hok.
Qed.

Lemma reserve_swap_ok s :
  (∃ k, swap_used s !! k = Some false ∧
     reserve_swap_slot s = Ok (Some k, with_swap_used (<[k := true]> (swap_used s)) s)) ∨
  ((∀ k b, swap_used s !! k = Some b → b = true) ∧ reserve_swap_slot s = Ok (None, s)).
Proof.
  unfold reserve_swap_slot. rewrite (bind_ok _ _ _ (swap_used s) s) by done.
  destruct (list_find (λ b, b = false) (swap_used s)) as [[k b]|] eqn:E.
  - left. apply list_find_Some in E as (Hk & -> & _). by exists k.
  - right. split; [|done]. apply list_find_None in E. rewrite Forall_lookup in E.
    intros k b Hk. destruct b; [done|]. by destruct (E k false Hk).
Qed.

(** ** Eviction

    What eviction and allocation do to the rest of the system: no process
    sees a difference, pages only leave memory, swap entries stay. *)
(** The trapframes stay where they are, with their contents. *)
Definition pinned s (own : owners) s' (own' : owners) : Prop :=
  ∀ a p, own a = RPin p → own' a = RPin p ∧ rdbytes (mem s') a PGSIZE = rdbytes (mem s) a PGSIZE.

Lemma pinned_refl s own : pinned s own s own.
Proof. by intros a p Ha. Qed.

Lemma pinned_trans s1 o1 s2 o2 s3 o3 : pinned s1 o1 s2 o2 → pinned s2 o2 s3 o3 → pinned s1 o1 s3 o3.
Proof. intros P1 P2 a p Ha. destruct (P1 a p Ha) as [Ha2 <-]. by apply P2. Qed.

(** A page that is no trapframe changes its role or its contents. *)
Lemma pinned_page s own s' own' a :
  sane own → own a ≠ RNone → (∀ p, own a ≠ RPin p) → only_page a (mem s) (mem s') →
  (∀ b, b ≠ a → own' b = own b) → pinned s own s' own'.
Proof.
  intros Hs Hn Ha Ho Hoth b p Hb. assert (b ≠ a) as Hba by (intros ->; by destruct (Ha p)).
  rewrite Hoth by done. split; [done|]. apply (only_page_bytes a b); [done|by apply Hs| |done].
  apply Hs. by rewrite Hb.
Qed.

Lemma pinned_grow s own s' own' : grow (mem s) own (mem s') own' → pinned s own s' own'.
Proof.
  intros Hg a p Ha. rewrite (grow_kept _ _ _ _ Hg), (grow_data _ _ _ _ Hg); by rewrite Ha.
Qed.

(** No page becomes a trapframe or the root of a tree. *)
Definition settled (own own' : owners) : Prop :=
  (∀ a p, own' a = RPin p → own a = RPin p) ∧ (∀ r, own' r = RTab r 2 0 → own r = RTab r 2 0).

Lemma settled_trans o1 o2 o3 : settled o1 o2 → settled o2 o3 → settled o1 o3.
Proof. intros [P1 T1] [P2 T2]. split; eauto. Qed.

Lemma settled_page own own' a :
  (∀ p, own' a ≠ RPin p) → (∀ r pre, own' a ≠ RTab r 2 pre) → (∀ b, b ≠ a → own' b = own b) → settled own own'.
Proof.
  intros Hp Ht Hoth. split.
  - intros b p Hb. destruct (decide (b = a)) as [->|Hba]; [by destruct (Hp p)|by rewrite <- Hoth].
  - intros r Hr. destruct (decide (r = a)) as [->|Hra]; [by destruct (Ht a 0)|by rewrite <- Hoth].
Qed.

Lemma settled_grow m own m' own' : grow m own m' own' → settled own own'.
Proof.
  intros Hg. assert (∀ a r, own' a = r → (∀ root l pre, r = RTab root l pre → (l < 2)%nat → False) → r ≠ RFree → own a = r) as Hb.
  { intros a r Ha Hn Hf. destruct (decide (own a = RFree)) as [He|He]; [|by rewrite <- (grow_kept _ _ _ _ Hg a He)].
    destruct (grow_free _ _ _ _ Hg a He) as [?|(root & l & pre & Ht & Hl)]; [congruence|].
    destruct (Hn root l pre); congruence. }
  split; intros; apply Hb; try done. intros root l pre [= <- <- <-]. lia.
Qed.

(** Entries of the swap map appear only for pages that were resident. *)
Definition from_memory s (own : owners) s' : Prop :=
  ∀ i e, swap_map s' !! i = Some e → s_used e = true → swap_map s !! i = Some e ∨
    ∃ p root a, s_proc e = Some p ∧ live s p root ∧ own a = RPage root (s_va e).

Lemma from_memory_trans s1 o1 s2 o2 s3 :
  same_procs s1 s2 → (∀ a root va, o2 a = RPage root va → o1 a = RPage root va) →
  from_memory s1 o1 s2 → from_memory s2 o2 s3 → from_memory s1 o1 s3.
Proof.
  intros P1 S1 N1 N2 i e Hi Hu. destruct (N2 i e Hi Hu) as [?|(p & root & a & ? & Hl & ?)]; [auto|].
  right. exists p, root, a. split_and!; [done|by apply (live_same s1 s2)|auto].
Qed.

Record paged s (own : owners) s' (own' : owners) : Prop := {
  pg_views : same_views s s';
  pg_procs : same_procs s s';
  pg_sub : ∀ a root va, own' a = RPage root va → own a = RPage root va;
  pg_entries : ∀ i e, swap_map s !! i = Some e → s_used e = true → swap_map s' !! i = Some e;
  pg_new : from_memory s own s';
  pg_cur : cur s' = cur s;
  pg_pin : pinned s own s' own';
  pg_settled : settled own own';
}.

Lemma paged_refl s own : paged s own s own.
Proof. split; [apply same_views_refl|done..|by left|done|apply pinned_refl|done]. Qed.

Lemma paged_trans s1 o1 s2 o2 s3 o3 : paged s1 o1 s2 o2 → paged s2 o2 s3 o3 → paged s1 o1 s3 o3.
Proof.
  intros [V1 P1 S1 E1 N1 C1 K1 T1] [V2 P2 S2 E2 N2 C2 K2 T2]. split.
  - by eapply same_views_trans.
  - unfold same_procs in *. congruence.
  - eauto.
  - eauto.
  - by eapply from_memory_trans.
  - congruence.
  - by eapply pinned_trans.
  - by eapply settled_trans.
Qed.

Lemma paged_frames s own s' :
  mem s' = mem s → procs s' = procs s → swap_map s' = swap_map s → swapdev s' = swapdev s →
  cur s' = cur s → paged s own s' own.
Proof.
  intros Hm Hp Hsm Hd Hc.
  split; [|by unfold same_procs; rewrite Hp|done|by rewrite Hsm|unfold from_memory; rewrite Hsm; by left|done|by intros a p; rewrite Hm|done].
  intros p root va _ _. unfold user_page, swapped_page, swap_find. by rewrite Hm, Hp, Hsm, Hd.
Qed.

(** The victim turned out not to be resident: slot and frame are released. *)
Lemma drop_victim_ok s own ft h victim slot f :
  vinv s own → same_frames (frame_table s) ft → 0 ≤ h < Z.of_nat MAX_FRAMES →
  ft !! victim = Some f → f_used f = true → swap_used s !! slot = Some false →
  let g := λ f, mkFrame (f_used f) false None 0 false in
  ∃ s', drop_victim victim slot (with_swap_used (<[slot := true]> (swap_used s))
          (with_frame_table (alter g victim ft) (with_clock_hand h s))) = Ok (tt, s') ∧
    vinv s' own ∧ paged s own s' own ∧ nused (frame_table s') = nused (frame_table s) - 1.
Proof.
  intros Hv Hsf Hh Hf Hu Hslot g. pose proof (same_frames_nused _ _ Hsf) as Hn.
  pose proof (nused_pos ft victim f Hf Hu) as Hpos.
  set (ft' := alter (λ _, frame0) victim ft).
  assert (nused ft' = nused (frame_table s) - 1) as Hnused.
  { unfold ft'. rewrite (nused_alter f) by done. simpl. rewrite Hu. lia. }
  exists (with_clock_hand h (with_user_frame_count (user_frame_count s - 1) (with_frame_table ft' s))).
  split_and!; [| |by apply paged_frames|done].
  - unfold drop_victim, set_swap_used, upd_frame, dec_count. do 2 erewrite bind_ok by (by unfold modify).
    unfold modify. simpl. rewrite alter_alter. rewrite (vi_count _ _ Hv). rewrite decide_True by lia.
    rewrite list_insert_insert_eq, list_insert_id by done. by rewrite <- (vi_count _ _ Hv).
  - apply vinv_frames; [done| | |rewrite Hnused, (vi_count _ _ Hv); lia|done].
    + unfold ft'. rewrite length_alter. rewrite <- (vi_flen _ _ Hv).
      apply (f_equal length) in Hsf. by rewrite !length_fmap in Hsf.
    + apply frame_ok_alter; [|by intros ? _ ?]. by eapply same_frames_ok, (vi_frames _ _ Hv).
Qed.

Lemma same_procs_alter (l : list proc) p g :
  (∀ x, core (g x) = core x) → core <$> alter g p l = core <$> l.
Proof.
  intros Hg. apply list_eq. intros j. rewrite !list_lookup_fmap.
  destruct (decide (j = p)) as [->|]; [rewrite list_lookup_alter_eq|by rewrite list_lookup_alter_ne].
  destruct (l !! p); simpl; by rewrite ?Hg.
Qed.

(** A page that is not (or no longer) resident gets a swap entry at a free
    slot: the new state is consistent, the page reads as the slot, every
    other page as before. *)
Lemma entry_add_ok s own s' own' p root va slot d :
  vinv s own → live s p root → va_ok va → swap_used s !! slot = Some false →
  (∀ i e, swap_map s !! i = Some e → ¬ is_entry p va e) →
  tree_inv (mem s') (freelist s') own' →
  (∀ r, own r = RTab r 2 0 → own' r = RTab r 2 0) →
  (∀ a r v, own' a = RPage r v ↔ own a = RPage r v ∧ ¬ (r = root ∧ v = va)) →
  (∀ a r v, own' a = RPage r v → rdbytes (mem s') a PGSIZE = rdbytes (mem s) a PGSIZE) →
  same_procs s s' →
  length (frame_table s') = MAX_FRAMES → (∀ i f, frame_table s' !! i = Some f → frame_ok s f) →
  user_frame_count s' = nused (frame_table s') → 0 ≤ clock_hand s' < Z.of_nat MAX_FRAMES →
  swap_map s' = <[slot := mkSwap true (Some p) va (Z.of_nat slot)]> (swap_map s) →
  swap_used s' = <[slot := true]> (swap_used s) →
  dev_inv (swapdev s') →
  (∀ j, 0 ≤ j < dev_slots → dev_page (swapdev s') j =
     if decide (j = Z.of_nat slot) then d else dev_page (swapdev s) j) →
  vinv s' own' ∧ user_page s' p va = d ∧
  (∀ q r v, live s q r → va_ok v → ¬ (q = p ∧ v = va) → user_page s' q v = user_page s q v).
Proof.
  intros Hv Hl Hva Hfree Hnop Ht Hroots Hpg Hdata Hps Hflen Hfok Hcnt Hh Hsm Hsu Hdi Hdp.
  pose proof (vi_tree _ _ Hv) as Ht0. set (new := mkSwap true (Some p) va (Z.of_nat slot)) in *.
  assert (∃ e0, swap_map s !! slot = Some e0 ∧ s_used e0 = false) as (e0 & He0 & Hu0).
  { rewrite (vi_used _ _ Hv), list_lookup_fmap in Hfree. by apply fmap_Some in Hfree as (e0 & ? & ?); eauto. }
  assert (slot < length (swap_map s))%nat as Hslot by (by eapply lookup_lt_Some).
  assert (∀ i e, swap_map s' !! i = Some e → (i = slot ∧ e = new) ∨ (i ≠ slot ∧ swap_map s !! i = Some e)) as Hlk.
  { intros i e Hi. rewrite Hsm in Hi. destruct (decide (i = slot)) as [->|Hne].
    - rewrite list_lookup_insert_eq in Hi by done. left. split; congruence.
    - rewrite list_lookup_insert_ne in Hi by done. by right. }
  assert (∀ i e q v, swap_map s !! i = Some e → is_entry q v e → i ≠ slot) as Hns.
  { intros i e q v Hi (Hu & _) ->. congruence. }
  assert (unique_entries (swap_map s')) as Huniq.
  { intros i j e e' q v [[-> ->]|[Hi Hie]]%Hlk [[-> ->]|[Hj Hje]]%Hlk Hen Hen'; [done| | |].
    - destruct Hen as (_ & [= <-] & <-). by destruct (Hnop j e').
    - destruct Hen' as (_ & [= <-] & <-). by destruct (Hnop i e).
    - by eapply (vi_suniq _ _ Hv). }
  assert (∀ a, own' a ≠ RPage root va) as Hgone by (intros a [_ Ha]%Hpg; by destruct Ha).
  assert (∀ q r, live s q r → r = root → q = p) as Hsame by (intros q r Hq ->; by eapply (vi_roots _ _ Hv)).
  split; [split|split].
  - done.
  - intros q r Hq. apply Hroots, (vi_live _ _ Hv q). by apply (live_same s s').
  - intros q1 q2 r Hq1 Hq2. eapply (vi_roots _ _ Hv _ _ r); by apply (live_same s s').
  - done.
  - intros i f Hf Hu. destruct (Hfok i f Hf Hu) as (? & ? & q & ? & Hq). split_and!; [done..|].
    exists q. split; [done|]. by apply (proc_same s s').
  - done.
  - done.
  - rewrite Hsm, length_insert. apply Hv.
  - rewrite Hsu, Hsm, list_fmap_insert. f_equal. apply Hv.
  - intros i e [[-> ->]|[Hi Hie]]%Hlk Hu.
    + split_and!; [done|done|]. exists p, root. split_and!; [done|by apply (live_same s s')|done].
    + destruct (vi_swap _ _ Hv i e Hie Hu) as (? & ? & q & r & Hq & Hlq & Hno). split_and!; [done..|].
      exists q, r. split_and!; [done|by apply (live_same s s')|]. intros a [Ha _]%Hpg. by apply (Hno a).
  - exact Huniq.
  - done.
  - apply Hv.
  - rewrite (user_page_swp s' own' p root va); [|done|by apply Hroots, (vi_live _ _ Hv p)|by apply (live_same s s')|done..].
    unfold swapped_page. rewrite (swap_find_Some s' p va slot new); [|done| |done].
    + simpl. rewrite Hdp, decide_True; [done|done|]. pose proof (vi_slots _ _ Hv).
      rewrite (vi_slen _ _ Hv) in Hslot. lia.
    + rewrite Hsm. by apply list_lookup_insert_eq.
  - intros q r v Hq Hvv Hne. pose proof (vi_live _ _ Hv q r Hq) as Hr.
    pose proof (proj1 (live_same s s' q r Hps) Hq) as Hq'.
    assert (¬ (r = root ∧ v = va)) as Hne' by (intros [-> ->]; destruct Hne; eauto).
    destruct (resident_dec _ _ _ r v Ht0 Hr Hvv) as [[a Ha]|Hno].
    + assert (own' a = RPage r v) as Ha' by by apply Hpg.
      rewrite (user_page_res s own q r v a) by done.
      rewrite (user_page_res s' own' q r v a); [by eapply Hdata|done|by apply Hroots|done..].
    + rewrite (user_page_swp s own q r v) by done.
      rewrite (user_page_swp s' own' q r v); [|done|by apply Hroots|done..|].
      2:{ intros a [Ha _]%Hpg. by apply (Hno a). }
      apply swapped_same; [exact (vi_suniq _ _ Hv)|done| |].
      * intros i e He. split.
        -- intros [[-> ->]|[_ ?]]%Hlk; [|done]. destruct He as (_ & [= <-] & <-). by destruct Hne.
        -- intros Hi. rewrite Hsm. rewrite list_lookup_insert_ne; [done|].
           intros <-. by eapply Hns.
      * intros i e Hi He. pose proof (Hns _ _ _ _ Hi He). destruct He as (Hu & _).
        destruct (vi_swap _ _ Hv i e Hi Hu) as (Hsl & _). apply lookup_lt_Some in Hi.
        rewrite (vi_slen _ _ Hv) in Hi. pose proof (vi_slots _ _ Hv).
        rewrite Hdp by lia. rewrite decide_False; [done|lia].
Qed.

(** A resident page has no swap entry. *)
Lemma resident_no_entry s own p root va c :
  vinv s own → live s p root → own c = RPage root va →
  ∀ i e, swap_map s !! i = Some e → ¬ is_entry p va e.
Proof.
  intros Hv (x & Hx & Hr & _) Hc i e Hi (Hu & Hp & Hva).
  destruct (vi_swap _ _ Hv i e Hi Hu) as (_ & _ & q & r & Hq & (x' & Hx' & Hr' & _) & Hno).
  assert (q = p) as -> by congruence. assert (r = root) as -> by congruence.
  apply (Hno c). by rewrite Hva.
Qed.

(** A page moves from memory to a free slot: no process sees a difference. *)
Lemma page_out_ok s own s' own' p root va c slot :
  vinv s own → live s p root → va_ok va → own c = RPage root va →
  swap_used s !! slot = Some false →
  tree_inv (mem s') (freelist s') own' →
  own' c = RFree → (∀ a, a ≠ c → own' a = own a) →
  (∀ a, a ≠ c → data (own a) → rdbytes (mem s') a PGSIZE = rdbytes (mem s) a PGSIZE) →
  same_procs s s' → cur s' = cur s →
  length (frame_table s') = MAX_FRAMES → (∀ i f, frame_table s' !! i = Some f → frame_ok s f) →
  user_frame_count s' = nused (frame_table s') → 0 ≤ clock_hand s' < Z.of_nat MAX_FRAMES →
  swap_map s' = <[slot := mkSwap true (Some p) va (Z.of_nat slot)]> (swap_map s) →
  swap_used s' = <[slot := true]> (swap_used s) →
  dev_inv (swapdev s') →
  (∀ j, 0 ≤ j < dev_slots → dev_page (swapdev s') j =
     if decide (j = Z.of_nat slot) then rdbytes (mem s) c PGSIZE else dev_page (swapdev s) j) →
  vinv s' own' ∧ paged s own s' own'.
Proof.
  intros Hv Hl Hva Hc Hfree Ht Hc' Hoth Hdata Hps Hcur Hflen Hfok Hcnt Hh Hsm Hsu Hdi Hdp.
  pose proof (vi_tree _ _ Hv) as Ht0.
  assert (∀ a r v, own' a = RPage r v ↔ own a = RPage r v ∧ ¬ (r = root ∧ v = va)) as Hpg.
  { intros a r v. destruct (decide (a = c)) as [->|Hac].
    - rewrite Hc', Hc. split; [done|]. intros [[= <- <-] Hn]. by destruct Hn.
    - rewrite Hoth by done. split; [|by intros [? _]]. intros Ha. split; [done|]. intros [-> ->].
      destruct Hac. by eapply page_unique; [apply Ht0|..]. }
  destruct (entry_add_ok s own s' own' p root va slot (rdbytes (mem s) c PGSIZE)) as (Hv' & Hnew & Hother); try done.
  - by eapply resident_no_entry.
  - intros r Hr. rewrite Hoth; [done|]. intros ->. congruence.
  - intros a r v Ha. assert (a ≠ c) as Hac by (intros ->; congruence).
    apply Hdata; [done|]. apply Hpg in Ha as [-> _]. done.
  - split; [done|]. split; try done.
    + intros q r v Hq Hvv. destruct (decide (q = p ∧ v = va)) as [[-> ->]|Hne]; [|by eapply Hother].
      rewrite Hnew. symmetry. apply (user_page_res s own p root va c); [done|by apply (vi_live _ _ Hv p)|done..].
    + intros a r v Ha. by apply Hpg in Ha as [? _].
    + intros i e Hi Hu. rewrite Hsm, list_lookup_insert_ne; [done|]. intros <-.
      rewrite (vi_used _ _ Hv), list_lookup_fmap, Hi in Hfree. simpl in Hfree. congruence.
    + intros i e Hi Hu. rewrite Hsm in Hi. destruct (decide (i = slot)) as [->|Hne].
      * rewrite list_lookup_insert_eq in Hi; [simplify_eq; right; by exists p, root, c|].
        apply lookup_lt_Some in Hfree. rewrite (vi_used _ _ Hv), length_fmap in Hfree. done.
      * rewrite list_lookup_insert_ne in Hi by done. by left.
    + intros a q Ha. assert (a ≠ c) as Hac by (intros ->; congruence). rewrite Hoth by done.
      split; [done|]. apply Hdata; [done|]. by rewrite Ha.
    + apply (settled_page _ _ c); [by rewrite Hc'..|done].
Qed.

Lemma swap_out_ok s k pa :
  dev_inv (swapdev s) → 0 ≤ k < dev_slots → page_addr pa →
  ∃ d, swap_out k pa s = Ok (0, with_swapdev d s) ∧ dev_inv d ∧
    ∀ j, 0 ≤ j < dev_slots → dev_page d j =
      if decide (j = k) then rdbytes (mem s) pa PGSIZE else dev_page (swapdev s) j.
Proof.
  intros Hd Hk Hpa. destruct (dev_write_ok (swapdev s) k (rdbytes (mem s) pa PGSIZE)) as (d & E & ? & ?);
    [done..|by rewrite length_rdbytes|].
  exists d. split_and!; [|done..]. unfold swap_out.
  rewrite (bind_ok _ _ _ (rdbytes (mem s) pa PGSIZE) s).
  - unfold lift_dev. by rewrite E.
  - unfold load_bytes. by rewrite (page_ram pa) by (done || lia).
Qed.

Lemma evict_page_ok s own ft h victim f slot p x va pte :
  vinv s own → same_frames (frame_table s) ft → 0 ≤ h < Z.of_nat MAX_FRAMES →
  ft !! victim = Some f → f_used f = true → swap_used s !! slot = Some false →
  procs s !! p = Some x → p_pagetable x ≠ 0 → va_ok va →
  leaf_at own (p_pagetable x) va pte → valid_pte (rd64 (mem s) pte) = true →
  let g := λ f, mkFrame (f_used f) false None 0 false in
  ∃ s' own' c, evict_page victim slot p va pte (with_swap_used (<[slot := true]> (swap_used s))
          (with_frame_table (alter g victim ft) (with_clock_hand h s))) = Ok (0, s') ∧
    vinv s' own' ∧ paged s own s' own' ∧ own' c = RFree ∧
    nused (frame_table s') = nused (frame_table s) - 1.
Proof.
  intros Hv Hsf Hh Hf Hu Hslot Hx Hr Hva Hleaf Hval g.
  pose proof (vi_tree _ _ Hv) as Ht. set (root := p_pagetable x) in *.
  assert (live s p root) as Hlive by (by exists x).
  destruct (leaf_page _ _ _ _ _ _ Ht Hleaf (proj1 Hva) (proj2 Hva)) as [Hram Hpage].
  rewrite Hval in Hpage. set (c := PTE2PA (rd64 (mem s) pte)) in *.
  assert (page_addr c) as Hpc by (apply (tree_sane _ _ _ Ht); by rewrite Hpage).
  destruct (unmap_leaf _ _ _ _ _ _ c Ht Hleaf (proj2 Hva) Hval eq_refl Hpage) as [Ht1 Hd1].
  set (m1 := wr64 (mem s) pte 0) in *. set (own1 := give c RKern own) in *.
  set (s1 := with_swap_used _ _).
  assert (slot < MAX_SWAP)%nat as Hsl.
  { apply lookup_lt_Some in Hslot. by rewrite (vi_used _ _ Hv), length_fmap, (vi_slen _ _ Hv) in Hslot. }
  destruct (swap_out_ok (with_mem m1 s1) (Z.of_nat slot) c) as (dv & Eo & Hdi & Hdp);
    [apply Hv|pose proof (vi_slots _ _ Hv); lia|done|].
  set (ft' := alter (λ f, mkFrame false (f_user f) (f_proc f) (f_va f) (f_ref f)) victim (alter g victim ft)).
  assert (nused ft' = nused (frame_table s) - 1) as Hnused.
  { unfold ft'. rewrite alter_alter, (nused_alter f) by done. simpl. rewrite Hu.
    rewrite (same_frames_nused _ _ Hsf). lia. }
  set (upd := λ x : proc, set_p_pages_swapped_out (i32 (p_pages_swapped_out x + 1)) x).
  set (upd' := λ x : proc, if decide (0 < p_resident_pages x)
                     then set_p_resident_pages (p_resident_pages x - 1) x else x).
  set (upd'' := λ x : proc, set_p_pages_evicted (i32 (p_pages_evicted x + 1)) x).
  set (ps := alter upd p (alter upd' p (alter upd'' p (procs s)))).
  set (s2 := with_procs ps (with_user_frame_count (user_frame_count s - 1) (with_frame_table ft'
    (with_swap_map (<[slot := mkSwap true (Some p) va (Z.of_nat slot)]> (swap_map s))
      (with_swapdev dv (with_mem m1 s1)))))).
  destruct (kfree_tree s2 own1 c) as (m2 & Ef & Ho2 & Ht2); [done|apply give_eq|].
  exists (with_mem m2 (with_freelist c s2)), (give c RFree own1), c.
  assert (evict_page victim slot p va pte s1 = Ok (0, with_mem m2 (with_freelist c s2))) as E.
  { unfold evict_page. rewrite (bind_ok _ _ _ (rd64 (mem s) pte) (with_mem m1 s1)).
    2:{ unfold evict_unmap. erewrite bind_ok by (by apply load64_ok).
        by erewrite bind_ok by (by apply store64_ok). }
    unfold evict_write. fold c.
    rewrite (bind_ok _ _ _ _ _ Eo). rewrite decide_False by lia.
    assert (0 < user_frame_count s) as Hpos.
    { rewrite (vi_count _ _ Hv), <- (same_frames_nused _ _ Hsf). by eapply nused_pos. }
    erewrite bind_ok.
    2:{ unfold commit_evict. do 2 erewrite bind_ok by (by unfold upd_swap, upd_frame, modify).
        unfold dec_count, modify. simpl. rewrite decide_True by lia. reflexivity. }
    do 3 erewrite bind_ok by (by unfold upd_proc, modify).
    erewrite bind_ok by exact Ef. done. }
  split; [exact E|].
  destruct (page_out_ok s own (with_mem m2 (with_freelist c s2)) (give c RFree own1) p root va c slot)
    as [Hv' Hpg]; try done.
  - apply give_eq.
  - intros a Ha. unfold own1. by rewrite !give_ne.
  - intros a Ha Hd. simpl. rewrite (only_page_bytes c a m1 m2); [by apply Hd1|done|done| |done].
    apply (tree_sane _ _ _ Ht). intros Hn. by rewrite Hn in Hd.
  - unfold same_procs. simpl. unfold ps. rewrite !same_procs_alter; try done.
    intros y. unfold upd'. by case_decide.
  - simpl. unfold ft'. rewrite !length_alter, <- (vi_flen _ _ Hv).
    apply (f_equal length) in Hsf. by rewrite !length_fmap in Hsf.
  - simpl. unfold ft'. rewrite alter_alter. apply frame_ok_alter; [|by intros ? _ ?].
    by eapply same_frames_ok, (vi_frames _ _ Hv).
  - simpl. rewrite Hnused, (vi_count _ _ Hv). done.
  - simpl. intros j Hj. rewrite Hdp by done. case_decide; [|done]. apply Hd1. by rewrite Hpage.
  - split_and!; [done..|apply give_eq|done].
Qed.

Definition swap_full s : Prop := ∀ k b, swap_used s !! k = Some b → b = true.

Lemma none_evictable s own ft :
  vinv s own → same_frames (frame_table s) ft → (∀ i, ¬ evictable ft i) → nused ft = 0.
Proof.
  intros Hv Hsf Hno. assert (∀ i f, ft !! i = Some f → f_used f = false) as Hall.
  { intros i f Hf. destruct (f_used f) eqn:Hu; [|done]. destruct (Hno i). exists f. split_and!; [done..|].
    by apply (same_frames_ok s _ _ Hsf (vi_frames _ _ Hv) i f Hf). }
  clear -Hall. induction ft as [|f ft IH]; [done|]. simpl. rewrite (Hall 0%nat f) by done.
  rewrite IH; [done|]. intros i f' Hf. by apply (Hall (S i)).
Qed.

(** One attempt.  It never panics or touches memory outside RAM; it evicts
    a page, or finds the frame stale and releases it, or reports that there
    is no frame to evict or no slot to evict to. *)
(** The state after the first critical section. *)
Definition selected s (ft : list frame) (h : Z) (victim slot : nat) : kernel D :=
  with_swap_used (<[slot := true]> (swap_used s))
    (with_frame_table (alter (λ f, mkFrame (f_used f) false None 0 false) victim ft) (with_clock_hand h s)).

Lemma evict_select_ok s own :
  vinv s own →
  (∃ s', evict_select s = Ok (None, s') ∧ vinv s' own ∧ paged s own s' own ∧
     (swap_full s' ∨ nused (frame_table s') = 0)) ∨
  ∃ victim f slot ft h, evict_select s = Ok (Some (victim, f, slot), selected s ft h victim slot) ∧
    same_frames (frame_table s) ft ∧ 0 ≤ h < Z.of_nat MAX_FRAMES ∧ ft !! victim = Some f ∧
    f_used f = true ∧ frame_ok s f ∧ swap_used s !! slot = Some false.
Proof.
  intros Hv. destruct (select_victim_ok s) as (o & h & ft & Es & Hh & Hsf & Ho); [apply Hv..|].
  unfold evict_select. rewrite (bind_ok _ _ _ _ _ Es).
  assert (length ft = MAX_FRAMES) as Hlen.
  { rewrite <- (vi_flen _ _ Hv). apply (f_equal length) in Hsf. by rewrite !length_fmap in Hsf. }
  assert (∀ i f, ft !! i = Some f → frame_ok s f) as Hfok by (by eapply same_frames_ok, (vi_frames _ _ Hv)).
  pose proof (same_frames_nused _ _ Hsf) as Hn.
  destruct o as [victim|].
  2:{ left. eexists. split; [reflexivity|]. split_and!.
      - change (with_clock_hand h (with_frame_table ft s)) with
          (with_clock_hand h (with_user_frame_count (user_frame_count s) (with_frame_table ft s))).
        apply vinv_frames; [done..| |done]. by rewrite (vi_count _ _ Hv).
      - by apply paged_frames.
      - right. by eapply none_evictable. }
  destruct Ho as (f & Hf & Hu & Huf).
  erewrite bind_ok by (by apply get_frame_ok). erewrite bind_ok by (by unfold upd_frame, modify).
  set (g := λ f, mkFrame (f_used f) false None 0 false). simpl.
  destruct (reserve_swap_ok (with_frame_table (alter g victim ft) (with_clock_hand h s)))
    as [(slot & Hslot & Er)|[Hfull Er]]; rewrite (bind_ok _ _ _ _ _ Er).
  { right. exists victim, f, slot, ft, h. split_and!; [done|done|lia|lia|done|done|by eapply Hfok|done]. }
  left. eexists. split.
  { erewrite bind_ok by (by unfold restore_victim_frame, upd_frame, modify). reflexivity. }
  simpl. rewrite alter_alter. split_and!; [|by apply paged_frames|left; exact Hfull].
  change (vinv (with_clock_hand h (with_user_frame_count (user_frame_count s) (with_frame_table
    (alter (λ _, mkFrame true true (f_proc f) (f_va f) true) victim ft) s))) own).
  apply vinv_frames; [done|by rewrite length_alter| | |done].
  - apply frame_ok_alter; [done|]. intros f' _ _. simpl.
    destruct (Hfok victim f Hf Hu) as (? & ? & ?). done.
  - rewrite (nused_alter f) by done. simpl. rewrite Hu, (vi_count _ _ Hv). lia.
Qed.

Lemma evict_round_ok s own :
  vinv s own →
  ∃ o s' own', evict_round s = Ok (o, s') ∧ vinv s' own' ∧ paged s own s' own' ∧
    ((o = Some 0 ∧ nused (frame_table s') = nused (frame_table s) - 1 ∧ ∃ c, own' c = RFree) ∨
     (o = Some (-1) ∧ (swap_full s' ∨ nused (frame_table s') = 0)) ∨
     (o = None ∧ nused (frame_table s') = nused (frame_table s) - 1)).
Proof.
  intros Hv. unfold evict_round.
  destruct (evict_select_ok s own Hv) as [(s' & Es & Hv' & Hpg & Hc)
    |(victim & f & slot & ft & h & Es & Hsf & Hh & Hf & Hu & Hfok & Hslot)]; rewrite (bind_ok _ _ _ _ _ Es).
  { exists (Some (-1)), s', own. split_and!; [done..|]. right. by left. }
  destruct (Hfok Hu) as (_ & Hva & p & Hp & x & Hx). rewrite Hp.
  destruct (drop_victim_ok s own ft h victim slot f) as (sd & Ed & Hvd & Hpgd & Hnd); [done..|].
  set (s1 := selected s ft h victim slot) in *.
  assert (∃ o s' own', (drop_victim victim slot ;;; ret (None : option Z)) s1 = Ok (o, s') ∧
    vinv s' own' ∧ paged s own s' own' ∧
    ((o = Some 0 ∧ nused (frame_table s') = nused (frame_table s) - 1 ∧ ∃ c, own' c = RFree) ∨
     (o = Some (-1) ∧ (swap_full s' ∨ nused (frame_table s') = 0)) ∨
     (o = None ∧ nused (frame_table s') = nused (frame_table s) - 1))) as Hstale.
  { exists None, sd, own. split_and!; [by rewrite (bind_ok _ _ _ _ _ Ed)|done..|by right; right]. }
  erewrite bind_ok by exact (get_proc_ok s1 p x Hx).
  case_decide as Hroot; [exact Hstale|].
  assert (live s p (p_pagetable x)) as Hlive by (by exists x).
  destruct (walk_ok s1 own (p_pagetable x) (f_va f) false) as (o & m' & fl' & own' & Ew & _ & _ & Ho & Hro);
    [apply Hv|by apply (vi_live _ _ Hv p)|by apply va_ok_max|].
  destruct Hro as (-> & -> & ->); [done|]. erewrite bind_ok by exact Ew.
  change (with_mem (mem s1) (with_freelist (freelist s1) s1)) with s1.
  destruct o as [pte|]; [|exact Hstale].
  destruct (leaf_page _ _ _ _ _ _ (vi_tree _ _ Hv) Ho (proj1 Hva) (proj2 Hva)) as [Hram _].
  erewrite bind_ok by (by apply load64_ok). change (mem s1) with (mem s).
  destruct (valid_pte (rd64 (mem s) pte)) eqn:Hval; [|exact Hstale].
  destruct (evict_page_ok s own ft h victim f slot p x (f_va f) pte) as (s' & own' & c & E & Hv' & Hpg & Hc & Hn');
    [done..|].
  exists (Some 0), s', own'. split_and!; [by erewrite bind_ok by exact E|done..|]. left. eauto.
Qed.

(** [evict_one_user_frame]: [MAX_FRAMES] attempts are enough, since each one
    that goes on has released a frame. *)
Lemma evict_attempts_ok n s own :
  vinv s own → nused (frame_table s) ≤ Z.of_nat n →
  ∃ r s' own', evict_attempts n s = Ok (r, s') ∧ vinv s' own' ∧ paged s own s' own' ∧
    ((r = 0 ∧ nused (frame_table s') < nused (frame_table s) ∧ ∃ c, own' c = RFree) ∨
     (r = -1 ∧ (swap_full s' ∨ nused (frame_table s') = 0))).
Proof.
  revert s own. induction n as [|n IH]; intros s own Hv Hn.
  { pose proof (nused_range (frame_table s)). exists (-1), s, own. simpl.
    split_and!; [done..|apply paged_refl|]. right. split; [done|]. right. lia. }
  simpl. destruct (evict_round_ok s own Hv) as (o & s1 & own1 & E & Hv1 & Hpg & Hcase).
  rewrite (bind_ok _ _ _ _ _ E).
  destruct Hcase as [(-> & Hn1 & Hc)|[(-> & Hfail)|(-> & Hn1)]].
  - exists 0, s1, own1. split_and!; [done..|]. left. split_and!; [done|lia|done].
  - exists (-1), s1, own1. split_and!; [done..|]. by right.
  - destruct (IH s1 own1 Hv1) as (r & s2 & own2 & E2 & Hv2 & Hpg2 & Hcase2); [lia|].
    exists r, s2, own2. split_and!; [done..|by eapply paged_trans|].
    destruct Hcase2 as [(-> & Hlt & Hc)|?]; [left; split_and!; [done|lia|done]|by right].
Qed.

Lemma evict_one_ok s own :
  vinv s own →
  ∃ r s' own', evict_one_user_frame s = Ok (r, s') ∧ vinv s' own' ∧ paged s own s' own' ∧
    ((r = 0 ∧ nused (frame_table s') < nused (frame_table s) ∧ ∃ c, own' c = RFree) ∨
     (r = -1 ∧ (swap_full s' ∨ nused (frame_table s') = 0))).
Proof.
  intros Hv. apply evict_attempts_ok; [done|]. pose proof (nused_range (frame_table s)).
  rewrite (vi_flen _ _ Hv) in *. lia.
Qed.

(** ** Allocation of a user page *)
Lemma paged_tree s own m' fl' own' :
  vinv s own → tree_inv m' fl' own' →
  (∀ p root, live s p root → own' root = RTab root 2 0) →
  (∀ a root va, own' a = RPage root va ↔ own a = RPage root va) →
  (∀ a root va, own a = RPage root va → rdbytes m' a PGSIZE = rdbytes (mem s) a PGSIZE) →
  pinned s own (with_mem m' (with_freelist fl' s)) own' → settled own own' →
  vinv (with_mem m' (with_freelist fl' s)) own' ∧
  paged s own (with_mem m' (with_freelist fl' s)) own'.
Proof.
  intros Hv Ht Htab Hpg Hdata Hpin Hset. split; [by apply (vinv_tree s own)|]. split; try done.
  - eapply same_views_keep; try done. intros p root Hl. split; [done|].
    by apply (Htab p).
  - intros a root va. by apply Hpg.
  - by left.
Qed.

(** A role that a page has outside the trees and the trapframes. *)
Definition spare (r : role) : Prop := r = RFree ∨ r = RKern.

(** A spare page becomes another spare page. *)
Lemma paged_give s own m' fl' c r :
  vinv s own → spare (own c) → spare r →
  only_page c (mem s) m' → tree_inv m' fl' (give c r own) →
  vinv (with_mem m' (with_freelist fl' s)) (give c r own) ∧
  paged s own (with_mem m' (with_freelist fl' s)) (give c r own).
Proof.
  intros Hv Hc Hr Ho Ht. pose proof (tree_sane _ _ _ (vi_tree _ _ Hv)) as Hs.
  assert (page_addr c) as Hpc by (apply Hs; destruct Hc as [-> | ->]; done).
  apply paged_tree; [done..| | | | |].
  - intros p root Hl. pose proof (vi_live _ _ Hv p root Hl). rewrite give_ne; [done|].
    intros ->. destruct Hc; congruence.
  - intros a root va. unfold give. case_decide; [subst|done].
    destruct Hr as [-> | ->]; destruct Hc as [-> | ->]; done.
  - intros a root va Ha. apply (only_page_bytes c a); [done|done|apply Hs; by rewrite Ha|].
    intros ->. destruct Hc; congruence.
  - apply (pinned_page _ _ _ _ c); [done|destruct Hc as [-> | ->]; done..|done|].
    intros b. apply give_ne.
  - apply (settled_page _ _ c); [rewrite give_eq; destruct Hr as [-> | ->]; done..|]. intros b. apply give_ne.
Qed.

(** What is left of [paged] when a tree is planted. *)
Record viewed s (own : owners) s' (own' : owners) : Prop := {
  vw_views : same_views s s';
  vw_procs : same_procs s s';
  vw_sub : ∀ a root va, own' a = RPage root va → own a = RPage root va;
  vw_cur : cur s' = cur s;
  vw_pin : pinned s own s' own';
}.

Lemma paged_viewed s own s' own' : paged s own s' own' → viewed s own s' own'.
Proof. by intros []. Qed.

Lemma viewed_trans s1 o1 s2 o2 s3 o3 : viewed s1 o1 s2 o2 → paged s2 o2 s3 o3 → viewed s1 o1 s3 o3.
Proof.
  intros [V1 P1 S1 C1 K1] [V2 P2 S2 _ _ C2 K2 _]. split.
  - by eapply same_views_trans.
  - unfold same_procs in *. congruence.
  - eauto.
  - congruence.
  - by eapply pinned_trans.
Qed.

(** A free page becomes the root of a tree. *)
Lemma viewed_root s own m' fl' c :
  vinv s own → own c = RFree → only_page c (mem s) m' → tree_inv m' fl' (give c (RTab c 2 0) own) →
  vinv (with_mem m' (with_freelist fl' s)) (give c (RTab c 2 0) own) ∧
  viewed s own (with_mem m' (with_freelist fl' s)) (give c (RTab c 2 0) own).
Proof.
  intros Hv Hc Ho Ht. pose proof (tree_sane _ _ _ (vi_tree _ _ Hv)) as Hs.
  assert (page_addr c) as Hpc by (apply Hs; by rewrite Hc).
  assert (∀ p root, live s p root → give c (RTab c 2 0) own root = RTab root 2 0) as Htab.
  { intros p root Hl. pose proof (vi_live _ _ Hv p root Hl). rewrite give_ne; [done|]. congruence. }
  assert (∀ a root va, give c (RTab c 2 0) own a = RPage root va ↔ own a = RPage root va) as Hpg.
  { intros a root va. unfold give. case_decide; [subst; by rewrite Hc|done]. }
  assert (∀ a root va, own a = RPage root va → rdbytes m' a PGSIZE = rdbytes (mem s) a PGSIZE) as Hd.
  { intros a root va Ha. apply (only_page_bytes c a); [done|done|apply Hs; by rewrite Ha|]. congruence. }
  split; [by apply (vinv_tree s own)|]. split; try done.
  - eapply same_views_keep; try done. intros p root Hl. split; [done|]. by apply (Htab p).
  - intros a root va. by apply Hpg.
  - apply (pinned_page _ _ _ _ c); [done|by rewrite Hc..|done|]. intros b. apply give_ne.
Qed.

(** The contents of a page held by the kernel change. *)
Lemma paged_write s own c m' :
  vinv s own → own c = RKern → only_page c (mem s) m' →
  vinv (with_mem m' (with_freelist (freelist s) s)) own ∧
  paged s own (with_mem m' (with_freelist (freelist s) s)) own.
Proof.
  intros Hv Hc Ho. pose proof (tree_sane _ _ _ (vi_tree _ _ Hv)) as Hs.
  assert (page_addr c) as Hpc by (apply Hs; by rewrite Hc).
  apply paged_tree; [done| |apply Hv|done| | |done].
  - eapply (tree_write _ _ _ c); [apply Hv|by rewrite Hc|done].
  - intros a root va Ha. apply (only_page_bytes c a); [done..|apply Hs; by rewrite Ha|].
    intros ->. congruence.
  - apply (pinned_page _ _ _ _ c); [done|by rewrite Hc..|done|done].
Qed.

(** Tables are added. *)
Lemma paged_grow s own m' fl' own' :
  vinv s own → tree_inv m' fl' own' → grow (mem s) own m' own' →
  vinv (with_mem m' (with_freelist fl' s)) own' ∧
  paged s own (with_mem m' (with_freelist fl' s)) own'.
Proof.
  intros Hv Ht Hg. apply paged_tree; [done..| | | |by apply pinned_grow|by eapply settled_grow].
  - intros p root Hl. eapply grow_tab; [done|]. by apply (vi_live _ _ Hv p).
  - intros a root va. by eapply grow_page.
  - intros a root va Ha. apply (grow_data _ _ _ _ Hg). by rewrite Ha.
Qed.

(** A free page becomes one held by the kernel, filled with zeros. *)
Lemma take_page_ok s own :
  vinv s own → (∃ a, own a = RFree) →
  ∃ a s', a ≠ 0 ∧ (let* r := pop_page in memset r 0 PGSIZE ;;; ret r) s = Ok (a, s') ∧
    pop_page s = Ok (a, with_freelist (freelist s') s) ∧
    memset a 0 PGSIZE (with_freelist (freelist s') s) = Ok (tt, s') ∧
    vinv s' (give a RKern own) ∧ paged s own s' (give a RKern own) ∧
    rdbytes (mem s') a PGSIZE = replicate pgsize 0 ∧
    frame_table s' = frame_table s ∧ user_frame_count s' = user_frame_count s.
Proof.
  intros Hv [b Hb]. pose proof (vi_tree _ _ Hv) as Ht.
  destruct (pop_tree s own Ht) as [(_ & Hno & _)|(fl' & Hf & Hne & E & Ht1)]; [by destruct (Hno b)|].
  set (a := freelist s) in *. assert (page_addr a) as Hpa by (apply (tree_sane _ _ _ Ht); by rewrite Hf).
  assert (memset a 0 PGSIZE (with_freelist fl' s) =
    Ok (tt, with_mem (fill (mem s) a 0 PGSIZE) (with_freelist fl' s))) as Em.
  { by rewrite memset_ok by (apply (page_ram a); [done|lia|lia]). }
  exists a, (with_mem (fill (mem s) a 0 PGSIZE) (with_freelist fl' s)).
  destruct (paged_give s own (fill (mem s) a 0 PGSIZE) fl' a RKern) as [Hv' Hpg];
    [done|by left|by right|apply only_page_fill|..].
  - eapply (tree_write _ _ _ a _ Ht1); [by rewrite give_eq|apply only_page_fill].
  - split_and!; try done.
    + rewrite (bind_ok _ _ _ _ _ E). by rewrite (bind_ok _ _ _ _ _ Em).
    + simpl. apply rdbytes_fill.
Qed.

Lemma has_free_ok s :
  has_free_frame_slot s = Ok (bool_decide (nused (frame_table s) < Z.of_nat (length (frame_table s))), s).
Proof.
  unfold has_free_frame_slot. rewrite (bind_ok _ _ _ (frame_table s) s) by done. unfold ret.
  do 2 f_equal. apply bool_decide_ext. pose proof (nused_range (frame_table s)). split.
  - intros [[i f] (Hi & Hu & _)%list_find_Some]. destruct (decide (nused (frame_table s) = Z.of_nat (length (frame_table s)))) as [He|]; [|lia].
    rewrite nused_full in He. specialize (He i f Hi). congruence.
  - intros Hlt. destruct (list_find _ _) as [x|] eqn:E; [done|]. apply list_find_None in E.
    assert (nused (frame_table s) = Z.of_nat (length (frame_table s))); [|lia].
    apply nused_full. intros i f Hi. rewrite Forall_lookup in E. specialize (E i f Hi). by destruct (f_used f).
Qed.

(** The frame of page [va] of process [p]. *)
Definition tracked s (p : nat) (va : Z) : Prop :=
  ∃ i f, frame_table s !! i = Some f ∧ f_used f = true ∧ f_proc f = Some p ∧ f_va f = va.

Lemma register_ok s own p va :
  vinv s own → is_Some (procs s !! p) → va_ok va → nused (frame_table s) < Z.of_nat MAX_FRAMES →
  ∃ s', register_user_frame p va s = Ok (0, s') ∧ vinv s' own ∧ paged s own s' own ∧
    mem s' = mem s ∧ tracked s' p va.
Proof.
  intros Hv Hp Hva Hlt. pose proof (nused_range (frame_table s)) as Hrange.
  unfold register_user_frame. rewrite (bind_ok _ _ _ (frame_table s) s) by done.
  destruct (list_find _ (frame_table s)) as [[i f]|] eqn:E.
  2:{ apply list_find_None in E. assert (nused (frame_table s) = Z.of_nat (length (frame_table s))) as Hf.
      { apply nused_full. intros i f Hi. rewrite Forall_lookup in E. specialize (E i f Hi). by destruct (f_used f). }
      rewrite (vi_flen _ _ Hv) in Hf. lia. }
  apply list_find_Some in E as (Hi & Hu & _).
  set (g := λ _ : frame, mkFrame true true (Some p) va true).
  set (ft := alter g i (frame_table s)).
  assert (nused ft = nused (frame_table s) + 1) as Hn.
  { unfold ft. rewrite (nused_alter f) by done. rewrite Hu. simpl. lia. }
  exists (with_clock_hand (clock_hand s) (with_user_frame_count (nused ft) (with_frame_table ft s))).
  split_and!.
  - do 2 erewrite bind_ok by (by unfold upd_frame, modify). simpl. rewrite (vi_count _ _ Hv), Hn.
    rewrite i32_id; [done|]. unfold MAX_FRAMES in Hlt. lia.
  - apply vinv_frames; [done|unfold ft; rewrite length_alter; apply Hv| |done|apply Hv].
    apply frame_ok_alter; [apply Hv|]. intros f' _ _. split_and!; [done..|]. by exists p.
  - by apply paged_frames.
  - done.
  - exists i, (g f). simpl. unfold ft. by rewrite list_lookup_alter_eq, Hi.
Qed.

Lemma paged_live s own s' own' p root : paged s own s' own' → live s p root → live s' p root.
Proof. intros Hpg Hl. by apply (live_same s s' p root (pg_procs _ _ _ _ Hpg)). Qed.

Lemma paged_proc s own s' own' p : paged s own s' own' → is_Some (procs s !! p) → is_Some (procs s' !! p).
Proof. intros Hpg. by apply (proc_same s s' p (pg_procs _ _ _ _ Hpg)). Qed.

(** What [kalloc_user] promises: a zeroed page the caller holds, tracked in
    the frame table; or null, when swap is full or no tracked page is left. *)
Definition user_alloc s own (p : nat) (va : Z) (m : M (kernel D) Z) : Prop :=
  ∃ r s' own', m s = Ok (r, s') ∧ vinv s' own' ∧ paged s own s' own' ∧
    ((r ≠ 0 ∧ own' r = RKern ∧ rdbytes (mem s') r PGSIZE = replicate pgsize 0 ∧ tracked s' p va) ∨
     (r = 0 ∧ (swap_full s' ∨ nused (frame_table s') = 0))).

(** kalloc.c:342-371, after the check for eviction *)
Definition kalloc_user_tail (n : nat) (p : nat) (va : Z) : M (kernel D) Z :=
  let* r := pop_page in
  if decide (r = 0) then
    let* count := gets user_frame_count in
    if decide (count > 0) then
      let* e := evict_one_user_frame in
      if decide (e < 0) then ret 0 else kalloc_user_attempts n p va
    else ret 0
  else
    memset r 0 PGSIZE ;;;
    let* reg := register_user_frame p va in
    if decide (reg = 0) then ret r
    else
      kfree r ;;;
      let* e := evict_one_user_frame in
      if decide (e < 0) then ret 0 else kalloc_user_attempts n p va.

Lemma kalloc_user_tail_ok n s own p va :
  vinv s own → is_Some (procs s !! p) → va_ok va → nused (frame_table s) < Z.of_nat MAX_FRAMES →
  (∃ a, own a = RFree) → user_alloc s own p va (kalloc_user_tail n p va).
Proof.
  intros Hv Hp Hva Hlt Hfree.
  destruct (take_page_ok s own Hv Hfree) as (a & s1 & Ha & _ & E1 & E2 & Hv1 & Hpg1 & Hz & Hft & _).
  destruct (register_ok s1 _ p va Hv1) as (s2 & E3 & Hv2 & Hpg2 & Hm & Htr);
    [by eapply paged_proc|done|by rewrite Hft|].
  exists a, s2, (give a RKern own). split_and!; [|done|by eapply paged_trans|].
  - unfold kalloc_user_tail. rewrite (bind_ok _ _ _ _ _ E1). rewrite decide_False by done.
    rewrite (bind_ok _ _ _ _ _ E2), (bind_ok _ _ _ _ _ E3). by rewrite decide_True.
  - left. split_and!; [done|apply give_eq|by rewrite Hm|done].
Qed.

Lemma kalloc_user_unfold n p va s own :
  vinv s own → nused (frame_table s) < Z.of_nat MAX_FRAMES →
  kalloc_user_attempts (S n) p va s = kalloc_user_tail n p va s.
Proof.
  intros Hv Hlt. cbn [kalloc_user_attempts]. rewrite (bind_ok _ _ _ (user_frame_count s) s) by done.
  rewrite (bind_ok _ _ _ _ _ (has_free_ok s)).
  rewrite (bool_decide_eq_true_2 (nused _ < _)) by (by rewrite (vi_flen _ _ Hv)).
  rewrite bool_decide_eq_false_2 by (rewrite (vi_count _ _ Hv); lia). done.
Qed.

Lemma user_alloc_trans s own s1 own1 p va m m1 :
  paged s own s1 own1 → m s = m1 s1 → user_alloc s1 own1 p va m1 → user_alloc s own p va m.
Proof.
  intros Hpg Heq (r & s' & own' & E & Hv & Hpg' & Hc). exists r, s', own'.
  split_and!; [by rewrite Heq|done|by eapply paged_trans|done].
Qed.

Lemma user_alloc_fail s own s' own' p va m :
  m s = Ok (0, s') → vinv s' own' → paged s own s' own' →
  swap_full s' ∨ nused (frame_table s') = 0 → user_alloc s own p va m.
Proof. intros E Hv Hpg Hc. exists 0, s', own'. split_and!; [done..|]. by right. Qed.

Lemma free_page_dec s own :
  vinv s own → (∃ a, own a = RFree) ∨ ((∀ a, own a ≠ RFree) ∧ pop_page s = Ok (0, s)).
Proof.
  intros Hv. destruct (pop_tree s own (vi_tree _ _ Hv)) as [(_ & Hno & E)|(fl' & Hf & _)]; eauto.
Qed.

(** No free page: evict one and try again. *)
Lemma kalloc_user_retry_ok n s own p va :
  vinv s own → is_Some (procs s !! p) → va_ok va → nused (frame_table s) < Z.of_nat MAX_FRAMES →
  pop_page s = Ok (0, s) → user_alloc s own p va (kalloc_user_tail (S n) p va).
Proof.
  intros Hv Hp Hva Hlt E0. destruct (decide (user_frame_count s > 0)) as [Hc|Hc].
  2:{ eapply (user_alloc_fail s own s own); [|done|apply paged_refl|].
      - unfold kalloc_user_tail. rewrite (bind_ok _ _ _ _ _ E0). rewrite decide_True by done.
        rewrite (bind_ok _ _ _ (user_frame_count s) s) by done. by rewrite decide_False.
      - right. rewrite (vi_count _ _ Hv) in Hc. pose proof (nused_range (frame_table s)). lia. }
  destruct (evict_one_ok s own Hv) as (e & s1 & own1 & E & Hv1 & Hpg1 & Hcase).
  assert (kalloc_user_tail (S n) p va s =
    (if decide (e < 0) then ret 0 else kalloc_user_attempts (S n) p va) s1) as Eq.
  { unfold kalloc_user_tail at 1. rewrite (bind_ok _ _ _ _ _ E0). rewrite decide_True by done.
    rewrite (bind_ok _ _ _ (user_frame_count s) s) by done. rewrite decide_True by done.
    by rewrite (bind_ok _ _ _ _ _ E). }
  destruct Hcase as [(-> & Hn & Hfree)|(-> & Hfail)].
  - rewrite decide_False in Eq by lia. rewrite (kalloc_user_unfold n p va s1 own1) in Eq by (done || lia).
    eapply user_alloc_trans; [done|exact Eq|].
    apply kalloc_user_tail_ok; [done|by eapply paged_proc|done|lia|done].
  - rewrite decide_True in Eq by lia. by eapply user_alloc_fail.
Qed.

Lemma kalloc_user_ok s own p va :
  vinv s own → is_Some (procs s !! p) → va_ok va → user_alloc s own p va (kalloc_user p va).
Proof.
  intros Hv Hp Hva. unfold kalloc_user.
  destruct (decide (nused (frame_table s) < Z.of_nat MAX_FRAMES)) as [Hlt|Hge].
  - eapply (user_alloc_trans s own s own); [apply paged_refl|by eapply kalloc_user_unfold|].
    destruct (free_page_dec s own Hv) as [Hfree|[_ E0]];
      [by apply kalloc_user_tail_ok|by apply kalloc_user_retry_ok].
  - destruct (evict_one_ok s own Hv) as (e & s1 & own1 & E & Hv1 & Hpg1 & Hcase).
    assert (kalloc_user_attempts 2 p va s =
      (if decide (e < 0) then ret 0 else kalloc_user_tail 1 p va) s1) as Eq.
    { cbn [kalloc_user_attempts]. rewrite (bind_ok _ _ _ (user_frame_count s) s) by done.
      rewrite (bind_ok _ _ _ _ _ (has_free_ok s)).
      rewrite (bool_decide_eq_true_2 (Z.of_nat MAX_FRAMES ≤ _)) by (rewrite (vi_count _ _ Hv); lia).
      simpl orb. cbv iota. rewrite bind_assoc. rewrite (bind_ok _ _ _ _ _ E).
      unfold ret at 1. unfold bind at 1. case_decide.
      - rewrite bool_decide_eq_false_2 by lia. done.
      - rewrite bool_decide_eq_true_2 by lia. done. }
    destruct Hcase as [(-> & Hn & Hfree)|(-> & Hfail)].
    + rewrite decide_False in Eq by lia. eapply user_alloc_trans; [done|exact Eq|].
      pose proof (nused_range (frame_table s)). rewrite (vi_flen _ _ Hv) in *.
      apply kalloc_user_tail_ok; [done|by eapply paged_proc|done|lia|done].
    + rewrite decide_True in Eq by lia. by eapply user_alloc_fail.
Qed.
End view.
