(* ===== verification/Vm.v ===== *)
(** * User memory (kernel/vm.c:203-505, 519-639, 651-795)

    Growing, shrinking, copying and freeing of user address spaces, the page
    fault handler, and the copies between user and kernel memory. *)
From S2P Require Import Prelude Interfaces Mem KState Kmem PageTable Frames.
Local Open Scope Z_scope.

Section ops.
Context `{Sv39} {D : Type} `{!SwapDev D}.

(** [swap_used[slot] = 0] for a slot read from the swap map *)
Definition clear_swap_used (slot : Z) : M (kernel D) unit :=
  let* su := gets swap_used in
  let* _ := deref (aget su slot) in
  modify (with_swap_used (aset slot false su)).

(** vm.c:239-252 *)
Definition free_swap_entry (p : nat) (va : Z) : M (kernel D) unit :=
  let* sm := gets swap_map in
  match list_find (is_entry p va) sm with
  | Some (i, e) => clear_swap_used (s_slot e) ;;; upd_swap i swap0
  | None => ret tt
  end.

(** vm.c:268-283; [p] is null when the page table is not the caller's *)
Definition free_frame_entry (p : option nat) (va : Z) : M (kernel D) unit :=
  let* ft := gets frame_table in
  match list_find (λ f, f_used f = true ∧ f_user f = true ∧ f_proc f = p ∧ f_va f = va) ft with
  | Some (i, _) => upd_frame i (λ _, frame0) ;;; dec_count
  | None => ret tt
  end.

(** vm.c:236-287: one page *)
Definition uvmunmap_page (pagetable a : Z) (do_free : bool) (p : option nat) : M (kernel D) unit :=
  (if do_free then match p with Some q => free_swap_entry q a | None => ret tt end else ret tt) ;;;
  let* o := walk pagetable a false in
  match o with
  | None => ret tt
  | Some pte =>
    let* v := load64 pte in
    if negb (valid_pte v) then store64 pte 0
    else
      (if do_free then free_frame_entry p a ;;; kfree (PTE2PA v) else ret tt) ;;;
      store64 pte 0
  end.

(** vm.c:232-288 *)
Fixpoint uvmunmap_loop (fuel : nat) (pagetable a last : Z) (do_free : bool) (p : option nat) :
    M (kernel D) unit :=
  if decide (a < last) then
    match fuel with
    | O => fail NoFuel
    | S fuel =>
      uvmunmap_page pagetable a do_free p ;;;
      uvmunmap_loop fuel pagetable (u64 (a + PGSIZE)) last do_free p
    end
  else ret tt.

(** vm.c:218-230: the caller, if the page table is its own *)
Definition unmap_owner (pagetable : Z) : M (kernel D) (option nat) :=
  let* c := gets cur in
  match c with
  | None => ret None
  | Some p =>
    let* x := get_proc p in
    ret (if decide (p_pagetable x = pagetable) then Some p else None)
  end.

(** vm.c:210-289; one round per page *)
Definition uvmunmap (pagetable va npages : Z) (do_free : bool) : M (kernel D) unit :=
  if decide (va mod PGSIZE ≠ 0) then panic "uvmunmap: not aligned" else
  let* p := unmap_owner pagetable in
  uvmunmap_loop (Z.to_nat npages) pagetable va (u64 (va + npages * PGSIZE)) do_free p.

(** vm.c:326-339 *)
Definition uvmdealloc (pagetable oldsz newsz : Z) : M (kernel D) Z :=
  if decide (oldsz ≤ newsz) then ret oldsz else
  (if decide (PGROUNDUP newsz < PGROUNDUP oldsz) then
     uvmunmap pagetable (PGROUNDUP newsz)
       (u64 (i32 ((PGROUNDUP oldsz - PGROUNDUP newsz) / PGSIZE))) true
   else ret tt) ;;;
  ret newsz.

(** vm.c:303-318 *)
Fixpoint uvmalloc_loop (fuel : nat) (pagetable a oldsz newsz xperm : Z) : M (kernel D) Z :=
  if decide (a < newsz) then
    match fuel with
    | O => fail NoFuel
    | S fuel =>
      let* mem := kalloc in
      if decide (mem = 0) then uvmdealloc pagetable a oldsz ;;; ret 0 else
      memset mem 0 PGSIZE ;;;
      let* r := mappages pagetable a PGSIZE mem (Z.lor (Z.lor PTE_R PTE_U) xperm) in
      if decide (r ≠ 0) then kfree mem ;;; uvmdealloc pagetable a oldsz ;;; ret 0
      else uvmalloc_loop fuel pagetable (u64 (a + PGSIZE)) oldsz newsz xperm
    end
  else ret newsz.

(** vm.c:293-320; one round per page *)
Definition uvmalloc (pagetable oldsz newsz xperm : Z) : M (kernel D) Z :=
  if decide (newsz < oldsz) then ret oldsz else
  uvmalloc_loop (Z.to_nat ((newsz - oldsz) / PGSIZE + 1)) pagetable (PGROUNDUP oldsz)
    (PGROUNDUP oldsz) newsz xperm.

(** vm.c:343-362; [fuel] bounds the depth of the recursion, 3 for Sv39 *)
Fixpoint freewalk (fuel : nat) (pagetable : Z) : M (kernel D) unit :=
  match fuel with
  | O => fail NoFuel
  | S fuel =>
    for_list (seqZ 0 512) (λ i _,
      let* pte := load64 (pagetable + 8 * i) in
      if valid_pte pte && bool_decide (Z.land pte (Z.lor (Z.lor PTE_R PTE_W) PTE_X) = 0) then
        freewalk fuel (PTE2PA pte) ;;;
        store64 (pagetable + 8 * i) 0
      else if valid_pte pte then panic "freewalk: leaf"
      else ret tt) tt ;;;
    kfree pagetable
  end.

(** vm.c:366-371 *)
Definition uvmfree (pagetable sz : Z) : M (kernel D) unit :=
  (if decide (0 < sz) then uvmunmap pagetable 0 (PGROUNDUP sz / PGSIZE) true else ret tt) ;;;
  freewalk 3 pagetable.

(** vm.c:465-480: the child's entry, or the slot is given back *)
Definition insert_swap_entry (child : nat) (va : Z) (dst_slot : nat) : M (kernel D) bool :=
  let* sm := gets swap_map in
  match list_find (λ e, s_used e = false) sm with
  | Some (i, _) => upd_swap i (mkSwap true (Some child) va (Z.of_nat dst_slot)) ;;; ret true
  | None => set_swap_used dst_slot false ;;; ret false
  end.

(** vm.c:433-484: write the temporary page to a slot of the child's *)
Definition store_swapped (child : nat) (va tmp : Z) : M (kernel D) bool :=
  let* o := reserve_swap_slot in
  match o with
  | None => kfree tmp ;;; ret false
  | Some dst_slot =>
    let* r := swap_out (Z.of_nat dst_slot) tmp in
    if decide (r < 0) then set_swap_used dst_slot false ;;; kfree tmp ;;; ret false
    else
      kfree tmp ;;;
      insert_swap_entry child va dst_slot
  end.

(** vm.c:413-484: copy a swapped-out page to a slot of the child's; [false]
    is [goto err] *)
Definition copy_swapped (child : nat) (va src_slot : Z) : M (kernel D) bool :=
  let* tmp := kalloc in
  if decide (tmp = 0) then ret false else
  let* r := swap_in src_slot tmp in
  if decide (r < 0) then kfree tmp ;;; ret false
  else store_swapped child va tmp.

(** vm.c:393-498: one page; [false] is [goto err] *)
Definition uvmcopy_page (old new i : Z) (parent : option nat) (child : nat) : M (kernel D) bool :=
  let* o := walk old i false in
  let* v := match o with Some pte => load64 pte | None => ret 0 end in
  if negb (valid_pte v) then
    match parent with
    | None => ret true
    | Some q =>
      let* sm := gets swap_map in
      match list_find (is_entry q i) sm with
      | None => ret true
      | Some (_, e) => if decide (s_slot e = -1) then ret true else copy_swapped child i (s_slot e)
      end
    end
  else
    let* mem := kalloc in
    if decide (mem = 0) then ret false else
    let* d := load_bytes (PTE2PA v) PGSIZE in
    store_bytes mem d ;;;
    let* r := mappages new i PGSIZE mem (PTE_FLAGS v) in
    if decide (r ≠ 0) then kfree mem ;;; ret false else ret true.

(** vm.c:391-499 *)
Fixpoint uvmcopy_loop (fuel : nat) (old new i sz : Z) (parent : option nat) (child : nat) :
    M (kernel D) Z :=
  if decide (i < sz) then
    match fuel with
    | O => fail NoFuel
    | S fuel =>
      let* ok := uvmcopy_page old new i parent child in
      if ok then uvmcopy_loop fuel old new (u64 (i + PGSIZE)) sz parent child
      else uvmunmap new 0 (i / PGSIZE) true ;;; ret (-1)
    end
  else ret 0.

(** vm.c:381-505; one round per page *)
Definition uvmcopy (old new sz : Z) (child : nat) : M (kernel D) Z :=
  let* parent := gets cur in
  uvmcopy_loop (Z.to_nat (sz / PGSIZE + 1)) old new 0 sz parent child.

(** vm.c:678-689, 737-747, 779-790 *)
Definition touch_frame (p : nat) (va : Z) : M (kernel D) unit :=
  let* ft := gets frame_table in
  match list_find (λ f, f_used f = true ∧ f_proc f = Some p ∧ f_va f = va) ft with
  | Some (i, _) => upd_frame i (λ f, mkFrame (f_used f) (f_user f) (f_proc f) (f_va f) true)
  | None => ret tt
  end.

(** [PTE_W | PTE_U | PTE_R] *)
Definition user_perm : Z := Z.lor (Z.lor PTE_W PTE_U) PTE_R.

(** vm.c:716-761: the page comes back from its slot *)
Definition fault_swap_in (p : nat) (va : Z) (found_swap : nat) (swap_slot : Z) : M (kernel D) Z :=
  let* mem := kalloc_user p va in
  if decide (mem = 0) then ret 0 else
  let* r := swap_in swap_slot mem in
  if decide (r < 0) then free_user_frame p va mem ;;; ret 0 else
  let* x := get_proc p in
  let* r := mappages (p_pagetable x) va PGSIZE mem user_perm in
  if decide (r ≠ 0) then free_user_frame p va mem ;;; ret 0 else
  touch_frame p va ;;;
  clear_swap_used swap_slot ;;;
  upd_swap found_swap swap0 ;;;
  upd_proc p (λ x, set_p_pages_swapped_in (i32 (p_pages_swapped_in x + 1)) x) ;;;
  upd_proc p (λ x, set_p_resident_pages (i32 (p_resident_pages x + 1)) x) ;;;
  ret mem.

(** vm.c:764-794: a page that was never touched *)
Definition fault_lazy (p : nat) (va : Z) : M (kernel D) Z :=
  let* mem := kalloc_user p va in
  if decide (mem = 0) then ret 0 else
  memset mem 0 PGSIZE ;;;
  let* x := get_proc p in
  let* r := mappages (p_pagetable x) va PGSIZE mem user_perm in
  if decide (r ≠ 0) then free_user_frame p va mem ;;; ret 0 else
  touch_frame p va ;;;
  upd_proc p (λ x, set_p_resident_pages (i32 (p_resident_pages x + 1)) x) ;;;
  ret mem.

(** vm.c:660-795; the argument [read] is not used *)
Definition vmfault (pagetable va : Z) (read : bool) : M (kernel D) Z :=
  let* c := gets cur in
  match c with
  | None => ret 0
  | Some p =>
    let* x := get_proc p in
    if decide (p_sz x ≤ va) then ret 0 else
    let va := PGROUNDDOWN va in
    let* mapped := ismapped pagetable va in
    if mapped : bool then touch_frame p va ;;; walkaddr pagetable va
    else
      upd_proc p (λ x, set_p_page_faults (i32 (p_page_faults x + 1)) x) ;;;
      let* sm := gets swap_map in
      match list_find (is_entry p va) sm with
      | Some (found_swap, e) => fault_swap_in p va found_swap (s_slot e)
      | None => fault_lazy p va
      end
  end.

(** vm.c:522-559: [src] is the kernel buffer *)
Fixpoint copyout_loop (fuel : nat) (pagetable dstva : Z) (src : bytes) : M (kernel D) Z :=
  match src with
  | [] => ret 0
  | _ =>
    match fuel with
    | O => fail NoFuel
    | S fuel =>
      let va0 := PGROUNDDOWN dstva in
      if decide (MAXVA ≤ va0) then ret (-1) else
      let* pa0 := walkaddr pagetable va0 in
      let* pa0 := if decide (pa0 = 0) then vmfault pagetable va0 false else ret pa0 in
      if decide (pa0 = 0) then ret (-1) else
      let* o := walk pagetable va0 false in
      match o with
      | None => ret (-1)
      | Some pte =>
        let* v := load64 pte in
        if decide (Z.land v PTE_W = 0) then ret (-1) else
        let n := Z.min (PGSIZE - (dstva - va0)) (Z.of_nat (length src)) in
        store_bytes (pa0 + (dstva - va0)) (take (Z.to_nat n) src) ;;;
        copyout_loop fuel pagetable (u64 (va0 + PGSIZE)) (drop (Z.to_nat n) src)
      end
    end
  end.
(** every round copies at least one byte *)
Definition copyout (pagetable dstva : Z) (src : bytes) : M (kernel D) Z :=
  copyout_loop (length src) pagetable dstva src.

(** vm.c:564-589: the bytes copied before the return, with the result *)
Fixpoint copyin_loop (fuel : nat) (pagetable srcva len : Z) (dst : bytes) : M (kernel D) (Z * bytes) :=
  if decide (len ≤ 0) then ret (0, dst) else
  match fuel with
  | O => fail NoFuel
  | S fuel =>
    let va0 := PGROUNDDOWN srcva in
    let* pa0 := walkaddr pagetable va0 in
    let* pa0 := if decide (pa0 = 0) then vmfault pagetable va0 false else ret pa0 in
    if decide (pa0 = 0) then ret (-1, dst) else
    let n := Z.min (PGSIZE - (srcva - va0)) len in
    let* d := load_bytes (pa0 + (srcva - va0)) n in
    copyin_loop fuel pagetable (u64 (va0 + PGSIZE)) (len - n) (dst ++ d)
  end.
Definition copyin (pagetable srcva len : Z) : M (kernel D) (Z * bytes) :=
  copyin_loop (Z.to_nat len) pagetable srcva len [].

(** vm.c:610-627: the bytes of a page up to a null, and whether there is one *)
Fixpoint until_null (d : bytes) : bytes * bool :=
  match d with
  | [] => ([], false)
  | b :: d => if decide (b = 0) then ([], true) else let '(l, got_null) := until_null d in (b :: l, got_null)
  end.

(** vm.c:595-639: the bytes stored at [dst], with the result *)
Fixpoint copyinstr_loop (fuel : nat) (pagetable srcva max : Z) (dst : bytes) : M (kernel D) (Z * bytes) :=
  if decide (max ≤ 0) then ret (-1, dst) else
  match fuel with
  | O => fail NoFuel
  | S fuel =>
    let va0 := PGROUNDDOWN srcva in
    let* pa0 := walkaddr pagetable va0 in
    if decide (pa0 = 0) then ret (-1, dst) else
    let n := Z.min (PGSIZE - (srcva - va0)) max in
    let* d := load_bytes (pa0 + (srcva - va0)) n in
    let '(l, got_null) := until_null d in
    if got_null : bool then ret (0, dst ++ l ++ [0])
    else copyinstr_loop fuel pagetable (u64 (va0 + PGSIZE)) (max - n) (dst ++ l)
  end.
Definition copyinstr (pagetable srcva max : Z) : M (kernel D) (Z * bytes) :=
  copyinstr_loop (Z.to_nat max) pagetable srcva max [].
End ops.
