(* ===== verification/Fault.v ===== *)
(** * Correctness of the page fault handler

    Lemmas on the pieces of [vmfault] and the theorem that it is transparent:
    it only moves pages, no process sees its memory change. *)
From S2P Require Import Prelude Interfaces Mem KState Kmem PageTable Frames Paging Vm.
Local Open Scope Z_scope.

Section fault.
Context `{Sv39} {D : Type} `{!SwapDev D} `{!SwapDevSpec D}.
Implicit Types s : kernel D.

Lemma walk_ro_ok s own root va :
  tree_inv (mem s) (freelist s) own → own root = RTab root 2 0 → va_ok va →
  ∃ o, walk root va false s = Ok (o, s) ∧
    match o with
    | Some pte => leaf_at own root va pte
    | None => ∀ a, own a ≠ RPage root va
    end.
Proof.
  intros Ht Hr Hva. destruct (walk_ok s own root va false Ht Hr) as (o & m' & fl' & own' & E & _ & _ & Ho & Hro);
    [by apply va_ok_max|].
  destruct Hro as (-> & -> & ->); [done|]. exists o. split.
  - rewrite E. by destruct s.
  - destruct o; [done|]. destruct Ho as [Ho _]. eapply no_leaf_page; [done..|]. apply Hva.
Qed.

(** The entry for [va], when there is a leaf table. *)
Lemma leaf_read s own root va pte :
  tree_inv (mem s) (freelist s) own → leaf_at own root va pte → va_ok va →
  load64 pte s = Ok (rd64 (mem s) pte, s) ∧
  if valid_pte (rd64 (mem s) pte) then own (PTE2PA (rd64 (mem s) pte)) = RPage root va
  else ∀ a, own a ≠ RPage root va.
Proof.
  intros Ht Hl [Hva Hal]. destruct (leaf_page _ _ _ _ _ _ Ht Hl Hva Hal) as [Hram Hv].
  split; [by apply load64_ok|done].
Qed.

Lemma ismapped_ok s own root va :
  tree_inv (mem s) (freelist s) own → own root = RTab root 2 0 → va_ok va →
  (ismapped root va s = Ok (true, s) ∧ ∃ a, own a = RPage root va) ∨
  (ismapped root va s = Ok (false, s) ∧ ∀ a, own a ≠ RPage root va).
Proof.
  intros Ht Hr Hva. destruct (walk_ro_ok s own root va Ht Hr Hva) as (o & E & Ho).
  unfold ismapped. rewrite (bind_ok _ _ _ _ _ E). destruct o as [pte|]; [|by right].
  destruct (leaf_read s own root va pte Ht Ho Hva) as [El Hv]. rewrite (bind_ok _ _ _ _ _ El).
  destruct (valid_pte _); [left|right]; eauto.
Qed.

Lemma walkaddr_ok s own root va a :
  tree_inv (mem s) (freelist s) own → own root = RTab root 2 0 → va_ok va → own a = RPage root va →
  ∃ r, walkaddr root va s = Ok (r, s) ∧
    (r = a ∨ r = 0 ∧ ∃ pte, leaf_at own root va pte ∧ Z.land (rd64 (mem s) pte) PTE_U = 0).
Proof.
  intros Ht Hr Hva Ha. pose proof (va_ok_max va Hva). unfold walkaddr. rewrite decide_False by lia.
  destruct (walk_ro_ok s own root va Ht Hr Hva) as (o & E & Ho). rewrite (bind_ok _ _ _ _ _ E).
  destruct o as [pte|]; [|by destruct (Ho a)].
  destruct (leaf_read s own root va pte Ht Ho Hva) as [El Hv]. rewrite (bind_ok _ _ _ _ _ El).
  destruct (valid_pte _); simpl; [|by destruct (Hv a)].
  case_decide; eexists; (split; [reflexivity|]); [right; eauto|left].
  eapply page_unique; [apply Ht|done..].
Qed.

Lemma touch_frame_ok s own p va :
  vinv s own → ∃ ft, touch_frame p va s = Ok (tt, with_frame_table ft s) ∧
    vinv (with_frame_table ft s) own ∧ same_frames (frame_table s) ft.
Proof.
  intros Hv. unfold touch_frame. rewrite (bind_ok _ _ _ (frame_table s) s) by done.
  assert (∀ ft, same_frames (frame_table s) ft → vinv (with_frame_table ft s) own) as Hok.
  { intros ft Hsf. change (vinv (with_clock_hand (clock_hand s) (with_user_frame_count (user_frame_count s)
      (with_frame_table ft s))) own). apply vinv_frames; [done| | | |apply Hv].
    - rewrite <- (vi_flen _ _ Hv). apply (f_equal length) in Hsf. by rewrite !length_fmap in Hsf.
    - by eapply same_frames_ok, (vi_frames _ _ Hv).
    - by rewrite (same_frames_nused _ _ Hsf), (vi_count _ _ Hv). }
  destruct (list_find _ _) as [[i f]|].
  - eexists. split; [by unfold upd_frame, modify|]. assert (same_frames (frame_table s)
      (alter (λ f, mkFrame (f_used f) (f_user f) (f_proc f) (f_va f) true) i (frame_table s))) as Hsf
      by by apply same_frames_alter. auto.
  - exists (frame_table s). split; [by destruct s|]. split; [by apply Hok|done].
Qed.

(** Clearing a frame in use. *)
Lemma clear_frame_ok s own i f :
  vinv s own → frame_table s !! i = Some f → f_used f = true →
  let s' := with_user_frame_count (user_frame_count s - 1)
    (with_frame_table (alter (λ _, frame0) i (frame_table s)) s) in
  (upd_frame i (λ _, frame0) ;;; dec_count) s = Ok (tt, s') ∧ vinv s' own.
Proof.
  intros Hv Hi Hu s'. split.
  - erewrite bind_ok by (by unfold upd_frame, modify). unfold dec_count, modify. simpl.
    rewrite decide_True; [done|]. rewrite (vi_count _ _ Hv). by eapply nused_pos.
  - change (vinv (with_clock_hand (clock_hand s) s') own).
    apply vinv_frames; [done|rewrite length_alter; apply Hv| | |apply Hv].
    + apply frame_ok_alter; [apply Hv|by intros ? _ ?].
    + rewrite (nused_alter f) by done. rewrite Hu, (vi_count _ _ Hv). simpl. lia.
Qed.

Lemma cleared_frames (ft : list frame) i j g :
  f_used g = true → alter (λ _, frame0) i ft !! j = Some g → ft !! j = Some g.
Proof.
  intros Hg. destruct (decide (j = i)) as [->|Hne]; [|by rewrite list_lookup_alter_ne].
  rewrite list_lookup_alter_eq. destruct (ft !! i); [|done]. intros [= <-]. done.
Qed.

(** Clearing the first frame in use that matches. *)
Lemma release_frame_ok s own (P : frame → Prop) `{∀ f, Decision (P f)} :
  vinv s own → (∀ f, P f → f_used f = true) →
  ∃ ft cnt, match list_find P (frame_table s) with
    | Some (i, _) => upd_frame i (λ _, frame0) ;;; dec_count
    | None => ret tt
    end s = Ok (tt, with_user_frame_count cnt (with_frame_table ft s)) ∧
    vinv (with_user_frame_count cnt (with_frame_table ft s)) own ∧
    ∀ j g, f_used g = true → ft !! j = Some g → frame_table s !! j = Some g.
Proof.
  intros Hv HP. destruct (list_find _ _) as [[i f]|] eqn:Ef.
  2:{ exists (frame_table s), (user_frame_count s). split_and!; by destruct s. }
  apply list_find_Some in Ef as (Hi & Hu%HP & _). destruct (clear_frame_ok s own i f Hv Hi Hu) as [E Hv'].
  eexists _, _. split_and!; [exact E|exact Hv'|apply cleared_frames].
Qed.

(** The failed fault: frame and page are given back. *)
Lemma free_user_frame_ok s own p va c :
  vinv s own → own c = RKern →
  ∃ s', free_user_frame p va c s = Ok (tt, s') ∧ vinv s' (give c RFree own) ∧
    paged s own s' (give c RFree own).
Proof.
  intros Hv Hc. unfold free_user_frame. rewrite (bind_ok _ _ _ (frame_table s) s) by done.
  destruct (release_frame_ok s own (λ f, f_used f = true ∧ f_user f = true ∧ f_proc f = Some p ∧ f_va f = va) Hv)
    as (ft & cnt & E1 & Hv1 & _); [by intros f (? & _)|].
  set (s1 := with_user_frame_count cnt (with_frame_table ft s)) in *.
  assert (paged s own s1 own) as Hpg1 by by apply paged_frames.
  rewrite (bind_ok _ _ _ _ _ E1).
  destruct (kfree_tree s1 own c (vi_tree _ _ Hv1) Hc) as (m' & E & Ho & Ht).
  eexists. split; [exact E|].
  destruct (paged_give s1 own m' c c RFree Hv1) as [Hv' Hpg']; [by right|by left|done..|].
  split; [done|]. by eapply paged_trans.
Qed.

(** The device changes outside the slots. *)
Definition quiet (d d' : D) : Prop := dev_inv d' ∧ ∀ j, 0 ≤ j < dev_slots → dev_page d' j = dev_page d j.

Lemma quiet_dev s own d :
  vinv s own → quiet (swapdev s) d → vinv (with_swapdev d s) own ∧ paged s own (with_swapdev d s) own.
Proof.
  intros Hv [Hd Hpages]. split; [by destruct Hv; split|]. split; try done; [|by left]. intros p root va Hl Hva.
  unfold user_page. destruct Hl as (x & Hx & _). rewrite Hx. simpl. rewrite Hx.
  destruct (pt_find _ _ _); [done|]. apply swapped_same; [exact (vi_suniq _ _ Hv)..|done|].
  intros i e Hi (Hu & _). destruct (vi_swap _ _ Hv i e Hi Hu) as (-> & _). apply Hpages.
  apply lookup_lt_Some in Hi. rewrite (vi_slen _ _ Hv) in Hi. pose proof (vi_slots _ _ Hv). lia.
Qed.

(** Reading a slot into a page the kernel holds. *)
Lemma swap_in_ok s own k c :
  vinv s own → own c = RKern → 0 ≤ k < dev_slots →
  ∃ s', swap_in k c s = Ok (0, s') ∧ vinv s' own ∧ paged s own s' own ∧
    rdbytes (mem s') c PGSIZE = dev_page (swapdev s) k ∧ frame_table s' = frame_table s.
Proof.
  intros Hv Hc Hk. pose proof (tree_sane _ _ _ (vi_tree _ _ Hv)) as Hs.
  assert (page_addr c) as Hpc by (apply Hs; by rewrite Hc).
  destruct (dev_read_ok (swapdev s) k (rdbytes (mem s) c PGSIZE)) as (d & E & Hd & Hpages);
    [apply Hv|done|by rewrite length_rdbytes|].
  pose proof (dev_page_length (swapdev s) k (vi_dev _ _ Hv) Hk) as Hlen.
  assert (Z.of_nat (length (dev_page (swapdev s) k)) = PGSIZE) as Hlen'.
  { rewrite Hlen. unfold pgsize. rewrite PGSIZE_4096. done. }
  set (m' := wrbytes (mem s) c (dev_page (swapdev s) k)).
  assert (only_page c (mem s) m') as Ho by (apply only_page_wrbytes; lia).
  exists (with_mem m' (with_swapdev d s)). split.
  { unfold swap_in. rewrite (bind_ok _ _ _ (rdbytes (mem s) c PGSIZE) s)
      by (unfold load_bytes; by rewrite (page_ram c) by (done || lia)).
    rewrite (bind_ok _ _ _ (0, dev_page (swapdev s) k) (with_swapdev d s)) by (unfold lift_dev; by rewrite E).
    unfold store_bytes. erewrite bind_ok; [done|]. by rewrite Hlen', (page_ram c) by (done || lia). }
  destruct (quiet_dev s own d Hv) as [Hv1 Hpg1]; [by split|].
  destruct (paged_write (with_swapdev d s) own c m' Hv1 Hc Ho) as [Hv2 Hpg2].
  split_and!; [done|by eapply paged_trans| |done].
  simpl. unfold m'. rewrite <- Hlen' at 1. apply rdbytes_wrbytes.
Qed.

(** A page is mapped where there was none, and its swap entry, if it had one,
    is gone: the address reads as the page, the others as before. *)
Lemma page_map_ok s own s' own' p root va c :
  vinv s own → live s p root → va_ok va → (∀ a, own a ≠ RPage root va) →
  tree_inv (mem s') (freelist s') own' →
  own' c = RPage root va → (∀ a r v, a ≠ c → own' a = RPage r v ↔ own a = RPage r v) →
  (∀ r v, own c ≠ RPage r v) →
  (∀ r, own r = RTab r 2 0 → own' r = RTab r 2 0) →
  (∀ a r v, own a = RPage r v → rdbytes (mem s') a PGSIZE = rdbytes (mem s) a PGSIZE) →
  same_procs s s' →
  length (frame_table s') = MAX_FRAMES → (∀ i f, frame_table s' !! i = Some f → frame_ok s f) →
  user_frame_count s' = nused (frame_table s') → 0 ≤ clock_hand s' < Z.of_nat MAX_FRAMES →
  length (swap_map s') = MAX_SWAP → swap_used s' = s_used <$> swap_map s' →
  (∀ i e, s_used e = true → swap_map s' !! i = Some e ↔ swap_map s !! i = Some e ∧ ¬ is_entry p va e) →
  swapdev s' = swapdev s →
  vinv s' own' ∧ user_page s' p va = rdbytes (mem s') c PGSIZE ∧
  (∀ q r v, live s q r → va_ok v → ¬ (q = p ∧ v = va) → user_page s' q v = user_page s q v).
Proof.
  intros Hv Hl Hva Hno Ht Hc Hpg Hcno Hroots Hdata Hps Hflen Hfok Hcnt Hh Hslen Hsu Hent Hdev.
  pose proof (vi_tree _ _ Hv) as Ht0.
  assert (unique_entries (swap_map s')) as Huniq.
  { intros i j e e' q v Hi Hj He He'. pose proof He as (Hu & _). pose proof He' as (Hu' & _).
    apply Hent in Hi as [Hi _]; [|done]. apply Hent in Hj as [Hj _]; [|done].
    by eapply (vi_suniq _ _ Hv). }
  split; [split|split].
  - done.
  - intros q r Hq. apply Hroots, (vi_live _ _ Hv q). by apply (live_same s s').
  - intros q1 q2 r Hq1 Hq2. eapply (vi_roots _ _ Hv _ _ r); by apply (live_same s s').
  - done.
  - intros i f Hf Hu. destruct (Hfok i f Hf Hu) as (? & ? & q & ? & Hq). split_and!; [done..|].
    exists q. split; [done|]. by apply (proc_same s s').
  - done.
  - done.
  - done.
  - done.
  - intros i e Hi Hu. apply Hent in Hi as [Hi Hne]; [|done].
    destruct (vi_swap _ _ Hv i e Hi Hu) as (? & ? & q & r & Hq & Hlq & Hnoq). split_and!; [done..|].
    exists q, r. split_and!; [done|by apply (live_same s s')|]. intros a Ha.
    destruct (decide (a = c)) as [->|Hac]; [|by apply Hpg, Hnoq in Ha].
    rewrite Hc in Ha. injection Ha as <- Hva'. destruct Hne. split_and!; [done| |done].
    rewrite Hq. f_equal. by eapply (vi_roots _ _ Hv).
  - exact Huniq.
  - rewrite Hdev. apply Hv.
  - apply Hv.
  - apply (user_page_res s' own' p root va c); [done|by apply Hroots, (vi_live _ _ Hv p)|by apply (live_same s s')|done..].
  - intros q r v Hq Hvv Hne. pose proof (vi_live _ _ Hv q r Hq) as Hr.
    pose proof (proj1 (live_same s s' q r Hps) Hq) as Hq'.
    destruct (resident_dec _ _ _ r v Ht0 Hr Hvv) as [[a Ha]|Hnone].
    + rewrite (user_page_res s own q r v a) by done.
      assert (a ≠ c) as Hac by (intros ->; by eapply Hcno).
      rewrite (user_page_res s' own' q r v a); [by eapply Hdata|done|by apply Hroots|done|done|by apply Hpg].
    + rewrite (user_page_swp s own q r v) by done.
      rewrite (user_page_swp s' own' q r v); [|done|by apply Hroots|done|done|].
      * apply swapped_same; [exact (vi_suniq _ _ Hv)|done| |by rewrite Hdev].
        intros i e He. pose proof He as (Hu & Hqe & Hve). rewrite Hent by done. split; [naive_solver|].
        intros Hi. split; [done|]. intros (_ & Hpe & Hve'). destruct Hne. split; congruence.
      * intros a Ha. destruct (decide (a = c)) as [->|Hac]; [|by apply Hpg, Hnone in Ha].
        rewrite Hc in Ha. injection Ha as <- <-. destruct Hne. split; [|done].
        by eapply (vi_roots _ _ Hv).
Qed.

(** A page comes into memory with what the process last saw there. *)
Lemma page_in_ok s own s' own' p root va c :
  vinv s own → live s p root → va_ok va → (∀ a, own a ≠ RPage root va) →
  tree_inv (mem s') (freelist s') own' →
  own' c = RPage root va → (∀ a r v, a ≠ c → own' a = RPage r v ↔ own a = RPage r v) →
  (∀ r v, own c ≠ RPage r v) →
  (∀ r, own r = RTab r 2 0 → own' r = RTab r 2 0) →
  (∀ a r v, own a = RPage r v → rdbytes (mem s') a PGSIZE = rdbytes (mem s) a PGSIZE) →
  rdbytes (mem s') c PGSIZE = user_page s p va →
  same_procs s s' →
  length (frame_table s') = MAX_FRAMES → (∀ i f, frame_table s' !! i = Some f → frame_ok s f) →
  user_frame_count s' = nused (frame_table s') → 0 ≤ clock_hand s' < Z.of_nat MAX_FRAMES →
  length (swap_map s') = MAX_SWAP → swap_used s' = s_used <$> swap_map s' →
  (∀ i e, s_used e = true → swap_map s' !! i = Some e ↔ swap_map s !! i = Some e ∧ ¬ is_entry p va e) →
  swapdev s' = swapdev s →
  vinv s' own' ∧ same_views s s'.
Proof.
  intros Hv Hl Hva Hno Ht Hc Hpg Hcno Hroots Hdata Hcont Hps Hflen Hfok Hcnt Hh Hslen Hsu Hent Hdev.
  destruct (page_map_ok s own s' own' p root va c) as (Hv' & Hnew & Hoth); [done..|].
  split; [done|]. intros q r v Hq Hvv. destruct (decide (q = p ∧ v = va)) as [[-> ->]|Hne]; [|by eapply Hoth].
  by rewrite Hnew.
Qed.

Lemma touch_frame_run s p va :
  ∃ ft, touch_frame p va s = Ok (tt, with_frame_table ft s) ∧ same_frames (frame_table s) ft.
Proof.
  unfold touch_frame. rewrite (bind_ok _ _ _ (frame_table s) s) by done.
  destruct (list_find _ _) as [[i f]|].
  - eexists. split; [by unfold upd_frame, modify|]. by apply same_frames_alter.
  - exists (frame_table s). split; [by destruct s|done].
Qed.

(** What a fault on page [va] of process [p] does.  [scarce]: at most one
    page of memory is free, too few for page tables. *)
Definition scarce (own : owners) : Prop := ∀ a b, own a = RFree → own b = RFree → a = b.

(** A step of the paging code for page [va] of the tree [root]: no view, no
    process and no trapframe changes, and at most that page becomes resident. *)
Record steady s (own : owners) s' (own' : owners) (root va : Z) : Prop := {
  st_views : same_views s s';
  st_procs : same_procs s s';
  st_cur : cur s' = cur s;
  st_pin : pinned s own s' own';
  st_pages : ∀ a r v, own' a = RPage r v → own a = RPage r v ∨ r = root ∧ v = va;
  st_settled : settled own own';
  st_new : from_memory s own s';
}.

Lemma paged_steady s own s' own' root va : paged s own s' own' → steady s own s' own' root va.
Proof. intros []. split; try done. intros a r v Ha. left. auto. Qed.

Lemma paged_steady_trans s1 o1 s2 o2 s3 o3 root va :
  paged s1 o1 s2 o2 → steady s2 o2 s3 o3 root va → steady s1 o1 s3 o3 root va.
Proof.
  intros Hpg [V P C K G T N]. split.
  - eapply same_views_trans; [apply Hpg|apply Hpg|done].
  - unfold same_procs in *. rewrite P. apply Hpg.
  - rewrite C. apply Hpg.
  - eapply pinned_trans; [apply Hpg|done].
  - intros a r v Ha. destruct (G a r v Ha) as [Ha2|?]; [left; by apply (pg_sub _ _ _ _ Hpg)|by right].
  - eapply settled_trans; [apply Hpg|done].
  - eapply from_memory_trans; [apply Hpg..|done].
Qed.

Lemma pinned_mapped s own s' own' c r :
  own c = RKern → grow (mem s) own (mem s') own' → pinned s own s' (give c r own').
Proof.
  intros Hc Hg a p Ha. rewrite give_ne by (intros ->; congruence). by apply (pinned_grow s own s' own').
Qed.

Lemma settled_mapped m own m' own' c root va :
  grow m own m' own' → settled own (give c (RPage root va) own').
Proof.
  intros Hg. eapply settled_trans; [by eapply settled_grow|]. apply (settled_page _ _ c); [by rewrite give_eq..|].
  intros b. apply give_ne.
Qed.

Definition fault_post s own (p : nat) (root va : Z) (r : Z) s' own' : Prop :=
  vinv s' own' ∧ steady s own s' own' root va ∧
  ((r ≠ 0 ∧ own' r = RPage root va ∧ rdbytes (mem s') r PGSIZE = user_page s p va) ∨
   (r = 0 ∧ (swap_full s' ∨ nused (frame_table s') = 0 ∨ scarce own'))).

Lemma user_perm_range : 0 ≤ user_perm < 1024.
Proof.
  unfold user_perm. destruct pte_bits as (_ & -> & -> & _ & ->). change (0 ≤ 22 < 1024). lia.
Qed.

Lemma proc_root s s' p x root :
  same_procs s s' → procs s !! p = Some x → p_pagetable x = root →
  ∃ x', procs s' !! p = Some x' ∧ p_pagetable x' = root.
Proof.
  intros Hps Hx Hr. destruct (same_procs_lookup _ _ _ _ Hps Hx) as (x' & Hx' & Hc).
  exists x'. split; [done|]. by rewrite (core_pagetable _ _ Hc).
Qed.

(** Mapping the page, or giving everything back. *)
Lemma map_or_free s own p x root va c :
  vinv s own → procs s !! p = Some x → p_pagetable x = root → root ≠ 0 → va_ok va →
  own c = RKern → (∀ a, own a ≠ RPage root va) →
  ∃ r m fl own1, mappages root va PGSIZE c user_perm s = Ok (r, with_mem m (with_freelist fl s)) ∧
    grow (mem s) own m own1 ∧
    ((r = 0 ∧ tree_inv m fl (give c (RPage root va) own1)) ∨
     (r = -1 ∧ ∃ s' own', free_user_frame p va c (with_mem m (with_freelist fl s)) = Ok (tt, s') ∧
        vinv s' own' ∧ paged s own s' own' ∧ scarce own')).
Proof.
  intros Hv Hx Hr Hr0 Hva Hc Hno. assert (live s p root) as Hl by (by exists x).
  destruct (mappages_one_ok s own root va c user_perm (vi_tree _ _ Hv) (vi_live _ _ Hv p root Hl)
    (proj1 Hva) (proj2 Hva) Hc Hno user_perm_range) as (r & m & fl & own1 & E & Hg & _ & Hcase).
  exists r, m, fl, own1. split_and!; [done..|]. destruct Hcase as [?|(-> & Ht & Hnf)]; [by left|right].
  split; [done|].
  destruct (paged_grow s own m fl own1 Hv Ht Hg) as [Hv1 Hpg1].
  assert (own1 c = RKern) as Hc1 by (rewrite (grow_kept _ _ _ _ Hg); congruence).
    destruct (free_user_frame_ok _ own1 p va c Hv1 Hc1) as (s' & E' & Hv' & Hpg').
    exists s', (give c RFree own1). split_and!; [done..|by eapply paged_trans|].
    intros a b Ha Hb. unfold give in Ha, Hb. repeat case_decide; subst; try done;
      first [by destruct (Hnf a)|by destruct (Hnf b)].
Qed.

Lemma grow_mapped own m own1 m1 c root va :
  grow m own m1 own1 → own c = RKern →
  (∀ a r v, a ≠ c → give c (RPage root va) own1 a = RPage r v ↔ own a = RPage r v) ∧
  (∀ r, own r = RTab r 2 0 → give c (RPage root va) own1 r = RTab r 2 0).
Proof.
  intros Hg Hc. split.
  - intros a r v Ha. rewrite give_ne by done. by eapply grow_page.
  - intros r Hr. rewrite give_ne by (intros ->; congruence). by eapply grow_tab.
Qed.

Lemma fault_swap_in_ok s own p x root va i e :
  vinv s own → procs s !! p = Some x → p_pagetable x = root → root ≠ 0 → va_ok va →
  (∀ a, own a ≠ RPage root va) → swap_map s !! i = Some e → is_entry p va e →
  ∃ r s' own', fault_swap_in p va i (s_slot e) s = Ok (r, s') ∧ fault_post s own p root va r s' own'.
Proof.
  intros Hv Hx Hr Hr0 Hva Hno Hi He. assert (live s p root) as Hl by (by exists x).
  destruct (kalloc_user_ok s own p va Hv ltac:(by exists x) Hva)
    as (c & s1 & own1 & E1 & Hv1 & Hpg1 & Hcase).
  unfold fault_swap_in. rewrite (bind_ok _ _ _ _ _ E1).
  destruct Hcase as [(Hc0 & Hc & _ & _)|(-> & Hfail)].
  2:{ exists 0, s1, own1. rewrite decide_True by done. split; [done|].
      split_and!; [done|by apply paged_steady|]. right. split; [done|]. tauto. }
  rewrite decide_False by done. pose proof He as (Hu & Hpe & Hve).
  destruct (vi_swap _ _ Hv i e Hi Hu) as (Hslot & _).
  assert (swap_map s1 !! i = Some e) as Hi1 by (by apply (pg_entries _ _ _ _ Hpg1)).
  assert (i < MAX_SWAP)%nat as Hlt by (apply lookup_lt_Some in Hi; by rewrite (vi_slen _ _ Hv) in Hi).
  destruct (swap_in_ok s1 own1 (s_slot e) c Hv1 Hc) as (s2 & E2 & Hv2 & Hpg2 & Hcont & _);
    [pose proof (vi_slots _ _ Hv); lia|].
  rewrite (bind_ok _ _ _ _ _ E2). rewrite decide_False by lia.
  assert (swap_map s2 !! i = Some e) as Hi2 by (by apply (pg_entries _ _ _ _ Hpg2)).
  pose proof (paged_trans _ _ _ _ _ _ Hpg1 Hpg2) as Hpg.
  destruct (proc_root s s2 p x root (pg_procs _ _ _ _ Hpg) Hx Hr) as (x2 & Hx2 & Hr2).
  rewrite (bind_ok _ _ _ _ _ (get_proc_ok s2 p x2 Hx2)).
  assert (∀ a, own1 a ≠ RPage root va) as Hno1 by (intros a Ha%(pg_sub _ _ _ _ Hpg1); by apply (Hno a)).
  assert (rdbytes (mem s2) c PGSIZE = user_page s p va) as Hcont2.
  { rewrite Hcont. rewrite <- (pg_views _ _ _ _ Hpg1 p root va Hl Hva).
    rewrite (user_page_swp s1 own1 p root va); [|apply Hv1|by apply (vi_live _ _ Hv1 p), (paged_live _ _ _ _ _ _ Hpg1)
      |by apply (paged_live _ _ _ _ _ _ Hpg1)|done|done].
    unfold swapped_page. by rewrite (swap_find_Some s1 p va i e (vi_suniq _ _ Hv1) Hi1 He). }
  rewrite Hr2. destruct (map_or_free s2 own1 p x2 root va c) as (r & m & fl & own2 & E3 & Hg & Hcase); [done..|].
  rewrite (bind_ok _ _ _ _ _ E3).
  destruct Hcase as [(-> & Ht)|(-> & s' & own' & E4 & Hv' & Hpg' & Hsc)].
  2:{ rewrite decide_True by done. rewrite (bind_ok _ _ _ _ _ E4). exists 0, s', own'. split; [done|].
      pose proof (paged_trans _ _ _ _ _ _ Hpg Hpg') as Hpg4. split_and!; [done|by apply paged_steady|]. right. tauto. }
  rewrite decide_False by lia. set (s3 := with_mem m (with_freelist fl s2)).
  destruct (touch_frame_run s3 p va) as (ft & E5 & Hsf). rewrite (bind_ok _ _ _ _ _ E5).
  assert (clear_swap_used (s_slot e) (with_frame_table ft s3) =
    Ok (tt, with_swap_used (<[i := false]> (swap_used s2)) (with_frame_table ft s3))) as E6.
  { unfold clear_swap_used. rewrite (bind_ok _ _ _ (swap_used s2) (with_frame_table ft s3)) by done.
    rewrite Hslot, aget_of_nat, aset_of_nat. destruct (lookup_lt_is_Some_2 (swap_used s2) i) as [b Hb].
    - rewrite (vi_used _ _ Hv2), length_fmap, (vi_slen _ _ Hv2). done.
    - by rewrite Hb. }
  rewrite (bind_ok _ _ _ _ _ E6). do 3 erewrite bind_ok by (by unfold upd_swap, upd_proc, modify).
  destruct (grow_mapped own1 (mem s2) own2 m c root va Hg Hc) as [Hpgs Hroots].
  set (s4 := with_procs (alter (λ x, set_p_resident_pages (i32 (p_resident_pages x + 1)) x) p
      (alter (λ x, set_p_pages_swapped_in (i32 (p_pages_swapped_in x + 1)) x) p (procs s2)))
    (with_swap_map (<[i := swap0]> (swap_map s2))
      (with_swap_used (<[i := false]> (swap_used s2)) (with_frame_table ft s3)))).
  exists c, s4, (give c (RPage root va) own2). split; [reflexivity|].
  assert (same_procs s2 s4) as Hps4 by (unfold same_procs; simpl; by rewrite !same_procs_alter).
  destruct (page_in_ok s2 own1 s4 (give c (RPage root va) own2) p root va c) as [Hv4 Hvw4]; try done.
  - by exists x2.
  - apply give_eq.
  - by rewrite Hc.
  - intros a r v Ha. simpl. apply (grow_data _ _ _ _ Hg). by rewrite Ha.
  - simpl. rewrite (grow_data _ _ _ _ Hg) by (by rewrite Hc). rewrite Hcont2. symmetry.
    by apply (pg_views _ _ _ _ Hpg p root).
  - simpl. rewrite <- (vi_flen _ _ Hv2). apply (f_equal length) in Hsf. by rewrite !length_fmap in Hsf.
  - simpl. eapply same_frames_ok; [done|]. apply Hv2.
  - simpl. rewrite (same_frames_nused _ _ Hsf). apply Hv2.
  - simpl. apply Hv2.
  - simpl. rewrite length_insert. apply Hv2.
  - simpl. rewrite list_fmap_insert. f_equal. apply Hv2.
  - simpl. intros j e' Hu'. destruct (decide (j = i)) as [->|Hne].
    + rewrite list_lookup_insert_eq by (by eapply lookup_lt_Some). split; [by intros [= <-]|].
      intros [Hj Hnot]. simplify_eq.
    + rewrite list_lookup_insert_ne by done. split; [|by intros [? _]]. intros Hj. split; [done|].
      intros He'. destruct Hne. by eapply (vi_suniq _ _ Hv2).
  - split_and!; [exact Hv4| |].
    + eapply (paged_steady_trans s own s2 own1); [done|]. split; try done.
      * by apply (pinned_mapped s2 own1 s4 own2).
      * intros a r v Ha. destruct (decide (a = c)) as [->|Hac].
        -- rewrite give_eq in Ha. right. by simplify_eq.
        -- left. by apply Hpgs in Ha.
      * by eapply settled_mapped.
      * intros j e' Hj Hu'. left. simpl in Hj. destruct (decide (j = i)) as [->|Hne].
        -- rewrite list_lookup_insert_eq in Hj by (by eapply lookup_lt_Some). by simplify_eq.
        -- by rewrite list_lookup_insert_ne in Hj.
    + left. split_and!; [done|apply give_eq|].
      simpl. rewrite (grow_data _ _ _ _ Hg) by (by rewrite Hc). done.
Qed.

(** Zeroing a page the kernel holds. *)
Lemma memset_kern_ok s own c :
  vinv s own → own c = RKern →
  ∃ s', memset c 0 PGSIZE s = Ok (tt, s') ∧ vinv s' own ∧ paged s own s' own ∧
    rdbytes (mem s') c PGSIZE = replicate pgsize 0.
Proof.
  intros Hv Hc. pose proof (tree_sane _ _ _ (vi_tree _ _ Hv)) as Hs.
  assert (page_addr c) as Hpc by (apply Hs; by rewrite Hc).
  exists (with_mem (fill (mem s) c 0 PGSIZE) (with_freelist (freelist s) s)).
  destruct (paged_write s own c (fill (mem s) c 0 PGSIZE) Hv Hc) as [Hv' Hpg]; [apply only_page_fill|].
  split_and!; [|done|done|apply rdbytes_fill].
    by rewrite memset_ok by (apply (page_ram c); [done|lia|lia]).
Qed.

Lemma fault_lazy_ok s own p x root va :
  vinv s own → procs s !! p = Some x → p_pagetable x = root → root ≠ 0 → va_ok va →
  (∀ a, own a ≠ RPage root va) → (∀ i e, swap_map s !! i = Some e → ¬ is_entry p va e) →
  ∃ r s' own', fault_lazy p va s = Ok (r, s') ∧ fault_post s own p root va r s' own'.
Proof.
  intros Hv Hx Hr Hr0 Hva Hno Hne. assert (live s p root) as Hl by (by exists x).
  assert (user_page s p va = replicate pgsize 0) as Hzero.
  { rewrite (user_page_swp s own p root va); [|apply Hv|by apply (vi_live _ _ Hv p)|done..].
    unfold swapped_page. by rewrite swap_find_None. }
  destruct (kalloc_user_ok s own p va Hv ltac:(by exists x) Hva)
    as (c & s1 & own1 & E1 & Hv1 & Hpg1 & Hcase).
  unfold fault_lazy. rewrite (bind_ok _ _ _ _ _ E1).
  destruct Hcase as [(Hc0 & Hc & _ & _)|(-> & Hfail)].
  2:{ exists 0, s1, own1. rewrite decide_True by done. split; [done|].
      split_and!; [done|by apply paged_steady|]. right. split; [done|]. tauto. }
  rewrite decide_False by done.
  destruct (memset_kern_ok s1 own1 c Hv1 Hc) as (s2 & E2 & Hv2 & Hpg2 & Hz).
  rewrite (bind_ok _ _ _ _ _ E2). pose proof (paged_trans _ _ _ _ _ _ Hpg1 Hpg2) as Hpg.
  destruct (proc_root s s2 p x root (pg_procs _ _ _ _ Hpg) Hx Hr) as (x2 & Hx2 & Hr2).
  rewrite (bind_ok _ _ _ _ _ (get_proc_ok s2 p x2 Hx2)).
  assert (∀ a, own1 a ≠ RPage root va) as Hno1 by (intros a Ha%(pg_sub _ _ _ _ Hpg1); by apply (Hno a)).
  rewrite Hr2. destruct (map_or_free s2 own1 p x2 root va c) as (r & m & fl & own2 & E3 & Hg & Hcase); [done..|].
  rewrite (bind_ok _ _ _ _ _ E3).
  destruct Hcase as [(-> & Ht)|(-> & s' & own' & E4 & Hv' & Hpg' & Hsc)].
  2:{ rewrite decide_True by done. rewrite (bind_ok _ _ _ _ _ E4). exists 0, s', own'. split; [done|].
      pose proof (paged_trans _ _ _ _ _ _ Hpg Hpg') as Hpg4. split_and!; [done|by apply paged_steady|]. right. tauto. }
  rewrite decide_False by lia. set (s3 := with_mem m (with_freelist fl s2)).
  destruct (touch_frame_run s3 p va) as (ft & E5 & Hsf). rewrite (bind_ok _ _ _ _ _ E5).
  erewrite bind_ok by (by unfold upd_proc, modify).
  destruct (grow_mapped own1 (mem s2) own2 m c root va Hg Hc) as [Hpgs Hroots].
  set (s4 := with_procs (alter (λ x, set_p_resident_pages (i32 (p_resident_pages x + 1)) x) p (procs s2))
    (with_frame_table ft s3)).
  exists c, s4, (give c (RPage root va) own2). split; [reflexivity|].
  assert (same_procs s2 s4) as Hps4 by (unfold same_procs; simpl; by rewrite !same_procs_alter).
  assert (rdbytes (mem s4) c PGSIZE = user_page s p va) as Hcont.
  { simpl. rewrite (grow_data _ _ _ _ Hg) by (by rewrite Hc). by rewrite Hz. }
  assert (live s2 p root) as Hl2 by (by exists x2).
  assert (∀ i e, swap_map s2 !! i = Some e → ¬ is_entry p va e) as Hne2.
  { intros i e Hi He. pose proof He as (Hu & Hp & Hev).
    destruct (pg_new _ _ _ _ Hpg i e Hi Hu) as [Hi0|(q & r & a & Hq & Hlq & Ha)]; [by apply (Hne i e)|].
    assert (q = p) as -> by congruence. rewrite Hev in Ha.
    destruct Hlq as (x' & Hx' & Hxr & _). assert (r = root) as -> by congruence. by apply (Hno a). }
  destruct (page_in_ok s2 own1 s4 (give c (RPage root va) own2) p root va c) as [Hv4 Hvw4]; try done.
  - apply give_eq.
  - by rewrite Hc.
  - intros a r v Ha. simpl. apply (grow_data _ _ _ _ Hg). by rewrite Ha.
  - rewrite Hcont. symmetry. by apply (pg_views _ _ _ _ Hpg p root).
  - simpl. rewrite <- (vi_flen _ _ Hv2). apply (f_equal length) in Hsf. by rewrite !length_fmap in Hsf.
  - simpl. eapply same_frames_ok; [done|]. apply Hv2.
  - simpl. rewrite (same_frames_nused _ _ Hsf). apply Hv2.
  - simpl. apply Hv2.
  - simpl. apply Hv2.
  - simpl. apply Hv2.
  - simpl. intros i e Hu. split; [|by intros [? _]]. intros Hi. split; [done|]. by eapply Hne2.
  - split_and!; [exact Hv4| |].
    + eapply (paged_steady_trans s own s2 own1); [done|]. split; try done.
      * by apply (pinned_mapped s2 own1 s4 own2).
      * intros a r v Ha. destruct (decide (a = c)) as [->|Hac].
        -- rewrite give_eq in Ha. right. by simplify_eq.
        -- left. by apply Hpgs in Ha.
      * by eapply settled_mapped.
      * by left.
    + left. split_and!; [done|apply give_eq|done].
Qed.

Lemma list_find_entry s p va :
  match list_find (is_entry p va) (swap_map s) with
  | Some (i, e) => swap_map s !! i = Some e ∧ is_entry p va e
  | None => ∀ i e, swap_map s !! i = Some e → ¬ is_entry p va e
  end.
Proof.
  destruct (list_find _ _) as [[i e]|] eqn:E.
  - apply list_find_Some in E as (? & ? & _). done.
  - apply list_find_None in E. rewrite Forall_lookup in E. exact E.
Qed.

Lemma PGROUNDDOWN_ok va : 0 ≤ va < TRAPFRAME → va_ok (PGROUNDDOWN va).
Proof.
  intros Hva. unfold PGROUNDDOWN, va_ok. pose proof PGSIZE_4096.
  pose proof (Z.div_mod va PGSIZE). pose proof (Z.mod_pos_bound va PGSIZE).
  split; [|by exists (va / PGSIZE)]. split; [apply Z.mul_nonneg_nonneg; [apply Z.div_pos|]|]; lia.
Qed.

(** Updates of processes that keep their page tables. *)
Definition same_roots (ps ps' : list proc) : Prop := p_pagetable <$> ps' = p_pagetable <$> ps.

Lemma same_roots_alter (l : list proc) p g :
  (∀ x, p_pagetable (g x) = p_pagetable x) → same_roots l (alter g p l).
Proof.
  intros Hg. apply list_eq. intros j. rewrite !list_lookup_fmap.
  destruct (decide (j = p)) as [->|]; [rewrite list_lookup_alter_eq|by rewrite list_lookup_alter_ne].
  destruct (l !! p); simpl; by rewrite ?Hg.
Qed.

Lemma roots_lookup ps ps' p x :
  same_roots ps ps' → ps !! p = Some x → ∃ y, ps' !! p = Some y ∧ p_pagetable y = p_pagetable x.
Proof.
  intros Hp Hx. assert ((p_pagetable <$> ps') !! p = (p_pagetable <$> ps) !! p) as Hl by by rewrite Hp.
  rewrite !list_lookup_fmap, Hx in Hl. apply fmap_Some in Hl as (y & ? & ?). by exists y.
Qed.

Lemma live_roots s ps p root : same_roots (procs s) ps → live s p root ↔ live (with_procs ps s) p root.
Proof.
  intros Hps. split; intros (x & Hx & Hr & Hz).
  - destruct (roots_lookup _ _ _ _ Hps Hx) as (y & Hy & Hc). exists y. split_and!; [done|congruence|done].
  - destruct (roots_lookup ps (procs s) p x) as (y & Hy & Hc); [by symmetry|done|].
    exists y. split_and!; [done|congruence|done].
Qed.

Lemma vinv_procs s own ps :
  vinv s own → same_roots (procs s) ps →
  vinv (with_procs ps s) own ∧ same_views s (with_procs ps s).
Proof.
  intros Hv Hps. assert (∀ q, is_Some (procs s !! q) → is_Some (ps !! q)) as Hsome.
  { intros q [x Hx]. destruct (roots_lookup _ _ _ _ Hps Hx) as (y & Hy & _). by exists y. }
  split.
  - split; try apply Hv.
    + intros q r Hq. apply (vi_live _ _ Hv q). by apply (live_roots s ps).
    + intros q1 q2 r Hq1 Hq2. apply (vi_roots _ _ Hv q1 q2 r); by apply (live_roots s ps).
    + intros i f Hf Hu. destruct (vi_frames _ _ Hv i f Hf Hu) as (? & ? & q & ? & ?). split_and!; [done..|].
      exists q. split; [done|]. by apply Hsome.
    + intros i e Hi Hu. destruct (vi_swap _ _ Hv i e Hi Hu) as (? & ? & q & r & ? & ? & ?). split_and!; [done..|].
      exists q, r. split_and!; [done|by apply (live_roots s ps)|done].
  - intros q r v Hq Hvv. unfold user_page. destruct Hq as (x & Hx & Hr & _). rewrite Hx. simpl.
    destruct (roots_lookup _ _ _ _ Hps Hx) as (y & -> & Hc). by rewrite Hc.
Qed.

(** Counting a fault changes no memory. *)
Lemma upd_proc_ok s own p g :
  vinv s own → (∀ x, core (g x) = core x) →
  vinv (with_procs (alter g p (procs s)) s) own ∧ paged s own (with_procs (alter g p (procs s)) s) own.
Proof.
  intros Hv Hg. destruct (vinv_procs s own (alter g p (procs s)) Hv) as [Hv' Hvw].
  { apply same_roots_alter. intros x. apply core_pagetable, Hg. }
  split; [done|]. split; try done; [by apply same_procs_alter|by left].
Qed.

(** [vmfault] on an address of the running process. *)
Lemma vmfault_ok s own p x root va rd :
  vinv s own → cur s = Some p → procs s !! p = Some x → p_pagetable x = root → root ≠ 0 →
  0 ≤ va < p_sz x → p_sz x ≤ TRAPFRAME →
  ∃ r s' own', vmfault root va rd s = Ok (r, s') ∧ vinv s' own' ∧
    steady s own s' own' root (PGROUNDDOWN va) ∧
    ((r ≠ 0 ∧ own' r = RPage root (PGROUNDDOWN va) ∧
        rdbytes (mem s') r PGSIZE = user_page s p (PGROUNDDOWN va)) ∨
     (r = 0 ∧ ((∃ pte, leaf_at own' root (PGROUNDDOWN va) pte ∧ Z.land (rd64 (mem s') pte) PTE_U = 0) ∨
        swap_full s' ∨ nused (frame_table s') = 0 ∨ scarce own'))).
Proof.
  intros Hv Hcur Hx Hr Hr0 Hva Hsz. assert (live s p root) as Hl by (by exists x).
  pose proof (PGROUNDDOWN_ok va ltac:(lia)) as Hvd. set (vd := PGROUNDDOWN va) in *.
  unfold vmfault. rewrite (bind_ok _ _ _ (Some p) s) by (by unfold gets; rewrite Hcur).
  rewrite (bind_ok _ _ _ _ _ (get_proc_ok s p x Hx)). rewrite decide_False by lia. fold vd.
  destruct (ismapped_ok s own root vd (vi_tree _ _ Hv) (vi_live _ _ Hv p root Hl) Hvd)
    as [[E [a Ha]]|[E Hno]]; rewrite (bind_ok _ _ _ _ _ E).
  - destruct (touch_frame_ok s own p vd Hv) as (ft & E1 & Hv1 & _). rewrite (bind_ok _ _ _ _ _ E1).
    destruct (walkaddr_ok (with_frame_table ft s) own root vd a (vi_tree _ _ Hv1) (vi_live _ _ Hv p root Hl) Hvd Ha)
      as (r & E2 & Hr').
    exists r, (with_frame_table ft s), own. split_and!; [done|done|by apply paged_steady, paged_frames|].
    assert (page_addr a) as Hpa by (apply (tree_sane _ _ _ (vi_tree _ _ Hv)); by rewrite Ha).
    pose proof (page_addr_pos a Hpa). destruct Hr' as [->|[-> ?]]; [left|right; by eauto].
    split_and!; [lia|done|]. symmetry. apply (user_page_res s own p root vd a); [apply Hv|by apply (vi_live _ _ Hv p)|done..].
  - set (g := λ x : proc, set_p_page_faults (i32 (p_page_faults x + 1)) x).
    destruct (upd_proc_ok s own p g Hv ltac:(done)) as [Hv1 Hpg1].
    set (s1 := with_procs (alter g p (procs s)) s) in *.
    rewrite (bind_ok _ _ _ tt s1) by done. rewrite (bind_ok _ _ _ (swap_map s1) s1) by done.
    destruct (proc_root s s1 p x root (pg_procs _ _ _ _ Hpg1) Hx Hr) as (x1 & Hx1 & Hr1).
    assert (∀ r s' own', fault_post s1 own p root vd r s' own' → vinv s' own' ∧ steady s own s' own' root vd ∧
      ((r ≠ 0 ∧ own' r = RPage root vd ∧ rdbytes (mem s') r PGSIZE = user_page s p vd) ∨
       (r = 0 ∧ ((∃ pte, leaf_at own' root vd pte ∧ Z.land (rd64 (mem s') pte) PTE_U = 0) ∨ swap_full s' ∨ nused (frame_table s') = 0 ∨ scarce own'))))
      as Hpost.
    { intros r s' own' (Hv' & Hst & Hc). split_and!; [done|by eapply paged_steady_trans|].
      destruct Hc as [(? & ? & Hc)|(? & ?)]; [left|right; tauto]. split_and!; [done..|].
      rewrite Hc. by apply (pg_views _ _ _ _ Hpg1 p root). }
    pose proof (list_find_entry s1 p vd) as Hf.
    destruct (list_find (is_entry p vd) (swap_map s1)) as [[i e]|].
    + destruct Hf as [Hi He].
      destruct (fault_swap_in_ok s1 own p x1 root vd i e) as (r & s' & own' & E2 & Hp2); [done..|].
      exists r, s', own'. split; [done|]. by apply Hpost.
    + destruct (fault_lazy_ok s1 own p x1 root vd) as (r & s' & own' & E2 & Hp2); [done..|].
      exists r, s', own'. split; [done|]. by apply Hpost.
Qed.

(** ** The invariant without the ownership map *)
Definition vm_ok s : Prop := ∃ own, vinv s own.

(** The leaf entry for [va], read the way the hardware does. *)
Definition pt_entry (m : memory) (root va : Z) : option Z :=
  p1 ← pt_step m 2 root va; p0 ← pt_step m 1 p1 va; Some (rd64 m (p0 + 8 * PX 0 va)).

Lemma pt_entry_leaf m fl own root va pte :
  tree_inv m fl own → own root = RTab root 2 0 → va_ok va → leaf_at own root va pte →
  pt_entry m root va = Some (rd64 m pte).
Proof.
  intros [_ Hp] Hroot Hva (b & pre & Hb & -> & Hsplit').
  pose proof (PX_split va (va_ok_max va Hva)) as Hsplit.
  pose proof (PX_range 0 va). pose proof (PX_range 1 va). pose proof (PX_range 2 va).
  assert (pre = PX 2 va * 512 + PX 1 va) as -> by lia.
  destruct (pt_parent _ _ Hp _ _ _ _ Hb) as (b1 & p1 & i1 & Hb1 & Hi1 & He1 & [Hv1 Hpt1]); [lia|].
  assert (i1 = PX 1 va) as -> by lia. assert (p1 = PX 2 va) as -> by lia.
  destruct (pt_parent _ _ Hp _ _ _ _ Hb1) as (b2 & p2 & i2 & Hb2 & Hi2 & He2 & [Hv2 Hpt2]); [lia|].
  destruct (pt_root _ _ Hp _ _ _ _ Hb2) as [_ Hr]. destruct Hr as [-> ->]; [done|].
  assert (i2 = PX 2 va) as -> by lia.
  unfold pt_entry, pt_step, entry in *. rewrite Hv2. simpl. rewrite Hpt2, Hv1. simpl. by rewrite Hpt1.
Qed.

(** The free list holds at most one page. *)
Definition out_of_memory s : Prop := ∃ l, chain (mem s) (freelist s) l ∧ (length l ≤ 1)%nat.

Lemma scarce_memory s own : vinv s own → scarce own → out_of_memory s.
Proof.
  intros Hv Hsc. destruct (vi_tree _ _ Hv) as [[_ (l & Hc & Hnd & Hl)] _]. exists l. split; [done|].
  destruct l as [|a [|b l]]; simpl; [lia|lia|]. exfalso.
  apply NoDup_cons in Hnd as [Hnd _]. apply Hnd.
  assert (a = b) as ->; [|set_solver]. apply Hsc; apply Hl; set_solver.
Qed.

Lemma free_list_head s own c : vinv s own → own c = RFree → freelist s ≠ 0.
Proof.
  intros Hv Hc. destruct (vi_tree _ _ Hv) as [[_ (l & Hch & _ & Hl)] _].
  destruct l as [|a l]; [apply Hl in Hc; by apply elem_of_nil in Hc|]. by destruct Hch as (-> & ? & _).
Qed.
End fault.
