(* ===== verification/Boot.v ===== *)
(** * Boot: [kinit] and the first address space

    [kinit] (kalloc.c:236-268) puts every page of RAM above the kernel on the
    free list and clears the tables; [uvmcreate] makes an empty tree. *)
From S2P Require Import Prelude Interfaces Mem KState Kmem PageTable Frames Paging.
Local Open Scope Z_scope.

Section boot.
Context `{Sv39} {D : Type} `{!SwapDev D} `{!SwapDevSpec D}.
Implicit Types s : kernel D.

(** [own] gives out no page of [lo, ...). *)
Definition untouched (lo : Z) (own : owners) : Prop := ∀ a, lo ≤ a → own a = RNone.
Definition only_free (own : owners) : Prop := ∀ a, own a = RNone ∨ own a = RFree.
(** The same with pages the kernel took for itself. *)
Definition no_users (own : owners) : Prop := ∀ a, own a = RNone ∨ own a = RFree ∨ own a = RKern.

Lemma freerange_loop_ok fuel s own p :
  kmem_inv (mem s) (freelist s) own → only_free own → untouched p own →
  (PGSIZE | p) → kend ≤ p → (PHYSTOP - p) / PGSIZE ≤ Z.of_nat fuel →
  ∃ m fl own', freerange_loop fuel p PHYSTOP s = Ok (tt, with_mem m (with_freelist fl s)) ∧
    kmem_inv m fl own' ∧ only_free own' ∧
    (∀ a, own' a = RFree ↔ own a = RFree ∨ (page_addr a ∧ p ≤ a)).
Proof.
  pose proof PGSIZE_4096 as Hpg. revert s own p. induction fuel as [|fuel IH]; intros s own p Hk Hof Hun Hal Hp Hf.
  - simpl. rewrite decide_False.
    2:{ intros Hle. assert (1 ≤ (PHYSTOP - p) / PGSIZE) by (apply Z.div_le_lower_bound; lia). lia. }
    exists (mem s), (freelist s), own. split_and!; [by destruct s|done..|]. intros a. split; [by left|].
    intros [?|((_ & _ & Ha) & Hpa)]; [done|]. exfalso.
    assert (1 ≤ (PHYSTOP - p) / PGSIZE) by (apply Z.div_le_lower_bound; lia). lia.
  - simpl. case_decide as Hle.
    2:{ exists (mem s), (freelist s), own. split_and!; [by destruct s|done..|]. intros a. split; [by left|].
        intros [?|((_ & _ & Ha) & Hpa)]; [done|]. lia. }
    assert (page_addr p) as Hpp by (split_and!; [done|lia|lia]).
    destruct (kfree_page s own p Hk Hpp) as (m1 & E & _ & Hk1); [by rewrite Hun by lia|].
    rewrite (bind_ok _ _ _ _ _ E).
    destruct (IH (with_mem m1 (with_freelist p s)) (give p RFree own) (p + PGSIZE)) as (m & fl & own' & E' & Hk' & Hof' & Hiff).
    + done.
    + intros a. unfold give. case_decide; [by right|apply Hof].
    + intros a Ha. rewrite give_ne by lia. apply Hun. lia.
    + apply Z.divide_add_r; [done|by exists 1; lia].
    + lia.
    + replace (PHYSTOP - (p + PGSIZE)) with (PHYSTOP - p + (-1) * PGSIZE) by lia.
      rewrite Z.div_add by lia. lia.
    + exists m, fl, own'. split_and!; [done..|]. intros a. rewrite Hiff. unfold give. case_decide as Hap.
      * subst. split; [right; split; [done|lia]|by left].
      * split; [intros [?|[? ?]]; [by left|right; split; [done|lia]]|].
        intros [?|[Ha Hpa]]; [by left|]. right. split; [done|].
        destruct (pages_apart p a Hpp Ha); [done|lia|lia].
Qed.

Lemma only_free_pt m own : only_free own → pt_inv m own.
Proof.
  intros Hof. split.
  - intros b root l pre i a Hb. destruct (Hof b); congruence.
  - intros b root pre i a Hb. destruct (Hof b); congruence.
  - intros a root l pre Ha. destruct (Hof a); congruence.
  - intros a root l pre Ha. destruct (Hof a); congruence.
  - intros a root va Ha. destruct (Hof a); congruence.
  - intros b root l pre i a Hb. destruct (Hof b); congruence.
  - intros b root pre i a Hb. destruct (Hof b); congruence.
  - intros a root va Ha. destruct (Hof a); congruence.
Qed.

Lemma PGROUNDUP_ok a : 0 ≤ a < 2 ^ 63 →
  a ≤ PGROUNDUP a < a + PGSIZE ∧ (PGSIZE | PGROUNDUP a) ∧ (∀ b, (PGSIZE | b) → a ≤ b → PGROUNDUP a ≤ b).
Proof.
  intros Ha. unfold PGROUNDUP. pose proof PGSIZE_4096 as Hpg. rewrite u64_id by lia.
  pose proof (Z.div_mod (a + PGSIZE - 1) PGSIZE) as Hd.
  pose proof (Z.mod_pos_bound (a + PGSIZE - 1) PGSIZE) as Hm.
  split_and!; [lia|lia|by eexists|]. intros b [k ->] Hle.
  apply Z.mul_le_mono_nonneg_r; [lia|]. apply Z.lt_succ_r.
  apply Z.div_lt_upper_bound; lia.
Qed.

(** [kinit]: all of the memory above the kernel is free, nothing is mapped or
    swapped out. *)
Lemma kinit_ok s :
  freelist s = 0 → Forall (λ x, p_pagetable x = 0) (procs s) →
  dev_inv (swapdev s) → Z.of_nat MAX_SWAP ≤ dev_slots →
  ∃ s' own, kinit s = Ok (tt, s') ∧ vinv s' own ∧ procs s' = procs s ∧ swapdev s' = swapdev s ∧
    cur s' = cur s ∧ (∀ a, own a = RFree ↔ page_addr a) ∧ only_free own.
Proof.
  intros Hfl Hps Hdev Hslots. pose proof PGSIZE_4096 as Hpg. pose proof kend_range. pose proof KERNBASE_pos.
  pose proof PHYSTOP_range. destruct (PGROUNDUP_ok kend) as (Hup & Hal & Hmin); [lia|].
  destruct (freerange_loop_ok (Z.to_nat ((PHYSTOP - kend) / PGSIZE)) s (λ _, RNone) (PGROUNDUP kend))
    as (m & fl & own & E & Hk & Hof & Hiff).
  - split; [done|]. exists []. split_and!; [done|apply NoDup_nil_2|]. intros a. split; [by intros ?%elem_of_nil|done].
  - intros a. by left.
  - done.
  - done.
  - lia.
  - pose proof (Z.div_pos (PHYSTOP - kend) PGSIZE). rewrite Z2Nat.id by lia. apply Z.div_le_mono; lia.
  - eexists _, own. split.
    { unfold kinit, freerange. rewrite (bind_ok _ _ _ _ _ E).
      do 4 erewrite bind_ok by (by unfold modify). by unfold modify. }
    assert (∀ p root, ¬ ∃ x, procs s !! p = Some x ∧ p_pagetable x = root ∧ root ≠ 0) as Hdead.
    { intros p root (x & Hx & Hr & Hr0). rewrite Forall_lookup in Hps. rewrite (Hps p x Hx) in Hr. congruence. }
    split; [split|split_and!; try done].
    + split; [done|by apply only_free_pt].
    + intros p root Hl. by destruct (Hdead p root).
    + intros p q root Hl. by destruct (Hdead p root).
    + done.
    + intros i f Hf. change (replicate MAX_FRAMES frame0 !! i = Some f) in Hf.
      apply lookup_replicate in Hf as [-> _]. done.
    + done.
    + done.
    + done.
    + change (replicate MAX_SWAP false = s_used <$> replicate MAX_SWAP swap0). by rewrite fmap_replicate.
    + intros i e He. change (replicate MAX_SWAP swap0 !! i = Some e) in He.
      apply lookup_replicate in He as [-> _]. done.
    + intros i j e e' p va He _ (Hu & _). change (replicate MAX_SWAP swap0 !! i = Some e) in He.
      apply lookup_replicate in He as [-> _]. done.
    + done.
    + done.
    + intros a. rewrite Hiff. split; [intros [?|[? _]]; done|]. intros Ha. right. split; [done|].
      destruct Ha as (? & ? & ?). by apply Hmin.
Qed.

(** [uvmcreate]: a tree with nothing in it. *)
Lemma uvmcreate_ok s own :
  vinv s own →
  (uvmcreate s = Ok (0, s) ∧ ∀ a, own a ≠ RFree) ∨
  ∃ root s', root ≠ 0 ∧ own root = RFree ∧ uvmcreate s = Ok (root, s') ∧
    vinv s' (give root (RTab root 2 0) own) ∧ viewed s own s' (give root (RTab root 2 0) own) ∧
    procs s' = procs s ∧ (∀ p r, live s p r → r ≠ root) ∧ ∃ m fl, s' = with_mem m (with_freelist fl s).
Proof.
  intros Hv. pose proof (vi_tree _ _ Hv) as Ht. pose proof (tree_sane _ _ _ Ht) as Hs.
  destruct (kalloc_tree s own Ht) as [(_ & Hno & E)|(c & fl & m1 & Hc & Hc0 & E & Ho & Ht1)].
  { left. split; [|done]. unfold uvmcreate. rewrite (bind_ok _ _ _ _ _ E). by rewrite decide_True. }
  right. assert (page_addr c) as Hpc by (apply Hs; by rewrite Hc).
  set (m2 := fill m1 c 0 PGSIZE).
  assert (tree_inv m2 fl (give c RKern own)) as Ht2.
  { eapply (tree_write _ _ _ c _ Ht1); [by rewrite give_eq|apply only_page_fill]. }
  assert (∀ a, give c (RTab c 2 0) (give c RKern own) a = give c (RTab c 2 0) own a) as Hgg.
  { intros a. unfold give. by case_decide. }
  assert (tree_inv m2 fl (give c (RTab c 2 0) own)) as Ht3.
  { destruct Ht2 as [Hk2 Hp2]. split.
    - destruct (kmem_give m2 fl _ c (RTab c 2 0) Hk2) as [Hk3 (l & Hk4)]; [by rewrite give_eq..|done|].
      split; [intros a; rewrite <- Hgg; apply Hk3|]. exists l. setoid_rewrite <- Hgg. done.
    - assert (∀ i a, 0 ≤ i < 512 → ¬ points m2 c i a) as Hz.
      { intros i a Hi [Hv' _]. destruct (entry_in c i Hpc Hi). unfold entry, m2 in Hv'.
        by rewrite rd64_fill, valid_pte_0 in Hv'. }
      assert (∀ a r l p, own a = RTab r l p → a ≠ c) as Htc by (intros a r l p Ha ->; congruence).
      assert (∀ a r v, own a = RPage r v → a ≠ c) as Hpc' by (intros a r v Ha ->; congruence).
      assert (pt_inv m2 own) as [N L R P G F U W].
      { apply (pt_only_page (mem s) _ own c); [apply Ht|done|done|by rewrite Hc|].
        eapply only_page_trans; [done|apply only_page_fill]. }
      split.
      + intros b r l pre i a Hb Hi Hpt. unfold give in Hb. case_decide as Hbc.
        { subst. by destruct (Hz i a). }
        pose proof (N _ _ _ _ _ _ Hb Hi Hpt) as Hx. rewrite give_ne; eauto.
      + intros b r pre i a Hb Hi Hpt Hlt. unfold give in Hb. case_decide; [done|].
        pose proof (L _ _ _ _ _ Hb Hi Hpt Hlt) as Hx. rewrite give_ne; eauto.
      + intros a r l pre Ha. unfold give in Ha. case_decide; [simplify_eq; done|eauto].
      + intros a r l pre Ha Hl. unfold give in Ha. case_decide; [simplify_eq; lia|].
        destruct (P a r l pre Ha Hl) as (b & p & i & Hb & ?). exists b, p, i. rewrite give_ne; eauto.
      + intros a r va Ha. unfold give in Ha. case_decide; [done|].
        destruct (G a r va Ha) as (b & p & i & Hb & ?). exists b, p, i. rewrite give_ne; eauto.
      + intros b r l pre i a Hb Hi Hpt. unfold give in Hb. case_decide; [subst; by destruct (Hz i a)|eauto].
      + intros b r pre i a Hb Hi Hpt. unfold give in Hb. case_decide; [done|eauto].
      + intros a r va Ha. unfold give in Ha. case_decide; [done|eauto]. }
  exists c, (with_mem m2 (with_freelist fl s)).
  destruct (viewed_root s own m2 fl c Hv) as [Hv' Hpg]; [done| |done|].
  { eapply only_page_trans; [done|apply only_page_fill]. }
  split_and!; [done..| |done|done|done| |by eexists _, _].
  - unfold uvmcreate. rewrite (bind_ok _ _ _ _ _ E). rewrite decide_False by done.
      erewrite bind_ok; [done|]. by rewrite memset_ok by (apply (page_ram c); [done|lia|lia]).
  - intros p r Hl ->. pose proof (vi_live _ _ Hv p c Hl). congruence.
Qed.

(** A process takes a new tree as its page table. *)
Lemma assign_root_ok s own p x root :
  vinv s own → own root = RTab root 2 0 → root ≠ 0 → (∀ q r, live s q r → r ≠ root) →
  procs s !! p = Some x → p_pagetable x = 0 →
  vinv (with_procs (alter (set_p_pagetable root) p (procs s)) s) own.
Proof.
  intros Hv Hown Hr0 Hfresh Hx Hx0. set (s' := with_procs _ s).
  assert (∀ q r, live s' q r ↔ live s q r ∨ (q = p ∧ r = root)) as Hlive.
  { intros q r. unfold live, s'. simpl. destruct (decide (q = p)) as [->|Hne].
    - rewrite list_lookup_alter_eq, Hx. simpl. split.
      + intros (y & [= <-] & <- & _). by right.
      + intros [(y & [= <-] & <- & ?)|[_ ->]]; [done|]. by exists (set_p_pagetable root x).
    - rewrite list_lookup_alter_ne by done. split; [by left|]. intros [?|[? _]]; done. }
  assert (∀ q, is_Some (procs s !! q) → is_Some (procs s' !! q)) as Hsome.
  { intros q [y Hy]. simpl. destruct (decide (q = p)) as [->|]; [rewrite list_lookup_alter_eq, Hy|
      rewrite list_lookup_alter_ne by done]; eauto. }
  split; try apply Hv.
  - intros q r [Hq|[-> ->]]%Hlive; [by apply (vi_live _ _ Hv q)|done].
  - intros q1 q2 r [H1'|[-> ->]]%Hlive [H2'|[-> Hr]]%Hlive.
    + by eapply (vi_roots _ _ Hv).
    + subst. by destruct (Hfresh q1 root).
    + by destruct (Hfresh q2 root).
    + done.
  - intros i f Hf Hu. destruct (vi_frames _ _ Hv i f Hf Hu) as (? & ? & q & ? & ?). split_and!; [done..|].
    exists q. auto.
  - intros i e Hi Hu. destruct (vi_swap _ _ Hv i e Hi Hu) as (? & ? & q & r & ? & ? & ?).
    split_and!; [done..|]. exists q, r. split_and!; [done| |done]. apply Hlive. by left.
Qed.
End boot.
