(* ===== verification/Clock.v ===== *)
(** * The clock prefers low-priority processes (kernel/kalloc.c:71-116)

    Two turns of the clock clear and then see every frame, so the victim
    belongs to a process of the largest MLFQ level of any owner. *)
From S2P Require Import Prelude Interfaces Mem KState Frames Paging.
Local Open Scope Z_scope.

Section clock.
Context `{Sv39} {D : Type} `{!SwapDev D} `{!SwapDevSpec D}.
Implicit Types s : kernel D.

(** The MLFQ level of the owner of a frame. *)
Definition frame_level s (f : frame) : Z :=
  match f_proc f with
  | Some p => match procs s !! p with Some x => p_level x | None => 0 end
  | None => 0
  end.

(** [o] is a frame in use whose level is at least [v]. *)
Definition picks s (o : option nat) (v : Z) : Prop :=
  ∃ i f, o = Some i ∧ frame_table s !! i = Some f ∧ f_used f = true ∧ v ≤ frame_level s f.

Definition levels_ok s : Prop := ∀ p x, procs s !! p = Some x → 0 ≤ p_level x ≤ 3.

(** The rounds until the hand reaches frame [j]. *)
Definition dist s (j : nat) : Z := (Z.of_nat j - clock_hand s) mod Z.of_nat MAX_FRAMES.

(** Frame [j] is looked at with its reference bit clear within [n] rounds. *)
Definition seen s (n : nat) (j : nat) (f : frame) : Prop :=
  dist s j + (if f_ref f then Z.of_nat MAX_FRAMES else 0) < Z.of_nat n.

Lemma dist_hand s j :
  0 ≤ clock_hand s < Z.of_nat MAX_FRAMES → (j < MAX_FRAMES)%nat →
  let h1 := (clock_hand s + 1) mod Z.of_nat MAX_FRAMES in
  (j = Z.to_nat (clock_hand s) ∧ dist s j = 0 ∧ (Z.of_nat j - h1) mod Z.of_nat MAX_FRAMES = 19) ∨
  (j ≠ Z.to_nat (clock_hand s) ∧ 0 < dist s j ∧
   (Z.of_nat j - h1) mod Z.of_nat MAX_FRAMES = dist s j - 1).
Proof.
  unfold dist, MAX_FRAMES. change (Z.of_nat 20) with 20. intros Hh Hj. cbv zeta.
  destruct (decide (j = Z.to_nat (clock_hand s))) as [->|Hne].
  - left. rewrite Z2Nat.id by lia. rewrite Z.sub_diag. split_and!; [done|done|].
    destruct (decide (clock_hand s = 19)) as [->|]; [done|].
    rewrite (Z.mod_small (clock_hand s + 1)) by lia.
    rewrite <- (Z.mod_add _ 1 20) by lia. rewrite Z.mod_small by lia. lia.
  - right. assert (Z.of_nat j ≠ clock_hand s) by lia. split; [done|].
    destruct (decide (clock_hand s = 19)) as [Heq|Hlt].
    + rewrite Heq in *. change ((19 + 1) mod 20) with 0. rewrite Z.sub_0_r, (Z.mod_small (Z.of_nat j)) by lia.
      rewrite <- (Z.mod_add (Z.of_nat j - 19) 1 20) by lia. rewrite Z.mod_small by lia. lia.
    + rewrite (Z.mod_small (clock_hand s + 1)) by lia. destruct (decide (Z.of_nat j < clock_hand s)).
      * rewrite <- (Z.mod_add (Z.of_nat j - clock_hand s) 1 20), <- (Z.mod_add (Z.of_nat j - (clock_hand s + 1)) 1 20) by lia.
        rewrite !Z.mod_small by lia. lia.
      * rewrite !Z.mod_small by lia. lia.
Qed.

Lemma frame_level_id s f f' : frame_id f' = frame_id f → frame_level s f' = frame_level s f.
Proof. intros [= _ _ Hp _]. unfold frame_level. by rewrite Hp. Qed.

Lemma scan_max n best bl s :
  length (frame_table s) = MAX_FRAMES → 0 ≤ clock_hand s < Z.of_nat MAX_FRAMES →
  (∀ i f, frame_table s !! i = Some f → frame_ok s f) → levels_ok s →
  (best = None ∧ bl = -1) ∨ picks s best bl →
  ∃ o s', clock_scan n best bl s = Ok (o, s') ∧ (picks s best bl → picks s o bl) ∧
    ∀ j f, frame_table s !! j = Some f → f_used f = true → seen s n j f →
      picks s o (frame_level s f).
Proof.
  revert best bl s. induction n as [|n IH]; intros best bl s Hlen Hh Hok Hlv Hbest.
  { exists best, s. split_and!; [done..|]. intros j f Hj Hu Hs. unfold seen, dist in Hs. exfalso.
    pose proof (Z.mod_pos_bound (Z.of_nat j - clock_hand s) (Z.of_nat MAX_FRAMES) ltac:(done)).
    destruct (f_ref f); lia. }
  cbn [clock_scan]. rewrite (bind_ok _ _ _ (clock_hand s) s) by done.
  destruct (lookup_lt_is_Some_2 (frame_table s) (Z.to_nat (clock_hand s))) as [f Hf]; [lia|].
  rewrite (bind_ok _ _ _ _ _ (get_frame_ok s _ f Hf)).
  set (h1 := (clock_hand s + 1) mod Z.of_nat MAX_FRAMES).
  rewrite (bind_ok _ _ _ tt (with_clock_hand h1 s)) by done.
  assert (0 ≤ h1 < Z.of_nat MAX_FRAMES) as Hh1 by (apply Z.mod_pos_bound; done).
  assert (∀ j f', frame_table s !! j = Some f' → (j < MAX_FRAMES)%nat) as Hjlt.
  { intros j f' Hj. apply lookup_lt_Some in Hj. lia. }
  destruct (negb (f_used f) || negb (f_user f)) eqn:Huse.
  { destruct (IH best bl (with_clock_hand h1 s)) as (o & s' & E & Hb & Hall); [done..|].
    exists o, s'. split_and!; [done..|]. intros j f' Hj Hu Hs. apply (Hall j f'); [done..|].
    destruct (dist_hand s j Hh (Hjlt _ _ Hj)) as [(-> & _)|(_ & Hd & Hd')].
    - exfalso. rewrite Hf in Hj. simplify_eq. rewrite Hu in Huse. simpl in Huse.
      apply negb_true_iff in Huse. destruct (Hok _ _ Hf Hu) as (? & _). congruence.
    - unfold seen, dist in *. simpl. fold h1 in Hd'. lia. }
  apply orb_false_iff in Huse as [Hu%negb_false_iff Hu'%negb_false_iff].
  destruct (f_ref f) eqn:Href.
  - set (g := λ f, mkFrame (f_used f) (f_user f) (f_proc f) (f_va f) false).
    set (ft := alter g (Z.to_nat (clock_hand s)) (frame_table s)).
    set (s1 := with_frame_table ft (with_clock_hand h1 s)).
    rewrite (bind_ok _ _ _ tt s1) by done.
    assert (same_frames (frame_table s) ft) as Hsf by by apply same_frames_alter.
    assert (∀ o v, picks s1 o v ↔ picks s o v) as Hpicks.
    { intros o v. unfold picks. split; intros (i & fi & -> & Hi & Hui & Hv).
      - destruct (same_frames_lookup _ _ _ _ Hsf Hi) as (f' & Hi' & Hid). exists i, f'.
        split_and!; [done..| |].
        + injection Hid as Hid _ _ _. congruence.
        + change (v ≤ frame_level s fi) in Hv. by rewrite (frame_level_id s f') in Hv.
      - destruct (same_frames_lookup _ _ _ _ (same_frames_sym _ _ Hsf) Hi) as (f' & Hi' & Hid). exists i, f'.
        split_and!; [done..| |].
        + injection Hid as Hid _ _ _. congruence.
        + change (v ≤ frame_level s f'). by rewrite (frame_level_id s f') in Hv. }
    destruct (IH best bl s1) as (o & s' & E & Hb & Hall).
    + simpl. unfold ft. by rewrite length_alter.
    + done.
    + by eapply same_frames_ok.
    + done.
    + destruct Hbest; [by left|right]. by apply Hpicks.
    + exists o, s'. split_and!; [done| |].
      * intros Hp. apply Hpicks, Hb. by apply Hpicks.
      * intros j f' Hj Huj Hs. apply Hpicks.
        destruct (dist_hand s j Hh (Hjlt _ _ Hj)) as [(-> & Hd & Hd')|(Hne & Hd & Hd')].
        -- rewrite Hf in Hj. simplify_eq. rewrite <- (frame_level_id s f' (g f')) by done.
           apply (Hall (Z.to_nat (clock_hand s)) (g f')); [simpl; unfold ft; by rewrite list_lookup_alter_eq, Hf|done|].
           unfold seen in *. rewrite Href in Hs. simpl. unfold dist. simpl. fold h1 in Hd'. rewrite Hd'.
           unfold MAX_FRAMES in *. lia.
        -- apply (Hall j f'); [simpl; unfold ft; by rewrite list_lookup_alter_ne|done|].
           unfold seen, dist in *. simpl. fold h1 in Hd'. lia.
  - destruct (owner_level_ok (with_clock_hand h1 s) f) as (p & x & Hp & Hx & El); [by apply (Hok _ f Hf)|done|].
    rewrite (bind_ok _ _ _ _ _ El).
    assert (frame_level s f = p_level x) as Hfl by (unfold frame_level; simpl in Hx; by rewrite Hp, Hx).
    destruct (if decide (bl < p_level x) then _ else _) as [best' bl'] eqn:Hb.
    assert (picks s best' bl' ∧ bl ≤ bl' ∧ p_level x ≤ bl') as (Hp' & Hle & Hle').
    { case_decide; simplify_eq.
      - split_and!; [|lia|lia]. exists (Z.to_nat (clock_hand s)), f. split_and!; [done..|lia].
      - destruct Hbest as [[-> ->]|?]; [|split_and!; [done|lia|lia]].
        pose proof (Hlv p x Hx). lia. }
    assert (∀ o, picks s o bl' → picks s o bl) as Hweak.
    { intros o (i & fi & ? & ? & ? & ?). exists i, fi. split_and!; [done..|lia]. }
    destruct (decide (bl' = 3)) as [->|Hbl].
    + exists best', (with_clock_hand h1 s). split_and!; [done|by intros _; apply Hweak|].
      intros j f' Hj Huj _. destruct Hp' as (i & fi & ? & ? & ? & ?). exists i, fi. split_and!; [done..|].
      destruct (owner_level_ok s f') as (q & y & Hq & Hy & _); [by apply (Hok j)|done|].
      unfold frame_level at 1. rewrite Hq, Hy. pose proof (Hlv q y Hy). lia.
    + destruct (IH best' bl' (with_clock_hand h1 s)) as (o & s' & E & Hb' & Hall); [done..|by right|].
      exists o, s'. split_and!; [done|intros _; by apply Hweak, Hb'|].
      intros j f' Hj Huj Hs.
      destruct (dist_hand s j Hh (Hjlt _ _ Hj)) as [(-> & Hd & Hd')|(Hne & Hd & Hd')].
      * rewrite Hf in Hj. simplify_eq. rewrite Hfl. destruct (Hb' Hp') as (i & fi & ? & ? & ? & ?).
        exists i, fi. split_and!; [done..|]. change (p_level x ≤ frame_level (with_clock_hand h1 s) fi). lia.
      * apply (Hall j f'); [done..|]. unfold seen, dist in *. simpl. fold h1 in Hd'. lia.
Qed.

(** A frame in use means a victim, and of the lowest priority there is. *)
Lemma select_victim_max s :
  length (frame_table s) = MAX_FRAMES → 0 ≤ clock_hand s < Z.of_nat MAX_FRAMES →
  (∀ i f, frame_table s !! i = Some f → frame_ok s f) → levels_ok s →
  ∃ o s', select_victim_frame s = Ok (o, s') ∧
    ∀ j f, frame_table s !! j = Some f → f_used f = true → picks s o (frame_level s f).
Proof.
  intros Hlen Hh Hok Hlv.
  destruct (scan_max (MAX_FRAMES * 2) None (-1) s) as (o & s' & E & _ & Hall); [done..|by left|].
  assert (∀ j f, frame_table s !! j = Some f → f_used f = true → picks s o (frame_level s f)) as Hmax.
  { intros j f Hj Hu. apply (Hall j f Hj Hu). unfold seen, dist.
    pose proof (Z.mod_pos_bound (Z.of_nat j - clock_hand s) (Z.of_nat MAX_FRAMES) ltac:(done)).
    unfold MAX_FRAMES in *. destruct (f_ref f); lia. }
  unfold select_victim_frame. rewrite (bind_ok _ _ _ _ _ E). destruct o as [i|].
  - exists (Some i), s'. done.
  - rewrite (bind_ok _ _ _ (frame_table s') s') by done. eexists _, s'. split; [reflexivity|].
    intros j f Hj Hu. destruct (Hmax j f Hj Hu) as (i & fi & ? & _). done.
Qed.
End clock.
