(* ===== verification/VmProps.v ===== *)
(** * Properties of paging

    Page faults, eviction and allocation of user pages over any swap device
    that keeps its promise ([SwapDevSpec]); runs on a small machine with the
    RAID 5 swap device as witnesses. *)
From S2P Require Import Prelude Interfaces Mem KState Kmem PageTable Frames Paging Vm Fault Boot Clock Raid.
Local Open Scope Z_scope.

Section props.
Context `{Sv39} {D : Type} `{!SwapDev D} `{!SwapDevSpec D}.
Implicit Types s : kernel D.


(** [C21] Eviction is transparent and makes room.  [evict_one_user_frame] ends
    within its attempts; no page of any process changes.  On success fewer
    frames are in use and a page of memory is free; it fails only when swap is
    full or no frame is in use any more. *)
Theorem evict_transparent s :
  vm_ok s →
  ∃ r s', evict_one_user_frame s = Ok (r, s') ∧ vm_ok s' ∧ same_views s s' ∧
    ((r = 0 ∧ user_frame_count s' < user_frame_count s ∧ freelist s' ≠ 0) ∨
     (r = -1 ∧ (swap_full s' ∨ user_frame_count s' = 0))).
Proof.
  intros [own Hv]. destruct (evict_one_ok s own Hv) as (r & s' & own' & E & Hv' & Hpg & Hcase).
  exists r, s'. split_and!; [done|by exists own'|apply Hpg|].
  rewrite (vi_count _ _ Hv), (vi_count _ _ Hv').
  destruct Hcase as [(-> & Hn & c & Hc)|?]; [left|by right].
  split_and!; [done|done|]. by eapply free_list_head.
Qed.

(** [kalloc_user] hands out a fresh page.  For a page of an existing
    process it returns a zeroed page that no page table maps, entered in the
    frame table, of which at most [MAX_FRAMES] are in use; no page of any
    process changes.  It returns 0 only when swap is full or there is nothing
    to evict. *)
Theorem kalloc_user_fresh s p va :
  vm_ok s → is_Some (procs s !! p) → va_ok va →
  ∃ r s', kalloc_user p va s = Ok (r, s') ∧ vm_ok s' ∧ same_views s s' ∧
    0 ≤ user_frame_count s' ≤ Z.of_nat MAX_FRAMES ∧
    (r ≠ 0 → rdbytes (mem s') r PGSIZE = replicate pgsize 0 ∧ tracked s' p va ∧
       ∀ q root v, live s' q root → va_ok v → pt_find (mem s') root v ≠ Some r) ∧
    (r = 0 → swap_full s' ∨ user_frame_count s' = 0).
Proof.
  intros [own Hv] Hp Hva. destruct (kalloc_user_ok s own p va Hv Hp Hva) as (r & s' & own' & E & Hv' & Hpg & Hcase).
  pose proof (nused_range (frame_table s')) as Hn. rewrite (vi_flen _ _ Hv') in Hn.
  exists r, s'. rewrite (vi_count _ _ Hv'). split_and!; [done|by exists own'|apply Hpg|lia|lia| |].
  - intros Hr. destruct Hcase as [(_ & Hk & Hz & Ht)|[? _]]; [|done]. split_and!; [done..|].
    intros q root v Hl Hvv Hf. eapply pt_find_own in Hf; [|apply Hv'|by eapply (vi_live _ _ Hv')|done]. congruence.
  - intros ->. destruct Hcase as [[? _]|[_ ?]]; done.
Qed.

(** [C22] The clock evicts low-priority processes first.  With MLFQ levels in
    0..3 and any reference bits, if some frame is in use
    [select_victim_frame] returns a frame in use whose owner has the largest
    level (the lowest priority) of all owners of frames in use. *)
Theorem victim_lowest_priority s j f :
  vm_ok s → levels_ok s → frame_table s !! j = Some f → f_used f = true →
  ∃ i f' s', select_victim_frame s = Ok (Some i, s') ∧ frame_table s !! i = Some f' ∧ f_used f' = true ∧
    ∀ k g, frame_table s !! k = Some g → f_used g = true → frame_level s g ≤ frame_level s f'.
Proof.
  intros [own Hv] Hlv Hj Hu.
  destruct (select_victim_max s (vi_flen _ _ Hv) (vi_hand _ _ Hv) (vi_frames _ _ Hv) Hlv) as (o & s' & E & Hmax).
  destruct (Hmax j f Hj Hu) as (i & fi & -> & Hi & Hui & _). exists i, fi, s'. split_and!; [done..|].
  intros k g Hk Hug. destruct (Hmax k g Hk Hug) as (i' & fi' & [= <-] & Hi' & _ & Hle). congruence.
Qed.

(** [kinit] establishes the invariant: from zeroed globals and whatever
    memory holds, it ends with the tables empty and every page between [end]
    and [PHYSTOP] on the free list exactly once. *)
Theorem kinit_establishes s :
  freelist s = 0 → Forall (λ x, p_pagetable x = 0) (procs s) →
  dev_inv (swapdev s) → Z.of_nat MAX_SWAP ≤ dev_slots →
  ∃ s' l, kinit s = Ok (tt, s') ∧ vm_ok s' ∧ user_frame_count s' = 0 ∧
    chain (mem s') (freelist s') l ∧ NoDup l ∧ ∀ a, a ∈ l ↔ page_addr a.
Proof.
  intros Hfl Hps Hd Hsl. destruct (kinit_ok s Hfl Hps Hd Hsl) as (s' & own & E & Hv & _ & _ & _ & Hfree & _).
  destruct (vi_tree _ _ Hv) as [[_ (l & Hc & Hnd & Hl)] _].
  exists s', l. split_and!; [done|by exists own| |done|done|].
  - unfold kinit in E. apply bind_inv in E as (? & ? & _ & E). repeat apply bind_inv in E as (? & ? & [= <- <-] & E).
    unfold modify in E. by simplify_eq.
  - intros a. by rewrite Hl, Hfree.
Qed.
End props.

(** ** Runs on a machine with 56 pages of memory and RAID 5 swap *)
Module VmRuns.
#[local] Existing Instance xv6_block_params.

Definition stop : Z := 2147483648 + 4096 * 64.
Lemma stop_lo : 2147483648 + 4096 * 16 ≤ stop. Proof. unfold stop. lia. Qed.
Lemma stop_hi : stop < 2 ^ 55. Proof. unfold stop. lia. Qed.
Lemma stop_al : (4096 | stop). Proof. by exists 524352. Qed.
#[local] Instance lay : Layout := xv6_layout stop stop_lo stop_hi stop_al.
#[local] Instance sv39 : Sv39 := xv6_sv39 stop stop_lo stop_hi stop_al.

Definition proc0 : proc :=
  mkProc UNUSED 0 0 0 0 None 0 0 0 0 [] 0 [] 0 0 0 [0; 0; 0; 0] 0 0 0 0 0 0 0.

(** Two processes; the running one has 3 pages of address space. *)
Definition power_on : kernel (raid IdealDisk.t) :=
  mkKernel (λ _, 0) 0 [] 0 [] [] 0 [set_p_sz 12288 proc0; proc0] (Some 0%nat)
    (mkRaid RAID5 [] [] [] [] IdealDisk.fill) 1 None 0 0.

Definition boot : M (kernel (raid IdealDisk.t)) Z :=
  kinit ;;;
  let* root := uvmcreate in
  upd_proc 0 (set_p_pagetable root) ;;;
  ret root.
Definition started : kernel (raid IdealDisk.t) :=
  match boot power_on with Ok (_, s) => s | _ => power_on end.
Definition root : Z := match boot power_on with Ok (r, _) => r | _ => 0 end.

Lemma device_ok : dev_inv (swapdev power_on).
Proof. split; [by right; right|]. intros n. apply length_replicate. Qed.

Lemma power_on_no_tables : Forall (λ x, p_pagetable x = 0) (procs power_on).
Proof. repeat constructor. Qed.

Lemma slots_ok : Z.of_nat MAX_SWAP ≤ dev_slots.
Proof. vm_compute. discriminate. Qed.

Lemma free_page : page_addr (stop - 4096).
Proof. split_and!; [by exists 524351|vm_compute; discriminate|vm_compute; discriminate]. Qed.

Lemma started_ok :
  vm_ok started ∧ cur started = Some 0%nat ∧ root ≠ 0 ∧
  ∃ x, procs started !! 0%nat = Some x ∧ p_pagetable x = root ∧ p_sz x = 12288 ∧
    procs started = [x; proc0].
Proof.
  destruct (kinit_ok power_on eq_refl power_on_no_tables device_ok slots_ok)
    as (s1 & own & E1 & Hv & Hps & _ & Hcur & Hfree & _).
  destruct (uvmcreate_ok s1 own Hv) as [[_ Hno]|(r & s2 & Hr0 & _ & E2 & Hv2 & Hpg & Hps2 & Hfresh & _)].
  { destruct (Hno (stop - 4096)). apply Hfree, free_page. }
  assert (boot power_on = Ok (r, with_procs (alter (set_p_pagetable r) 0%nat (procs s2)) s2)) as E.
  { unfold boot. rewrite (bind_ok _ _ _ _ _ E1), (bind_ok _ _ _ _ _ E2). reflexivity. }
  unfold started, root. rewrite E, Hps2, Hps. split_and!.
  - exists (give r (RTab r 2 0) own).
    assert (vinv (with_procs (alter (set_p_pagetable r) 0%nat (procs s2)) s2) (give r (RTab r 2 0) own)) as Hr.
    { apply (assign_root_ok _ _ _ (set_p_sz 12288 proc0)); [done|apply give_eq|done| | |done].
      - intros q r' Hl. apply (Hfresh q). by apply (live_same s1 s2 _ _ (vw_procs _ _ _ _ Hpg)).
      - by rewrite Hps2, Hps. }
    by rewrite Hps2, Hps in Hr.
  - change (cur s2 = Some 0%nat). by rewrite (vw_cur _ _ _ _ Hpg), Hcur.
  - done.
  - exists (set_p_pagetable r (set_p_sz 12288 proc0)). repeat split; reflexivity.
Qed.


(** The machine with that page resident. *)
Definition faulted : kernel (raid IdealDisk.t) :=
  match vmfault root 5000 true started with Ok (_, s) => s | _ => started end.

Lemma faulted_levels : p_level <$> procs faulted = [0; 0].
Proof. vm_compute. reflexivity. Qed.

Lemma faulted_vinv : vm_ok faulted ∧ is_Some (procs faulted !! 0%nat).
Proof.
  destruct started_ok as ([own Hv] & Hcur & Hr0 & x & Hx & Hr & Hsz & _).
  destruct (vmfault_ok started own 0%nat x root 5000 true Hv Hcur Hx Hr Hr0) as (r & s' & own' & E & Hv' & [_ Hps _ _ _] & _).
  - rewrite Hsz. lia.
  - rewrite Hsz. vm_compute. discriminate.
  - assert (faulted = s') as Hf by (unfold faulted; rewrite E; reflexivity). rewrite Hf. split.
    + by exists own'.
    + apply (proc_same started s' 0 Hps). by exists x.
Qed.

Lemma faulted_ok : vm_ok faulted ∧ is_Some (procs faulted !! 0%nat) ∧ levels_ok faulted.
Proof.
  destruct faulted_vinv as [Hv Hp]. split; [exact Hv|]. split; [exact Hp|].
  intros p y Hy. pose proof faulted_levels as Hlv. apply (f_equal (.!! p)) in Hlv.
  rewrite list_lookup_fmap, Hy in Hlv. clear -Hlv. destruct p as [|[|p]]; simpl in Hlv;
    [injection Hlv as ->|injection Hlv as ->|discriminate]; lia.
Qed.

Lemma evict_transparent_witness :
  ∃ s', evict_one_user_frame faulted = Ok (0, s') ∧ same_views faulted s' ∧
    user_frame_count s' < user_frame_count faulted.
Proof.
  destruct faulted_ok as (Hok & _). destruct (evict_transparent faulted Hok) as (r & s' & E & _ & Hvw & Hcase).
  exists s'. destruct Hcase as [(-> & Hn & _)|(-> & _)].
  - split; [exact E|]. split; [exact Hvw|exact Hn].
  - exfalso. assert (match evict_one_user_frame faulted with Ok (r, _) => r =? 0 | _ => false end = true) as Hc
      by (vm_compute; reflexivity).
    rewrite E in Hc. discriminate.
Defined.

Lemma kalloc_user_fresh_witness :
  ∃ r s', kalloc_user 0 8192 faulted = Ok (r, s') ∧ r ≠ 0 ∧ tracked s' 0 8192 ∧
    rdbytes (mem s') r PGSIZE = replicate pgsize 0.
Proof.
  destruct faulted_ok as (Hok & Hp & _).
  destruct (kalloc_user_fresh faulted 0 8192 Hok Hp) as (r & s' & E & _ & _ & _ & Hret & _).
  - split; [vm_compute; split; [discriminate|reflexivity]|by exists 2].
  - assert (r ≠ 0) as Hne.
    { assert (match kalloc_user 0 8192 faulted with Ok (r, _) => r =? 0 | _ => true end = false) as Hc
        by (vm_compute; reflexivity).
      rewrite E in Hc. lia. }
    exists r, s'. destruct (Hret Hne) as (Hz & Ht & _). split; [exact E|]. split; [exact Hne|].
    split; [exact Ht|exact Hz].
Defined.

Lemma victim_lowest_priority_witness :
  ∃ i f s', select_victim_frame faulted = Ok (Some i, s') ∧ frame_table faulted !! i = Some f ∧ f_used f = true.
Proof.
  destruct faulted_ok as (Hok & _ & Hlv).
  destruct (victim_lowest_priority faulted 0%nat (mkFrame true true (Some 0%nat) 4096 true) Hok Hlv)
    as (i & f & s' & E & Hi & Hu & _).
  - vm_compute. reflexivity.
  - reflexivity.
  - exists i, f, s'. split; [exact E|]. split; [exact Hi|exact Hu].
Defined.

Lemma kinit_establishes_witness :
  ∃ s' l, kinit power_on = Ok (tt, s') ∧ vm_ok s' ∧ chain (mem s') (freelist s') l ∧ NoDup l ∧
    stop - 4096 ∈ l.
Proof.
  destruct (kinit_establishes power_on eq_refl power_on_no_tables device_ok slots_ok)
    as (s' & l & E & Hok & _ & Hc & Hnd & Hl).
  exists s', l. split; [exact E|]. split; [exact Hok|]. split; [exact Hc|]. split; [exact Hnd|].
  apply Hl, free_page.
Defined.
End VmRuns.
