(* ===== verification/Spaces.v ===== *)
(** * Unmapping and copying address spaces

    Correctness of [uvmunmap] and [uvmcopy] (vm.c:203-289, 373-505): the first
    removes pages with their frames and swap slots, the second gives a child
    a copy of everything its parent sees, resident or swapped out. *)
From S2P Require Import Prelude Interfaces Mem KState Kmem PageTable Frames Paging Vm Fault.
Local Open Scope Z_scope.

Section spaces.
Context `{Sv39} {D : Type} `{!SwapDev D} `{!SwapDevSpec D}.
Implicit Types s : kernel D.

(** Every page but [va] of [p] reads as before. *)
Definition others_same s s' (p : nat) (va : Z) : Prop :=
  ∀ q r v, live s q r → va_ok v → ¬ (q = p ∧ v = va) → user_page s' q v = user_page s q v.

Definition no_entry s (p : nat) (va : Z) : Prop :=
  ∀ i e, swap_map s !! i = Some e → ¬ is_entry p va e.

(** No swap entry is added. *)
Definition sub_entries s s' : Prop :=
  ∀ i e, s_used e = true → swap_map s' !! i = Some e → swap_map s !! i = Some e.

(** No frame is added. *)
Definition sub_frames s s' : Prop :=
  ∀ i f, f_used f = true → frame_table s' !! i = Some f → frame_table s !! i = Some f.

(** A page, its frame and possibly its swap entry go away. *)
Lemma page_remove_ok s own s' own' p root va :
  vinv s own → live s p root → va_ok va →
  tree_inv (mem s') (freelist s') own' →
  (∀ r, own r = RTab r 2 0 → own' r = RTab r 2 0) →
  (∀ a r v, own' a = RPage r v ↔ own a = RPage r v ∧ ¬ (r = root ∧ v = va)) →
  (∀ a r v, own' a = RPage r v → rdbytes (mem s') a PGSIZE = rdbytes (mem s) a PGSIZE) →
  same_procs s s' →
  length (frame_table s') = MAX_FRAMES → (∀ i f, frame_table s' !! i = Some f → frame_ok s f) →
  user_frame_count s' = nused (frame_table s') → 0 ≤ clock_hand s' < Z.of_nat MAX_FRAMES →
  length (swap_map s') = MAX_SWAP → swap_used s' = s_used <$> swap_map s' →
  (∀ i e, s_used e = true → swap_map s' !! i = Some e → swap_map s !! i = Some e) →
  (∀ i e, s_used e = true → swap_map s !! i = Some e → ¬ is_entry p va e → swap_map s' !! i = Some e) →
  swapdev s' = swapdev s →
  vinv s' own' ∧ others_same s s' p va ∧ (no_entry s' p va → user_page s' p va = replicate pgsize 0).
Proof.
  intros Hv Hl Hva Ht Hroots Hpg Hdata Hps Hflen Hfok Hcnt Hh Hslen Hsu Hsub Hkeep Hdev.
  pose proof (vi_tree _ _ Hv) as Ht0.
  assert (unique_entries (swap_map s')) as Huniq.
  { intros i j e e' q v Hi Hj He He'. pose proof He as (Hu & _). pose proof He' as (Hu' & _).
    eapply (vi_suniq _ _ Hv i j e e' q v); eauto. }
  split; [split|split].
  - done.
  - intros q r Hq. apply Hroots, (vi_live _ _ Hv q). by apply (live_same s s').
  - intros q1 q2 r Hq1 Hq2. eapply (vi_roots _ _ Hv _ _ r); by apply (live_same s s').
  - done.
  - intros i f Hf Hu. destruct (Hfok i f Hf Hu) as (? & ? & q & ? & Hq). split_and!; [done..|].
    exists q. split; [done|]. by apply (proc_same s s').
  - done.
  - done.
  - done.
  - done.
  - intros i e Hi Hu. apply Hsub in Hi; [|done].
    destruct (vi_swap _ _ Hv i e Hi Hu) as (? & ? & q & r & Hq & Hlq & Hnoq). split_and!; [done..|].
    exists q, r. split_and!; [done|by apply (live_same s s')|]. intros a [Ha _]%Hpg. by apply (Hnoq a).
  - exact Huniq.
  - rewrite Hdev. apply Hv.
  - apply Hv.
  - intros q r v Hq Hvv Hne. pose proof (vi_live _ _ Hv q r Hq) as Hr.
    pose proof (proj1 (live_same s s' q r Hps) Hq) as Hq'.
    assert (¬ (r = root ∧ v = va)) as Hne'.
    { intros [-> ->]. destruct Hne. split; [|done]. by eapply (vi_roots _ _ Hv). }
    destruct (resident_dec _ _ _ r v Ht0 Hr Hvv) as [[a Ha]|Hnone].
    + assert (own' a = RPage r v) as Ha' by by apply Hpg.
      rewrite (user_page_res s own q r v a) by done.
      rewrite (user_page_res s' own' q r v a); [by eapply Hdata|done|by apply Hroots|done..].
    + rewrite (user_page_swp s own q r v) by done.
      rewrite (user_page_swp s' own' q r v); [|done|by apply Hroots|done|done|].
      * apply swapped_same; [exact (vi_suniq _ _ Hv)|done| |by rewrite Hdev].
        intros i e He. pose proof He as (Hu & Hqe & Hve). split; [by apply Hsub|].
        intros Hi. apply Hkeep; [done..|]. intros (_ & Hpe & Hve'). destruct Hne. split; congruence.
      * intros a [Ha _]%Hpg. by apply (Hnone a).
  - intros Hne. rewrite (user_page_swp s' own' p root va); [|done|by apply Hroots, (vi_live _ _ Hv p)
      |by apply (live_same s s')|done|].
    + unfold swapped_page. by rewrite swap_find_None.
    + intros a [_ Ha]%Hpg. by destruct Ha.
Qed.

(** The only change of owner is that pages of one address space are freed. *)
Definition released (own own' : owners) (root : Z) : Prop :=
  ∀ a, own' a = own a ∨ own' a = RFree ∧ ∃ v, own a = RPage root v.

Lemma released_page own own' root a v : released own own' root → own' a = RPage root v → own a = RPage root v.
Proof. intros Hr Ha. destruct (Hr a) as [<-|[Hf _]]; congruence. Qed.

Lemma released_trans own1 own2 own3 root :
  released own1 own2 root → released own2 own3 root → released own1 own3 root.
Proof.
  intros H12 H23 a. destruct (H23 a) as [->|[-> [v Hv]]]; [done|]. right. split; [done|].
  exists v. by eapply released_page.
Qed.

(** No entry of a table becomes valid or changes while it is valid. *)
Definition dims (own : owners) (m m' : memory) : Prop :=
  ∀ b root l pre i, own b = RTab root l pre → 0 ≤ i < 512 →
    valid_pte (entry m' b i) = true → entry m' b i = entry m b i.

(** What unmapping pages of [root] leaves alone. *)
Record unmapped s (own : owners) s' (own' : owners) (root : Z) : Prop := {
  um_procs : same_procs s s';
  um_cur : cur s' = cur s;
  um_sub : sub_entries s s';
  um_rel : released own own' root;
  um_pin : pinned s own s' own';
  um_dim : dims own (mem s) (mem s');
  um_frames : sub_frames s s';
}.

Lemma released_tab own own' root a r l p : released own own' root → own a = RTab r l p → own' a = RTab r l p.
Proof. intros Hr Ha. destruct (Hr a) as [->|[_ [v Hv]]]; congruence. Qed.

Lemma released_confined own own' root : released own own' root → confined root own own'.
Proof. intros Hr a. destruct (Hr a) as [?|[-> [v ->]]]; [by left|by right]. Qed.

Lemma unmapped_refl s own root : unmapped s own s own root.
Proof. split; [done|done|by intros i e|by left|apply pinned_refl|done|by intros i f]. Qed.

Lemma unmapped_trans s1 o1 s2 o2 s3 o3 root :
  unmapped s1 o1 s2 o2 root → unmapped s2 o2 s3 o3 root → unmapped s1 o1 s3 o3 root.
Proof.
  intros [P1 C1 S1 R1 K1 D1 F1] [P2 C2 S2 R2 K2 D2 F2]. split.
  - unfold same_procs in *. congruence.
  - congruence.
  - intros i e Hu Hi. by apply S1, S2.
  - by eapply released_trans.
  - by eapply pinned_trans.
  - intros b r l pre i Hb Hi Hv. pose proof (released_tab _ _ _ _ _ _ _ R1 Hb) as Hb2.
    pose proof (D2 b r l pre i Hb2 Hi Hv) as E2. rewrite E2. apply (D1 b r l pre); [done..|]. by rewrite <- E2.
  - intros i f Hu Hi. by apply F1, F2.
Qed.

(** A store of 0 to an entry. *)
Lemma dims_clear own m root va pte :
  sane own → leaf_at own root va pte → dims own m (wr64 m pte 0).
Proof.
  intros Hs (b & pre & Hb & -> & _) b' r l p i Hb' Hi. pose proof (PX_range 0 va).
  rewrite entry_wr64; [|by eapply sane_tab|by eapply sane_tab|done|done|lia].
  case_decide; [by rewrite valid_pte_0|done].
Qed.

Lemma dims_only_page own m m' c :
  sane own → own c ≠ RNone → (∀ r l p, own c ≠ RTab r l p) → only_page c m m' → dims own m m'.
Proof.
  intros Hs Hn Hc Ho b r l p i Hb Hi _. apply (entry_ext m m' c); [done|by apply Hs|by eapply sane_tab| |done].
  intros ->. by destruct (Hc r l p).
Qed.

Lemma dims_trans own m1 m2 m3 : dims own m1 m2 → dims own m2 m3 → dims own m1 m3.
Proof.
  intros D1 D2 b r l p i Hb Hi Hv. pose proof (D2 b r l p i Hb Hi Hv) as E2. rewrite E2.
  apply (D1 b r l p); [done..|]. by rewrite <- E2.
Qed.

(** ** [uvmunmap], one page *)

(** vm.c:236-254 *)
Lemma free_swap_entry_ok s own p root va :
  vinv s own → live s p root → va_ok va →
  ∃ s', free_swap_entry p va s = Ok (tt, s') ∧ vinv s' own ∧ others_same s s' p va ∧
    no_entry s' p va ∧ sub_entries s s' ∧ mem s' = mem s ∧ freelist s' = freelist s ∧
    procs s' = procs s ∧ cur s' = cur s ∧ frame_table s' = frame_table s.
Proof.
  intros Hv Hl Hva. unfold free_swap_entry. rewrite (bind_ok _ _ _ (swap_map s) s) by done.
  pose proof (list_find_entry s p va) as Hf. destruct (list_find _ _) as [[i e]|].
  2:{ exists s. split_and!; try done; by intros i e. }
  destruct Hf as [Hi He]. pose proof He as (Hu & Hp & Hve).
  destruct (vi_swap _ _ Hv i e Hi Hu) as (Hslot & _ & q & r & Hq & Hlq & Hno).
  assert (i < MAX_SWAP)%nat as Hlt by (apply lookup_lt_Some in Hi; by rewrite (vi_slen _ _ Hv) in Hi).
  set (s' := with_swap_map (<[i := swap0]> (swap_map s)) (with_swap_used (<[i := false]> (swap_used s)) s)).
  exists s'. assert (clear_swap_used (s_slot e) s = Ok (tt, with_swap_used (<[i := false]> (swap_used s)) s)) as E.
  { unfold clear_swap_used. rewrite (bind_ok _ _ _ (swap_used s) s) by done.
    rewrite Hslot, aget_of_nat, aset_of_nat. destruct (lookup_lt_is_Some_2 (swap_used s) i) as [b Hb].
    - by rewrite (vi_used _ _ Hv), length_fmap, (vi_slen _ _ Hv).
    - by rewrite Hb. }
  assert (∀ j e', s_used e' = true → swap_map s' !! j = Some e' → j ≠ i ∧ swap_map s !! j = Some e') as Hlk.
  { intros j e' Hu' Hj. simpl in Hj. destruct (decide (j = i)) as [->|Hne].
    - rewrite list_lookup_insert_eq in Hj by (by eapply lookup_lt_Some). simplify_eq.
    - by rewrite list_lookup_insert_ne in Hj. }
  destruct (page_remove_ok s own s' own p root va) as (Hv' & Hoth & _); try done; try apply Hv.
  - intros a r' v. split; [|by intros [? _]]. intros Ha. split; [done|]. intros [-> ->].
    by eapply (resident_no_entry s own p root va a Hv Hl Ha i e).
  - simpl. rewrite length_insert. apply Hv.
  - simpl. rewrite list_fmap_insert. f_equal. apply Hv.
  - intros j e' Hu' Hj. by apply Hlk in Hj as [_ ?].
  - intros j e' Hu' Hj Hn. simpl. destruct (decide (j = i)) as [->|Hne]; [by simplify_eq|].
    by rewrite list_lookup_insert_ne.
  - split_and!; try done; [by rewrite (bind_ok _ _ _ _ _ E)| |].
    2:{ intros j e' Hu' Hj. by apply Hlk in Hj as [_ ?]. }
    intros j e' Hj He'. pose proof He' as (Hu' & _). apply Hlk in Hj as [Hne Hj]; [|done].
    destruct Hne. by eapply (vi_suniq _ _ Hv j i e' e p va).
Qed.

(** Writing 0 over an entry that is not valid. *)
Lemma clear_leaf m fl own root va pte :
  tree_inv m fl own → leaf_at own root va pte → valid_pte (rd64 m pte) = false →
  tree_inv (wr64 m pte 0) fl own ∧ same_data own m (wr64 m pte 0).
Proof.
  intros Ht Hleaf Hinv. pose proof (tree_sane _ _ _ Ht) as Hs. pose proof Ht as [Hk Hp].
  split; [|by eapply leaf_write_data]. split; [by eapply leaf_write_kmem|].
  destruct Hleaf as (b & pre & Hb & -> & _). pose proof (PX_range 0 va) as Hi.
  assert (∀ b' i' a r' l' p', own b' = RTab r' l' p' → 0 ≤ i' < 512 →
    points (wr64 m (b + 8 * PX 0 va) 0) b' i' a ↔ points m b' i' a) as Hpw.
  { intros b' i' a r' l' p' Hb' Hi'. rewrite (points_wr m own b (PX 0 va) 0 b' i' a root 0 pre r' l' p')
      by (done || lia). case_decide as Hc; [|done]. destruct Hc as [-> ->]. rewrite valid_pte_0.
    split; [by intros [? _]|]. intros [Hv _]. unfold entry in Hv. congruence. }
  split.
  - intros b' r' l' p' i' a Hb' Hi' Hpt%(Hpw _ _ _ _ _ _ Hb' Hi'). by eapply (pt_node _ _ Hp).
  - intros b' r' p' i' a Hb' Hi' Hpt%(Hpw _ _ _ _ _ _ Hb' Hi'). by eapply (pt_leaf _ _ Hp).
  - apply (pt_root _ _ Hp).
  - intros a r' l' p' Ha Hl. destruct (pt_parent _ _ Hp a r' l' p' Ha Hl) as (b' & q & i' & Hb' & Hi' & ? & Hpt).
    exists b', q, i'. split_and!; [done|lia|lia|done|]. by apply (Hpw _ _ _ _ _ _ Hb' Hi').
  - intros a r' v Ha. destruct (pt_page _ _ Hp a r' v Ha) as (b' & q & i' & Hb' & Hi' & ? & Hpt).
    exists b', q, i'. split_and!; [done|lia|lia|done|]. by apply (Hpw _ _ _ _ _ _ Hb' Hi').
  - by eapply (flags_leaf_write m own b root pre).
  - by eapply (high_leaf_write m own b root pre); rewrite ?valid_pte_0.
  - apply (pt_low _ _ Hp).
Qed.

(** vm.c:285-287: the page is freed before its entry is cleared *)
Lemma free_then_clear s own root va pte c :
  tree_inv (mem s) (freelist s) own → leaf_at own root va pte → va_ok va →
  valid_pte (rd64 (mem s) pte) = true → PTE2PA (rd64 (mem s) pte) = c → own c = RPage root va →
  ∃ m', (kfree c ;;; store64 pte 0) s = Ok (tt, with_mem m' (with_freelist c s)) ∧
    tree_inv m' c (give c RFree own) ∧ dims own (mem s) m' ∧
    (∀ a, a ≠ c → data (own a) → rdbytes m' a PGSIZE = rdbytes (mem s) a PGSIZE).
Proof.
  intros Ht Hleaf Hva Hval Hpa Hc. pose proof (tree_sane _ _ _ Ht) as Hs. pose proof Ht as [Hk Hp].
  assert (page_addr c) as Hpc by (apply Hs; by rewrite Hc).
  destruct (kfree_page s own c Hk Hpc) as (m1 & E1 & Ho1 & Hk1); [by rewrite Hc|].
  destruct (leaf_page _ _ _ _ _ _ Ht Hleaf (proj1 Hva) (proj2 Hva)) as [Hram _].
  assert (rd64 m1 pte = rd64 (mem s) pte) as Hrd.
  { destruct Hleaf as (b & pre & Hb & -> & _). pose proof (sane_tab _ _ _ _ _ Hs Hb) as Hpb.
    destruct (entry_in b (PX 0 va) Hpb (PX_range 0 va)).
    apply (only_page_rd64 c b); [done..|intros ->; congruence|done|done]. }
  assert (pt_inv m1 own) as Hp1.
  { apply (pt_only_page (mem s) _ own c); [done..|by rewrite Hc|done]. }
  assert (leaf_at (give c RFree own) root va pte) as Hleaf1.
  { destruct Hleaf as (b & pre & Hb & ? & ?). exists b, pre. split_and!; [|done..].
    rewrite give_ne; [done|]. intros ->. congruence. }
  exists (wr64 m1 pte 0). split_and!.
  - rewrite (bind_ok _ _ _ _ _ E1). by rewrite store64_ok.
  - split; [by eapply leaf_write_kmem|].
    destruct (leaf_va _ _ _ _ Hleaf (proj2 Hva)) as (b & pre & Hb & -> & Heq).
    assert (pt_inv (wr64 m1 (b + 8 * PX 0 va) 0) (give c RKern own)) as Hp2.
    { eapply (pt_unmap m1 own b root pre (PX 0 va) c); [done..|apply PX_range| |by rewrite <- Heq].
      split; unfold entry; by rewrite Hrd. }
    assert (pt_inv (wr64 m1 (b + 8 * PX 0 va) 0) (give c RFree (give c RKern own))) as Hp3.
    { apply pt_give; [done|by rewrite give_eq|done]. }
    assert (∀ a, give c RFree (give c RKern own) a = give c RFree own a) as Hgg
      by (intros a; unfold give; by case_decide).
    destruct Hp3 as [N L R P G F U W]. split; setoid_rewrite <- Hgg; done.
  - eapply dims_trans; [apply (dims_only_page _ _ m1 c); [done|by rewrite Hc..|done]|by eapply dims_clear].
  - intros a Ha Hd. assert (give c RFree own a = own a) as Hga by by apply give_ne.
    rewrite (leaf_write_data m1 (give c RFree own) root va pte 0); [|exact (proj1 Hk1)|done|by rewrite Hga].
    apply (only_page_bytes c a); [done|done| |done]. apply Hs. intros Hn. by rewrite Hn in Hd.
Qed.

(** vm.c:236-287 with [do_free]; [pp] is the owner or null *)
Lemma uvmunmap_page_ok s own p root va pp :
  vinv s own → live s p root → va_ok va → pp = Some p ∨ pp = None →
  ∃ s' own', uvmunmap_page root va true pp s = Ok (tt, s') ∧ vinv s' own' ∧ others_same s s' p va ∧
    unmapped s own s' own' root ∧ (∀ a, own' a ≠ RPage root va) ∧ (pp = Some p ∨ no_entry s p va → no_entry s' p va).
Proof.
  intros Hv Hl Hva Hpp.
  assert (∃ s1, match pp with Some q => free_swap_entry q va | None => ret tt end s = Ok (tt, s1) ∧
    vinv s1 own ∧ others_same s s1 p va ∧ mem s1 = mem s ∧ freelist s1 = freelist s ∧
    procs s1 = procs s ∧ cur s1 = cur s ∧ sub_entries s s1 ∧ frame_table s1 = frame_table s ∧
    (pp = Some p ∨ no_entry s p va → no_entry s1 p va))
    as (s1 & E1 & Hv1 & Hoth1 & Hm1 & Hf1 & Hp1 & Hc1 & Hsub1 & Hft1 & Hne1).
  { destruct Hpp as [-> | ->].
    - destruct (free_swap_entry_ok s own p root va Hv Hl Hva) as (s1 & ? & ? & ? & ? & ? & ? & ? & ? & ? & ?).
      exists s1. split_and!; try done.
    - exists s. split_and!; try done; [by intros i e|]. intros [?|?]; done. }
  unfold uvmunmap_page. rewrite (bind_ok _ _ _ _ _ E1).
  assert (same_procs s s1) as Hps1 by (unfold same_procs; by rewrite Hp1).
  assert (live s1 p root) as Hl1 by by apply (live_same s s1).
  pose proof (vi_tree _ _ Hv1) as Ht1. pose proof (vi_live _ _ Hv1 p root Hl1) as Hroot.
  destruct (walk_ro_ok s1 own root va Ht1 Hroot Hva) as (o & Ew & Ho). rewrite (bind_ok _ _ _ _ _ Ew).
  assert (∀ s', others_same s1 s' p va → others_same s s' p va) as Hoth.
  { intros s' Ho' q r v Hq Hvv Hn. rewrite (Ho' q r v); [by eapply Hoth1| |done..]. by apply (live_same s s1). }
  assert (unmapped s own s1 own root) as Hum1.
  { split; try done; [by left|by intros a q; rewrite Hm1| |].
    - by intros b r l pre i; rewrite Hm1.
    - intros i f. by rewrite Hft1. }
  destruct o as [pte|].
  2:{ exists s1, own. by split_and!. }
  destruct (leaf_read s1 own root va pte Ht1 Ho Hva) as [El Hval]. rewrite (bind_ok _ _ _ _ _ El).
  destruct (valid_pte (rd64 (mem s1) pte)) eqn:Hv'; simpl negb; cbv iota.
  2:{ destruct (clear_leaf _ _ _ _ _ _ Ht1 Ho Hv') as [Ht2 Hd2].
      destruct (leaf_page _ _ _ _ _ _ Ht1 Ho (proj1 Hva) (proj2 Hva)) as [Hram _].
      destruct (paged_tree s1 own (wr64 (mem s1) pte 0) (freelist s1) own Hv1 Ht2) as [Hv2 Hpg2];
        [apply Hv1|done|intros a r v Ha; apply Hd2; by rewrite Ha| |done|].
      { intros a q Ha. split; [done|]. apply Hd2. by rewrite Ha. }
      exists (with_mem (wr64 (mem s1) pte 0) s1), own. split; [by apply store64_ok|]. split_and!; try done.
      - apply Hoth. intros q r v Hq Hvv _. by apply (pg_views _ _ _ _ Hpg2 q r).
      - eapply (unmapped_trans _ _ s1 own); [done|]. split; try done; [by intros i e|by left|apply Hpg2| |by intros i f].
        simpl. eapply dims_clear; [by eapply tree_sane|done]. }
  set (c := PTE2PA (rd64 (mem s1) pte)) in *.
  destruct (release_frame_ok s1 own (λ f, f_used f = true ∧ f_user f = true ∧ f_proc f = pp ∧ f_va f = va) Hv1)
    as (ft & cnt & E2 & Hv2 & Hft2); [by intros f (? & _)|].
  set (s2 := with_user_frame_count cnt (with_frame_table ft s1)) in *.
  destruct (free_then_clear s2 own root va pte c (vi_tree _ _ Hv2) Ho Hva Hv' eq_refl Hval) as (m' & E3 & Ht3 & Hdim & Hd3).
  set (s3 := with_mem m' (with_freelist c s2)). exists s3, (give c RFree own).
  assert (∀ a r v, give c RFree own a = RPage r v ↔ own a = RPage r v ∧ ¬ (r = root ∧ v = va)) as Hpg.
  { intros a r v. unfold give. case_decide as Hac.
    - subst a. rewrite Hval. split; [done|]. intros [[= <- <-] Hn]. by destruct Hn.
    - split; [|by intros [? _]]. intros Ha. split; [done|]. intros [-> ->]. destruct Hac.
      by eapply page_unique; [apply Ht1|..]. }
  destruct (page_remove_ok s2 own s3 (give c RFree own) p root va) as (Hv3 & Hoth3 & _); try done; try apply Hv2.
  - intros r Hr. rewrite give_ne; [done|]. intros ->. congruence.
  - intros a r v Ha. apply Hd3; [intros ->; by rewrite give_eq in Ha|]. apply Hpg in Ha as [-> _]. done.
  - split.
    { cbn [negb]. rewrite bind_assoc. unfold free_frame_entry. rewrite bind_assoc.
      rewrite (bind_ok _ _ _ (frame_table s1) s1) by done. rewrite (bind_ok _ _ _ _ _ E2). exact E3. }
    split_and!; try done.
    + apply Hoth. intros q r v Hq Hvv Hn. by apply (Hoth3 q r).
    + eapply (unmapped_trans _ _ s1 own); [done|]. split; try done; [by intros i e| |].
      * intros a. unfold give. case_decide; [subst; right; eauto|by left].
      * intros a q Ha. assert (a ≠ c) as Hac by (intros ->; congruence). rewrite give_ne by done.
        split; [done|]. apply Hd3; [done|]. by rewrite Ha.
    + intros a [_ Ha]%Hpg. by destruct Ha.
Qed.

(** ** [uvmunmap] *)
Definition in_pages (va n v : Z) : Prop := va ≤ v < va + n * PGSIZE.

(** Pages outside the range read as before. *)
Definition outside_same s s' (p : nat) (va n : Z) : Prop :=
  ∀ q r v, live s q r → va_ok v → ¬ (q = p ∧ in_pages va n v) → user_page s' q v = user_page s q v.

Lemma sub_no_entry s s' p va : sub_entries s s' → no_entry s p va → no_entry s' p va.
Proof. intros Hsub Hno i e Hi He. pose proof He as (Hu & _). by apply (Hno i e); [apply Hsub|]. Qed.

Lemma next_page v a n : (PGSIZE | v) → (PGSIZE | a) → in_pages a (n + 1) v → v = a ∨ in_pages (a + PGSIZE) n v.
Proof.
  unfold in_pages. pose proof PGSIZE_4096. intros [i ->] [j ->] Hin.
  destruct (decide (i = j)) as [->|]; [by left|right]. nia.
Qed.

Lemma uvmunmap_loop_ok fuel s own p root a n pp :
  vinv s own → live s p root → pp = Some p ∨ pp = None → (PGSIZE | a) → 0 ≤ a → 0 ≤ n ≤ Z.of_nat fuel →
  a + n * PGSIZE ≤ TRAPFRAME →
  ∃ s' own', uvmunmap_loop fuel root a (a + n * PGSIZE) true pp s = Ok (tt, s') ∧ vinv s' own' ∧
    outside_same s s' p a n ∧ unmapped s own s' own' root ∧
    (∀ v, va_ok v → in_pages a n v → (∀ c, own' c ≠ RPage root v) ∧ (pp = Some p → no_entry s' p v)).
Proof.
  pose proof PGSIZE_4096 as Hpg. revert s own a n. induction fuel as [|fuel IH]; intros s own a n Hv Hl Hpp Hal Ha Hn Hmax.
  - assert (n = 0) as -> by lia. exists s, own. simpl. rewrite decide_False by lia.
    split_and!; try done; [apply unmapped_refl|]. intros v _ Hin. unfold in_pages in Hin. lia.
  - simpl. case_decide as Hlt.
    2:{ exists s, own. split_and!; try done; [apply unmapped_refl|]. intros v _ Hin. unfold in_pages in Hin. lia. }
    assert (0 < n) as Hn0 by nia.
    assert (va_ok a) as Hva by (split; [nia|done]).
    destruct (uvmunmap_page_ok s own p root a pp Hv Hl Hva Hpp)
      as (s1 & own1 & E1 & Hv1 & Hoth1 & Hum1 & Hgone1 & Hne1). pose proof (um_procs _ _ _ _ _ Hum1) as Hps1.
    rewrite (bind_ok _ _ _ _ _ E1).
    pose proof MAXVA_range. pose proof TRAMPOLINE_top. pose proof TRAPFRAME_below.
    rewrite u64_id by nia. replace (a + n * PGSIZE) with (a + PGSIZE + (n - 1) * PGSIZE) by lia.
    destruct (IH s1 own1 (a + PGSIZE) (n - 1)) as (s' & own' & E & Hv' & Hout & Hum & Hin);
      [done|by apply (live_same s s1)|done|apply Z.divide_add_r; [done|by exists 1; lia]|lia|lia|lia|].
    exists s', own'. split_and!; try done.
    + intros q r v Hq Hvv Hn'. rewrite (Hout q r v); [|by apply (live_same s s1)|done|].
      * eapply Hoth1; [done..|]. intros [-> ->]. destruct Hn'. split; [done|]. unfold in_pages. nia.
      * intros [-> Hi]. destruct Hn'. split; [done|]. unfold in_pages in *. lia.
    + by eapply unmapped_trans.
    + intros v Hvv Hi. destruct (next_page v a (n - 1)) as [->|Hi']; [apply Hvv|done| | |].
      * replace (n - 1 + 1) with n by lia. done.
      * split; [intros c Hx%(released_page _ _ _ _ _ (um_rel _ _ _ _ _ Hum)); by apply (Hgone1 c)|].
        intros ->. eapply sub_no_entry; [apply Hum|]. apply Hne1. by left.
      * by apply Hin.
Qed.
(** vm.c:218-230: swap entries and frames are only cleaned up for the caller *)
Lemma unmap_owner_ok s own p root :
  vinv s own → live s p root → (∀ c, cur s = Some c → is_Some (procs s !! c)) →
  ∃ pp, unmap_owner root s = Ok (pp, s) ∧ (pp = Some p ∨ pp = None) ∧ (pp = Some p ↔ cur s = Some p).
Proof.
  intros Hv Hl Hcur. unfold unmap_owner. rewrite (bind_ok _ _ _ (cur s) s) by done.
  destruct (cur s) as [c|] eqn:Ec; [|by exists None; split_and!; [done|right|]].
  destruct (Hcur c eq_refl) as [x Hx]. rewrite (bind_ok _ _ _ _ _ (get_proc_ok s c x Hx)).
  pose proof Hl as (y & Hy & Hry & Hr0). case_decide as Hr.
  - assert (c = p) as -> by (apply (vi_roots _ _ Hv c p root); [by exists x|done]).
    exists (Some p). split_and!; [done|by left|done].
  - exists None. split_and!; [done|by right|]. split; [done|]. intros [= ->]. congruence.
Qed.

(** [npages] pages of process [p] go away. *)
Lemma uvmunmap_ok s own p root va n :
  vinv s own → live s p root → (∀ c, cur s = Some c → is_Some (procs s !! c)) →
  (PGSIZE | va) → 0 ≤ va → 0 ≤ n → va + n * PGSIZE ≤ TRAPFRAME →
  ∃ s' own', uvmunmap root va n true s = Ok (tt, s') ∧ vinv s' own' ∧
    outside_same s s' p va n ∧ unmapped s own s' own' root ∧
    (∀ v, va_ok v → in_pages va n v → (∀ c, own' c ≠ RPage root v) ∧ (cur s = Some p → no_entry s' p v)).
Proof.
  intros Hv Hl Hcur Hal Hva Hn Hmax. pose proof PGSIZE_4096.
  destruct (unmap_owner_ok s own p root Hv Hl Hcur) as (pp & E0 & Hpp & Hiff).
  destruct (uvmunmap_loop_ok (Z.to_nat n) s own p root va n pp Hv Hl Hpp Hal Hva ltac:(lia) Hmax)
    as (s' & own' & E & Hv' & Hout & Hum & Hin).
  exists s', own'. split_and!; try done.
  - assert (va mod PGSIZE = 0) as Hm by (apply Z.mod_divide; [lia|done]).
    unfold uvmunmap. rewrite decide_False by (intros Hn'; by apply Hn').
    rewrite (bind_ok _ _ _ _ _ E0). pose proof MAXVA_range. pose proof TRAMPOLINE_top. pose proof TRAPFRAME_below.
    rewrite u64_id by nia. exact E.
  - intros v Hvv Hi. destruct (Hin v Hvv Hi) as [? Hne]. split; [done|]. intros ?. by apply Hne, Hiff.
Qed.

(** What the process sees of a page without frame and without slot. *)
Lemma user_page_none s own p root va :
  vinv s own → live s p root → va_ok va → (∀ c, own c ≠ RPage root va) → no_entry s p va →
  user_page s p va = replicate pgsize 0.
Proof.
  intros Hv Hl Hva Hno Hne. rewrite (user_page_swp s own p root va);
    [|apply Hv|by apply (vi_live _ _ Hv p)|done..].
  unfold swapped_page. by rewrite swap_find_None.
Qed.

(** ** Pages the kernel holds *)

(** [kalloc] *)
Lemma kalloc_kern_ok s own :
  vinv s own →
  (kalloc s = Ok (0, s) ∧ ∀ a, own a ≠ RFree) ∨
  ∃ a m fl, let s' := with_mem m (with_freelist fl s) in
    kalloc s = Ok (a, s') ∧ a ≠ 0 ∧ own a = RFree ∧ vinv s' (give a RKern own) ∧
    paged s own s' (give a RKern own).
Proof.
  intros Hv. destruct (kalloc_tree s own (vi_tree _ _ Hv)) as [(_ & ? & ?)|(a & fl & m & Ha & Ha0 & E & Ho & Ht)]; [by left|right].
  exists a, m, fl. destruct (paged_give s own m fl a RKern Hv) as [Hv' Hpg]; [by left|by right|done..].
Qed.

(** [kfree] of such a page *)
Lemma kfree_kern_ok s own c :
  vinv s own → own c = RKern →
  ∃ m, let s' := with_mem m (with_freelist c s) in
    kfree c s = Ok (tt, s') ∧ vinv s' (give c RFree own) ∧ paged s own s' (give c RFree own) ∧
    only_page c (mem s) m.
Proof.
  intros Hv Hc. destruct (kfree_tree s own c (vi_tree _ _ Hv) Hc) as (m & E & Ho & Ht). exists m.
  destruct (paged_give s own m c c RFree Hv) as [Hv' Hpg]; [by right|by left|done..].
Qed.

(** [memmove] of a whole page into one *)
Lemma store_kern_ok s own c d :
  vinv s own → own c = RKern → length d = pgsize →
  let s' := with_mem (wrbytes (mem s) c d) (with_freelist (freelist s) s) in
  store_bytes c d s = Ok (tt, s') ∧ vinv s' own ∧ paged s own s' own ∧ rdbytes (mem s') c PGSIZE = d.
Proof.
  intros Hv Hc Hd s'. pose proof (tree_sane _ _ _ (vi_tree _ _ Hv)) as Hs.
  assert (page_addr c) as Hpc by (apply Hs; by rewrite Hc).
  assert (Z.of_nat (length d) = PGSIZE) as Hlen by (rewrite Hd; unfold pgsize; by rewrite PGSIZE_4096).
  assert (only_page c (mem s) (wrbytes (mem s) c d)) as Ho by (apply only_page_wrbytes; lia).
  destruct (paged_write s own c (wrbytes (mem s) c d) Hv Hc Ho) as [Hv' Hpg].
  split_and!; [|done|done|simpl; rewrite <- Hlen; apply rdbytes_wrbytes].
  unfold store_bytes. rewrite Hlen. rewrite (page_ram c) by (done || lia). by destruct s.
Qed.
End spaces.
