(* ===== verification/Fork.v ===== *)
(** * Copying an address space (vm.c:373-505)

    [uvmcopy] gives the child of a fork a copy of every page its parent
    sees: of resident pages in fresh frames, of swapped-out pages in fresh
    swap slots; pages that were never touched stay absent. *)
From S2P Require Import Prelude Interfaces Mem KState Kmem PageTable Frames Paging Vm Fault Spaces.
Local Open Scope Z_scope.

Section fork.
Context `{Sv39} {D : Type} `{!SwapDev D} `{!SwapDevSpec D}.
Implicit Types s : kernel D.

(** A page of which neither memory nor swap holds anything. *)
Definition fresh s (own : owners) (p : nat) (root v : Z) : Prop :=
  (∀ a, own a ≠ RPage root v) ∧ no_entry s p v.

Lemma paged_fresh s own s' own' p root v :
  vinv s own → live s p root → paged s own s' own' → fresh s own p root v → fresh s' own' p root v.
Proof.
  intros Hv Hl Hpg [Hno Hne]. split.
  - intros a Ha%(pg_sub _ _ _ _ Hpg). by apply (Hno a).
  - intros i e Hi He. pose proof He as (Hu & Hp & Hve).
    destruct (pg_new _ _ _ _ Hpg i e Hi Hu) as [Hi'|(q & r & a & Hq & Hlq & Ha)]; [by apply (Hne i e)|].
    assert (q = p) as -> by congruence.
    destruct Hl as (x & Hx & Hr & _). destruct Hlq as (y & Hy & Hry & _).
    apply (Hno a). rewrite Ha. f_equal; congruence.
Qed.

Lemma paged_others s own s' own' p va : paged s own s' own' → others_same s s' p va.
Proof. intros Hpg q r v Hq Hvv _. by apply (pg_views _ _ _ _ Hpg q r). Qed.

Lemma others_trans s1 s2 s3 p va :
  same_procs s1 s2 → others_same s1 s2 p va → others_same s2 s3 p va → others_same s1 s3 p va.
Proof.
  intros Hps H12 H23 q r v Hq Hvv Hn. rewrite (H23 q r v); [by eapply H12| |done..].
  by apply (live_same s1 s2).
Qed.

(** The first free slot and the first free entry of the swap map are the
    same while the two arrays agree. *)
Lemma first_free s own k :
  vinv s own → ∀ b, list_find (λ b, b = false) (swap_used s) = Some (k, b) →
  ∃ e, list_find (λ e, s_used e = false) (swap_map s) = Some (k, e).
Proof.
  intros Hv b. rewrite (vi_used _ _ Hv), list_find_fmap. intros ([k' e] & Hx & [= -> _])%fmap_Some.
  exists e. rewrite <- Hx. by apply list_find_ext.
Qed.

Definition copy_post s own (p : nat) (root va : Z) (d : bytes) (ok : bool) s' own' : Prop :=
  vinv s' own' ∧ same_procs s s' ∧ cur s' = cur s ∧ others_same s s' p va ∧
  (∀ v, v ≠ va → fresh s own p root v → fresh s' own' p root v) ∧ pinned s own s' own' ∧
  if ok then user_page s' p va = d
  else fresh s' own' p root va ∧ (swap_full s' ∨ scarce own').

Lemma copy_fail s own s' own' p root va d :
  vinv s own → live s p root → vinv s' own' → paged s own s' own' → fresh s own p root va →
  swap_full s' ∨ scarce own' → copy_post s own p root va d false s' own'.
Proof.
  intros Hv Hl Hv' Hpg Hf Hr. unfold copy_post.
  split; [done|]. split; [apply Hpg|]. split; [apply Hpg|]. split; [exact (paged_others _ _ _ _ _ _ Hpg)|].
  split; [intros v _; by apply (paged_fresh s own)|]. split; [apply Hpg|]. split; [|done]. by apply (paged_fresh s own).
Qed.

Lemma copy_post_trans s own s1 own1 p root va d ok s' own' :
  vinv s own → live s p root → paged s own s1 own1 →
  copy_post s1 own1 p root va d ok s' own' → copy_post s own p root va d ok s' own'.
Proof.
  intros Hv Hl Hpg (Hv' & Hps & Hc & Hoth & Hf & Hpin & Hok). pose proof (pg_procs _ _ _ _ Hpg) as Hps1.
  split_and!; [done| | | | |eapply pinned_trans; [apply Hpg|done]|done].
  - unfold same_procs in *. congruence.
  - rewrite Hc. apply Hpg.
  - eapply others_trans; [done|exact (paged_others _ _ _ _ _ _ Hpg)|done].
  - intros v Hne Hfr. apply Hf; [done|]. by apply (paged_fresh s own).
Qed.

Lemma store_swapped_ok s own p root va tmp :
  vinv s own → live s p root → va_ok va → own tmp = RKern → fresh s own p root va →
  ∃ ok s' own', store_swapped p va tmp s = Ok (ok, s') ∧
    copy_post s own p root va (rdbytes (mem s) tmp PGSIZE) ok s' own' ∧ own' = give tmp RFree own.
Proof.
  intros Hv Hl Hva Ht Hfr. pose proof (tree_sane _ _ _ (vi_tree _ _ Hv)) as Hs.
  assert (page_addr tmp) as Hpt by (apply Hs; by rewrite Ht).
  unfold store_swapped, reserve_swap_slot. rewrite bind_assoc.
  rewrite (bind_ok _ _ _ (swap_used s) s) by done.
  destruct (list_find _ (swap_used s)) as [[k b]|] eqn:Ek.
  2:{ destruct (kfree_kern_ok s own tmp Hv Ht) as (m & E & Hv' & Hpg & _).
      eexists false, _, _. split; [rewrite (bind_ok _ _ _ None s) by done; by rewrite (bind_ok _ _ _ _ _ E)|].
      split; [|done]. apply copy_fail; [done..|]. left. intros j c Hj. apply list_find_None in Ek.
      rewrite Forall_lookup in Ek. specialize (Ek j c Hj). by destruct c. }
  destruct (first_free s own k Hv b Ek) as [e0 Ee]. apply list_find_Some in Ek as (Hk & -> & _).
  assert (k < MAX_SWAP)%nat as Hlt.
  { apply lookup_lt_Some in Hk. by rewrite (vi_used _ _ Hv), length_fmap, (vi_slen _ _ Hv) in Hk. }
  set (s1 := with_swap_used (<[k := true]> (swap_used s)) s).
  rewrite (bind_ok _ _ _ (Some k) s1) by done. pose proof (vi_slots _ _ Hv).
  destruct (swap_out_ok s1 (Z.of_nat k) tmp) as (d & E2 & Hd & Hpages); [apply Hv|lia|done|].
  rewrite (bind_ok _ _ _ _ _ E2). rewrite decide_False by lia.
  set (s2 := with_swapdev d s1) in *.
  destruct (kfree_tree s2 own tmp (vi_tree _ _ Hv) Ht) as (m & E3 & Ho & Ht3).
  rewrite (bind_ok _ _ _ _ _ E3). set (s3 := with_mem m (with_freelist tmp s2)).
  set (ent := mkSwap true (Some p) va (Z.of_nat k)).
  set (s' := with_swap_map (<[k := ent]> (swap_map s)) s3).
  assert (insert_swap_entry p va k s3 = Ok (true, s')) as E4.
  { unfold insert_swap_entry. rewrite (bind_ok _ _ _ (swap_map s) s3) by done. by rewrite Ee. }
  assert (∀ a r v, give tmp RFree own a = RPage r v ↔ own a = RPage r v) as Hpgs.
  { intros a r v. unfold give. case_decide; [subst; by rewrite Ht|done]. }
  destruct (entry_add_ok s own s' (give tmp RFree own) p root va k (rdbytes (mem s) tmp PGSIZE))
    as (Hv' & Hup & Hoth); try done; try apply Hv; try apply Hfr.
  - intros r Hr. rewrite give_ne; [done|]. intros ->. congruence.
  - intros a r v. rewrite Hpgs. split; [|by intros [? _]]. intros Ha. split; [done|].
    intros [-> ->]. by apply (proj1 Hfr a).
  - intros a r v Ha%Hpgs. apply (only_page_bytes tmp a); [done|done|apply Hs; by rewrite Ha|].
    intros ->. congruence.
  - exists true, s', (give tmp RFree own). split; [done|]. split; [|done]. split_and!; try done.
    2:{ apply (pinned_page _ _ _ _ tmp); [done|by rewrite Ht..|done|]. intros b. apply give_ne. }
    intros v Hne [Hno Hnv]. split; [by intros a Ha%Hpgs; apply (Hno a)|].
    intros j e Hj He. simpl in Hj. destruct (decide (j = k)) as [->|Hjk].
    + rewrite list_lookup_insert_eq in Hj by (by rewrite (vi_slen _ _ Hv)). simplify_eq.
      destruct He as (_ & _ & Hve). by apply Hne.
    + rewrite list_lookup_insert_ne in Hj by done. by apply (Hnv j e).
Qed.
Lemma copy_swapped_ok s own p root va q e i :
  vinv s own → live s p root → va_ok va → fresh s own p root va →
  swap_map s !! i = Some e → is_entry q va e →
  ∃ ok s' own', copy_swapped p va (s_slot e) s = Ok (ok, s') ∧
    copy_post s own p root va (dev_page (swapdev s) (s_slot e)) ok s' own' ∧ confined root own own'.
Proof.
  intros Hv Hl Hva Hfr Hi He. unfold copy_swapped. pose proof (vi_slots _ _ Hv).
  destruct (vi_swap _ _ Hv i e Hi (proj1 He)) as (Hslot & _).
  assert (0 ≤ s_slot e < dev_slots) as Hrange.
  { apply lookup_lt_Some in Hi. rewrite (vi_slen _ _ Hv) in Hi. lia. }
  destruct (kalloc_kern_ok s own Hv) as [[E Hno]|(tmp & m & fl & E & Htmp & Hfree & Hv1 & Hpg1)];
    rewrite (bind_ok _ _ _ _ _ E).
  { exists false, s, own. split; [done|]. split; [|apply confined_refl].
    apply copy_fail; [done..|apply paged_refl|done|]. right. intros a b Ha. by destruct (Hno a). }
  rewrite decide_False by done. set (s1 := with_mem m (with_freelist fl s)) in *.
  destruct (swap_in_ok s1 _ (s_slot e) tmp Hv1 (give_eq _ _ _) Hrange) as (s2 & E2 & Hv2 & Hpg2 & Hd & _).
  rewrite (bind_ok _ _ _ _ _ E2). rewrite decide_False by lia.
  pose proof (paged_trans _ _ _ _ _ _ Hpg1 Hpg2) as Hpg. pose proof (paged_live _ _ _ _ _ _ Hpg Hl) as Hl2.
  destruct (store_swapped_ok s2 _ p root va tmp Hv2 Hl2 Hva (give_eq _ _ _)) as (ok & s' & own' & E3 & Hpost & ->).
  { by apply (paged_fresh s own). }
  exists ok, s', (give tmp RFree (give tmp RKern own)). split; [done|]. rewrite Hd in Hpost.
  split; [by eapply copy_post_trans|]. intros a. left. unfold give. repeat case_decide; congruence.
Qed.

(** A free page that was taken, and then mapped or given back. *)
Lemma confined_swap root own a r own' :
  own a = RFree → mine root r → confined root (give a RKern own) own' → confined root own (give a r own').
Proof.
  intros Ha Hr Hc b. destruct (decide (b = a)) as [->|Hb]; [right; by rewrite give_eq, Ha|].
  specialize (Hc b). by rewrite !give_ne in * by done.
Qed.

(** A page of the kernel is mapped where there was nothing; when no page is
    left for the tables it is given back. *)
Lemma place_page_ok s own p root va a fl :
  vinv s own → live s p root → va_ok va → own a = RKern → fresh s own p root va → 0 ≤ fl < 1024 →
  ∃ r m3 f3 own3, let s3 := with_mem m3 (with_freelist f3 s) in
    mappages root va PGSIZE a fl s = Ok (r, s3) ∧ confined root own own3 ∧
    ((r = 0 ∧ copy_post s own p root va (rdbytes (mem s) a PGSIZE) true s3 (give a (RPage root va) own3)) ∨
     (r ≠ 0 ∧ ∃ s4, kfree a s3 = Ok (tt, s4) ∧
        copy_post s own p root va (rdbytes (mem s) a PGSIZE) false s4 (give a RFree own3))).
Proof.
  intros Hv Hl Hva Ha Hfr Hfl. pose proof (tree_sane _ _ _ (vi_tree _ _ Hv)) as Hs.
  destruct (mappages_one_ok s own root va a fl (vi_tree _ _ Hv) (vi_live _ _ Hv p root Hl)
    (proj1 Hva) (proj2 Hva) Ha (proj1 Hfr) Hfl) as (r & m3 & f3 & own3 & E3 & Hg & Hcf & Hcase).
  exists r, m3, f3, own3. set (s3 := with_mem m3 (with_freelist f3 s)) in *. split_and!; [done|done|].
  destruct Hcase as [(-> & Ht3)|(-> & Ht3 & Hnf)]; [left|right]; (split; [done|]).
  - destruct (grow_mapped own (mem s) own3 m3 a root va Hg Ha) as [Hpgs Htabs].
    destruct (page_map_ok s own s3 (give a (RPage root va) own3) p root va a) as (Hv3 & Hup & Hoth);
      try done; try apply Hv; try apply Hfr.
    + by rewrite give_eq.
    + by rewrite Ha.
    + intros b r v Hb. apply (grow_data _ _ _ _ Hg). by rewrite Hb.
    + intros j e Hu. split; [|by intros [? _]]. intros Hj. split; [done|]. by apply (proj2 Hfr j e).
    + split_and!; try done.
      * intros v Hne [Hnv Hev]. split; [|done]. intros b Hb. destruct (decide (b = a)) as [->|Hba].
        -- rewrite give_eq in Hb. congruence.
        -- apply Hpgs in Hb; [|done]. by apply (Hnv b).
      * by apply (pinned_mapped s own s3 own3).
      * rewrite Hup. apply (grow_data _ _ _ _ Hg). by rewrite Ha.
  - destruct (paged_grow s own m3 f3 own3 Hv Ht3 Hg) as [Hv3 Hpg3].
    assert (own3 a = RKern) as Ha3 by (rewrite (grow_kept _ _ _ _ Hg); by rewrite Ha).
    destruct (kfree_kern_ok s3 own3 a Hv3 Ha3) as (m4 & E4 & Hv4 & Hpg4 & _).
    eexists. split; [done|]. apply copy_fail; [done|done|done|by eapply paged_trans|done|]. right.
    intros b b' Hb Hb'. unfold give in Hb, Hb'. repeat case_decide; subst; try done;
      first [by destruct (Hnf b)|by destruct (Hnf b')].
Qed.

(** A resident page is copied into a fresh frame with the same flags. *)
Lemma copy_resident_ok s own p root va q old c fl :
  vinv s own → live s p root → live s q old → va_ok va → fresh s own p root va →
  own c = RPage old va → 0 ≤ fl < 1024 →
  ∃ ok s' own', (let* mem := kalloc in
      if decide (mem = 0) then ret false else
      let* d := load_bytes c PGSIZE in
      store_bytes mem d ;;;
      let* r := mappages root va PGSIZE mem fl in
      if decide (r ≠ 0) then kfree mem ;;; ret false else ret true) s = Ok (ok, s') ∧
    copy_post s own p root va (user_page s q va) ok s' own' ∧ confined root own own'.
Proof.
  intros Hv Hl Hlq Hva Hfr Hc Hfl.
  destruct (kalloc_kern_ok s own Hv) as [[E Hno]|(a & m & f & E & Ha & Hfree & Hv1 & Hpg1)];
    rewrite (bind_ok _ _ _ _ _ E).
  { exists false, s, own. split; [done|]. split; [|apply confined_refl].
    apply copy_fail; [done..|apply paged_refl|done|]. right. intros b b' Hb. by destruct (Hno b). }
  rewrite decide_False by done. set (s1 := with_mem m (with_freelist f s)) in *.
  set (own1 := give a RKern own) in *.
  assert (own1 c = RPage old va) as Hc1 by (unfold own1; rewrite give_ne; [done|intros ->; congruence]).
  assert (user_page s q va = rdbytes (mem s1) c PGSIZE) as Hd.
  { pose proof (paged_live _ _ _ _ _ _ Hpg1 Hlq) as Hlq1.
    rewrite <- (pg_views _ _ _ _ Hpg1 q old va Hlq Hva).
    apply (user_page_res s1 own1 q old va c); [apply Hv1|by apply (vi_live _ _ Hv1 q)|done..]. }
  assert (page_addr c) as Hpc by (apply (tree_sane _ _ _ (vi_tree _ _ Hv1)); by rewrite Hc1).
  rewrite (bind_ok _ _ _ (user_page s q va) s1) by
    (unfold load_bytes; rewrite (page_ram c) by (done || lia); by rewrite Hd).
  destruct (store_kern_ok s1 own1 a (user_page s q va) Hv1 (give_eq _ _ _)) as (E2 & Hv2 & Hpg2 & Hrd).
  { by rewrite Hd, length_rdbytes. }
  rewrite (bind_ok _ _ _ _ _ E2). set (s2 := with_mem _ (with_freelist (freelist s1) s1)) in *.
  pose proof (paged_trans _ _ _ _ _ _ Hpg1 Hpg2) as Hpg.
  destruct (place_page_ok s2 own1 p root va a fl Hv2 (paged_live _ _ _ _ _ _ Hpg Hl) Hva (give_eq _ _ _)) as
    (r & m3 & f3 & own3 & E3 & Hcf & Hcase); [by apply (paged_fresh s own)|done|].
  rewrite (bind_ok _ _ _ _ _ E3). rewrite Hrd in Hcase. destruct Hcase as [(-> & Hpost)|(Hr & s4 & E4 & Hpost)].
  - rewrite decide_False by (by intros Hx; apply Hx). eexists true, _, _. split; [done|].
    split; [by eapply copy_post_trans|by apply (confined_swap root own a)].
  - rewrite decide_True by done. rewrite (bind_ok _ _ _ _ _ E4). eexists false, _, _. split; [done|].
    split; [by eapply copy_post_trans|by apply (confined_swap root own a)].
Qed.

Lemma uvmcopy_page_ok s own p root va q old :
  vinv s own → live s p root → live s q old → va_ok va → fresh s own p root va →
  ∃ ok s' own', uvmcopy_page old root va (Some q) p s = Ok (ok, s') ∧
    copy_post s own p root va (user_page s q va) ok s' own' ∧ confined root own own'.
Proof.
  intros Hv Hl Hlq Hva Hfr. pose proof (vi_tree _ _ Hv) as Ht. unfold uvmcopy_page.
  destruct (walk_ro_ok s own old va Ht (vi_live _ _ Hv q old Hlq) Hva) as (o & Ew & Ho).
  rewrite (bind_ok _ _ _ _ _ Ew).
  assert (∃ v, match o with Some pte => load64 pte | None => ret 0 end s = Ok (v, s) ∧
    if valid_pte v then own (PTE2PA v) = RPage old va else ∀ a, own a ≠ RPage old va) as (v & El & Hval).
  { destruct o as [pte|]; [|exists 0; by rewrite valid_pte_0].
    destruct (leaf_read s own old va pte Ht Ho Hva) as [El Hx]. by exists (rd64 (mem s) pte). }
  rewrite (bind_ok _ _ _ _ _ El). destruct (valid_pte v).
  { cbn [negb]. by apply (copy_resident_ok s own p root va q old (PTE2PA v)); [..|apply PTE_FLAGS_range]. }
  cbn [negb]. rewrite (bind_ok _ _ _ (swap_map s) s) by done.
  pose proof (list_find_entry s q va) as Hf. destruct (list_find _ _) as [[i e]|].
  - destruct Hf as [Hi He]. destruct (vi_swap _ _ Hv i e Hi (proj1 He)) as (Hslot & _).
    rewrite decide_False by lia.
    assert (user_page s q va = dev_page (swapdev s) (s_slot e)) as ->.
    { rewrite (user_page_swp s own q old va); [|done|by apply (vi_live _ _ Hv q)|done..].
      unfold swapped_page. by rewrite (swap_find_Some s q va i e (vi_suniq _ _ Hv) Hi He). }
    by apply (copy_swapped_ok s own p root va q e i).
  - exists true, s, own. split; [done|]. split; [|apply confined_refl].
    unfold copy_post. split_and!; [done..|].
    rewrite (user_page_none s own p root va), (user_page_none s own q old va); try done; apply Hfr.
Qed.

(** The pages of [p] in [0, n) are those [q] had in state [s0]. *)
Definition copied s0 s (p q : nat) (n : Z) : Prop :=
  ∀ v, va_ok v → v < n → user_page s p v = user_page s0 q v.

(** Everybody but [p] sees what it saw. *)
Definition except_same s s' (p : nat) : Prop :=
  ∀ q r v, live s q r → va_ok v → q ≠ p → user_page s' q v = user_page s q v.

Lemma uvmcopy_loop_ok fuel s0 s own p root q old i sz :
  vinv s own → same_procs s0 s → live s p root → live s q old → p ≠ q → cur s = Some q →
  except_same s0 s p → copied s0 s p q i → (PGSIZE | i) → 0 ≤ i → 0 ≤ sz ≤ TRAPFRAME →
  (∀ v, va_ok v → i ≤ v → fresh s own p root v) → sz < i + Z.of_nat fuel * PGSIZE →
  ∃ r s' own', uvmcopy_loop fuel old root i sz (Some q) p s = Ok (r, s') ∧ vinv s' own' ∧
    same_procs s0 s' ∧ cur s' = Some q ∧ except_same s0 s' p ∧
    pinned s own s' own' ∧ confined root own own' ∧
    ((r = 0 ∧ copied s0 s' p q sz ∧ ∀ v a, va_ok v → i ≤ v → sz ≤ v → own' a ≠ RPage root v) ∨
     (r = -1 ∧ ∀ v a, va_ok v → own' a ≠ RPage root v)).
Proof.
  pose proof PGSIZE_4096 as Hpg. revert s own i.
  induction fuel as [|fuel IH]; intros s own i Hv Hps Hl Hlq Hpq Hcur Hex Hcp Hal Hi Hsz Hfr Hfuel.
  { exists 0, s, own. simpl. rewrite decide_False by lia.
    split_and!; try done; [apply confined_refl|]. left. split_and!; [done| |].
    - intros v ? ?. apply Hcp; [done|lia].
    - intros v a ? ? _. by apply Hfr. }
  simpl. case_decide as Hlt.
  2:{ exists 0, s, own. split_and!; try done; [apply confined_refl|]. left. split_and!; [done| |].
      - intros v ? ?. apply Hcp; [done|lia].
      - intros v a ? ? _. by apply Hfr. }
  assert (va_ok i) as Hva by (split; [lia|done]).
  destruct (uvmcopy_page_ok s own p root i q old Hv Hl Hlq Hva (Hfr i Hva ltac:(lia)))
    as (ok & s1 & own1 & E1 & (Hv1 & Hps1 & Hc1 & Hoth1 & Hf1 & Hpin1 & Hok) & Hcf1).
  rewrite (bind_ok _ _ _ _ _ E1).
  assert (same_procs s0 s1) as Hps01 by (unfold same_procs in *; congruence).
  assert (live s1 p root) as Hl1 by by apply (live_same s s1).
  assert (live s1 q old) as Hlq1 by by apply (live_same s s1).
  assert (except_same s0 s1 p) as Hex1.
  { intros q' r v Hq' Hvv Hne. rewrite (Hoth1 q' r v); [by eapply Hex|by apply (live_same s0 s)|done|].
    by intros [? _]. }
  destruct ok.
  - pose proof MAXVA_range. pose proof TRAMPOLINE_top. pose proof TRAPFRAME_below. rewrite u64_id by lia.
    destruct (IH s1 own1 (i + PGSIZE)) as (r & s' & own' & E & Hv' & Hps' & Hc' & Hex' & Hpin & Hcf & Hcase);
      try done; try lia; [congruence| |by apply Z.divide_add_r; [|exists 1; lia]| |].
    + intros v Hvv Hvi. destruct (decide (v = i)) as [->|Hne].
      * rewrite Hok. by apply (Hex q old i); [apply (live_same s0 s)|..].
      * assert (v < i) as Hvi'.
        { destruct Hal as [j ->]. destruct Hvv as [_ [k ->]]. rewrite Hpg in *. nia. }
        rewrite (Hoth1 p root v); [by apply Hcp|done|done|]. by intros [_ ?].
    + intros v Hvv Hvi. apply Hf1; [lia|]. apply Hfr; [done|lia].
    + exists r, s', own'. split_and!; try done; [by eapply pinned_trans|by eapply confined_trans|].
      destruct Hcase as [(-> & ? & Hno)|?]; [left|by right]. split_and!; [done..|]. intros v a Hvv Hvi Hvs.
      apply Hno; [done| |done]. destruct Hvv as [_ [k ->]]. destruct Hal as [j ->]. nia.
  - destruct (uvmunmap_ok s1 own1 p root 0 (i / PGSIZE)) as (s2 & own2 & E2 & Hv2 & Hout & [Hps2 Hc2 _ Hmono Hpin2 _ _] & Hin).
    + done.
    + done.
    + rewrite Hc1, Hcur. intros c [= <-]. destruct Hlq1 as (x & Hx & _). by exists x.
    + by exists 0.
    + lia.
    + apply Z.div_pos; lia.
    + pose proof (Z.mul_div_le i PGSIZE). lia.
    + exists (-1), s2, own2. split; [by rewrite (bind_ok _ _ _ _ _ E2)|]. split_and!; [done| | | | | |].
      * unfold same_procs in *. congruence.
      * congruence.
      * intros q' r v Hq' Hvv Hne. rewrite (Hout q' r v); [by eapply Hex1|by apply (live_same s0 s1)|done|].
        by intros [? _].
      * by eapply pinned_trans.
      * eapply confined_trans; [done|]. by apply released_confined.
      * right. split; [done|]. intros v a Hvv Ha.
        destruct (decide (v < i)) as [Hvi|Hvi].
        -- destruct (Hin v Hvv) as [Hx _]; [|by apply (Hx a)]. unfold in_pages. destruct Hal as [j ->].
           rewrite Z.div_mul by lia. split; [apply Hvv|lia].
        -- apply (released_page _ _ _ _ _ Hmono) in Ha. destruct (decide (v = i)) as [->|Hne]; [by apply (proj1 (proj1 Hok) a)|].
           apply (proj1 (Hf1 v Hne (Hfr v Hvv ltac:(lia))) a Ha).
Qed.

(** The copy is of every page the parent sees below [sz]. *)
Lemma uvmcopy_ok s own p root q old sz :
  vinv s own → live s p root → live s q old → p ≠ q → cur s = Some q → 0 ≤ sz ≤ TRAPFRAME →
  (∀ v, va_ok v → fresh s own p root v) →
  ∃ r s' own', uvmcopy old root sz p s = Ok (r, s') ∧ vinv s' own' ∧ same_procs s s' ∧
    cur s' = cur s ∧ except_same s s' p ∧ pinned s own s' own' ∧ confined root own own' ∧
    ((r = 0 ∧ copied s s' p q sz ∧ ∀ v a, va_ok v → sz ≤ v → own' a ≠ RPage root v) ∨
     (r = -1 ∧ ∀ v a, va_ok v → own' a ≠ RPage root v)).
Proof.
  intros Hv Hl Hlq Hpq Hcur Hsz Hfr. pose proof PGSIZE_4096 as Hpg. unfold uvmcopy.
  rewrite (bind_ok _ _ _ (Some q) s) by (unfold gets; by rewrite Hcur).
  destruct (uvmcopy_loop_ok (Z.to_nat (sz / PGSIZE + 1)) s s own p root q old 0 sz)
    as (r & s' & own' & E & Hv' & Hps & Hc & Hex & Hpin & Hcf & Hcase); try done.
  - intros v [[? _] _] ?. lia.
  - by exists 0.
  - intros v Hvv _. by apply Hfr.
  - pose proof (Z.div_pos sz PGSIZE). pose proof (Z.div_mod sz PGSIZE). pose proof (Z.mod_pos_bound sz PGSIZE). lia.
  - exists r, s', own'. split_and!; try done; [congruence|].
    destruct Hcase as [(-> & ? & Hno)|?]; [left|by right]. split_and!; [done..|]. intros v a Hvv Hvs.
    apply Hno; [done| |done]. apply Hvv.
Qed.
End fork.
