(* ===== verification/SpaceProps.v ===== *)
(** * Properties of address spaces

    Fork's copy of an address space, unmapping, and two interleavings of
    eviction with other users of the swap area. *)
From S2P Require Import Prelude Interfaces Mem KState Kmem PageTable Frames Paging Vm Fault Boot.
From S2P Require Import Spaces Fork Raid VmProps.
Local Open Scope Z_scope.

Section props.
Context `{Sv39} {D : Type} `{!SwapDev D} `{!SwapDevSpec D}.
Implicit Types s : kernel D.

(** Page [v] of process [p] is neither in memory nor in swap. *)
Definition untouched s (p : nat) (root v : Z) : Prop :=
  pt_find (mem s) root v = None ∧ swap_find s p v = None.

Lemma fresh_untouched s own p root v :
  vinv s own → live s p root → va_ok v → fresh s own p root v ↔ untouched s p root v.
Proof.
  intros Hv Hl Hva. pose proof (vi_live _ _ Hv p root Hl) as Hr. split.
  - intros [Hno Hne]. split; [|by apply swap_find_None].
    destruct (pt_find _ _ _) as [a|] eqn:E; [|done]. by destruct (Hno a); eapply pt_find_own; [apply Hv|..].
  - intros [Hpt Hsw]. split.
    + intros a Ha. eapply pt_find_own in Ha; [|apply Hv|done..]. congruence.
    + intros i e Hi He. by rewrite (swap_find_Some s p v i e (vi_suniq _ _ Hv) Hi He) in Hsw.
Qed.

(** [C23] Fork copies memory.  Called by process [q] for a child with an empty
    address space, [uvmcopy] ends with the invariant and without touching
    what any other process sees.  If it returns 0 the child sees, below [sz],
    exactly the parent's pages, whether they were resident, swapped out or
    never touched.  Otherwise it returns -1 and the child maps no page. *)
Theorem uvmcopy_copies s p q old new sz :
  vm_ok s → cur s = Some q → live s q old → live s p new → p ≠ q → 0 ≤ sz ≤ TRAPFRAME →
  (∀ v, va_ok v → untouched s p new v) →
  ∃ r s', uvmcopy old new sz p s = Ok (r, s') ∧ vm_ok s' ∧
    (∀ q' root v, live s q' root → va_ok v → q' ≠ p → user_page s' q' v = user_page s q' v) ∧
    ((r = 0 ∧ ∀ v, va_ok v → v < sz → user_page s' p v = user_page s q v) ∨
     (r = -1 ∧ ∀ v, va_ok v → pt_find (mem s') new v = None)).
Proof.
  intros [own Hv] Hcur Hlq Hl Hpq Hsz Hun.
  destruct (uvmcopy_ok s own p new q old sz) as (r & s' & own' & E & Hv' & Hps & _ & Hex & _ & _ & Hcase); try done.
  { intros v Hva. by apply fresh_untouched, Hun. }
  exists r, s'. split_and!; [done|by exists own'|done|].
  destruct Hcase as [(? & ? & _)|[-> Hno]]; [by left|right]. split; [done|]. intros v Hva.
  destruct (pt_find _ _ _) as [a|] eqn:Ea; [|done]. destruct (Hno v a Hva).
  eapply pt_find_own; [apply Hv'| |done|done]. apply (vi_live _ _ Hv' p). by apply (live_same s s').
Qed.

(** [C24] Unmapping releases what it removes.  When the running process
    unmaps pages of its own, each page of the range is gone from its page
    table and from swap and reads as zeros; the memory that held it is back
    on the free list; every page outside the range, of this process and of
    the others, reads as before. *)
Theorem uvmunmap_releases s p root va n :
  vm_ok s → cur s = Some p → live s p root →
  (PGSIZE | va) → 0 ≤ va → 0 ≤ n → va + n * PGSIZE ≤ TRAPFRAME →
  ∃ s', uvmunmap root va n true s = Ok (tt, s') ∧ vm_ok s' ∧ outside_same s s' p va n ∧
    ∀ v, va_ok v → in_pages va n v →
      untouched s' p root v ∧ user_page s' p v = replicate pgsize 0 ∧
      ∀ a, pt_find (mem s) root v = Some a → ∃ l, chain (mem s') (freelist s') l ∧ a ∈ l.
Proof.
  intros [own Hv] Hcur Hl Hal Hva Hn Hmax.
  destruct (uvmunmap_ok s own p root va n) as (s' & own' & E & Hv' & Hout & [Hps _ _ Hrel _ _ _] & Hin); try done.
  { rewrite Hcur. intros c [= <-]. destruct Hl as (x & Hx & _). by exists x. }
  exists s'. split_and!; [done|by exists own'|done|]. intros v Hvv Hi. destruct (Hin v Hvv Hi) as [Hno Hne].
  assert (live s' p root) as Hl' by by apply (live_same s s').
  split_and!; [apply (fresh_untouched s' own'); [done..|split; auto]|by apply (user_page_none s' own' p root v); auto|].
  intros a Ha. eapply pt_find_own in Ha; [|apply Hv|by apply (vi_live _ _ Hv p)|done].
  destruct (vi_tree _ _ Hv') as [[_ (l & Hc & _ & Hmem)] _]. exists l. split; [done|]. apply Hmem.
  destruct (Hrel a) as [Heq|[? _]]; [|done]. destruct (Hno a). congruence.
Qed.

(** A process with a new page table has nothing in its address space. *)
Lemma page_root m fl own a root v : tree_inv m fl own → own a = RPage root v → own root = RTab root 2 0.
Proof.
  intros [_ Hp] Ha. destruct (pt_page _ _ Hp _ _ _ Ha) as (b0 & p0 & i0 & Hb0 & _).
  destruct (pt_parent _ _ Hp _ _ _ _ Hb0) as (b1 & p1 & i1 & Hb1 & _); [lia|].
  destruct (pt_parent _ _ Hp _ _ _ _ Hb1) as (b2 & p2 & i2 & Hb2 & _); [lia|].
  destruct (pt_root _ _ Hp _ _ _ _ Hb2) as [_ Hr]. by destruct Hr as [-> ->].
Qed.

Lemma new_space_ok s own p x :
  vinv s own → procs s !! p = Some x → p_pagetable x = 0 → (∃ a, own a = RFree) →
  ∃ root s' own', (let* r := uvmcreate in upd_proc p (set_p_pagetable r) ;;; ret r) s = Ok (root, s') ∧
    vinv s' own' ∧ live s' p root ∧ cur s' = cur s ∧ (∀ q r, live s q r → live s' q r) ∧
    ∀ v, va_ok v → untouched s' p root v.
Proof.
  intros Hv Hx Hx0 [b Hb].
  destruct (uvmcreate_ok s own Hv) as [[_ Hno]|(root & s1 & Hr0 & Hfree & E & Hv1 & Hpg & Hps & Hfr & _)]; [by destruct (Hno b)|].
  set (s2 := with_procs (alter (set_p_pagetable root) p (procs s1)) s1).
  assert (vinv s2 (give root (RTab root 2 0) own)) as Hv2.
  { apply (assign_root_ok _ _ _ x); [done|apply give_eq|done| |by rewrite Hps|done].
    intros q r Hl. apply (Hfr q). by apply (live_same s s1 _ _ (vw_procs _ _ _ _ Hpg)). }
  assert (live s2 p root) as Hl2.
  { exists (set_p_pagetable root x). simpl. by rewrite list_lookup_alter_eq, Hps, Hx. }
  exists root, s2, (give root (RTab root 2 0) own). split_and!; [by rewrite (bind_ok _ _ _ _ _ E)|done|done|apply Hpg| |].
  - intros q r (y & Hy & Hr & Hrn). assert (q ≠ p) as Hne by (intros ->; congruence).
    exists y. simpl. by rewrite list_lookup_alter_ne, Hps by done.
  - intros v Hva. apply (fresh_untouched s2 (give root (RTab root 2 0) own)); [done..|]. split.
    + intros a. unfold give. case_decide; [done|]. intros Ha.
      pose proof (page_root _ _ _ _ _ _ (vi_tree _ _ Hv) Ha). congruence.
    + intros i e Hi He. pose proof He as (Hu & Hpe & _). change (swap_map s1 !! i = Some e) in Hi.
      destruct (vi_swap _ _ Hv1 i e Hi Hu) as (_ & _ & q & r & Hq & (y & Hy & Hr & Hrn) & _).
      assert (q = p) as -> by congruence. rewrite Hps, Hx in Hy. congruence.
Qed.
End props.

(** ** Runs *)
Module SpaceRuns.
Import VmRuns.
#[local] Existing Instance xv6_block_params.
#[local] Existing Instance VmRuns.lay.
#[local] Existing Instance VmRuns.sv39.

Definition machine : Type := kernel (raid IdealDisk.t).
Definition run {A} (m : M machine A) (s : machine) : machine :=
  match m s with Ok (_, s') => s' | _ => s end.

(** Page 4096 of process 0 in swap. *)
Definition swapped : machine := run evict_one_user_frame faulted.

(** Process 1 has an empty address space. *)
Definition new_space : M machine Z :=
  let* r := uvmcreate in upd_proc 1 (set_p_pagetable r) ;;; ret r.
Definition child_root : Z := match new_space swapped with Ok (r, _) => r | _ => 0 end.
Definition forking : machine := run new_space swapped.

Lemma faulted_live : cur faulted = Some 0%nat ∧ live faulted 0 root ∧
  ∃ x, procs faulted !! 1%nat = Some x ∧ p_pagetable x = 0.
Proof.
  split; [vm_compute; reflexivity|]. split.
  - exists (match procs faulted !! 0%nat with Some x => x | None => proc0 end).
    split; [vm_compute; reflexivity|]. split; [vm_compute; reflexivity|apply started_ok].
  - exists proc0. split; vm_compute; reflexivity.
Qed.

Lemma swapped_ok : ∃ own, vinv swapped own ∧ cur swapped = Some 0%nat ∧ live swapped 0 root ∧
  (∃ x, procs swapped !! 1%nat = Some x ∧ p_pagetable x = 0) ∧ ∃ c, own c = RFree.
Proof.
  destruct faulted_ok as ([own Hv] & _). destruct faulted_live as (Hcur & Hl & x & Hx & Hx0).
  destruct (evict_one_ok faulted own Hv) as (r & s' & own' & E & Hv' & Hpg & Hcase).
  assert (swapped = s') as Hs by (unfold swapped, run; rewrite E; reflexivity). rewrite Hs.
  exists own'. split; [exact Hv'|]. split; [rewrite (pg_cur _ _ _ _ Hpg); exact Hcur|].
  split; [eapply paged_live; [exact Hpg|exact Hl]|].
  split; [eapply proc_root; [exact (pg_procs _ _ _ _ Hpg)|exact Hx|exact Hx0]|].
  destruct Hcase as [(_ & _ & Hc)|(-> & _)]; [exact Hc|]. exfalso.
  assert (match evict_one_user_frame faulted with Ok (r, _) => r =? 0 | _ => false end = true) as Hc
    by (vm_compute; reflexivity).
  rewrite E in Hc. discriminate.
Qed.

Lemma forking_ok : vm_ok forking ∧ cur forking = Some 0%nat ∧ live forking 0 root ∧
  live forking 1 child_root ∧ ∀ v, va_ok v → untouched forking 1 child_root v.
Proof.
  destruct swapped_ok as (own & Hv & Hcur & Hl & (x & Hx & Hx0) & Hc).
  destruct (new_space_ok swapped own 1 x Hv Hx Hx0 Hc) as (r & s' & own' & E & Hv' & Hl' & Hcur' & Hkeep & Hun).
  assert (forking = s' ∧ child_root = r) as [-> ->].
  { unfold forking, child_root, run, new_space. rewrite E. split; reflexivity. }
  split; [by exists own'|]. split; [rewrite Hcur'; exact Hcur|]. split; [apply Hkeep; exact Hl|].
  split; [exact Hl'|exact Hun].
Qed.

(** A fork while page 4096 of the parent is in swap succeeds. *)
Lemma uvmcopy_copies_witness :
  ∃ s', uvmcopy root child_root 12288 1 forking = Ok (0, s') ∧ vm_ok s' ∧
    user_page s' 1 4096 = user_page forking 0 4096.
Proof.
  destruct forking_ok as (Hok & Hcur & Hl & Hl1 & Hun).
  destruct (uvmcopy_copies forking 1 0 root child_root 12288 Hok Hcur Hl Hl1) as (r & s' & E & Hok' & _ & Hcase).
  - discriminate.
  - vm_compute. split; discriminate.
  - exact Hun.
  - exists s'. destruct Hcase as [[-> Hcp]|[-> _]].
    + split; [exact E|]. split; [exact Hok'|]. apply Hcp; [|lia].
      split; [vm_compute; split; [discriminate|reflexivity]|by exists 1].
    + exfalso. assert (match uvmcopy root child_root 12288 1 forking with Ok (r, _) => r =? 0 | _ => false end = true)
        as Hc by (vm_compute; reflexivity).
      rewrite E in Hc. discriminate.
Defined.

(** Unmapping the three pages of process 0. *)
Lemma uvmunmap_releases_witness :
  ∃ s', uvmunmap root 0 3 true faulted = Ok (tt, s') ∧ vm_ok s' ∧ untouched s' 0 root 4096.
Proof.
  destruct faulted_ok as (Hok & _). destruct faulted_live as (Hcur & Hl & _).
  destruct (uvmunmap_releases faulted 0 root 0 3 Hok Hcur Hl) as (s' & E & Hok' & _ & Hin).
  - by exists 0.
  - lia.
  - lia.
  - vm_compute. discriminate.
  - exists s'. split; [exact E|]. split; [exact Hok'|]. apply Hin.
    + split; [vm_compute; split; [discriminate|reflexivity]|by exists 1].
    + vm_compute. split; [discriminate|reflexivity].
Defined.

(** ** Eviction and other users of the swap area

    [evict_one_user_frame] drops [frame_lock] between reserving a slot and
    entering it in the swap map, and sleeps in between for the disk write. *)

(** An evictor takes page 4096 of process 0 and starts the disk write; then
    [other] runs; then the evictor finishes. *)
Definition during_evict {A} (other : M machine A) : M machine A :=
  let* o := evict_select in
  match o with
  | Some (victim, f, slot) =>
    let* w := walk root (f_va f) false in
    match w with
    | Some pte =>
      let* oldpte := evict_unmap pte in
      let* a := other in
      evict_write victim slot 0 (f_va f) pte oldpte ;;;
      ret a
    | None => fail Blocked
    end
  | None => fail Blocked
  end.

Definition written : machine := run (copyout root 4096 [7]) faulted.

(** [C25] A fault during the eviction of the page loses its contents.  Process
    0 has written 7 to its page 4096.  While the page is being written to
    swap it is in no page table and in no swap entry, so a fault of process 0
    on it takes it for untouched memory and returns a page of zeros, which
    is what the process sees from then on. *)
Theorem evict_fault_race :
  head (user_page written 0 4096) = Some 7 ∧
  ∃ r s', during_evict (vmfault root 4096 true) written = Ok (r, s') ∧ r ≠ 0 ∧
    forallb (Z.eqb 0) (user_page s' 0 4096) = true.
Proof.
  split; [vm_compute; reflexivity|].
  assert (match during_evict (vmfault root 4096 true) written with
    | Ok (r, s') => negb (r =? 0) && forallb (Z.eqb 0) (user_page s' 0 4096)
    | _ => false end = true) as Hc by (vm_compute; reflexivity).
  destruct (during_evict _ _) as [[r s']| | | |]; [|discriminate..].
  apply andb_prop in Hc as [Hr Hz]. exists r, s'. split; [reflexivity|]. split; [|exact Hz].
  intros ->. discriminate.
Qed.

(** A fork that copies a swapped-out page for its child, process 1. *)
Definition fork_page : M machine (bool * option swap_entry) :=
  let* tmp := kalloc in
  let* ok := store_swapped 1 8192 tmp in
  let* e := gets (λ s, swap_find s 1 8192) in
  ret (ok, e).

(** An eviction overwrites the swap entry of a forked child.  The evictor
    has reserved slot 0 but not yet its swap map entry; a fork reserves slot
    1 and takes the first free entry of the map, number 0, for its child.
    The evictor then fills entry 0 for its own page: the child's page is
    lost, and slot 1 stays reserved with no entry that names it. *)
Theorem evict_fork_race :
  ∃ s', during_evict fork_page faulted = Ok ((true, Some (mkSwap true (Some 1%nat) 8192 1)), s') ∧
    swap_find s' 1 8192 = None ∧ swap_used s' !! 1%nat = Some true ∧
    forallb (λ e, negb (s_slot e =? 1)) (swap_map s') = true.
Proof.
  assert (match during_evict fork_page faulted with
    | Ok (r, s') => Some (r, swap_find s' 1 8192, swap_used s' !! 1%nat,
        forallb (λ e, negb (s_slot e =? 1)) (swap_map s'))
    | _ => None end = Some ((true, Some (mkSwap true (Some 1%nat) 8192 1)), None, Some true, true)) as Hc
    by (vm_compute; reflexivity).
  destruct (during_evict _ _) as [[r s']| | | |]; [|discriminate..].
  apply (inj Some) in Hc. apply pair_equal_spec in Hc as [Hc Hf]. apply pair_equal_spec in Hc as [Hc Hu].
  apply pair_equal_spec in Hc as [Hr Hn]. rewrite Hr. exists s'.
  split; [reflexivity|]. split; [exact Hn|]. split; [exact Hu|exact Hf].
Qed.
End SpaceRuns.
