(* ===== verification/Sched.v ===== *)
(** * The MLFQ scheduler and the clock (kernel/proc.c:526-668, kernel/trap.c:173-228)

    Four queue levels, level 0 first.  A process that uses up the quantum of
    its level yields, and goes down a level unless it made at least one
    system call per tick; every 128 ticks all processes go back to level 0.
    The operations act on the process table of one CPU's [cur] process; each
    definition that stands for code under one [p->lock] is one atomic step. *)
From S2P Require Import Prelude Interfaces Mem KState.
Local Open Scope Z_scope.

(** Sleep channels are addresses: of [ticks], and of process structures. *)
Class Chans := {
  chan_ticks : Z;
  chan_proc : nat → Z;
}.

(** [int quantum[4]] (trap.c:194) *)
Definition quantum : list Z := [2; 4; 8; 16].

Section ops.
Context {D : Type}.

(** proc.c:658-666: one round of [wakeup] *)
Definition wakeup_one (chan : Z) (i : nat) : M (kernel D) unit :=
  let* c := gets cur in
  if decide (c = Some i) then ret tt else
  let* x := get_proc i in
  if decide (p_state x = SLEEPING ∧ p_chan x = chan) then upd_proc i (set_p_state RUNNABLE) else ret tt.

(** proc.c:652-668 *)
Definition wakeup (chan : Z) : M (kernel D) unit :=
  let* l := gets procs in
  for_list (seq 0 (length l)) (λ i _, wakeup_one chan i) tt.

(** proc.c:545-564: the body of the inner loop; [true] when it switched to
    the process *)
Definition try_run (level : Z) (i : nat) : M (kernel D) bool :=
  let* x := get_proc i in
  if decide (p_state x = RUNNABLE ∧ p_level x = level) then
    upd_proc i (λ x, set_p_times_scheduled (i32 (p_times_scheduled x + 1)) x) ;;;
    upd_proc i (λ x, set_p_last_syscall_count (p_syscount x) x) ;;;
    upd_proc i (set_p_state RUNNING) ;;;
    modify (with_cur (Some i)) ;;;
    ret true
  else ret false.

(** proc.c:543-565: the table at one level *)
Fixpoint scan_level (level : Z) (l : list nat) : M (kernel D) (option nat) :=
  match l with
  | [] => ret None
  | i :: l =>
    let* b := try_run level i in
    if b : bool then ret (Some i) else scan_level level l
  end.

(** proc.c:541-569: the levels *)
Fixpoint scan_levels (ls : list Z) (l : list nat) : M (kernel D) (option nat) :=
  match ls with
  | [] => ret None
  | level :: ls =>
    let* o := scan_level level l in
    match o with Some i => ret (Some i) | None => scan_levels ls l end
  end.

(** proc.c:531-569: one round of the scheduler, up to the switch *)
Definition schedule : M (kernel D) (option nat) :=
  modify (with_cur None) ;;;
  let* l := gets procs in
  scan_levels [0; 1; 2; 3] (seq 0 (length l)).

(** proc.c:597-604 with the return into [scheduler] *)
Definition yield : M (kernel D) unit :=
  let* c := gets cur in
  let* p := deref c in
  upd_proc p (set_p_state RUNNABLE) ;;;
  modify (with_cur None).

(** proc.c:634-644, up to the switch *)
Definition sleep (chan : Z) : M (kernel D) unit :=
  let* c := gets cur in
  let* p := deref c in
  upd_proc p (set_p_chan chan) ;;;
  upd_proc p (set_p_state SLEEPING) ;;;
  modify (with_cur None).

(** proc.c:646: back from the switch *)
Definition sleep_end : M (kernel D) unit :=
  let* c := gets cur in
  let* p := deref c in
  upd_proc p (set_p_chan 0).

(** trap.c:175-182: [cpu0] when the interrupt is on CPU 0 *)
Definition clock_count `{Chans} (cpu0 : bool) : M (kernel D) unit :=
  if cpu0 then
    modify (λ s, with_ticks (u32 (ticks s + 1)) s) ;;;
    modify (λ s, with_mlfq_global_ticks (i32 (mlfq_global_ticks s + 1)) s) ;;;
    wakeup chan_ticks
  else ret tt.

(** trap.c:199-209: the end of a quantum *)
Definition end_quantum (p : nat) : M (kernel D) unit :=
  let* x := get_proc p in
  let deltaS := u64 (p_syscount x - p_last_syscall_count x) in
  let deltaT := u64 (p_ticks_used x) in
  (if decide (deltaS < deltaT) then
     if decide (p_level x < 3) then upd_proc p (set_p_level (p_level x + 1)) else ret tt
   else ret tt) ;;;
  upd_proc p (set_p_ticks_used 0).

(** trap.c:185-213: charge the tick; [true] when the process must yield *)
Definition clock_charge : M (kernel D) bool :=
  let* c := gets cur in
  match c with
  | None => ret false
  | Some p =>
    let* x := get_proc p in
    if decide (p_state x = RUNNING) then
      upd_proc p (λ x, set_p_ticks_used (i32 (p_ticks_used x + 1)) x) ;;;
      let* t := deref (aget (p_ticks x) (p_level x)) in
      upd_proc p (λ x, set_p_ticks (aset (p_level x) (i32 (t + 1)) (p_ticks x)) x) ;;;
      let* x := get_proc p in
      let* q := deref (aget quantum (p_level x)) in
      if decide (q ≤ p_ticks_used x) then end_quantum p ;;; ret true
      else ret false
    else ret false
  end.

(** trap.c:220-226: one round of the boost *)
Definition boost_one (i : nat) : M (kernel D) unit :=
  let* x := get_proc i in
  if decide (p_state x ≠ UNUSED ∧ p_state x ≠ ZOMBIE) then
    upd_proc i (set_p_level 0) ;;; upd_proc i (set_p_ticks_used 0)
  else ret tt.

(** trap.c:215-228 *)
Definition clock_boost : M (kernel D) unit :=
  let* g := gets mlfq_global_ticks in
  if decide (Z.rem g 128 = 0) then
    let* l := gets procs in
    for_list (seq 0 (length l)) (λ i _, boost_one i) tt
  else ret tt.

(** syscall.c:165 *)
Definition count_syscall : M (kernel D) unit :=
  let* c := gets cur in
  let* p := deref c in
  upd_proc p (λ x, set_p_syscount (u64 (p_syscount x + 1)) x).
End ops.

(** ** The invariant of a process's scheduling fields *)
Definition quantum_of (level : Z) : Z := default 0 (aget quantum level).

Definition mlfq_ok (x : proc) : Prop :=
  0 ≤ p_level x ≤ 3 ∧ 0 ≤ p_ticks_used x < quantum_of (p_level x) ∧ length (p_ticks x) = 4%nat.
#[global] Instance mlfq_ok_dec x : Decision (mlfq_ok x).
Proof. unfold mlfq_ok. apply _. Defined.

Lemma quantum_levels level : 0 ≤ level ≤ 3 →
  aget quantum level = Some (quantum_of level) ∧ 2 ≤ quantum_of level ≤ 16.
Proof.
  intros Hl. unfold quantum_of, aget. rewrite decide_True by lia.
  destruct (decide (level = 0)) as [->|]; [done|]. destruct (decide (level = 1)) as [->|]; [done|].
  destruct (decide (level = 2)) as [->|]; [done|]. by assert (level = 3) as -> by lia.
Qed.

Section lemmas.
Context {D : Type}.
Implicit Types s : kernel D.

Lemma get_proc_run s p x : procs s !! p = Some x → get_proc p s = Ok (x, s).
Proof. intros Hx. unfold get_proc. rewrite (bind_ok _ _ _ (procs s) s) by done. by rewrite Hx. Qed.

Lemma upd_proc_run s p f : upd_proc p f s = Ok (tt, with_procs (alter f p (procs s)) s).
Proof. done. Qed.

(** A loop over the table that updates each entry on its own. *)
Lemma for_procs s (body : nat → M (kernel D) unit) (f : nat → proc → proc) :
  (∀ i x s', procs s' !! i = Some x → cur s' = cur s →
     body i s' = Ok (tt, with_procs (alter (f i) i (procs s')) s')) →
  for_list (seq 0 (length (procs s))) (λ i _, body i) tt s = Ok (tt, with_procs (imap f (procs s)) s).
Proof.
  intros Hb.
  destruct (for_list_inv (λ k (_ : unit) s', ∃ l, s' = with_procs l s ∧ length l = length (procs s) ∧
    ∀ i, l !! i = if decide (i < k)%nat then f i <$> procs s !! i else procs s !! i)
    (seq 0 (length (procs s))) (λ i _, body i) tt s) as ([] & s' & E & l & -> & Hlen & Hl).
  - exists (procs s). split_and!; [by destruct s|done|]. intros i. by rewrite decide_False by lia.
  - intros k i [] s' Hk (l & -> & Hlen & Hl). apply lookup_seq in Hk as [-> Hlt]. simpl.
    destruct (lookup_lt_is_Some_2 l k) as [x Hx]; [lia|].
    exists tt, (with_procs (alter (f k) k l) s). split; [by apply (Hb k x (with_procs l s))|].
    exists (alter (f k) k l). split_and!; [done|by rewrite length_alter|]. intros i.
    destruct (decide (i = k)) as [->|Hne].
    + rewrite list_lookup_alter_eq, Hl. rewrite decide_False, decide_True by lia. done.
    + rewrite list_lookup_alter_ne, Hl by done. destruct (decide (i < k)%nat).
      * by rewrite !decide_True by lia.
      * by rewrite !decide_False by lia.
  - rewrite E. do 3 f_equal. apply list_eq. intros i. rewrite Hl, list_lookup_imap.
    rewrite length_seq. case_decide as Hi; [done|].
    rewrite lookup_ge_None_2 by lia. done.
Qed.

Definition wake_proc (c : option nat) (chan : Z) (i : nat) (x : proc) : proc :=
  if decide (c = Some i) then x else
  if decide (p_state x = SLEEPING ∧ p_chan x = chan) then set_p_state RUNNABLE x else x.

Lemma alter_as (l : list proc) i x (f g : proc → proc) :
  l !! i = Some x → f x = g x → alter f i l = alter g i l.
Proof.
  intros Hx Hf. apply list_eq. intros j. destruct (decide (j = i)) as [->|].
  - rewrite !list_lookup_alter_eq, Hx. simpl. by rewrite Hf.
  - by rewrite !list_lookup_alter_ne.
Qed.

Lemma alter_same (l : list proc) i x (f : proc → proc) : l !! i = Some x → f x = x → alter f i l = l.
Proof. intros Hx Hf. rewrite (alter_as l i x f id Hx Hf). by apply list_alter_id. Qed.

Lemma wakeup_one_run s chan i x :
  procs s !! i = Some x →
  wakeup_one chan i s = Ok (tt, with_procs (alter (wake_proc (cur s) chan i) i (procs s)) s).
Proof.
  intros Hx. unfold wakeup_one. rewrite (bind_ok _ _ _ (cur s) s) by done.
  assert (∀ f, f x = x → with_procs (alter f i (procs s)) s = s) as Hsame.
  { intros f Hf. rewrite (alter_same _ _ _ _ Hx Hf). by destruct s. }
  case_decide as Hc.
  { rewrite Hsame; [done|]. unfold wake_proc. by rewrite decide_True. }
  rewrite (bind_ok _ _ _ _ _ (get_proc_run s i x Hx)). case_decide as Hs.
  - rewrite upd_proc_run. rewrite (alter_as _ i x _ (wake_proc (cur s) chan i)); [done..|].
    unfold wake_proc. by rewrite decide_False, decide_True.
  - rewrite Hsame; [done|]. unfold wake_proc. by rewrite !decide_False.
Qed.

Lemma wakeup_run s chan :
  wakeup chan s = Ok (tt, with_procs (imap (wake_proc (cur s) chan) (procs s)) s).
Proof.
  unfold wakeup. rewrite (bind_ok _ _ _ (procs s) s) by done. apply for_procs.
  intros i x s' Hx Hc. rewrite (wakeup_one_run s' chan i x Hx). by rewrite Hc.
Qed.

Definition boost_proc (x : proc) : proc :=
  if decide (p_state x ≠ UNUSED ∧ p_state x ≠ ZOMBIE) then set_p_ticks_used 0 (set_p_level 0 x) else x.

Lemma boost_one_run s i x :
  procs s !! i = Some x → boost_one i s = Ok (tt, with_procs (alter boost_proc i (procs s)) s).
Proof.
  intros Hx. unfold boost_one. rewrite (bind_ok _ _ _ _ _ (get_proc_run s i x Hx)). case_decide as Hs.
  - rewrite (bind_ok _ _ _ _ _ (upd_proc_run s i _)), upd_proc_run. simpl. rewrite alter_alter.
    rewrite (alter_as _ i x _ boost_proc); [done..|]. unfold boost_proc. by rewrite decide_True.
  - rewrite (alter_same _ i x); [by destruct s|done|]. unfold boost_proc. by rewrite decide_False.
Qed.

Lemma clock_boost_run s :
  clock_boost s = Ok (tt, if decide (Z.rem (mlfq_global_ticks s) 128 = 0)
                          then with_procs (imap (λ _, boost_proc) (procs s)) s else s).
Proof.
  unfold clock_boost. rewrite (bind_ok _ _ _ (mlfq_global_ticks s) s) by done. case_decide; [|done].
  rewrite (bind_ok _ _ _ (procs s) s) by done. apply for_procs.
  intros i x s' Hx _. by apply (boost_one_run s' i x).
Qed.
(** ** Dispatch *)
Definition start_proc (x : proc) : proc :=
  set_p_state RUNNING (set_p_last_syscall_count (p_syscount x)
    (set_p_times_scheduled (i32 (p_times_scheduled x + 1)) x)).
Definition started s (i : nat) : kernel D :=
  with_cur (Some i) (with_procs (alter start_proc i (procs s)) s).
Definition eligible s (level : Z) (i : nat) : Prop :=
  ∃ x, procs s !! i = Some x ∧ p_state x = RUNNABLE ∧ p_level x = level.

Lemma try_run_ok s level i :
  is_Some (procs s !! i) →
  (eligible s level i ∧ try_run level i s = Ok (true, started s i)) ∨
  (¬ eligible s level i ∧ try_run level i s = Ok (false, s)).
Proof.
  intros [x Hx]. unfold try_run. rewrite (bind_ok _ _ _ _ _ (get_proc_run s i x Hx)). case_decide as He.
  - left. split; [by exists x|]. do 3 rewrite (bind_ok _ _ _ _ _ (upd_proc_run _ i _)).
    simpl. rewrite !alter_alter. done.
  - right. split; [|done]. intros (y & Hy & ? & ?). simplify_eq. by apply He.
Qed.

Lemma scan_level_ok s level l :
  (∀ i, i ∈ l → is_Some (procs s !! i)) →
  (∃ l1 i l2, l = l1 ++ i :: l2 ∧ (∀ j, j ∈ l1 → ¬ eligible s level j) ∧ eligible s level i ∧
     scan_level level l s = Ok (Some i, started s i)) ∨
  ((∀ j, j ∈ l → ¬ eligible s level j) ∧ scan_level level l s = Ok (None, s)).
Proof.
  induction l as [|i l IH]; intros Hl; simpl.
  { right. split; [|done]. intros j Hj. by apply not_elem_of_nil in Hj. }
  destruct (try_run_ok s level i) as [[He E]|[He E]]; [apply Hl, elem_of_cons; by left| |]; rewrite (bind_ok _ _ _ _ _ E).
  { left. exists [], i, l. split_and!; [done| |done|done]. intros j Hj. by apply not_elem_of_nil in Hj. }
  destruct IH as [(l1 & k & l2 & -> & Hl1 & Hk & Ek)|[Hno En]]; [intros j Hj; apply Hl, elem_of_cons; by right|left|right].
  - exists (i :: l1), k, l2. split_and!; [done| |done|done]. intros j [->|Hj]%elem_of_cons; auto.
  - split; [|done]. intros j [->|Hj]%elem_of_cons; auto.
Qed.

Lemma scan_levels_ok s ls l :
  (∀ i, i ∈ l → is_Some (procs s !! i)) →
  (∃ ls1 lv ls2 l1 i l2, ls = ls1 ++ lv :: ls2 ∧ l = l1 ++ i :: l2 ∧
     (∀ k j, k ∈ ls1 → j ∈ l → ¬ eligible s k j) ∧ (∀ j, j ∈ l1 → ¬ eligible s lv j) ∧
     eligible s lv i ∧ scan_levels ls l s = Ok (Some i, started s i)) ∨
  ((∀ k j, k ∈ ls → j ∈ l → ¬ eligible s k j) ∧ scan_levels ls l s = Ok (None, s)).
Proof.
  intros Hl. induction ls as [|lv ls IH]; simpl.
  { right. split; [|done]. intros k j Hk. by apply not_elem_of_nil in Hk. }
  destruct (scan_level_ok s lv l Hl) as [(l1 & i & l2 & Heq & Hl1 & Hi & E)|[Hno E]];
    rewrite (bind_ok _ _ _ _ _ E).
  { left. exists [], lv, ls, l1, i, l2. split_and!; [done|done| |done|done|done].
    intros k j Hk. by apply not_elem_of_nil in Hk. }
  destruct IH as [(ls1 & k & ls2 & l1 & i & l2 & -> & Heq & Hls & Hl1 & Hi & Ei)|[Hn En]]; [left|right].
  - exists (lv :: ls1), k, ls2, l1, i, l2. split_and!; [done|done| |done|done|done].
    intros k' j [->|Hk]%elem_of_cons Hj; auto.
  - split; [|done]. intros k j [->|Hk]%elem_of_cons Hj; auto.
Qed.

(** ** Charging a tick *)
Definition demote (x : proc) : proc :=
  if decide (u64 (p_syscount x - p_last_syscall_count x) < u64 (p_ticks_used x) ∧ p_level x < 3)
  then set_p_level (p_level x + 1) x else x.
Definition tick_proc (x : proc) : proc :=
  set_p_ticks (aset (p_level x) (i32 (default 0 (aget (p_ticks x) (p_level x)) + 1)) (p_ticks x))
    (set_p_ticks_used (i32 (p_ticks_used x + 1)) x).
Definition used_up (x : proc) : Prop := quantum_of (p_level x) ≤ p_ticks_used x.
Definition charge (x : proc) : proc :=
  let x := tick_proc x in
  if decide (used_up x) then set_p_ticks_used 0 (demote x) else x.

Lemma end_quantum_run s p x :
  procs s !! p = Some x →
  end_quantum p s = Ok (tt, with_procs (alter (λ x, set_p_ticks_used 0 (demote x)) p (procs s)) s).
Proof.
  intros Hx. unfold end_quantum. rewrite (bind_ok _ _ _ _ _ (get_proc_run s p x Hx)).
  assert (∀ f, f x = demote x → upd_proc p (set_p_ticks_used 0) (with_procs (alter f p (procs s)) s) =
    Ok (tt, with_procs (alter (λ x, set_p_ticks_used 0 (demote x)) p (procs s)) s)) as Hend.
  { intros f Hf. rewrite upd_proc_run. simpl. rewrite alter_alter.
    rewrite (alter_as _ p x _ (λ x, set_p_ticks_used 0 (demote x))); [done..|]. simpl. by rewrite Hf. }
  assert (procs s = alter id p (procs s)) as Hid by (by rewrite list_alter_id).
  assert (upd_proc p (set_p_ticks_used 0) s = upd_proc p (set_p_ticks_used 0) (with_procs (alter id p (procs s)) s))
    as Hskip by (rewrite <- Hid; by destruct s).
  unfold demote in Hend. destruct (decide (_ < _)) as [Hd|Hd]; [destruct (decide (p_level x < 3)) as [Hl|Hl]|].
  - rewrite (bind_ok _ _ _ _ _ (upd_proc_run s p _)). apply Hend. by rewrite decide_True.
  - rewrite (bind_ok _ _ _ tt s) by done. rewrite Hskip. apply Hend. by rewrite decide_False by tauto.
  - rewrite (bind_ok _ _ _ tt s) by done. rewrite Hskip. apply Hend. by rewrite decide_False by tauto.
Qed.

Lemma clock_charge_run s p x :
  cur s = Some p → procs s !! p = Some x → p_state x = RUNNING → mlfq_ok x →
  clock_charge s = Ok (bool_decide (used_up (tick_proc x)), with_procs (alter charge p (procs s)) s).
Proof.
  intros Hc Hx Hrun (Hl & Hu & Hlen). destruct (quantum_levels _ Hl) as [Hq _].
  unfold clock_charge. rewrite (bind_ok _ _ _ (Some p) s) by (unfold gets; by rewrite Hc).
  rewrite (bind_ok _ _ _ _ _ (get_proc_run s p x Hx)). rewrite decide_True by done.
  rewrite (bind_ok _ _ _ _ _ (upd_proc_run s p _)).
  assert (∃ t, aget (p_ticks x) (p_level x) = Some t) as [t Ht].
  { unfold aget. rewrite decide_True by lia. apply lookup_lt_is_Some_2. lia. }
  rewrite Ht. simpl. rewrite bind_ret_l. rewrite (bind_ok _ _ _ _ _ (upd_proc_run _ p _)). simpl.
  rewrite alter_alter. rewrite (alter_as _ p x _ tick_proc); [|done|].
  2:{ unfold tick_proc. simpl. by rewrite Ht. }
  set (s1 := with_procs (alter tick_proc p (procs s)) s).
  assert (procs s1 !! p = Some (tick_proc x)) as Hx1 by (simpl; by rewrite list_lookup_alter_eq, Hx).
  rewrite (bind_ok _ _ _ _ _ (get_proc_run s1 p _ Hx1)).
  change (p_level (tick_proc x)) with (p_level x). rewrite Hq. simpl deref. rewrite bind_ret_l.
  destruct (decide (quantum_of (p_level x) ≤ p_ticks_used (tick_proc x))) as [Hd|Hd].
  - rewrite (bind_ok _ _ _ _ _ (end_quantum_run s1 p _ Hx1)). simpl procs. rewrite alter_alter.
    rewrite bool_decide_eq_true_2 by exact Hd.
    rewrite (alter_as _ p x (λ x, set_p_ticks_used 0 (demote (tick_proc x))) charge); [done..|].
    unfold charge. by rewrite decide_True.
  - rewrite bool_decide_eq_false_2 by exact Hd. unfold s1.
    rewrite (alter_as _ p x tick_proc charge); [done..|]. unfold charge. by rewrite decide_False.
Qed.

Lemma charge_ok x : mlfq_ok x → mlfq_ok (charge x).
Proof.
  intros (Hl & Hu & Hlen). destruct (quantum_levels _ Hl) as [_ Hq].
  assert (p_ticks_used (tick_proc x) = p_ticks_used x + 1) as Ht by (simpl; apply i32_id; lia).
  assert (length (p_ticks (tick_proc x)) = 4%nat) as Hlt by (simpl; by rewrite length_aset).
  unfold charge. case_decide as Hd.
  - unfold mlfq_ok, demote. case_decide as Hdem; simpl p_level; simpl p_ticks_used.
    + destruct (quantum_levels (p_level x + 1)) as [_ ?]; [simpl in Hdem; lia|]. simpl in Hdem. split_and!; [lia..|done].
    + split_and!; [lia..|done].
  - unfold used_up in Hd. change (p_level (tick_proc x)) with (p_level x) in Hd.
    unfold mlfq_ok. change (p_level (tick_proc x)) with (p_level x). split_and!; [lia..|done].
Qed.
End lemmas.
