(* ===== verification/Smp.v ===== *)
(** * Several CPUs sharing the process table

    Every CPU runs [scheduler]: it looks at one table entry at a time under
    that entry's lock, and runs the process it finds until the process gives
    the CPU up.  One step of the relation is one critical section of one
    CPU, so the steps of the CPUs interleave in any order. *)
From S2P Require Import Prelude Interfaces Mem KState Sched.
Local Open Scope Z_scope.

(** Where a CPU is: about to look at entry [i] for [level], or running [p]. *)
Inductive cpu := Scan (level : Z) (i : nat) | Run (p : nat).

Definition running (c : cpu) : option nat := match c with Run p => Some p | Scan _ _ => None end.

(** The order of the scheduler's loops (proc.c:541-569). *)
Definition next_scan (n : nat) (level : Z) (i : nat) : cpu :=
  if decide (S i < n)%nat then Scan level (S i) else
  if decide (level < 3) then Scan (level + 1) 0 else Scan 0 0.

Section smp.
Context {D : Type}.
Record smp := mkSmp { kern : kernel D; cpus : list cpu }.

(** The code sees its own CPU's process as [myproc()]. *)
Definition on_cpu {A} (p : option nat) (m : M (kernel D) A) (k : kernel D) : res (A * kernel D) :=
  m (with_cur p k).

(** The tick of [clockintr] with the yield at the end of a quantum
    (trap.c:185-213). *)
Definition clock_tick : M (kernel D) bool :=
  let* b := clock_charge in
  if b then yield ;;; ret true else ret false.

(** [p->state = ZOMBIE] and the switch (proc.c:461-467). *)
Definition exit_switch (status : Z) : M (kernel D) unit :=
  let* c := gets cur in
  let* p := deref c in
  upd_proc p (set_p_xstate status) ;;;
  upd_proc p (set_p_state ZOMBIE) ;;;
  modify (with_cur None).

(** State changes of processes that are not running: [allocproc], [kfork]
    and [userinit], [freeproc], [kkill]. *)
Inductive life : procstate → procstate → Prop :=
| life_alloc : life UNUSED USED
| life_ready : life USED RUNNABLE
| life_abort : life USED UNUSED
| life_free : life ZOMBIE UNUSED
| life_kill : life SLEEPING RUNNABLE.

(** What a running process or an interrupt on its CPU does without a switch. *)
Inductive event :=
| ESyscall
| EResume
| EWake (chan : Z) (i : nat)
| ETick
| EBoost (i : nat).
Definition run_event (e : event) : M (kernel D) bool :=
  match e with
  | ESyscall => count_syscall ;;; ret false
  | EResume => sleep_end ;;; ret false
  | EWake chan i => wakeup_one chan i ;;; ret false
  | ETick => clock_tick
  | EBoost i => boost_one i ;;; ret false
  end.

(** How a process gives up its CPU on its own. *)
Inductive leave := LYield | LSleep (chan : Z) | LExit (status : Z).
Definition run_leave (l : leave) : M (kernel D) unit :=
  match l with
  | LYield => yield
  | LSleep chan => sleep chan
  | LExit status => exit_switch status
  end.

Inductive cpu_step : smp → smp → Prop :=
| step_skip k cs c level i k' :
    cs !! c = Some (Scan level i) → on_cpu None (try_run level i) k = Ok (false, k') →
    cpu_step (mkSmp k cs) (mkSmp k' (<[c := next_scan (length (procs k)) level i]> cs))
| step_take k cs c level i k' :
    cs !! c = Some (Scan level i) → on_cpu None (try_run level i) k = Ok (true, k') →
    cpu_step (mkSmp k cs) (mkSmp k' (<[c := Run i]> cs))
| step_event k cs c x e k' :
    cs !! c = Some x → (e = ESyscall ∨ e = EResume → running x ≠ None) →
    on_cpu (running x) (run_event e) k = Ok (false, k') → cpu_step (mkSmp k cs) (mkSmp k' cs)
| step_tick_yield k cs c p k' :
    cs !! c = Some (Run p) → on_cpu (Some p) clock_tick k = Ok (true, k') →
    cpu_step (mkSmp k cs) (mkSmp k' (<[c := Scan 0 0]> cs))
| step_leave k cs c p l k' :
    cs !! c = Some (Run p) → on_cpu (Some p) (run_leave l) k = Ok (tt, k') →
    cpu_step (mkSmp k cs) (mkSmp k' (<[c := Scan 0 0]> cs))
| step_life k cs i x st :
    procs k !! i = Some x → life (p_state x) st →
    cpu_step (mkSmp k cs) (mkSmp (with_procs (alter (set_p_state st) i (procs k)) k) cs).

(** At the start every CPU is in [scheduler] and nothing runs. *)
Definition smp_initial (m : smp) : Prop :=
  (∀ c x, cpus m !! c = Some x → ∃ level i, x = Scan level i) ∧
  ∀ p x, procs (kern m) !! p = Some x → p_state x ≠ RUNNING ∧ mlfq_ok x.

Inductive smp_reachable : smp → Prop :=
| reach_init m : smp_initial m → smp_reachable m
| reach_step m m' : smp_reachable m → cpu_step m m' → smp_reachable m'.

Record smp_inv (m : smp) : Prop := {
  si_run : ∀ c p, cpus m !! c = Some (Run p) → ∃ x, procs (kern m) !! p = Some x ∧ p_state x = RUNNING;
  si_uniq : ∀ c d p, cpus m !! c = Some (Run p) → cpus m !! d = Some (Run p) → c = d;
  si_back : ∀ p x, procs (kern m) !! p = Some x → p_state x = RUNNING → ∃ c, cpus m !! c = Some (Run p);
  si_mlfq : ∀ p x, procs (kern m) !! p = Some x → mlfq_ok x;
}.

(** An update of one entry that does not start or stop a process. *)
Lemma smp_keep k cs k' i f :
  smp_inv (mkSmp k cs) → procs k' = alter f i (procs k) →
  (∀ x, procs k !! i = Some x → (p_state (f x) = RUNNING ↔ p_state x = RUNNING) ∧ mlfq_ok (f x)) →
  smp_inv (mkSmp k' cs).
Proof.
  intros [R U B O] Hk Hf. simpl in *.
  assert (∀ p y, procs k' !! p = Some y → ∃ x, procs k !! p = Some x ∧
    (p_state y = RUNNING ↔ p_state x = RUNNING) ∧ mlfq_ok y) as Hlk.
  { intros p y. rewrite Hk. destruct (decide (p = i)) as [->|Hne].
    - rewrite list_lookup_alter_eq. intros (x & Hx & ->)%fmap_Some. exists x. destruct (Hf x Hx). done.
    - rewrite list_lookup_alter_ne by done. intros Hy. exists y. split_and!; [done..|by eapply O]. }
  split; simpl.
  - intros c p Hc. destruct (R c p Hc) as (x & Hx & Hrun).
    destruct (lookup_lt_is_Some_2 (procs k') p) as [y Hy].
    { rewrite Hk, length_alter. by eapply lookup_lt_Some. }
    exists y. split; [done|]. destruct (Hlk p y Hy) as (x' & Hx' & Hiff & _). apply Hiff. congruence.
  - done.
  - intros p y Hy Hrun. destruct (Hlk p y Hy) as (x & Hx & Hiff & _). apply (B p x); [done|]. by apply Hiff.
  - intros p y Hy. by destruct (Hlk p y Hy) as (_ & _ & _ & ?).
Qed.

Lemma smp_scan k cs c level i x :
  smp_inv (mkSmp k cs) → cs !! c = Some x → running x = None → smp_inv (mkSmp k (<[c := Scan level i]> cs)).
Proof.
  intros [R U B O] Hc Hx. simpl in *.
  assert (∀ d p, <[c := Scan level i]> cs !! d = Some (Run p) ↔ cs !! d = Some (Run p)) as Hlk.
  { intros d p. destruct (decide (d = c)) as [->|]; [|by rewrite list_lookup_insert_ne].
    rewrite list_lookup_insert_eq by (by eapply lookup_lt_Some). split; [done|]. intros Hr.
    rewrite Hc in Hr. simplify_eq. }
  split; simpl.
  - intros d p ?%Hlk. by eapply R.
  - intros d e p ?%Hlk ?%Hlk. by eapply U.
  - intros p y Hy Hrun. destruct (B p y Hy Hrun) as [d ?]. exists d. by apply Hlk.
  - done.
Qed.

(** A process gives up its CPU. *)
Lemma smp_stop k cs k' c p f level i :
  smp_inv (mkSmp k cs) → cs !! c = Some (Run p) → procs k' = alter f p (procs k) →
  (∀ x, procs k !! p = Some x → p_state (f x) ≠ RUNNING ∧ mlfq_ok (f x)) →
  smp_inv (mkSmp k' (<[c := Scan level i]> cs)).
Proof.
  intros [R U B O] Hc Hk Hf. simpl in *.
  assert (∀ d q, <[c := Scan level i]> cs !! d = Some (Run q) ↔ cs !! d = Some (Run q) ∧ q ≠ p) as Hlk.
  { intros d q. destruct (decide (d = c)) as [->|Hne].
    - rewrite list_lookup_insert_eq by (by eapply lookup_lt_Some). rewrite Hc. split; [done|].
      intros [[= ->] ?]. done.
    - rewrite list_lookup_insert_ne by done. split; [|by intros [? _]]. intros Hd. split; [done|].
      intros ->. destruct Hne. by eapply U. }
  assert (∀ q y, q ≠ p → procs k' !! q = Some y ↔ procs k !! q = Some y) as Hne.
  { intros q y Hq. by rewrite Hk, list_lookup_alter_ne. }
  assert (∀ y, procs k' !! p = Some y → p_state y ≠ RUNNING ∧ mlfq_ok y) as Heq.
  { intros y. rewrite Hk, list_lookup_alter_eq. intros (x & Hx & ->)%fmap_Some. by apply Hf. }
  split; simpl.
  - intros d q [Hd Hq]%Hlk. destruct (R d q Hd) as (x & Hx & ?). exists x. split; [by apply Hne|done].
  - intros d e q [? _]%Hlk [? _]%Hlk. by eapply U.
  - intros q y Hy Hrun. destruct (decide (q = p)) as [->|Hq]; [by destruct (Heq y Hy)|].
    apply Hne in Hy; [|done]. destruct (B q y Hy Hrun) as [d ?]. exists d. by apply Hlk.
  - intros q y Hy. destruct (decide (q = p)) as [->|Hq]; [by apply (Heq y)|]. apply Hne in Hy; [|done]. by eapply O.
Qed.

(** A CPU starts a process that was runnable. *)
Lemma smp_start k cs k' c level i p :
  smp_inv (mkSmp k cs) → cs !! c = Some (Scan level i) → procs k' = alter start_proc p (procs k) →
  (∃ x, procs k !! p = Some x ∧ p_state x = RUNNABLE) → smp_inv (mkSmp k' (<[c := Run p]> cs)).
Proof.
  intros [R U B O] Hc Hk (x & Hx & Hst). simpl in *.
  assert (∀ d, cs !! d ≠ Some (Run p)) as Hnot.
  { intros d Hd. destruct (R d p Hd) as (y & ? & ?). simplify_eq. congruence. }
  assert (∀ d q, <[c := Run p]> cs !! d = Some (Run q) ↔ (d = c ∧ q = p) ∨ (d ≠ c ∧ cs !! d = Some (Run q))) as Hlk.
  { intros d q. destruct (decide (d = c)) as [->|Hne].
    - rewrite list_lookup_insert_eq by (by eapply lookup_lt_Some). split; [intros [= ->]; by left|].
      intros [[_ ->]|[? _]]; done.
    - rewrite list_lookup_insert_ne by done. split; [by right|]. intros [[? _]|[_ ?]]; done. }
  assert (procs k' !! p = Some (start_proc x)) as Hp by (by rewrite Hk, list_lookup_alter_eq, Hx).
  assert (∀ q, q ≠ p → procs k' !! q = procs k !! q) as Hne by (intros q ?; by rewrite Hk, list_lookup_alter_ne).
  split; simpl.
  - intros d q [[-> ->]|[Hd Hq]]%Hlk; [by exists (start_proc x)|]. destruct (R d q Hq) as (y & ? & ?).
    exists y. split; [|done]. rewrite Hne; [done|]. intros ->. by destruct (Hnot d).
  - intros d e q [[-> ->]|[? Hq]]%Hlk [[-> Hx']|[? Hq']]%Hlk; [done| | |by eapply U].
    + by destruct (Hnot e).
    + subst. by destruct (Hnot d).
  - intros q y Hy Hrun. destruct (decide (q = p)) as [->|Hq]; [exists c; apply Hlk; by left|].
    rewrite Hne in Hy by done. destruct (B q y Hy Hrun) as [d Hd]. exists d. apply Hlk. right. split; [|done].
    intros ->. congruence.
  - intros q y Hy. destruct (decide (q = p)) as [->|Hq].
    + rewrite Hp in Hy. simplify_eq. apply (O p x Hx).
    + rewrite Hne in Hy by done. by eapply O.
Qed.
Lemma get_proc_inv i (k : kernel D) x k' : get_proc i k = Ok (x, k') → procs k !! i = Some x ∧ k' = k.
Proof.
  unfold get_proc. rewrite (bind_ok _ _ _ (procs k) k) by done.
  destruct (procs k !! i) as [y|]; simpl; [|done]. unfold ret. by intros [= <- <-].
Qed.

Lemma alter_id_procs (k : kernel D) i : procs k = alter id i (procs k).
Proof. by rewrite list_alter_id. Qed.

(** Events keep who runs and the scheduling fields. *)
Lemma event_ok k cs c x e k' :
  smp_inv (mkSmp k cs) → cs !! c = Some x → (e = ESyscall ∨ e = EResume → running x ≠ None) →
  on_cpu (running x) (run_event e) k = Ok (false, k') → smp_inv (mkSmp k' cs).
Proof.
  intros Hinv Hc Hsys E. pose proof Hinv as [R _ _ O]. simpl in R, O. unfold on_cpu in E.
  destruct e as [| |chan i| |i]; simpl in E; apply bind_inv in E as (a & k1 & E1 & E2).
  - destruct x as [|p]; [by destruct Hsys; auto|]. unfold count_syscall in E1. simpl in E1. injection E2 as <-.
    eapply (smp_keep k cs _ p); [done|by injection E1 as _ <-|]. intros y Hy. split; [done|].
    apply (O p y Hy).
  - destruct x as [|p]; [by destruct Hsys; auto|]. unfold sleep_end in E1. simpl in E1. injection E2 as <-.
    eapply (smp_keep k cs _ p); [done|by injection E1 as _ <-|]. intros y Hy. split; [done|].
    apply (O p y Hy).
  - injection E2 as <-. apply bind_inv in E1 as (cu & k2 & [= <- <-] & E1). simpl in E1.
    case_decide; [injection E1 as _ <-; eapply (smp_keep k cs _ 0 id); [done|exact (alter_id_procs k 0)|]; eauto|].
    apply bind_inv in E1 as (y & k3 & [Hy ->]%get_proc_inv & E1). simpl in Hy. case_decide as Hs.
    + injection E1 as _ <-. eapply (smp_keep k cs _ i); [done|done|]. intros z Hz. rewrite Hy in Hz. injection Hz as ->.
      destruct Hs as [Hs _]. split; [simpl; rewrite Hs; done|apply (O i z Hy)].
    + injection E1 as _ <-. eapply (smp_keep k cs _ 0 id); [done|exact (alter_id_procs k 0)|]; eauto.
  - destruct a; [by apply bind_inv in E2 as (? & ? & _ & [= ?])|]. injection E2 as <-.
    destruct x as [|p]; simpl in E1.
    { injection E1 as <-. eapply (smp_keep k cs _ 0 id); [done|exact (alter_id_procs k 0)|]; eauto. }
    destruct (R c p Hc) as (y & Hy & Hrun).
    rewrite (clock_charge_run (with_cur (Some p) k) p y) in E1; [|done|done|done|by eapply O].
    injection E1 as _ <-. eapply (smp_keep k cs _ p charge); [done|done|]. intros z Hz.
    split; [|apply charge_ok; by eapply O]. unfold charge, demote. repeat case_decide; done.
  - injection E2 as <-. destruct (procs k !! i) as [y|] eqn:Hy.
    + rewrite (boost_one_run _ i y) in E1 by done. injection E1 as _ <-.
      eapply (smp_keep k cs _ i boost_proc); [done|done|]. intros z Hz. rewrite Hy in Hz. injection Hz as ->.
      unfold boost_proc. pose proof (O i z Hy) as (? & ? & ?). case_decide; [|done].
      split; [done|]. split; [simpl; lia|]. split; [change (0 ≤ 0 < 2); lia|done].
    + unfold boost_one in E1. apply bind_inv in E1 as (? & ? & [? _]%get_proc_inv & _). simpl in *. congruence.
Qed.

Lemma leave_ok k cs c p l k' :
  smp_inv (mkSmp k cs) → cs !! c = Some (Run p) → on_cpu (Some p) (run_leave l) k = Ok (tt, k') →
  smp_inv (mkSmp k' (<[c := Scan 0 0]> cs)).
Proof.
  intros Hinv Hc E. pose proof (si_mlfq _ Hinv) as O. simpl in O.
  destruct l as [|chan|status]; simpl in E; unfold yield, sleep, exit_switch in E; injection E as <-.
  - eapply (smp_stop k cs _ c p); [done|done|done|]. intros x Hx. split; [done|apply (O p x Hx)].
  - eapply (smp_stop k cs _ c p (λ x, set_p_state SLEEPING (set_p_chan chan x)));
      [done|done|simpl; by rewrite alter_alter|]. intros x Hx. split; [done|apply (O p x Hx)].
  - eapply (smp_stop k cs _ c p (λ x, set_p_state ZOMBIE (set_p_xstate status x)));
      [done|done|simpl; by rewrite alter_alter|]. intros x Hx. split; [done|apply (O p x Hx)].
Qed.

Lemma tick_yield_ok k cs c p k' :
  smp_inv (mkSmp k cs) → cs !! c = Some (Run p) → on_cpu (Some p) clock_tick k = Ok (true, k') →
  smp_inv (mkSmp k' (<[c := Scan 0 0]> cs)).
Proof.
  intros Hinv Hc E. pose proof Hinv as [R _ _ O]. simpl in R, O. destruct (R c p Hc) as (x & Hx & Hrun).
  unfold on_cpu, clock_tick in E.
  rewrite (bind_ok _ _ _ _ _ (clock_charge_run (with_cur (Some p) k) p x eq_refl Hx Hrun (O p x Hx))) in E.
  destruct (bool_decide _); [|done]. injection E as <-.
  eapply (smp_stop k cs _ c p (λ x, set_p_state RUNNABLE (charge x))); [done|done|simpl; by rewrite alter_alter|].
  intros y Hy. split; [done|]. apply (charge_ok y (O p y Hy)).
Qed.

Lemma smp_inv_step m m' : smp_inv m → cpu_step m m' → smp_inv m'.
Proof.
  intros Hinv Hs. destruct Hs as [k cs c level i k' Hc E|k cs c level i k' Hc E|k cs c x e k' Hc Hn E
    |k cs c p k' Hc E|k cs c p l k' Hc E|k cs i x st Hx Hl].
  - unfold on_cpu in E. pose proof E as (y & k1 & [Hy ->]%get_proc_inv & _)%bind_inv. simpl in Hy.
    destruct (try_run_ok (with_cur None k) level i) as [[_ E']|[_ E']]; [by exists y|congruence|].
    rewrite E' in E. injection E as <-. unfold next_scan.
    assert (smp_inv (mkSmp (with_cur None k) cs)) as Hinv'.
    { eapply (smp_keep k cs _ 0 id); [done|exact (alter_id_procs k 0)|]. split; [done|by eapply (si_mlfq _ Hinv)]. }
    repeat case_decide; by eapply smp_scan.
  - unfold on_cpu in E. pose proof E as (y & k1 & [Hy ->]%get_proc_inv & _)%bind_inv. simpl in Hy.
    destruct (try_run_ok (with_cur None k) level i) as [[He E']|[_ E']]; [by exists y| |congruence].
    rewrite E' in E. injection E as <-. eapply (smp_start k cs _ c level i i); [done|done|done|].
    destruct He as (z & ? & ? & _). by exists z.
  - by eapply event_ok.
  - by eapply tick_yield_ok.
  - by eapply leave_ok.
  - eapply (smp_keep k cs _ i (set_p_state st)); [done|done|]. intros y Hy. rewrite Hx in Hy. injection Hy as <-. simpl.
    split; [|apply (si_mlfq _ Hinv i x Hx)]. by inversion Hl.
Qed.

Lemma smp_inv_reachable m : smp_reachable m → smp_inv m.
Proof.
  induction 1 as [m [Hc Hp]|m m' _ IH Hs]; [|by eapply smp_inv_step]. split.
  - intros c p Hx. destruct (Hc c _ Hx) as (? & ? & ?). done.
  - intros c d p Hx. destruct (Hc c _ Hx) as (? & ? & ?). done.
  - intros p x Hx Hr. by destruct (Hp p x Hx).
  - intros p x Hx. by apply (Hp p).
Qed.
End smp.
