(* ===== verification/SchedProps.v ===== *)
(** * Properties of the scheduler *)
From S2P Require Import Prelude Interfaces Mem KState Sched Smp.
Local Open Scope Z_scope.

Section props.
Context {D : Type}.
Implicit Types s : kernel D.

Definition runnable s (i : nat) (x : proc) : Prop := procs s !! i = Some x ∧ p_state x = RUNNABLE.

(** [C26] The scheduler honours priorities.  A round over a table whose levels
    are in 0..3 runs the first process, in table order, among the runnable
    processes of the best level present: it marks it RUNNING on this CPU,
    records the system calls it has made so far, and changes no other
    process.  It finds nobody only when no process is runnable. *)
Theorem schedule_highest_priority s :
  (∀ i x, procs s !! i = Some x → mlfq_ok x) →
  ∃ o s', schedule s = Ok (o, s') ∧ cur s' = o ∧
    match o with
    | Some i => ∃ x, runnable s i x ∧
        procs s' = alter start_proc i (procs s) ∧
        ∀ j y, runnable s j y → p_level x < p_level y ∨ (p_level x = p_level y ∧ (i ≤ j)%nat)
    | None => ∀ j y, ¬ runnable s j y
    end.
Proof.
  intros Hok. set (s0 := with_cur None s).
  assert (schedule s = scan_levels [0; 1; 2; 3] (seq 0 (length (procs s))) s0) as Es by done.
  destruct (scan_levels_ok s0 [0; 1; 2; 3] (seq 0 (length (procs s))))
    as [(ls1 & lv & ls2 & l1 & i & l2 & Hls & Hl & Hbef & Hl1 & (x & Hx & Hst & Hlv) & E)|[Hno E]].
  { intros i [_ Hi]%elem_of_seq. apply lookup_lt_is_Some_2. simpl in *. lia. }
  - rewrite Es, E. exists (Some i), (started s0 i). split_and!; [done|done|]. exists x.
    split_and!; [done|done|]. intros j y [Hy Hrun]. rewrite Hlv.
    assert (j ∈ seq 0 (length (procs s))) as Hj by (apply elem_of_seq; apply lookup_lt_Some in Hy; lia).
    destruct (Hok j y Hy) as (Hlev & _).
    destruct (decide (p_level y ∈ ls1)) as [Hin|Hnin].
    { destruct (Hbef (p_level y) j Hin Hj). by exists y. }
    assert (p_level y ∈ [0; 1; 2; 3]) as Hin.
    { assert (p_level y = 0 ∨ p_level y = 1 ∨ p_level y = 2 ∨ p_level y = 3) as Hc by lia. set_solver. }
    assert (lv ≤ p_level y) as Hle.
    { clear -Hls Hnin Hin. destruct ls1 as [|a [|b [|c [|d ls1]]]]; simplify_eq/=; set_unfold; lia. }
    destruct (decide (lv = p_level y)) as [->|]; [right; split; [done|]|left; lia].
    destruct (decide (j ∈ l1)) as [Hj1|Hj1]; [destruct (Hl1 j Hj1); by exists y|].
    assert (i = length l1) as Hi.
    { assert (seq 0 (length (procs s)) !! length l1 = Some i) as Hq by (rewrite Hl; by apply list_lookup_middle).
      by apply lookup_seq in Hq as [-> _]. }
    destruct (decide (i ≤ j)%nat); [done|]. destruct Hj1. apply list_elem_of_lookup. exists j.
    assert (seq 0 (length (procs s)) !! j = Some j) as Hq by (apply lookup_seq; apply elem_of_seq in Hj; lia).
    rewrite Hl, lookup_app_l in Hq by lia. done.
  - rewrite Es, E. exists None, s0. split_and!; [done|done|]. intros j y [Hy Hrun].
    destruct (Hok j y Hy) as (Hlev & _). apply (Hno (p_level y) j).
    + assert (p_level y = 0 ∨ p_level y = 1 ∨ p_level y = 2 ∨ p_level y = 3) as Hc by lia. set_solver.
    + apply elem_of_seq. apply lookup_lt_Some in Hy. lia.
    + by exists y.
Qed.


(** [C28] The demotion rule.  A tick charged to the running process ends its
    turn exactly when it completes the quantum of its level.  Then the
    process is runnable again with a fresh quantum, one level down (at most
    3) if it made fewer system calls than ticks since it was dispatched, and
    at the same level otherwise.  Before that only its tick counters move,
    and never those of other processes. *)
Theorem tick_demotes s p x :
  cur s = Some p → procs s !! p = Some x → p_state x = RUNNING → mlfq_ok x →
  0 ≤ p_last_syscall_count x ≤ p_syscount x → p_syscount x < 2 ^ 64 →
  ∃ b s' x', clock_tick s = Ok (b, s') ∧ procs s' !! p = Some x' ∧
    (∀ q, q ≠ p → procs s' !! q = procs s !! q) ∧
    (b = true ↔ p_ticks_used x + 1 = quantum_of (p_level x)) ∧
    if b then
      cur s' = None ∧ p_state x' = RUNNABLE ∧ p_ticks_used x' = 0 ∧
      p_level x' = if decide (p_syscount x - p_last_syscall_count x < quantum_of (p_level x))
                   then Z.min 3 (p_level x + 1) else p_level x
    else cur s' = Some p ∧ p_state x' = RUNNING ∧ p_ticks_used x' = p_ticks_used x + 1 ∧
      p_level x' = p_level x.
Proof.
  intros Hc Hx Hrun Hok Hsys Hmax. pose proof Hok as (Hl & Hu & Hlen). destruct (quantum_levels _ Hl) as [_ Hq].
  assert (p_ticks_used (tick_proc x) = p_ticks_used x + 1) as Ht by (simpl; apply i32_id; lia).
  unfold clock_tick. rewrite (bind_ok _ _ _ _ _ (clock_charge_run s p x Hc Hx Hrun Hok)).
  set (s1 := with_procs (alter charge p (procs s)) s).
  assert (procs s1 !! p = Some (charge x)) as Hx1 by (simpl; by rewrite list_lookup_alter_eq, Hx).
  destruct (decide (used_up (tick_proc x))) as [Hd|Hd].
  - rewrite bool_decide_eq_true_2 by done.
    assert (yield s1 = Ok (tt, with_cur None (with_procs (alter (set_p_state RUNNABLE) p (procs s1)) s1))) as Ey.
    { unfold yield. rewrite (bind_ok _ _ _ (Some p) s1) by (unfold gets; by simpl; rewrite Hc). done. }
    rewrite (bind_ok _ _ _ _ _ Ey). eexists true, _, (set_p_state RUNNABLE (charge x)). split; [done|].
    unfold used_up in Hd. change (p_level (tick_proc x)) with (p_level x) in Hd.
    split; [simpl; by rewrite !list_lookup_alter_eq, Hx|].
    split_and!; [|lia|done|done|unfold charge; by rewrite decide_True|].
    + intros q Hne. simpl. by rewrite !list_lookup_alter_ne.
    + unfold charge. rewrite decide_True by done.
      change (p_level (set_p_state RUNNABLE (set_p_ticks_used 0 (demote (tick_proc x))))) with (p_level (demote (tick_proc x))).
      unfold demote. rewrite Ht.
      change (p_syscount (tick_proc x)) with (p_syscount x).
      change (p_last_syscall_count (tick_proc x)) with (p_last_syscall_count x).
      change (p_level (tick_proc x)) with (p_level x).
      rewrite !u64_id by lia. replace (p_ticks_used x + 1) with (quantum_of (p_level x)) by lia.
      destruct (decide (p_syscount x - _ < _)); [destruct (decide (p_level x < 3))|];
        [rewrite decide_True by done|rewrite decide_False by lia|rewrite decide_False by lia]; simpl; lia.
  - rewrite bool_decide_eq_false_2 by done. exists false, s1, (charge x).
    assert (charge x = tick_proc x) as Hch by (unfold charge; by rewrite decide_False).
    unfold used_up in Hd. change (p_level (tick_proc x)) with (p_level x) in Hd. rewrite Ht in Hd.
    split; [done|]. split; [done|]. rewrite Hch. split_and!; [..|exact Hc|exact Hrun|exact Ht|done].
    + intros q Hne. simpl. by rewrite list_lookup_alter_ne.
    + split; [done|lia].
Qed.
(** ** A process that keeps the CPU *)

(** One turn of a process that makes two system calls in its quantum of two
    ticks, with the boost check that follows a tick. *)
Definition busy_turn : M (kernel D) (option nat) :=
  let* o := schedule in
  count_syscall ;;;
  count_syscall ;;;
  clock_tick ;;;
  clock_tick ;;;
  clock_boost ;;;
  ret o.
Fixpoint busy_turns (n : nat) : M (kernel D) (list (option nat)) :=
  match n with
  | O => ret []
  | S n => let* o := busy_turn in let* l := busy_turns n in ret (o :: l)
  end.

Definition ready0 s (rest : list proc) : Prop :=
  ∃ x, procs s = x :: rest ∧ p_state x = RUNNABLE ∧ p_level x = 0 ∧ p_ticks_used x = 0 ∧
    length (p_ticks x) = 4%nat.

Lemma two_syscalls c : u64 (u64 (u64 (c + 1) + 1) - c) = 2.
Proof.
  unfold u64. rewrite Zplus_mod_idemp_l, Zminus_mod_idemp_l.
  replace (c + 1 + 1 - c) with 2 by lia. by apply Z.mod_small.
Qed.

Lemma schedule_first s x rest :
  procs s = x :: rest → p_state x = RUNNABLE → p_level x = 0 →
  schedule s = Ok (Some 0%nat, with_cur (Some 0%nat) (with_procs (start_proc x :: rest) s)).
Proof.
  intros Hps Hst Hlv. unfold schedule. rewrite (bind_ok _ _ _ tt (with_cur None s)) by done.
  rewrite (bind_ok _ _ _ (procs s) (with_cur None s)) by done. rewrite Hps. cbn [length seq scan_levels scan_level].
  rewrite bind_assoc.
  destruct (try_run_ok (with_cur None s) 0 0) as [[_ E]|[He _]].
  - simpl. rewrite Hps. by exists x.
  - rewrite (bind_ok _ _ _ _ _ E). unfold started. simpl. by rewrite Hps.
  - destruct He. exists x. simpl. by rewrite Hps.
Qed.

Lemma count_syscall_run s p :
  cur s = Some p → count_syscall s =
    Ok (tt, with_procs (alter (λ x, set_p_syscount (u64 (p_syscount x + 1)) x) p (procs s)) s).
Proof. intros Hc. unfold count_syscall. rewrite (bind_ok _ _ _ (Some p) s) by (unfold gets; by rewrite Hc). done. Qed.

Lemma clock_tick_run s p x :
  cur s = Some p → procs s !! p = Some x → p_state x = RUNNING → mlfq_ok x →
  clock_tick s = Ok (bool_decide (used_up (tick_proc x)),
    if decide (used_up (tick_proc x))
    then with_cur None (with_procs (alter (λ x, set_p_state RUNNABLE (charge x)) p (procs s)) s)
    else with_procs (alter charge p (procs s)) s).
Proof.
  intros Hc Hx Hrun Hok. unfold clock_tick.
  rewrite (bind_ok _ _ _ _ _ (clock_charge_run s p x Hc Hx Hrun Hok)). case_decide as Hd.
  - rewrite bool_decide_eq_true_2 by done. unfold yield. rewrite bind_assoc.
    erewrite (bind_ok _ _ _ (Some p)) by (unfold gets; simpl; by rewrite Hc). simpl.
    rewrite bind_assoc. rewrite bind_ret_l. rewrite bind_assoc.
    rewrite (bind_ok _ _ _ _ _ (upd_proc_run _ p _)). simpl. by rewrite alter_alter.
  - by rewrite bool_decide_eq_false_2.
Qed.

(** After its turn the process is where it was. *)
Definition called (x : proc) : proc := set_p_syscount (u64 (p_syscount x + 1)) x.
Definition after_turn (x : proc) : proc :=
  set_p_state RUNNABLE (charge (charge (called (called (start_proc x))))).

Lemma after_turn_ready x :
  p_level x = 0 → p_ticks_used x = 0 → length (p_ticks x) = 4%nat →
  p_level (after_turn x) = 0 ∧ p_ticks_used (after_turn x) = 0 ∧ length (p_ticks (after_turn x)) = 4%nat.
Proof.
  intros Hl Hu Hlen. unfold after_turn. set (y := called (called (start_proc x))).
  assert (charge y = tick_proc y) as Hc1.
  { unfold charge, used_up. rewrite decide_False; [done|]. simpl. rewrite Hl, Hu. by vm_compute. }
  assert (p_ticks_used (tick_proc y) = 1 ∧ p_level (tick_proc y) = 0) as [Hu1 Hl1] by (simpl; by rewrite Hu, Hl).
  rewrite Hc1. set (z := tick_proc y) in *.
  assert (charge z = set_p_ticks_used 0 (tick_proc z)) as Hc2.
  { unfold charge, used_up. rewrite decide_True.
    - unfold demote. rewrite decide_False; [done|]. intros [Hlt _]. revert Hlt. simpl.
      rewrite two_syscalls, Hu. by vm_compute.
    - simpl. rewrite Hl, Hu. by vm_compute. }
  rewrite Hc2. split_and!; [done|done|]. simpl. by rewrite !length_aset.
Qed.

Lemma busy_turn_ok s rest :
  ready0 s rest → ∃ s' rest', busy_turn s = Ok (Some 0%nat, s') ∧ ready0 s' rest' ∧
    p_times_scheduled <$> rest' = p_times_scheduled <$> rest.
Proof.
  intros (x & Hps & Hst & Hl & Hu & Hlen). unfold busy_turn.
  rewrite (bind_ok _ _ _ _ _ (schedule_first s x rest Hps Hst Hl)).
  do 2 (erewrite (bind_ok count_syscall) by (by apply (count_syscall_run _ 0)); simpl procs).
  set (y := called (called (start_proc x))).
  match goal with |- context [bind clock_tick _ ?t] =>
    change t with (with_procs (y :: rest) (with_cur (Some 0%nat) s)) end.
  assert (mlfq_ok y) as Hy by (split_and!; simpl; rewrite ?Hl, ?Hu; try done; lia).
  erewrite (bind_ok clock_tick) by (by apply (clock_tick_run _ 0 y)).
  rewrite decide_False by (unfold used_up; simpl; rewrite Hl, Hu; by vm_compute). simpl procs.
  assert (mlfq_ok (charge y) ∧ p_state (charge y) = RUNNING) as [Hcy Hry].
  { split; [by apply charge_ok|]. unfold charge, demote. repeat case_decide; done. }
  assert (charge y = tick_proc y) as Hc1.
  { unfold charge, used_up. rewrite decide_False; [done|]. simpl. rewrite Hl, Hu. by vm_compute. }
  erewrite (bind_ok clock_tick) by (by apply (clock_tick_run _ 0 (charge y))).
  rewrite decide_True by (rewrite Hc1; unfold used_up; simpl; rewrite Hl, Hu; by vm_compute). simpl procs.
  rewrite (bind_ok _ _ _ _ _ (clock_boost_run _)).
  destruct (after_turn_ready x Hl Hu Hlen) as (Hl' & Hu' & Hlen').
  assert (p_state (after_turn x) = RUNNABLE) as Hst' by reflexivity.
  match goal with |- context [if _ then _ else ?t] =>
    change t with (with_cur None (with_procs (after_turn x :: rest) s)) end.
  simpl mlfq_global_ticks. simpl procs. generalize dependent (after_turn x). intros z Hl' Hu' Hlen' Hst'.
  case_decide.
  - eexists _, (imap (λ _, boost_proc) rest). split; [reflexivity|]. split.
    + exists (boost_proc z). split; [reflexivity|]. unfold boost_proc.
      rewrite decide_True by (rewrite Hst'; done). done.
    + apply list_eq. intros j. rewrite !list_lookup_fmap, list_lookup_imap.
      destruct (rest !! j); simpl; [|done]. unfold boost_proc. by case_decide.
  - eexists _, rest. split; [reflexivity|]. split; [|done]. by exists z.
Qed.

End props.

(** ** Runs *)
Module SchedRuns.
Definition idle_proc (st : procstate) (level : Z) : proc :=
  mkProc st 0 0 0 1 None 0 0 0 0 [] 0 [] 0 level 0 [0; 0; 0; 0] 0 0 0 0 0 0 0.
Definition table (l : list proc) (c : option nat) : kernel unit :=
  mkKernel (λ _, 0) 0 [] 0 [] [] 0 l c tt 1 None 0 0.

(** The process at level 1 goes before the one at level 2. *)
Definition three : kernel unit :=
  table [idle_proc RUNNABLE 2; idle_proc RUNNABLE 1; idle_proc SLEEPING 0] None.

Lemma three_ok : ∀ i x, procs three !! i = Some x → mlfq_ok x.
Proof.
  apply (proj1 (Forall_lookup mlfq_ok (procs three))).
  apply (bool_decide_eq_true_1 (Forall mlfq_ok (procs three))). vm_compute. reflexivity.
Qed.

Lemma schedule_highest_priority_witness :
  ∃ s', schedule three = Ok (Some 1%nat, s') ∧ cur s' = Some 1%nat ∧
    procs s' = alter start_proc 1%nat (procs three).
Proof.
  destruct (schedule_highest_priority three three_ok) as (o & s' & E & Hc & Ho).
  assert (match schedule three with Ok (o, _) => o | _ => None end = Some 1%nat) as He by (vm_compute; reflexivity).
  rewrite E in He. rewrite He in E, Hc, Ho. destruct Ho as (x & _ & Hps & _). exists s'. auto.
Defined.

(** Two CPUs; the first has taken process 1. *)
Definition taken : kernel unit :=
  match on_cpu None (try_run 1 1) three with Ok (_, k) => k | _ => three end.
Lemma two_cpus_reachable : smp_reachable (mkSmp taken [Run 1; Scan 0 0]).
Proof.
  eapply reach_step with (m := mkSmp three [Scan 1 1; Scan 0 0]).
  - apply reach_init. split.
    + intros [|[|c]] x Hx; simpl in Hx; [injection Hx as <-; eauto|injection Hx as <-; eauto|discriminate].
    + intros p x Hx. split; [|exact (three_ok p x Hx)].
      destruct p as [|[|[|p]]]; simpl in Hx; try discriminate; injection Hx as <-; discriminate.
  - exact (step_take three [Scan 1 1; Scan 0 0] 0 1 1 taken eq_refl eq_refl).
Qed.


(** A process that computes through its quantum goes down a level. *)
Definition hog : proc := set_p_ticks_used 1 (idle_proc RUNNING 0).
Lemma tick_demotes_witness :
  ∃ s' x', clock_tick (table [hog] (Some 0%nat)) = Ok (true, s') ∧ procs s' !! 0%nat = Some x' ∧
    p_level x' = 1 ∧ p_state x' = RUNNABLE.
Proof.
  destruct (tick_demotes (table [hog] (Some 0%nat)) 0 hog eq_refl eq_refl eq_refl)
    as (b & s' & x' & E & Hx' & _ & Hb & Hcase).
  - apply (bool_decide_eq_true_1 (mlfq_ok hog)). vm_compute. reflexivity.
  - simpl. lia.
  - simpl. lia.
  - assert (b = true) as -> by (apply Hb; vm_compute; reflexivity).
    exists s', x'. destruct Hcase as (_ & Hst & _ & Hl). split; [exact E|]. split; [exact Hx'|].
    split; [rewrite Hl; vm_compute; reflexivity|exact Hst].
Defined.

Definition two : kernel unit := table [idle_proc RUNNABLE 0; idle_proc RUNNABLE 0] None.
End SchedRuns.
