(* ===== verification/Teardown.v ===== *)
(** * Freeing page tables (vm.c:341-371)

    [freewalk] returns every page of a page table without leaves to the free
    list.  While it runs, the table is no longer anybody's address space: its
    pages count as kernel pages, and the ghost map [own] of the time before
    says what they contain. *)
From S2P Require Import Prelude Interfaces Mem KState Kmem PageTable Frames Paging Vm Fault Spaces.
Local Open Scope Z_scope.

Lemma tree_inv_ext `{Sv39} m fl own own' : (∀ a, own' a = own a) → tree_inv m fl own → tree_inv m fl own'.
Proof.
  intros Heq [[Hs (l & Hl)] [N L R P G F U W]]. split.
  - split; [intros a; rewrite Heq; apply Hs|]. exists l. setoid_rewrite Heq. done.
  - split; setoid_rewrite Heq; done.
Qed.

Section freewalk.
Context `{Sv39} {D : Type}.
Implicit Types s : kernel D.

(** The page is a table of [root] at or under level [l] with indices [pre]. *)
Definition under (l : nat) (pre : Z) (r : role) (root : Z) : bool :=
  match r with
  | RTab r' l' pre' => bool_decide (r' = root ∧ (l' ≤ l)%nat ∧ pre' / 512 ^ Z.of_nat (l - l') = pre)
  | _ => false
  end.

(** The same under one of the first [k] entries of the table at level [S l]. *)
Definition under_upto (l : nat) (pre k : Z) (r : role) (root : Z) : bool :=
  match r with
  | RTab r' l' pre' => bool_decide (r' = root ∧ (l' ≤ l)%nat ∧ 
      pre * 512 ≤ pre' / 512 ^ Z.of_nat (l - l') < pre * 512 + k)
  | _ => false
  end.

Definition freed (f : role → bool) (own o : owners) : owners := λ a, if f (own a) then RFree else o a.

Lemma under_self (own : owners) root l pre b : own b = RTab root l pre → under l pre (own b) root = true.
Proof.
  intros ->. unfold under. apply bool_decide_eq_true. split_and!; [done..|].
  rewrite Nat.sub_diag. by rewrite Z.div_1_r.
Qed.

Lemma upto_0 l pre r root : under_upto l pre 0 r root = false.
Proof. destruct r; try done. simpl. apply bool_decide_eq_false. lia. Qed.

Lemma upto_step l pre k r root : 0 ≤ k →
  under_upto l pre (k + 1) r root = under_upto l pre k r root || under l (pre * 512 + k) r root.
Proof.
  intros Hk. destruct r as [| | |r' l' p'| |]; try done. simpl. apply eq_bool_prop_intro.
  rewrite orb_True, !bool_decide_spec. lia.
Qed.

(** A table is the root of its subtree or under one of its 512 entries. *)
Lemma under_split m own root l pre b a :
  pt_inv m own → own b = RTab root (S l) pre →
  under (S l) pre (own a) root = bool_decide (a = b) || under_upto l pre 512 (own a) root.
Proof.
  intros Hp Hb. apply eq_bool_prop_intro. rewrite orb_True, bool_decide_spec.
  destruct (decide (a = b)) as [->|Hne].
  { split; [by left|]. intros _. rewrite (under_self own root (S l) pre b Hb). done. }
  destruct (own a) as [| | |r l' p'| |] eqn:Ha; simpl; try tauto. rewrite !bool_decide_spec.
  destruct (decide (l' ≤ l)%nat) as [Hl|Hl].
  - replace (S l - l')%nat with (S (l - l')) by lia.
    assert (512 ^ Z.of_nat (S (l - l')) = 512 ^ Z.of_nat (l - l') * 512) as ->.
    { rewrite Nat2Z.inj_succ, Z.pow_succ_r by lia. lia. }
    rewrite <- Z.div_div by lia. set (x := p' / _).
    pose proof (Z.div_mod x 512). pose proof (Z.mod_pos_bound x 512). split.
    + intros (-> & _ & Hx). right. split_and!; [done|done|lia|lia].
    + intros [?|(-> & _ & Hx)]; [done|]. split_and!; [done|lia|]. nia.
  - split; [|intros [?|(_ & ? & _)]; [done|lia]]. intros (-> & Hl' & Hx). left.
    assert (l' = S l) as -> by lia. rewrite Nat.sub_diag, Z.div_1_r in Hx. subst.
    by eapply tab_unique.
Qed.

(** Every table has its ancestors. *)
Lemma ancestor m own root l' pre' a d :
  pt_inv m own → own a = RTab root l' pre' → (l' + d ≤ 2)%nat →
  ∃ c, own c = RTab root (l' + d) (pre' / 512 ^ Z.of_nat d).
Proof.
  intros Hp Ha. induction d as [|d IH]; intros Hd.
  { exists a. rewrite Nat.add_0_r. by rewrite Z.div_1_r. }
  destruct IH as [c Hc]; [lia|].
  destruct (pt_parent _ _ Hp _ _ _ _ Hc) as (b & p & i & Hb & Hi & Heq & _); [lia|].
  exists b. rewrite Nat.add_succ_r. rewrite Hb. f_equal.
  rewrite Nat2Z.inj_succ, Z.pow_succ_r, (Z.mul_comm 512), <- Z.div_div by lia.
  rewrite Heq. apply (Z.div_unique_pos _ _ _ i); lia.
Qed.

(** Nothing is under an invalid entry. *)
Lemma under_invalid m own root l pre b i a :
  pt_inv m own → own b = RTab root (S l) pre → (S l ≤ 2)%nat → 0 ≤ i < 512 →
  valid_pte (entry m b i) = false → under l (pre * 512 + i) (own a) root = false.
Proof.
  intros Hp Hb Hl2 Hi Hinv. destruct (own a) as [| | |r l' p'| |] eqn:Ha; try done. simpl.
  apply bool_decide_eq_false. intros (-> & Hl & Hx).
  destruct (ancestor m own root l' p' a (l - l') Hp Ha) as [c Hc]; [lia|].
  replace (l' + (l - l'))%nat with l in Hc by lia. rewrite Hx in Hc.
  destruct (pt_parent _ _ Hp _ _ _ _ Hc) as (b' & p & j & Hb' & Hj & Heq & Hpt); [lia|].
  assert (p = pre ∧ j = i) as [-> ->] by lia.
  assert (b' = b) as -> by by eapply tab_unique. destruct Hpt. congruence.
Qed.
Lemma entry_same m m' b i :
  (∀ x, b ≤ x < b + PGSIZE → m' x = m x) → 0 ≤ i < 512 → entry m' b i = entry m b i.
Proof. intros Hx Hi. apply rd64_ext. intros x ?. apply Hx. rewrite PGSIZE_4096. lia. Qed.

(** What is known of the tree being freed: [m0] and [own] describe it. *)
Section tree.
Context (m0 : memory) (own : owners) (root : Z).
Hypothesis Htree : pt_inv m0 own.
Hypothesis Hsane : sane own.
Hypothesis Hempty : ∀ b pre i a, own b = RTab root 0 pre → 0 ≤ i < 512 → ¬ points m0 b i a.

(** The tables that [f] selects are still as they were. *)
Definition intact (f : role → bool) (m : memory) (o : owners) : Prop :=
  ∀ a, f (own a) = true → o a = RKern ∧ ∀ i, 0 ≤ i < 512 → entry m a i = entry m0 a i.

(** Memory outside the pages that [f] selects is unchanged. *)
Definition unchanged (f : role → bool) (m m' : memory) : Prop :=
  ∀ x, (∀ a, f (own a) = true → ¬ (a ≤ x < a + PGSIZE)) → m' x = m x.

Definition sub (l : nat) (pre : Z) (r : role) : bool := under l pre r root.
Definition upto (l : nat) (pre k : Z) (r : role) : bool := under_upto l pre k r root.

Lemma sub_page l pre a : sub l pre (own a) = true → page_addr a.
Proof. unfold sub. intros Hs. apply Hsane. by destruct (own a). Qed.
Lemma upto_page l pre k a : upto l pre k (own a) = true → page_addr a.
Proof. unfold upto. intros Hs. apply Hsane. by destruct (own a). Qed.

Lemma apart a b x : page_addr a → page_addr b → a ≠ b → b ≤ x < b + PGSIZE → ¬ (a ≤ x < a + PGSIZE).
Proof. intros Ha Hb Hne Hx. destruct (pages_apart a b Ha Hb Hne); lia. Qed.

Definition freewalk_spec (l : nat) : Prop := ∀ pre b s o,
  own b = RTab root l pre → tree_inv (mem s) (freelist s) o → intact (sub l pre) (mem s) o →
  ∃ m' fl', freewalk (S l) b s = Ok (tt, with_mem m' (with_freelist fl' s)) ∧
    tree_inv m' fl' (freed (sub l pre) own o) ∧ unchanged (sub l pre) (mem s) m'.

(** The body of the loop of [freewalk]. *)
Definition free_entry (fuel : nat) (pagetable i : Z) : M (kernel D) unit :=
  let* pte := load64 (pagetable + 8 * i) in
  if valid_pte pte && bool_decide (Z.land pte (Z.lor (Z.lor PTE_R PTE_W) PTE_X) = 0) then
    freewalk fuel (PTE2PA pte) ;;;
    store64 (pagetable + 8 * i) 0
  else if valid_pte pte then panic "freewalk: leaf"
  else ret tt.

Lemma freewalk_unfold fuel b s :
  freewalk (S fuel) b s = (for_list (seqZ 0 512) (λ i _, free_entry fuel b i) tt ;;; kfree b) s.
Proof. done. Qed.

Lemma free_entry_invalid fuel b i s :
  page_addr b → 0 ≤ i < 512 → valid_pte (entry (mem s) b i) = false → free_entry fuel b i s = Ok (tt, s).
Proof.
  intros Hb Hi Hv. unfold free_entry. erewrite bind_ok by (apply load64_ok; by apply entry_ram).
  change (rd64 (mem s) (b + 8 * i)) with (entry (mem s) b i). by rewrite Hv.
Qed.

(** A leaf table has nothing to free but itself. *)
Lemma freewalk_0 : freewalk_spec 0.
Proof.
  intros pre b s o Hb Ht Hin. rewrite freewalk_unfold.
  assert (page_addr b) as Hpb by (apply Hsane; by rewrite Hb).
  destruct (Hin b (under_self own root 0 pre b Hb)) as [Hk He].
  destruct (for_list_inv (λ _ (_ : unit) s', s' = s) (seqZ 0 512) (λ i _, free_entry 0 b i) tt s)
    as ([] & s' & E & ->); [done| |].
  { intros k i [] s' Hk' ->. apply lookup_seqZ in Hk' as [-> Hlt]. exists tt, s. split; [|done].
    apply free_entry_invalid; [done|lia|]. rewrite He by lia.
    destruct (valid_pte (entry m0 b (0 + Z.of_nat k))) eqn:Hv; [|done].
    exfalso. eapply (Hempty b pre (0 + Z.of_nat k)); [done|lia|by split]. }
  rewrite (bind_ok _ _ _ _ _ E). destruct (kfree_tree s o b Ht Hk) as (m' & Ek & Ho & Ht').
  exists m', b. split_and!; [done| |].
  - eapply tree_inv_ext; [|exact Ht']. intros a. unfold freed, give, sub.
    case_decide as Ha; [subst; by rewrite (under_self own root 0 pre b Hb)|].
    destruct (under 0 pre (own a) root) eqn:Hu; [|done]. exfalso. apply Ha.
    destruct (own a) as [| | |r l' p'| |] eqn:Hoa; try done. simpl in Hu. apply bool_decide_eq_true in Hu.
    destruct Hu as (-> & Hl & Hx). assert (l' = 0%nat) as -> by lia. rewrite Z.div_1_r in Hx. subst.
    by eapply tab_unique.
  - intros x Hx. apply Ho. apply Hx. by apply under_self.
Qed.
(** The loop at a table [b] of level [S l], after [k] entries. *)
Definition walk_inv (l : nat) (pre b : Z) s (o : owners) (k : nat) (s' : kernel D) : Prop :=
  ∃ m fl, s' = with_mem m (with_freelist fl s) ∧
    tree_inv m fl (freed (upto l pre (Z.of_nat k)) own o) ∧
    (∀ x, ¬ (b ≤ x < b + PGSIZE) →
       (∀ a, upto l pre (Z.of_nat k) (own a) = true → ¬ (a ≤ x < a + PGSIZE)) → m x = mem s x) ∧
    ∀ j, Z.of_nat k ≤ j < 512 → entry m b j = entry m0 b j.

Lemma upto_not_self l pre k b : own b = RTab root (S l) pre → upto l pre k (own b) = false.
Proof. intros ->. unfold upto, under_upto. apply bool_decide_eq_false. lia. Qed.

Lemma sub_not_self l pre' pre b : own b = RTab root (S l) pre → sub l pre' (own b) = false.
Proof. intros ->. unfold sub, under. apply bool_decide_eq_false. lia. Qed.

Lemma sub_not_upto l pre k r : 0 ≤ k → sub l (pre * 512 + k) r = true → upto l pre k r = false.
Proof.
  unfold sub, upto. intros Hk. destruct r as [| | |r' l' p'| |]; try done. simpl.
  rewrite bool_decide_eq_true, bool_decide_eq_false. lia.
Qed.

Lemma freed_step l pre k o : 0 ≤ k → ∀ a,
  freed (upto l pre (k + 1)) own o a = freed (sub l (pre * 512 + k)) own (freed (upto l pre k) own o) a.
Proof.
  intros Hk a. unfold freed, upto, sub. rewrite upto_step by done.
  destruct (under_upto _ _ _ _ _), (under _ _ _ _); done.
Qed.

(** Entry [k] points to a table, which is freed and unlinked. *)
Lemma walk_inv_table l pre b s o k s' :
  freewalk_spec l → own b = RTab root (S l) pre → (S l ≤ 2)%nat → (k < 512)%nat → o b = RKern →
  intact (sub (S l) pre) (mem s) o → walk_inv l pre b s o k s' →
  valid_pte (entry m0 b (Z.of_nat k)) = true →
  ∃ s'', free_entry (S l) b (Z.of_nat k) s' = Ok (tt, s'') ∧ walk_inv l pre b s o (k + 1) s''.
Proof.
  intros IH Hb Hl Hk Hob Hin (m & fl & -> & Ht & Hm & He) Hv.
  assert (page_addr b) as Hpb by (apply Hsane; by rewrite Hb).
  set (i := Z.of_nat k) in *. assert (0 ≤ i < 512) as Hi by lia.
  set (c := PTE2PA (entry m0 b i)). assert (points m0 b i c) as Hpt by done.
  pose proof (pt_node _ _ Htree _ _ _ _ _ _ Hb Hi Hpt) as Hc.
  pose proof (pt_flags _ _ Htree _ _ _ _ _ _ Hb Hi Hpt) as Hfl.
  assert (∀ a, sub l (pre * 512 + i) (own a) = true → a ≠ b ∧ page_addr a ∧
    upto l pre i (own a) = false ∧ sub (S l) pre (own a) = true) as Hsub.
  { intros a Ha. split_and!.
    - intros ->. by rewrite (sub_not_self l _ pre b Hb) in Ha.
    - by eapply sub_page.
    - apply sub_not_upto; [lia|done].
    - unfold sub. rewrite (under_split m0 own root l pre b a Htree Hb). apply orb_true_iff. right.
      unfold sub in Ha. destruct (own a) as [| | |r' l' p'| |]; try done. simpl in *.
      rewrite bool_decide_eq_true in Ha |- *. lia. }
  destruct (IH (pre * 512 + i) c (with_mem m (with_freelist fl s)) (freed (upto l pre i) own o) Hc Ht)
    as (m1 & fl1 & E1 & Ht1 & Hu1).
  { intros a Ha. destruct (Hsub a Ha) as (Hab & Hpa & Hna & Hsa). unfold freed. rewrite Hna.
    destruct (Hin a Hsa) as [-> Hea]. split; [done|]. intros j Hj. rewrite <- Hea by done.
    apply entry_same; [|done]. intros x Hx. apply Hm.
    - by apply (apart b a).
    - intros a' Ha'. apply (apart a' a); [by eapply upto_page|done| |done]. intros ->. simpl in *. congruence. }
  assert (load64 (b + 8 * i) (with_mem m (with_freelist fl s)) = Ok (entry m0 b i, with_mem m (with_freelist fl s))) as El.
  { rewrite load64_ok by (by apply entry_ram). by rewrite <- (He i) by lia. }
  unfold free_entry. rewrite (bind_ok _ _ _ _ _ El). rewrite Hv.
  change (Z.lor (Z.lor PTE_R PTE_W) PTE_X) with PTE_RWX. rewrite bool_decide_eq_true_2 by done.
  cbn [andb]. rewrite (bind_ok _ _ _ _ _ E1).
  eexists. split; [apply store64_ok; by apply entry_ram|].
  exists (wr64 m1 (b + 8 * i) 0), fl1. assert (only_page b m1 (wr64 m1 (b + 8 * i) 0)) as Hob'.
  { destruct (entry_in b i Hpb Hi). apply only_page_wr64; lia. }
  split_and!; [done| | |].
  - eapply tree_inv_ext; [intros a; rewrite Nat2Z.inj_add; apply freed_step; lia|].
    eapply (tree_write _ _ _ b _ Ht1); [|done]. unfold freed.
    rewrite (sub_not_self l _ pre b Hb), (upto_not_self l pre i b Hb), Hob. done.
  - intros x Hxb Hx. rewrite Hob' by done. rewrite Hu1.
    + apply Hm; [done|]. intros a Ha. apply Hx. unfold upto. rewrite Nat2Z.inj_add, upto_step by lia.
      apply orb_true_iff. by left.
    + intros a Ha. apply Hx. unfold upto. rewrite Nat2Z.inj_add, upto_step by lia. apply orb_true_iff. by right.
  - intros j Hj. rewrite entry_wr64 by (done || lia). rewrite decide_False by lia. rewrite <- He by lia.
    apply entry_same; [|lia]. intros x Hx. apply Hu1. intros a Ha. destruct (Hsub a Ha) as (Hab & Hpa & _).
    by apply (apart a b).
Qed.

(** Entry [k] is empty. *)
Lemma walk_inv_empty l pre b s o k s' :
  own b = RTab root (S l) pre → (S l ≤ 2)%nat → (k < 512)%nat → walk_inv l pre b s o k s' →
  valid_pte (entry m0 b (Z.of_nat k)) = false → 
  free_entry (S l) b (Z.of_nat k) s' = Ok (tt, s') ∧ walk_inv l pre b s o (k + 1) s'.
Proof.
  intros Hb Hl Hk (m & fl & -> & Ht & Hm & He) Hv.
  assert (page_addr b) as Hpb by (apply Hsane; by rewrite Hb).
  split; [apply free_entry_invalid; [done|lia|]; simpl; by rewrite He by lia|].
  assert (∀ r a, r = own a → upto l pre (Z.of_nat (k + 1)) r = upto l pre (Z.of_nat k) r) as Hsame.
  { intros r a ->. unfold upto. rewrite Nat2Z.inj_add, upto_step by lia.
    rewrite (under_invalid m0 own root l pre b (Z.of_nat k) a) by (done || lia). by rewrite orb_false_r. }
  exists m, fl. split_and!; [done| | |].
  - eapply tree_inv_ext; [|exact Ht]. intros a. unfold freed. by rewrite (Hsame _ a).
  - intros x Hxb Hx. apply Hm; [done|]. intros a Ha. apply Hx. by rewrite (Hsame _ a).
  - intros j Hj. apply He. lia.
Qed.

Lemma freewalk_S l : (S l ≤ 2)%nat → freewalk_spec l → freewalk_spec (S l).
Proof.
  intros Hl IH pre b s o Hb Ht Hin. rewrite freewalk_unfold.
  assert (page_addr b) as Hpb by (apply Hsane; by rewrite Hb).
  destruct (Hin b (under_self own root (S l) pre b Hb)) as [Hk He].
  destruct (for_list_inv (λ k (_ : unit) s', walk_inv l pre b s o k s') (seqZ 0 512)
    (λ i _, free_entry (S l) b i) tt s) as ([] & s' & E & Hw).
  - exists (mem s), (freelist s). split_and!; [by destruct s| |done|].
    + eapply tree_inv_ext; [|exact Ht]. intros a. unfold freed, upto. by rewrite upto_0.
    + intros j Hj. apply He. lia.
  - intros k i [] s' Hk' Hw. apply lookup_seqZ in Hk' as [-> Hlt]. rewrite Z.add_0_l.
    destruct (valid_pte (entry m0 b (Z.of_nat k))) eqn:Hv.
    + destruct (walk_inv_table l pre b s o k s') as (s'' & ? & ?); try done; [lia|]. by exists tt, s''.
    + destruct (walk_inv_empty l pre b s o k s') as (? & ?); try done; [lia|]. by exists tt, s'.
  - rewrite (bind_ok _ _ _ _ _ E). rewrite length_seqZ in Hw. destruct Hw as (m & fl & -> & Ht' & Hm & _).
    change (Z.of_nat (Z.to_nat 512)) with 512 in *.
    destruct (kfree_tree (with_mem m (with_freelist fl s)) _ b Ht') as (m' & Ek & Ho & Ht'').
    { unfold freed. by rewrite (upto_not_self l pre 512 b Hb). }
    exists m', b. split_and!; [done| |].
    + eapply tree_inv_ext; [|exact Ht'']. intros a. unfold freed, give, sub, upto.
      rewrite (under_split m0 own root l pre b a Htree Hb). case_decide as Ha.
      * subst. by rewrite bool_decide_eq_true_2.
      * by rewrite bool_decide_eq_false_2.
    + intros x Hx. assert (¬ (b ≤ x < b + PGSIZE)) as Hxb by (apply Hx; by apply under_self).
      rewrite (Ho x Hxb). simpl. apply Hm; [done|]. intros a Ha. apply Hx. unfold sub.
      rewrite (under_split m0 own root l pre b a Htree Hb). apply orb_true_iff. by right.
Qed.

Lemma freewalk_tree l : (l ≤ 2)%nat → freewalk_spec l.
Proof. induction l as [|l IH]; intros Hl; [exact freewalk_0|]. apply freewalk_S; [done|]. apply IH. lia. Qed.
End tree.
(** ** A whole page table *)
Definition is_tab (root : Z) (r : role) : bool :=
  match r with RTab r' _ _ => bool_decide (r' = root) | _ => false end.

Lemma is_tab_sub m own root a : pt_inv m own → sub root 2 0 (own a) = is_tab root (own a).
Proof.
  intros Hp. unfold sub, under, is_tab. destruct (own a) as [| | |r l p| |] eqn:Ha; try done.
  apply bool_decide_ext. split; [by intros [? _]|]. intros ->. destruct (pt_root _ _ Hp _ _ _ _ Ha) as [Hl _].
  split_and!; [done..|]. destruct (ancestor m own root l p a (2 - l) Hp Ha) as [c Hc]; [lia|].
  replace (l + (2 - l))%nat with 2%nat in Hc by lia.
  by destruct (pt_root _ _ Hp _ _ _ _ Hc) as [_ [_ ->]].
Qed.

(** A page table without pages can be taken out of use. *)
Definition retired (root : Z) (own : owners) : owners := λ a, if is_tab root (own a) then RKern else own a.

Lemma retire_ok m fl own root :
  tree_inv m fl own → (∀ a v, own a ≠ RPage root v) → tree_inv m fl (retired root own).
Proof.
  intros [[Hs (l & Hc & Hnd & Hl)] Hp] Hno.
  assert (∀ a r l' p, retired root own a = RTab r l' p ↔ own a = RTab r l' p ∧ r ≠ root) as Ht.
  { intros a r l' p. unfold retired, is_tab. destruct (own a) as [| | |r' l'' p'| |]; try (split; [done|by intros [? _]]).
    case_bool_decide; naive_solver. }
  assert (∀ a r v, retired root own a = RPage r v ↔ own a = RPage r v) as Hg.
  { intros a r v. unfold retired, is_tab. destruct (own a) as [| | |r' l'' p'| |]; try done. by case_bool_decide. }
  assert (∀ a, retired root own a = RFree ↔ own a = RFree) as Hf.
  { intros a. unfold retired, is_tab. destruct (own a) as [| | |r' l'' p'| |]; try done. by case_bool_decide. }
  split.
  - split; [|exists l; setoid_rewrite Hf; done]. intros a Ha. apply Hs. unfold retired, is_tab in Ha.
    by destruct (own a).
  - split.
    + intros b r l' p i a [Hb Hr]%Ht Hi Hpt. apply Ht. split; [by eapply (pt_node _ _ Hp)|done].
    + intros b r p i a [Hb Hr]%Ht Hi Hpt Hlt. apply Hg. by eapply (pt_leaf _ _ Hp).
    + intros a r l' p [Ha _]%Ht. by eapply (pt_root _ _ Hp).
    + intros a r l' p [Ha Hr]%Ht Hlt. destruct (pt_parent _ _ Hp a r l' p Ha Hlt) as (b & q & i & Hb & ?).
      exists b, q, i. by rewrite Ht.
    + intros a r v Ha%Hg. destruct (pt_page _ _ Hp a r v Ha) as (b & q & i & Hb & ?). exists b, q, i.
      rewrite Ht. split; [split; [done|]|done]. intros ->. by destruct (Hno a v).
    + intros b r l' p i a [Hb _]%Ht. by eapply (pt_flags _ _ Hp).
    + intros b r p i a [Hb _]%Ht. by eapply (pt_high _ _ Hp).
    + intros a r v Ha%Hg. by eapply (pt_low _ _ Hp).
Qed.

(** vm.c:343-362 at the root: all its tables are free again *)
Definition recycled (root : Z) (own : owners) : owners := λ a, if is_tab root (own a) then RFree else own a.

Lemma freewalk_root_ok s own root :
  tree_inv (mem s) (freelist s) own → own root = RTab root 2 0 → (∀ a v, own a ≠ RPage root v) →
  (∀ b pre i a, own b = RTab root 0 pre → 0 ≤ i < 512 → ¬ points (mem s) b i a) →
  ∃ m' fl', freewalk 3 root s = Ok (tt, with_mem m' (with_freelist fl' s)) ∧
    tree_inv m' fl' (recycled root own) ∧
    ∀ a, data (own a) → rdbytes m' a PGSIZE = rdbytes (mem s) a PGSIZE.
Proof.
  intros Ht Hr Hno Hempty. pose proof (tree_sane _ _ _ Ht) as Hs. pose proof Ht as [_ Hp].
  destruct (freewalk_tree (mem s) own root Hp Hs Hempty 2 ltac:(lia) 0 root s (retired root own) Hr)
    as (m' & fl' & E & Ht' & Hu).
  - by apply retire_ok.
  - intros a Ha. rewrite (is_tab_sub (mem s)) in Ha by done. unfold retired. by rewrite Ha.
  - exists m', fl'. split_and!; [done| |].
    + eapply tree_inv_ext; [|exact Ht']. intros a. unfold recycled, freed, retired.
      rewrite (is_tab_sub (mem s)) by done. by destruct (is_tab root (own a)).
    + intros a Hd. apply rdbytes_ext. intros x Hx. apply Hu. intros b Hb.
      rewrite (is_tab_sub (mem s)) in Hb by done. unfold is_tab in Hb.
      destruct (own b) as [| | |r l p| |] eqn:Hob; try done. apply (apart b a).
      * apply Hs. by rewrite Hob.
      * apply Hs. intros Hn. by rewrite Hn in Hd.
      * intros ->. by rewrite Hob in Hd.
      * lia.
Qed.
End freewalk.

(** ** The two pages above user memory

    The trampoline and the trapframe are mapped above every user page; their
    frames are not pages of the address space. *)
Section high.
Context `{Sv39} {D : Type}.
Implicit Types s : kernel D.

Definition high (va : Z) : Prop := va = TRAPFRAME ∨ va = TRAMPOLINE.

Lemma high_range va : high va → TRAPFRAME ≤ va ∧ 0 ≤ va < MAXVA ∧ (PGSIZE | va).
Proof.
  intros Hva. pose proof TRAMPOLINE_top. pose proof TRAPFRAME_below. pose proof MAXVA_range.
  pose proof PGSIZE_4096. pose proof MAXVA_aligned as [k Hk].
  destruct Hva as [-> | ->]; (split_and!; [lia..|]); [exists (k - 2)|exists (k - 1)]; lia.
Qed.

(** A store to the entry of such a page. *)
Lemma leaf_high_write m fl own root va pte v :
  tree_inv m fl own → leaf_at own root va pte → high va → 0 ≤ v < 2 ^ 64 → Z.land v PTE_U = 0 →
  tree_inv (wr64 m pte v) fl own ∧ same_data own m (wr64 m pte v).
Proof.
  intros Ht Hleaf Hva Hv Hnu. pose proof (tree_sane _ _ _ Ht) as Hs. pose proof Ht as [Hk Hp].
  destruct (high_range va Hva) as (Hhi & Hmax & Hal).
  split; [|by eapply leaf_write_data]. split; [by eapply leaf_write_kmem|].
  destruct (leaf_va _ _ _ _ Hleaf Hal) as (b & pre & Hb & -> & Heq).
  pose proof (PX_range 0 va) as Hi. pose proof PGSIZE_4096.
  assert (∀ b' i' a r' l' p', own b' = RTab r' l' p' → 0 ≤ i' < 512 → ¬ (b' = b ∧ i' = PX 0 va) →
    points (wr64 m (b + 8 * PX 0 va) v) b' i' a ↔ points m b' i' a) as Hpw.
  { intros b' i' a r' l' p' Hb' Hi' Hne.
    rewrite (points_wr m own b (PX 0 va) v b' i' a root 0 pre r' l' p') by (done || lia).
    by rewrite decide_False. }
  split.
  - intros b' r' l' p' i' a Hb' Hi' Hpt. apply (Hpw _ _ _ _ _ _ Hb' Hi') in Hpt; [|intros [-> _]; congruence].
    by eapply (pt_node _ _ Hp).
  - intros b' r' p' i' a Hb' Hi' Hpt Hlt. destruct (decide (b' = b ∧ i' = PX 0 va)) as [[-> ->]|Hne].
    { rewrite Hb in Hb'. simplify_eq. lia. }
    apply (Hpw _ _ _ _ _ _ Hb' Hi' Hne) in Hpt. by eapply (pt_leaf _ _ Hp).
  - apply (pt_root _ _ Hp).
  - intros a r' l' p' Ha Hl. destruct (pt_parent _ _ Hp a r' l' p' Ha Hl) as (b' & q & i' & Hb' & Hi' & ? & Hpt).
    exists b', q, i'. split_and!; [done|lia|lia|done|].
    apply (Hpw _ _ _ _ _ _ Hb' Hi'); [intros [-> _]; congruence|done].
  - intros a r' w Ha. pose proof (pt_low _ _ Hp a r' w Ha).
    destruct (pt_page _ _ Hp a r' w Ha) as (b' & q & i' & Hb' & Hi' & ? & Hpt).
    exists b', q, i'. split_and!; [done|lia|lia|done|]. apply (Hpw _ _ _ _ _ _ Hb' Hi'); [|done].
    intros [-> ->]. rewrite Hb in Hb'. simplify_eq. lia.
  - by eapply (flags_leaf_write m own b root pre).
  - eapply (high_leaf_write m own b root pre); [done..|]. intros _. split; [lia|done].
  - apply (pt_low _ _ Hp).
Qed.

(** The entry for [va] is empty, or its table does not exist. *)
Definition clear_at (m : memory) (own : owners) (root va : Z) : Prop :=
  ∀ pte, leaf_at own root va pte → valid_pte (rd64 m pte) = false.

Lemma leaf_unique m fl own root va pte pte' :
  tree_inv m fl own → leaf_at own root va pte → leaf_at own root va pte' → pte = pte'.
Proof.
  intros [_ Hp] (b & p & Hb & -> & E) (b' & p' & Hb' & -> & E').
  pose proof (PX_range 0 va). assert (p' = p) as -> by lia. assert (b' = b) as -> by (by eapply tab_unique). done.
Qed.

Lemma leaf_ram m fl own root va pte :
  tree_inv m fl own → leaf_at own root va pte → in_ram pte 8 = true.
Proof.
  intros Ht (b & p & Hb & -> & _). apply entry_ram; [|apply PX_range].
  apply (tree_sane _ _ _ Ht). by rewrite Hb.
Qed.

(** Entries for different addresses are different words. *)
Lemma clear_other m fl own root va va' pte v :
  tree_inv m fl own → leaf_at own root va pte → high va → high va' → va ≠ va' → 0 ≤ v < 2 ^ 64 →
  clear_at m own root va' → clear_at (wr64 m pte v) own root va'.
Proof.
  intros Ht (b & p & Hb & -> & E) Hva Hva' Hne Hv Hc pte' Hl'. specialize (Hc pte' Hl').
  destruct Hl' as (b' & p' & Hb' & -> & E'). pose proof (tree_sane _ _ _ Ht) as Hs.
  pose proof (PX_range 0 va). pose proof (PX_range 0 va').
  change (rd64 (wr64 m (b + 8 * PX 0 va) v) (b' + 8 * PX 0 va')) with (entry (wr64 m (b + 8 * PX 0 va) v) b' (PX 0 va')).
  rewrite entry_wr64; [|by eapply sane_tab|by eapply sane_tab|done|done|done].
  rewrite decide_False; [exact Hc|]. intros [-> Heq]. destruct Hne.
  rewrite Hb in Hb'. injection Hb' as <-. destruct (high_range va Hva) as (_ & _ & [k ->]).
  destruct (high_range va' Hva') as (_ & _ & [k' ->]). pose proof PGSIZE_4096.
  rewrite Z.div_mul in E, E' by lia. f_equal. lia.
Qed.

Lemma leaf_no_user pa perm :
  pa_ok pa → 0 ≤ perm < 1024 → Z.land perm PTE_U = 0 → Z.land (Z.lor (Z.lor (PA2PTE pa) perm) PTE_V) PTE_U = 0.
Proof.
  intros Hpa Hp Hnu. destruct pte_bits as (Ev & _ & _ & _ & Eu). rewrite Ev, Eu in *.
  rewrite Z.land_lor_distr_l, pte_and, Hnu by (done || lia). done.
Qed.

(** vm.c:159-188 for one such page *)
Lemma mappages_high_ok s own root va pa perm :
  tree_inv (mem s) (freelist s) own → own root = RTab root 2 0 → high va → pa_ok pa →
  0 ≤ perm < 1024 → Z.land perm PTE_U = 0 → clear_at (mem s) own root va →
  ∃ r m' fl' own', mappages root va PGSIZE pa perm s = Ok (r, with_mem m' (with_freelist fl' s)) ∧
    grow (mem s) own m' own' ∧ confined root own own' ∧ tree_inv m' fl' own' ∧
    (∀ va', high va' → va' ≠ va → clear_at (mem s) own root va' → clear_at m' own' root va') ∧
    (r = 0 ∨ r = -1 ∧ (∀ a, own' a ≠ RFree) ∧ clear_at m' own' root va).
Proof.
  intros Ht Hroot Hhi Hpa Hperm Hnu Hc. destruct (high_range va Hhi) as (Hlo & Hva & Hal).
  pose proof PGSIZE_4096 as Hpg. pose proof MAXVA_range.
  unfold mappages. rewrite decide_False by (intros []; by apply Z.mod_divide; [lia|]).
  rewrite decide_False by (rewrite Z.mod_same by lia; lia). rewrite decide_False by lia.
  rewrite Z.div_same by lia. replace (u64 (va + PGSIZE - PGSIZE)) with va by (rewrite u64_id; lia).
  simpl. destruct (walk_ok s own root va true Ht Hroot Hva) as (o & m1 & fl1 & own1 & E & Ht1 & Hext & Ho & _).
  pose proof (extend_confined _ _ _ _ _ Hext) as Hcf. destruct Hext as [Hg _ Hlf].
  assert (∀ va', clear_at (mem s) own root va' → clear_at m1 own1 root va') as Hkeep.
  { intros va' Hcl pte (b & p & Hb & -> & Hsp). destruct (valid_pte _) eqn:Hval; [|done].
    destruct (Hlf b root p (PX 0 va') Hb (PX_range _ _) Hval) as [Hb0 He].
    assert (leaf_at own root va' (b + 8 * PX 0 va')) as Hl0 by (by exists b, p).
    specialize (Hcl _ Hl0). unfold entry in He. congruence. }
  rewrite (bind_ok _ _ _ _ _ E). destruct o as [pte|].
  2:{ destruct Ho as [_ Hfree]. exists (-1), m1, fl1, own1. split_and!; [done|done|done|done| |right; by auto].
      intros va' _ _. apply Hkeep. }
  pose proof (leaf_ram _ _ _ _ _ _ Ht1 Ho) as Hram.
  erewrite bind_ok by (by apply load64_ok). simpl. rewrite (Hkeep va Hc pte Ho).
  erewrite bind_ok by (by apply store64_ok). rewrite decide_True by done.
  destruct (user_pte pa perm Hpa Hperm) as (Hv & _ & _).
  destruct (leaf_high_write m1 fl1 own1 root va pte _ Ht1 Ho Hhi Hv (leaf_no_user pa perm Hpa Hperm Hnu)) as [Ht2 Hd].
  exists 0. eexists _, fl1, own1. split_and!; [reflexivity| |done|done| |by left].
  - destruct Hg as [G1 G2 G3]. split; [done..|]. intros a Ha. rewrite <- G3 by done.
    apply Hd. rewrite G1; [done|]. intros Hn. by rewrite Hn in Ha.
  - intros va' Hhi' Hne Hc'. eapply clear_other; [exact Ht1|done|done|done|done|done|]. by apply Hkeep.
Qed.
End high.
