(* ===== verification/Proc.v ===== *)
(** * Processes (kernel/proc.c:12-523, 670-761)

    The life of a process: allocation with its trapframe and page table,
    fork, growing and shrinking, exit, wait, kill, and the release of
    everything it held.  Open files, directories and [safestrcpy] are outside
    the repository and appear as parameters; [p->context] belongs to the
    switch of stacks and is not part of the state. *)
From S2P Require Import Prelude Interfaces Mem KState Kmem PageTable Frames Vm Sched.
Local Open Scope Z_scope.

(** [trampoline] (trampoline.S), [filedup], [idup] (file.c, fs.c),
    [safestrcpy] (string.c) and [KSTACK] (memlayout.h).  The file functions
    return their argument and count a reference elsewhere. *)
Class ProcEnv `{Layout} := {
  trampoline : Z;
  trampoline_ok : pa_ok trampoline;
  KSTACK : Z → Z;
  filedup : Z → Z;
  filedup_id f : filedup f = f;
  idup : Z → Z;
  idup_id i : idup i = i;
  safestrcpy : bytes → bytes → Z → bytes;
}.

(** The bytes of an [int], least significant first. *)
Definition le_bytes (n : nat) (v : Z) : bytes := (λ i, v / 256 ^ Z.of_nat i mod 256) <$> seq 0 n.

(** [sizeof(struct trapframe)] and the offset of [a0] (proc.h:42-83) *)
Definition TRAPFRAME_SIZE : Z := 288.
Definition TF_A0 : Z := 112.

(** What closing files does to the disk (file.c, fs.c, log.c). *)
Class FileEnv (D : Type) := {
  fileclose : Z → D → D;
  begin_op : D → D;
  iput : Z → D → D;
  end_op : D → D;
}.

Section ops.
Context `{Sv39} `{!ProcEnv} `{!Chans} {D : Type} `{!SwapDev D} `{!FileEnv D}.

(** The channel of a process, or of the null pointer. *)
Definition chan_of (o : option nat) : Z := match o with Some p => chan_proc p | None => 0 end.

(** proc.c:12-24 *)
Definition getnumchild (p : nat) : M (kernel D) Z :=
  let* l := gets procs in
  ret (Z.of_nat (length (filter (λ x, p_parent x = Some p ∧ p_state x ≠ ZOMBIE ∧ p_state x ≠ UNUSED) l))).

(** proc.c:59-71 *)
Definition procinit : M (kernel D) unit :=
  modify (λ s, with_procs (imap (λ i x, set_p_kstack (KSTACK (Z.of_nat i)) (set_p_state UNUSED x)) (procs s)) s).

(** proc.c:103-113 *)
Definition allocpid : M (kernel D) Z :=
  let* pid := gets nextpid in
  modify (with_nextpid (i32 (pid + 1))) ;;;
  ret pid.

(** proc.c:205-215: one round of the loop over the swap map *)
Definition drop_swap_entry (p i : nat) : M (kernel D) unit :=
  let* sm := gets swap_map in
  let* e := deref (sm !! i) in
  if decide (s_used e = true ∧ s_proc e = Some p) then
    clear_swap_used (s_slot e) ;;;
    upd_swap i swap0
  else ret tt.

(** proc.c:219-233: one round of the loop over the frame table *)
Definition drop_frame (p i : nat) : M (kernel D) unit :=
  let* f := get_frame i in
  if decide (f_used f = true ∧ f_user f = true ∧ f_proc f = Some p) then
    upd_frame i (λ _, frame0) ;;;
    dec_count
  else ret tt.

(** proc.c:199-236 *)
Definition free_proc_swap_slots (p : nat) : M (kernel D) unit :=
  for_list (seq 0 MAX_SWAP) (λ i _, drop_swap_entry p i) tt ;;;
  for_list (seq 0 MAX_FRAMES) (λ i _, drop_frame p i) tt.

(** proc.c:306-311 *)
Definition proc_freepagetable (pagetable sz : Z) : M (kernel D) unit :=
  uvmunmap pagetable TRAMPOLINE 1 false ;;;
  uvmunmap pagetable TRAPFRAME 1 false ;;;
  uvmfree pagetable sz.

(** The fields that [freeproc] resets (proc.c:257-265). *)
Definition reset_proc (x : proc) : proc :=
  set_p_state UNUSED (set_p_xstate 0 (set_p_killed 0 (set_p_chan 0 (set_p_name (aset 0 0 (p_name x))
    (set_p_parent None (set_p_pid 0 (set_p_sz 0 (set_p_pagetable 0 x)))))))).

(** proc.c:241-266 *)
Definition freeproc (p : nat) : M (kernel D) unit :=
  let* x := get_proc p in
  (if decide (p_trapframe x ≠ 0) then kfree (p_trapframe x) else ret tt) ;;;
  upd_proc p (set_p_trapframe 0) ;;;
  (if decide (p_pagetable x ≠ 0) then
     free_proc_swap_slots p ;;;
     proc_freepagetable (p_pagetable x) (p_sz x)
   else ret tt) ;;;
  upd_proc p reset_proc.

(** proc.c:270-302; [trapframe] is [p->trapframe] *)
Definition proc_pagetable (trapframe : Z) : M (kernel D) Z :=
  let* pagetable := uvmcreate in
  if decide (pagetable = 0) then ret 0 else
  let* r := mappages pagetable TRAMPOLINE PGSIZE trampoline (Z.lor PTE_R PTE_X) in
  if decide (r < 0) then uvmfree pagetable 0 ;;; ret 0 else
  let* r := mappages pagetable TRAPFRAME PGSIZE trapframe (Z.lor PTE_R PTE_W) in
  if decide (r < 0) then
    uvmunmap pagetable TRAMPOLINE 1 false ;;;
    uvmfree pagetable 0 ;;;
    ret 0
  else ret pagetable.

(** The fields that [allocproc] initialises (proc.c:165-181). *)
Definition init_proc (x : proc) : proc :=
  set_p_ticks [0; 0; 0; 0] (set_p_last_syscall_count 0 (set_p_times_scheduled 0 (set_p_ticks_used 0
    (set_p_level 0 (set_p_syscount 0 (set_p_resident_pages 0 (set_p_pages_evicted 0
      (set_p_pages_swapped_out 0 (set_p_pages_swapped_in 0 (set_p_page_faults 0 x)))))))))).

(** proc.c:119-184 *)
Definition allocproc : M (kernel D) (option nat) :=
  let* l := gets procs in
  match list_find (λ x, p_state x = UNUSED) l with
  | None => ret None
  | Some (p, _) =>
    let* pid := allocpid in
    upd_proc p (set_p_pid pid) ;;;
    upd_proc p (set_p_state USED) ;;;
    let* tf := kalloc in
    upd_proc p (set_p_trapframe tf) ;;;
    if decide (tf = 0) then freeproc p ;;; ret None else
    let* pt := proc_pagetable tf in
    upd_proc p (set_p_pagetable pt) ;;;
    if decide (pt = 0) then freeproc p ;;; ret None else
    upd_proc p init_proc ;;;
    ret (Some p)
  end.

(** proc.c:314-326, [root_dir] is [namei] of the root *)
Definition userinit (root_dir : Z) : M (kernel D) unit :=
  let* o := allocproc in
  modify (with_initproc o) ;;;
  let* p := deref o in
  upd_proc p (set_p_cwd root_dir) ;;;
  upd_proc p (set_p_state RUNNABLE).

(** proc.c:330-353 *)
Definition growproc (n : Z) : M (kernel D) Z :=
  let* c := gets cur in
  let* p := deref c in
  let* x := get_proc p in
  let sz := p_sz x in
  if decide (0 < n) then
    if decide (TRAPFRAME < u64 (sz + n)) then ret (-1) else
    let* sz' := uvmalloc (p_pagetable x) sz (u64 (sz + n)) PTE_W in
    if decide (sz' = 0) then ret (-1) else
    upd_proc p (set_p_sz sz') ;;; ret 0
  else if decide (n < 0) then
    let* sz' := uvmdealloc (p_pagetable x) sz (u64 (sz + n)) in
    upd_proc p (set_p_sz sz') ;;; ret 0
  else upd_proc p (set_p_sz sz) ;;; ret 0.

(** proc.c:387-389: the child's descriptors *)
Definition dup_files (mine theirs : list Z) : list Z :=
  zip_with (λ f g, if decide (f = 0) then g else filedup f) mine theirs.

(** proc.c:378-406: the child [np] takes over the rest of its parent [p] *)
Definition finish_fork (p np : nat) (x y : proc) : M (kernel D) Z :=
  upd_proc np (set_p_sz (p_sz x)) ;;;
  (let* tf := load_bytes (p_trapframe x) TRAPFRAME_SIZE in
   store_bytes (p_trapframe y) tf ;;;
   store64 (p_trapframe y + TF_A0) 0) ;;;
  upd_proc np (λ y, set_p_ofile (dup_files (p_ofile x) (p_ofile y)) y) ;;;
  upd_proc np (set_p_cwd (idup (p_cwd x))) ;;;
  upd_proc np (λ y, set_p_name (safestrcpy (p_name y) (p_name x) 16) y) ;;;
  let* y := get_proc np in
  upd_proc np (set_p_parent (Some p)) ;;;
  upd_proc np (set_p_state RUNNABLE) ;;;
  ret (p_pid y).

(** proc.c:357-407 *)
Definition kfork : M (kernel D) Z :=
  let* c := gets cur in
  let* p := deref c in
  let* o := allocproc in
  match o with
  | None => ret (-1)
  | Some np =>
    let* x := get_proc p in
    let* y := get_proc np in
    let* r := uvmcopy (p_pagetable x) (p_pagetable y) (p_sz x) np in
    if decide (r < 0) then freeproc np ;;; ret (-1)
    else finish_fork p np x y
  end.

(** proc.c:411-423 *)
Definition reparent (p : nat) : M (kernel D) unit :=
  let* l := gets procs in
  for_list (seq 0 (length l)) (λ i _,
    let* x := get_proc i in
    if decide (p_parent x = Some p) then
      let* ip := gets initproc in
      upd_proc i (set_p_parent ip) ;;;
      wakeup (chan_of ip)
    else ret tt) tt.

(** A call into the file system. *)
Definition on_disk (f : D → D) : M (kernel D) unit := modify (λ s, with_swapdev (f (swapdev s)) s).

(** proc.c:438-443: one round of the loop over the descriptors *)
Definition close_fd (p fd : nat) : M (kernel D) unit :=
  let* x := get_proc p in
  let* f := deref (p_ofile x !! fd) in
  if decide (f ≠ 0) then
    on_disk (fileclose f) ;;;
    upd_proc p (λ x, set_p_ofile (<[fd := 0]> (p_ofile x)) x)
  else ret tt.

(** proc.c:435-449 *)
Definition close_files (p : nat) : M (kernel D) unit :=
  let* x := get_proc p in
  for_list (seq 0 (length (p_ofile x))) (λ fd _, close_fd p fd) tt ;;;
  on_disk begin_op ;;;
  let* x := get_proc p in
  on_disk (iput (p_cwd x)) ;;;
  on_disk end_op ;;;
  upd_proc p (set_p_cwd 0).

(** proc.c:428-469, up to the switch *)
Definition kexit (status : Z) : M (kernel D) unit :=
  let* c := gets cur in
  let* p := deref c in
  let* ip := gets initproc in
  if decide (ip = Some p) then panic "init exiting" else
  close_files p ;;;
  reparent p ;;;
  let* x := get_proc p in
  wakeup (chan_of (p_parent x)) ;;;
  upd_proc p (set_p_xstate status) ;;;
  upd_proc p (set_p_state ZOMBIE) ;;;
  modify (with_cur None).

(** proc.c:484-511: the scan for a zombie; [inl r] is a return of [r],
    [inr havekids] the end of the table *)
Fixpoint kwait_scan (p : nat) (addr : Z) (l : list nat) (havekids : bool) : M (kernel D) (Z + bool) :=
  match l with
  | [] => ret (inr havekids)
  | pp :: l =>
    let* y := get_proc pp in
    if decide (p_parent y = Some p) then
      if decide (p_state y = ZOMBIE) then
        let* x := get_proc p in
        let* r := if decide (addr ≠ 0) then copyout (p_pagetable x) addr (le_bytes 4 (p_xstate y)) else ret 0 in
        if decide (r < 0) then ret (inl (-1))
        else freeproc pp ;;; ret (inl (p_pid y))
      else kwait_scan p addr l true
    else kwait_scan p addr l havekids
  end.

(** proc.c:473-523: one round of the outer loop; [None] when the caller goes
    to sleep on its own channel *)
Definition kwait (addr : Z) : M (kernel D) (option Z) :=
  let* c := gets cur in
  let* p := deref c in
  let* l := gets procs in
  let* r := kwait_scan p addr (seq 0 (length l)) false in
  match r with
  | inl pid => ret (Some pid)
  | inr havekids =>
    let* x := get_proc p in
    if negb havekids || bool_decide (p_killed x ≠ 0) then ret (Some (-1)) else
    sleep (chan_proc p) ;;; ret None
  end.

(** proc.c:670-690 *)
Definition kkill (pid : Z) : M (kernel D) Z :=
  let* l := gets procs in
  match list_find (λ x, p_pid x = pid) l with
  | Some (p, x) =>
    upd_proc p (set_p_killed 1) ;;;
    (if decide (p_state x = SLEEPING) then upd_proc p (set_p_state RUNNABLE) else ret tt) ;;;
    ret 0
  | None => ret (-1)
  end.

(** proc.c:692-697 *)
Definition setkilled (p : nat) : M (kernel D) unit := upd_proc p (set_p_killed 1).
(** proc.c:699-707 *)
Definition killed (p : nat) : M (kernel D) Z := let* x := get_proc p in ret (p_killed x).

(** proc.c:709-721 *)
Definition either_copyout (user_dst : bool) (dst : Z) (src : bytes) : M (kernel D) Z :=
  let* c := gets cur in
  if user_dst then
    let* p := deref c in
    let* x := get_proc p in
    copyout (p_pagetable x) dst src
  else store_bytes dst src ;;; ret 0.

(** proc.c:723-735 *)
Definition either_copyin (user_src : bool) (src len : Z) : M (kernel D) (Z * bytes) :=
  let* c := gets cur in
  if user_src then
    let* p := deref c in
    let* x := get_proc p in
    copyin (p_pagetable x) src len
  else let* d := load_bytes src len in ret (0, d).

(** proc.c:739-745: [states], indexed by the state *)
Definition state_name (st : procstate) : string :=
  match st with
  | UNUSED => "unused" | USED => "used" | SLEEPING => "sleep " | RUNNABLE => "runble" | RUNNING => "run   " | ZOMBIE => "zombie"
  end.

(** proc.c:737-761: the lines printed, without the ends of line; the name is
    printed up to its null byte *)
Definition procdump : M (kernel D) (list (Z * string * bytes)) :=
  let* l := gets procs in
  ret ((λ x, (p_pid x, state_name (p_state x), p_name x)) <$> filter (λ x, p_state x ≠ UNUSED) l).
End ops.
