(* ===== verification/Keeps.v ===== *)
(** * What the paging and process code leaves alone

    A logic of preservation: [keeps R m] says that a run of [m] that returns
    relates its states by [R].  [Closed R E] lists the updates of the state
    that the paging and process code makes; [E] says which entries may be
    written to the swap map.  Every operation is shown once to be built from
    these updates; the uses are that [initproc] never changes, that freeing
    and growing add no swap entry, and that a copy adds entries only for the
    child. *)
From S2P Require Import Prelude Interfaces Mem KState Kmem PageTable Frames Vm Sched Proc Paging Spaces.
From Stdlib Require Import RelationClasses.
Local Open Scope Z_scope.

(** ** The logic *)
Section logic.
Context {S : Type} (R : S → S → Prop) `{!PreOrder R}.

Definition keeps {A} (m : M S A) : Prop := ∀ s a s', m s = Ok (a, s') → R s s'.

Lemma keeps_ret {A} (a : A) : keeps (ret a).
Proof. intros s b s' [= <- <-]. reflexivity. Qed.
Lemma keeps_bind {A B} (m : M S A) (k : A → M S B) : keeps m → (∀ a, keeps (k a)) → keeps (bind m k).
Proof.
  intros Hm Hk s b s'. unfold bind. destruct (m s) as [[a s1]| | | |] eqn:E; try done.
  intros E'. etransitivity; [by eapply Hm|by eapply Hk].
Qed.
Lemma keeps_fail {A} (r : res (A * S)) : (∀ a s, r ≠ Ok (a, s)) → keeps (fail r).
Proof. intros Hr s a s' E. by destruct (Hr a s'). Qed.
Lemma keeps_panic {A} msg : keeps (panic msg : M S A).
Proof. by apply keeps_fail. Qed.
Lemma keeps_nofuel {A} : keeps (fail NoFuel : M S A).
Proof. by apply keeps_fail. Qed.
Lemma keeps_gets {A} (f : S → A) : keeps (gets f).
Proof. intros s a s' [= <- <-]. reflexivity. Qed.
Lemma keeps_modify f : (∀ s, R s (f s)) → keeps (modify f).
Proof. intros Hf s a s' [= <- <-]. apply Hf. Qed.
Lemma keeps_deref {A} (o : option A) : keeps (deref o).
Proof. destruct o; [apply keeps_ret|by apply keeps_fail]. Qed.
Lemma keeps_for {A B} (l : list A) (body : A → B → M S B) b :
  (∀ x b, keeps (body x b)) → keeps (for_list l body b).
Proof.
  intros Hb. revert b. induction l as [|x l IH]; intros b; simpl; [apply keeps_ret|].
  apply keeps_bind; [apply Hb|intros; apply IH].
Qed.
End logic.

Create HintDb keeps discriminated.
#[export] Hint Resolve keeps_panic keeps_nofuel : keeps.
#[export] Hint Constants Opaque : keeps.
#[export] Hint Variables Opaque : keeps.

(** One step through the body of an operation. *)
Ltac keep_step :=
  lazymatch goal with
  | |- keeps _ (ret _) => apply keeps_ret; apply _
  | |- keeps _ (gets _) => apply keeps_gets; apply _
  | |- keeps _ (deref _) => apply keeps_deref; apply _
  | |- keeps _ (bind _ _) => apply keeps_bind; [apply _| |intros ?]
  | |- keeps _ (for_list _ _ _) => apply keeps_for; [apply _|intros ? ?]
  | |- keeps _ (match ?x with _ => _ end) => destruct x
  | |- keeps _ _ => first [solve [eauto 2 with keeps] | progress cbn beta iota zeta]
  end.
Ltac keep := repeat keep_step.

(** ** The updates *)
Class Closed `{Layout} {D : Type} (R : kernel D → kernel D → Prop) (E : swap_entry → Prop) := {
  cl_pre : PreOrder R;
  cl_mem m s : R s (with_mem m s);
  cl_freelist a s : R s (with_freelist a s);
  cl_frames ft s : R s (with_frame_table ft s);
  cl_hand h s : R s (with_clock_hand h s);
  cl_used su s : R s (with_swap_used su s);
  cl_count n s : R s (with_user_frame_count n s);
  cl_dev d s : R s (with_swapdev d s);
  cl_nextpid n s : R s (with_nextpid n s);
  cl_procs ps s : R s (with_procs ps s);
  cl_swap i e s : E e → R s (with_swap_map (<[i := e]> (swap_map s)) s);
  cl_empty : E swap0;
}.

Section ops.
Context `{Sv39} `{!ProcEnv} {D : Type} `{!SwapDev D} (R : kernel D → kernel D → Prop) (E : swap_entry → Prop) `{!Closed R E}.

#[local] Instance closed_pre : PreOrder R.
Proof. apply cl_pre. Qed.

Lemma keeps_load64 a : keeps R (load64 a).
Proof. intros s v s'. unfold load64. destruct (in_ram a 8); [|done]. intros [= <- <-]. reflexivity. Qed.
Lemma keeps_store64 a v : keeps R (store64 a v).
Proof. intros s r s'. unfold store64. destruct (in_ram a 8); [|done]. intros [= <- <-]. apply cl_mem. Qed.
Lemma keeps_memset a c n : keeps R (memset a c n).
Proof. intros s r s'. unfold memset. destruct (in_ram a n); [|done]. intros [= <- <-]. apply cl_mem. Qed.
Lemma keeps_load_bytes a n : keeps R (load_bytes a n).
Proof. intros s v s'. unfold load_bytes. destruct (in_ram a n); [|done]. intros [= <- <-]. reflexivity. Qed.
Lemma keeps_store_bytes a l : keeps R (store_bytes a l).
Proof. intros s r s'. unfold store_bytes. destruct (in_ram a _); [|done]. intros [= <- <-]. apply cl_mem. Qed.
Lemma keeps_lift_dev {A} (m : M D A) : keeps R (lift_dev m).
Proof. intros s a s'. unfold lift_dev. destruct (m (swapdev s)) as [[? ?]| | | |]; try done. intros [= <- <-]. apply cl_dev. Qed.
Lemma keeps_get_proc p : keeps R (get_proc p).
Proof. unfold get_proc. keep. Qed.
Lemma keeps_upd_proc p f : keeps R (upd_proc p f).
Proof. apply keeps_modify. intros s. apply cl_procs. Qed.
Lemma keeps_upd_frame i f : keeps R (upd_frame i f).
Proof. apply keeps_modify. intros s. apply cl_frames. Qed.
Lemma keeps_set_swap_used k b : keeps R (set_swap_used k b).
Proof. apply keeps_modify. intros s. apply cl_used. Qed.
Lemma keeps_upd_swap k e : E e → keeps R (upd_swap k e).
Proof. intros He. apply keeps_modify. intros s. by apply cl_swap. Qed.
Lemma keeps_freelist a : keeps R (modify (with_freelist a)).
Proof. apply keeps_modify. intros s. apply cl_freelist. Qed.
Lemma keeps_hand a : keeps R (modify (with_clock_hand a)).
Proof. apply keeps_modify. intros s. apply cl_hand. Qed.
Lemma keeps_swap_used l : keeps R (modify (with_swap_used l)).
Proof. apply keeps_modify. intros s. apply cl_used. Qed.
Lemma keeps_nextpid n : keeps R (modify (with_nextpid n)).
Proof. apply keeps_modify. intros s. apply cl_nextpid. Qed.
Lemma keeps_dec_count : keeps R dec_count.
Proof. apply keeps_modify. intros s. case_decide; [apply cl_count|reflexivity]. Qed.
Lemma keeps_inc_count : keeps R (modify (λ s, with_user_frame_count (i32 (user_frame_count s + 1)) s)).
Proof. apply keeps_modify. intros s. apply cl_count. Qed.
#[local] Hint Resolve keeps_load64 keeps_store64 keeps_memset keeps_load_bytes keeps_store_bytes keeps_lift_dev keeps_get_proc
  keeps_upd_proc keeps_upd_frame keeps_set_swap_used keeps_freelist keeps_hand keeps_swap_used keeps_nextpid
  keeps_dec_count keeps_inc_count : keeps.

Lemma keeps_clear k : keeps R (upd_swap k swap0).
Proof. apply keeps_upd_swap, cl_empty. Qed.
#[local] Hint Resolve keeps_clear : keeps.

(** ** Memory and page tables *)
Lemma keeps_kfree pa : keeps R (kfree pa).
Proof. unfold kfree. keep. Qed.
Lemma keeps_pop_page : keeps R pop_page.
Proof. unfold pop_page. keep. Qed.
#[local] Hint Resolve keeps_kfree keeps_pop_page : keeps.
Lemma keeps_kalloc : keeps R kalloc.
Proof. unfold kalloc. keep. Qed.
#[local] Hint Resolve keeps_kalloc : keeps.
Lemma keeps_walk_step level pt va alloc : keeps R (walk_step level pt va alloc).
Proof. unfold walk_step. keep. Qed.
#[local] Hint Resolve keeps_walk_step : keeps.
Lemma keeps_walk pt va alloc : keeps R (walk pt va alloc).
Proof. unfold walk. keep. Qed.
#[local] Hint Resolve keeps_walk : keeps.
Lemma keeps_walkaddr pt va : keeps R (walkaddr pt va).
Proof. unfold walkaddr. keep. Qed.
Lemma keeps_ismapped pt va : keeps R (ismapped pt va).
Proof. unfold ismapped. keep. Qed.
Lemma keeps_mappages_loop fuel pt a last pa perm : keeps R (mappages_loop fuel pt a last pa perm).
Proof. revert a pa. induction fuel as [|fuel IH]; intros a pa; simpl; keep. Qed.
#[local] Hint Resolve keeps_walkaddr keeps_ismapped keeps_mappages_loop : keeps.
Lemma keeps_mappages pt va size pa perm : keeps R (mappages pt va size pa perm).
Proof. unfold mappages. keep. Qed.
Lemma keeps_uvmcreate : keeps R uvmcreate.
Proof. unfold uvmcreate. keep. Qed.
#[local] Hint Resolve keeps_mappages keeps_uvmcreate : keeps.

(** ** Unmapping, growing and freeing *)
Lemma keeps_clear_swap_used slot : keeps R (clear_swap_used slot).
Proof. unfold clear_swap_used. keep. Qed.
#[local] Hint Resolve keeps_clear_swap_used : keeps.
Lemma keeps_free_swap_entry p va : keeps R (free_swap_entry p va).
Proof. unfold free_swap_entry. keep. Qed.
Lemma keeps_free_frame_entry p va : keeps R (free_frame_entry p va).
Proof. unfold free_frame_entry. keep. Qed.
#[local] Hint Resolve keeps_free_swap_entry keeps_free_frame_entry : keeps.
Lemma keeps_uvmunmap_page pt a b p : keeps R (uvmunmap_page pt a b p).
Proof. unfold uvmunmap_page. keep. Qed.
#[local] Hint Resolve keeps_uvmunmap_page : keeps.
Lemma keeps_uvmunmap_loop fuel pt a last b p : keeps R (uvmunmap_loop fuel pt a last b p).
Proof. revert a. induction fuel as [|fuel IH]; intros a; simpl; keep. Qed.
Lemma keeps_unmap_owner pt : keeps R (unmap_owner pt).
Proof. unfold unmap_owner. keep. Qed.
#[local] Hint Resolve keeps_uvmunmap_loop keeps_unmap_owner : keeps.
Lemma keeps_uvmunmap pt va n b : keeps R (uvmunmap pt va n b).
Proof. unfold uvmunmap. keep. Qed.
#[local] Hint Resolve keeps_uvmunmap : keeps.
Lemma keeps_uvmdealloc pt o n : keeps R (uvmdealloc pt o n).
Proof. unfold uvmdealloc. keep. Qed.
#[local] Hint Resolve keeps_uvmdealloc : keeps.
Lemma keeps_uvmalloc_loop fuel pt a o n x : keeps R (uvmalloc_loop fuel pt a o n x).
Proof. revert a. induction fuel as [|fuel IH]; intros a; simpl; keep. Qed.
#[local] Hint Resolve keeps_uvmalloc_loop : keeps.
Lemma keeps_uvmalloc pt o n x : keeps R (uvmalloc pt o n x).
Proof. unfold uvmalloc. keep. Qed.
Lemma keeps_freewalk fuel pt : keeps R (freewalk fuel pt).
Proof. revert pt. induction fuel as [|fuel IH]; intros pt; cbn [freewalk]; keep. Qed.
#[local] Hint Resolve keeps_uvmalloc keeps_freewalk : keeps.
Lemma keeps_uvmfree pt sz : keeps R (uvmfree pt sz).
Proof. unfold uvmfree. keep. Qed.
#[local] Hint Resolve keeps_uvmfree : keeps.

(** ** Process slots *)
Lemma keeps_drop_swap_entry p i : keeps R (drop_swap_entry p i).
Proof. unfold drop_swap_entry. keep. Qed.
Lemma keeps_drop_frame p i : keeps R (drop_frame p i).
Proof. unfold drop_frame, get_frame. keep. Qed.
#[local] Hint Resolve keeps_drop_swap_entry keeps_drop_frame : keeps.
Lemma keeps_free_proc_swap_slots p : keeps R (free_proc_swap_slots p).
Proof. unfold free_proc_swap_slots. keep. Qed.
Lemma keeps_proc_freepagetable pt sz : keeps R (proc_freepagetable pt sz).
Proof. unfold proc_freepagetable. keep. Qed.
#[local] Hint Resolve keeps_free_proc_swap_slots keeps_proc_freepagetable : keeps.
Lemma keeps_freeproc p : keeps R (freeproc p).
Proof. unfold freeproc. keep. Qed.
Lemma keeps_proc_pagetable tf : keeps R (proc_pagetable tf).
Proof. unfold proc_pagetable. keep. Qed.
#[local] Hint Resolve keeps_freeproc keeps_proc_pagetable : keeps.
Lemma keeps_allocproc : keeps R allocproc.
Proof. unfold allocproc, allocpid. keep. Qed.
#[local] Hint Resolve keeps_allocproc : keeps.
Lemma keeps_finish_fork p np x y : keeps R (finish_fork p np x y).
Proof. unfold finish_fork. keep. Qed.
#[local] Hint Resolve keeps_finish_fork : keeps.
Lemma keeps_growproc n : keeps R (growproc n).
Proof. unfold growproc. keep. Qed.

(** ** Eviction and faults, when any entry may be written *)
Section evicting.
Hypothesis Hall : ∀ e, E e.

Lemma keeps_entry k e : keeps R (upd_swap k e).
Proof. apply keeps_upd_swap, Hall. Qed.
#[local] Hint Resolve keeps_entry : keeps.
Lemma keeps_clock_scan n b l : keeps R (clock_scan n b l).
Proof.
  revert b l. induction n as [|n IH]; intros b l; cbn [clock_scan]; unfold get_frame, owner_level; keep.
Qed.
#[local] Hint Resolve keeps_clock_scan : keeps.
Lemma keeps_evict_select : keeps R evict_select.
Proof. unfold evict_select, select_victim_frame, get_frame, reserve_swap_slot, restore_victim_frame. keep. Qed.
Lemma keeps_drop_victim v slot : keeps R (drop_victim v slot).
Proof. unfold drop_victim. keep. Qed.
Lemma keeps_evict_page v slot p va pte : keeps R (evict_page v slot p va pte).
Proof. unfold evict_page, evict_unmap, evict_write, swap_out, restore_victim_frame, commit_evict. keep. Qed.
#[local] Hint Resolve keeps_evict_select keeps_drop_victim keeps_evict_page : keeps.
Lemma keeps_evict_round : keeps R evict_round.
Proof. unfold evict_round. keep. Qed.
#[local] Hint Resolve keeps_evict_round : keeps.
Lemma keeps_evict_attempts n : keeps R (evict_attempts n).
Proof. induction n as [|n IH]; cbn [evict_attempts]; keep. Qed.
Lemma keeps_evict_one : keeps R evict_one_user_frame.
Proof. apply keeps_evict_attempts. Qed.
#[local] Hint Resolve keeps_evict_one : keeps.
Lemma keeps_free_user_frame p va pa : keeps R (free_user_frame p va pa).
Proof. unfold free_user_frame. keep. Qed.
Lemma keeps_register p va : keeps R (register_user_frame p va).
Proof. unfold register_user_frame. keep. Qed.
#[local] Hint Resolve keeps_free_user_frame keeps_register : keeps.
Lemma keeps_kalloc_user_attempts n p va : keeps R (kalloc_user_attempts n p va).
Proof. induction n as [|n IH]; cbn [kalloc_user_attempts]; unfold has_free_frame_slot; keep. Qed.
Lemma keeps_kalloc_user p va : keeps R (kalloc_user p va).
Proof. apply keeps_kalloc_user_attempts. Qed.
Lemma keeps_touch_frame p va : keeps R (touch_frame p va).
Proof. unfold touch_frame. keep. Qed.
#[local] Hint Resolve keeps_kalloc_user keeps_touch_frame : keeps.
Lemma keeps_fault_swap_in p va i slot : keeps R (fault_swap_in p va i slot).
Proof. unfold fault_swap_in, swap_in. keep. Qed.
Lemma keeps_fault_lazy p va : keeps R (fault_lazy p va).
Proof. unfold fault_lazy. keep. Qed.
#[local] Hint Resolve keeps_fault_swap_in keeps_fault_lazy : keeps.
Lemma keeps_vmfault pt va rd : keeps R (vmfault pt va rd).
Proof. unfold vmfault. keep. Qed.
#[local] Hint Resolve keeps_vmfault : keeps.
Lemma keeps_copyout_loop fuel pt va src : keeps R (copyout_loop fuel pt va src).
Proof. revert va src. induction fuel as [|fuel IH]; intros va src; destruct src; cbn [copyout_loop]; keep. Qed.
Lemma keeps_copyout pt va src : keeps R (copyout pt va src).
Proof. apply keeps_copyout_loop. Qed.
#[local] Hint Resolve keeps_copyout : keeps.
End evicting.

(** ** Copies, when entries of the child may be written *)
Section copying.
Context (child : nat) (lim : Z).
Hypothesis Hchild : ∀ va slot, va < lim → E (mkSwap true (Some child) va slot).

Lemma keeps_insert_swap_entry va slot : va < lim → keeps R (insert_swap_entry child va slot).
Proof.
  intros Hva. unfold insert_swap_entry. keep. apply keeps_upd_swap. by apply Hchild.
Qed.
#[local] Hint Resolve keeps_insert_swap_entry : keeps.
Lemma keeps_copy_swapped va slot : va < lim → keeps R (copy_swapped child va slot).
Proof. intros Hva. unfold copy_swapped, swap_in, store_swapped, reserve_swap_slot, swap_out. keep. Qed.
#[local] Hint Resolve keeps_copy_swapped : keeps.
Lemma keeps_uvmcopy_page old new i parent : i < lim → keeps R (uvmcopy_page old new i parent child).
Proof. intros Hi. unfold uvmcopy_page. keep. Qed.
Lemma keeps_uvmcopy_loop fuel old new i sz parent : sz ≤ lim → keeps R (uvmcopy_loop fuel old new i sz parent child).
Proof.
  intros Hsz. revert i. induction fuel as [|fuel IH]; intros i; cbn [uvmcopy_loop]; keep.
  apply keeps_uvmcopy_page. lia.
Qed.
Lemma keeps_uvmcopy old new sz : sz ≤ lim → keeps R (uvmcopy old new sz child).
Proof. intros Hsz. unfold uvmcopy. keep. by apply keeps_uvmcopy_loop. Qed.
End copying.

Lemma keeps_kfork : (∀ e, E e) → keeps R kfork.
Proof. intros Hall. unfold kfork. keep. by eapply keeps_uvmcopy. Qed.
End ops.

(** ** Three relations *)
Section uses.
Context `{Sv39} `{!ProcEnv} {D : Type} `{!SwapDev D}.
Implicit Types s : kernel D.

Definition same_init s s' : Prop := initproc s' = initproc s.

#[export] Instance same_init_closed : Closed (D := D) same_init (λ _, True).
Proof. split; try done. split; [done|]. unfold same_init. intros s1 s2 s3 E1 E2. congruence. Qed.

(** Entries are added only for the process [np], below the address [lim]. *)
Definition child_entries (np : nat) (lim : Z) s s' : Prop :=
  ∀ i e, s_used e = true → swap_map s' !! i = Some e → swap_map s !! i = Some e ∨ s_proc e = Some np ∧ s_va e < lim.

#[export] Instance child_entries_pre np lim : PreOrder (child_entries np lim).
Proof.
  split; [by intros s i e; left|]. intros s1 s2 s3 R1 R2 i e Hu Hi. destruct (R2 i e Hu Hi) as [Hi2|?]; [auto|by right].
Qed.

#[export] Instance child_entries_closed np lim :
  Closed (D := D) (child_entries np lim) (λ e, s_used e = true → s_proc e = Some np ∧ s_va e < lim).
Proof.
  split; try by (intros; intros ? ? ? ?; left).
  - apply _.
  - intros i e s He j e' Hu Hj. simpl in Hj. apply list_lookup_insert_Some in Hj as [(-> & -> & _)|[_ ?]]; auto.
  - done.
Qed.

(** No entry is added: the case of a limit below all addresses. *)
#[export] Instance sub_entries_closed : Closed (D := D) sub_entries (λ e, s_used e = false).
Proof.
  split; try by (intros; intros ? ? ?).
  - split; [by intros s i e|]. intros s1 s2 s3 R1 R2 i e Hu Hi. auto.
  - intros i e s He j e' Hu Hj. simpl in Hj. apply list_lookup_insert_Some in Hj as [(-> & -> & _)|[_ ?]]; [congruence|done].
  - done.
Qed.

(** [userinit] sets [initproc] itself. *)
Lemma keeps_userinit root_dir : keeps sub_entries (userinit (D := D) root_dir).
Proof.
  pose proof (cl_pre (D := D) (R := sub_entries)). unfold userinit. apply keeps_bind; [done|by apply (keeps_allocproc _ _)|intros o].
  apply keeps_bind; [done|apply keeps_modify; by intros s i e|intros _]. apply keeps_bind; [done|by apply keeps_deref|intros p].
  apply keeps_bind; [done|by apply (keeps_upd_proc _ _)|intros _]. by apply (keeps_upd_proc _ _).
Qed.

Lemma kfork_init s r s' : kfork s = Ok (r, s') → initproc s' = initproc s.
Proof. by apply (keeps_kfork same_init (λ _, True)). Qed.

End uses.
