(* ===== verification/ProcMem.v ===== *)
(** * The memory of a process, from creation to release

    Correctness of the memory side of proc.c: the release of swap slots and
    frames, of the page table with the two pages above user memory, the
    construction of a new page table, and the allocation and release of a
    process with everything it holds. *)
From S2P Require Import Prelude Interfaces Mem KState Kmem PageTable Frames Paging Vm Fault Boot.
From S2P Require Import Spaces Fork Teardown Sched Proc.
Local Open Scope Z_scope.

Section slots.
Context `{Sv39} {D : Type} `{!SwapDev D} `{!SwapDevSpec D}.
Implicit Types s : kernel D.

Lemma others_except s s' p va : others_same s s' p va → except_same s s' p.
Proof. intros Ho q r v Hl Hva Hne. apply (Ho q r v Hl Hva). by intros [? _]. Qed.

Lemma except_trans s1 s2 s3 p :
  same_procs s1 s2 → except_same s1 s2 p → except_same s2 s3 p → except_same s1 s3 p.
Proof.
  intros Hps H12 H23 q r v Hq Hvv Hn. rewrite (H23 q r v); [by eapply H12| |done..].
  by apply (live_same s1 s2).
Qed.

(** The tables of the paging code change for process [p] only. *)
Record tables_only s s' (p : nat) : Prop := {
  to_mem : mem s' = mem s;
  to_free : freelist s' = freelist s;
  to_procs : procs s' = procs s;
  to_cur : cur s' = cur s;
  to_except : except_same s s' p;
  to_sub : sub_entries s s';
}.

Lemma tables_only_refl s p : tables_only s s p.
Proof. split; try done. by intros i e. Qed.

Lemma tables_only_trans s1 s2 s3 p : tables_only s1 s2 p → tables_only s2 s3 p → tables_only s1 s3 p.
Proof.
  intros [M1 F1 P1 C1 E1 S1] [M2 F2 P2 C2 E2 S2]. split; try congruence.
  - eapply except_trans; [|done..]. unfold same_procs. by rewrite P1.
  - intros i e Hu Hi. by apply S1, S2.
Qed.

(** proc.c:205-215, one round: the entry is the only one for its page, so the
    round does what [uvmunmap] does for that page *)
Lemma drop_swap_entry_ok s own p root i :
  vinv s own → live s p root → (i < MAX_SWAP)%nat →
  ∃ s', drop_swap_entry p i s = Ok (tt, s') ∧ vinv s' own ∧ tables_only s s' p ∧
    ∀ e, swap_map s' !! i = Some e → s_used e = true → s_proc e ≠ Some p.
Proof.
  intros Hv Hl Hi. unfold drop_swap_entry. rewrite (bind_ok _ _ _ (swap_map s) s) by done.
  destruct (lookup_lt_is_Some_2 (swap_map s) i) as [e He]; [by rewrite (vi_slen _ _ Hv)|].
  rewrite He. rewrite (bind_ok _ _ _ e s) by done. case_decide as Hc.
  2:{ exists s. split_and!; [done|done|apply tables_only_refl|]. intros e' He' Hu Hp. simplify_eq. by destruct Hc. }
  destruct Hc as [Hu Hp]. destruct (vi_swap _ _ Hv i e He Hu) as (_ & Hva & _).
  assert (is_entry p (s_va e) e) as Hent by done.
  destruct (free_swap_entry_ok s own p root (s_va e) Hv Hl Hva) as (s' & E & Hv' & Ho & Hno & Hsub & Hm & Hf & Hps & Hcur & _).
  exists s'. split_and!; [|done|split; [done..|by eapply others_except|done]|].
  - rewrite <- E. unfold free_swap_entry. rewrite (bind_ok _ _ _ (swap_map s) s) by done.
    pose proof (list_find_entry s p (s_va e)) as Hfind. destruct (list_find _ _) as [[j e']|].
    + destruct Hfind as [Hj He']. assert (j = i) as -> by (by eapply (vi_suniq _ _ Hv)).
      by simplify_eq.
    + by destruct (Hfind i e He).
  - intros e' He' Hu' Hp'. pose proof (Hsub i e' Hu' He') as He''. assert (e' = e) as -> by congruence.
    by apply (Hno i e).
Qed.

(** No swap entry and no frame names [p]. *)
Definition no_slots s (p : nat) : Prop :=
  ∀ i e, swap_map s !! i = Some e → s_used e = true → s_proc e ≠ Some p.
Definition no_frames s (p : nat) : Prop :=
  ∀ i f, frame_table s !! i = Some f → f_used f = true → f_proc f ≠ Some p.

(** proc.c:205-215 *)
Lemma drop_swap_ok s own p root :
  vinv s own → live s p root →
  ∃ s', for_list (seq 0 MAX_SWAP) (λ i _, drop_swap_entry p i) tt s = Ok (tt, s') ∧
    vinv s' own ∧ tables_only s s' p ∧ no_slots s' p.
Proof.
  intros Hv Hl.
  destruct (for_list_inv (λ k (_ : unit) s', vinv s' own ∧ tables_only s s' p ∧
    ∀ i e, (i < k)%nat → swap_map s' !! i = Some e → s_used e = true → s_proc e ≠ Some p)
    (seq 0 MAX_SWAP) (λ i _, drop_swap_entry p i) tt s) as ([] & s' & E & Hv' & Hto & Hno).
  - split_and!; [done|apply tables_only_refl|]. intros; lia.
  - intros k i [] s1 Hk (Hv1 & Hto1 & Hno1). apply lookup_seq in Hk as [-> Hlt].
    assert (live s1 p root) as Hl1 by (destruct Hl as (x & ?); exists x; by rewrite (to_procs _ _ _ Hto1)).
    destruct (drop_swap_entry_ok s1 own p root k Hv1 Hl1 Hlt) as (s2 & E2 & Hv2 & Hto2 & Hk2).
    exists tt, s2. split_and!; [done|done|by eapply tables_only_trans|]. intros j e Hj He Hu.
    destruct (decide (j = k)) as [->|Hne]; [by eapply Hk2|].
    apply (Hno1 j e); [lia| |done]. by apply (to_sub _ _ _ Hto2).
  - exists s'. split_and!; [done..|]. intros i e Hi. rewrite length_seq in Hno.
    apply (Hno i e); [|done]. apply lookup_lt_Some in Hi. by rewrite (vi_slen _ _ Hv') in Hi.
Qed.

(** proc.c:219-233, one round *)
Lemma drop_frame_ok s own p i :
  vinv s own → (i < MAX_FRAMES)%nat →
  ∃ s', drop_frame p i s = Ok (tt, s') ∧ vinv s' own ∧ tables_only s s' p ∧ swap_map s' = swap_map s ∧
    (∀ f, frame_table s' !! i = Some f → f_used f = true → f_proc f ≠ Some p) ∧
    ∀ j, j ≠ i → frame_table s' !! j = frame_table s !! j.
Proof.
  intros Hv Hi. unfold drop_frame.
  destruct (lookup_lt_is_Some_2 (frame_table s) i) as [f Hf]; [by rewrite (vi_flen _ _ Hv)|].
  rewrite (bind_ok _ _ _ _ _ (get_frame_ok s i f Hf)). case_decide as Hc.
  2:{ exists s. split_and!; [done|done|apply tables_only_refl|done| |done]. intros f' Hf' Hu Hp. assert (f' = f) as -> by congruence.
      destruct (vi_frames _ _ Hv i f Hf Hu) as [? _]. by destruct Hc. }
  destruct Hc as (Hu & _). destruct (clear_frame_ok s own i f Hv Hf Hu) as [E Hv'].
  eexists. split; [exact E|]. split_and!; [exact Hv'|split; try done; by intros j e|done| |].
  - intros f' Hf'. simpl in Hf'. rewrite list_lookup_alter_eq, Hf in Hf'. by simplify_eq/=.
  - intros j Hne. simpl. by rewrite list_lookup_alter_ne.
Qed.

(** proc.c:199-236: nothing of [p] is left in the tables *)
Lemma free_proc_swap_slots_ok s own p root :
  vinv s own → live s p root →
  ∃ s', free_proc_swap_slots p s = Ok (tt, s') ∧ vinv s' own ∧ tables_only s s' p ∧
    no_slots s' p ∧ no_frames s' p.
Proof.
  intros Hv Hl. unfold free_proc_swap_slots.
  destruct (drop_swap_ok s own p root Hv Hl) as (s1 & E1 & Hv1 & Hto1 & Hno1). rewrite (bind_ok _ _ _ _ _ E1).
  destruct (for_list_inv (λ k (_ : unit) s', vinv s' own ∧ tables_only s1 s' p ∧ swap_map s' = swap_map s1 ∧
    ∀ i f, (i < k)%nat → frame_table s' !! i = Some f → f_used f = true → f_proc f ≠ Some p)
    (seq 0 MAX_FRAMES) (λ i _, drop_frame p i) tt s1) as ([] & s' & E & Hv' & Hto & Hsm & Hno).
  - split_and!; [done|apply tables_only_refl|done|]. intros; lia.
  - intros k i [] s2 Hk (Hv2 & Hto2 & Hsm2 & Hno2). apply lookup_seq in Hk as [-> Hlt].
    destruct (drop_frame_ok s2 own p k Hv2 Hlt) as (s3 & E3 & Hv3 & Hto3 & Hsm3 & Hk3 & Hoth).
    exists tt, s3. split_and!; [done|done|by eapply tables_only_trans|congruence|]. intros j f Hj Hf Hu.
    destruct (decide (j = k)) as [->|Hne]; [by eapply Hk3|]. rewrite Hoth in Hf by done.
    apply (Hno2 j f); [lia|done..].
  - exists s'. split_and!; [done|done|by eapply tables_only_trans|by unfold no_slots; rewrite Hsm|].
    intros i f Hi. rewrite length_seq in Hno. apply (Hno i f); [|done].
    apply lookup_lt_Some in Hi. by rewrite (vi_flen _ _ Hv') in Hi.
Qed.
End slots.

(** ** Page tables of processes *)
Section tables.
Context `{Sv39} {D : Type} `{!SwapDev D} `{!SwapDevSpec D}.
Implicit Types s : kernel D.

Definition cur_ok s : Prop := ∀ c, cur s = Some c → is_Some (procs s !! c).

Lemma cur_ok_same s s' : same_procs s s' → cur s' = cur s → cur_ok s → cur_ok s'.
Proof. intros Hps Hc Hcur c Hcc. apply (proc_same s s' c Hps), Hcur. congruence. Qed.

Lemma unmap_owner_run s root : cur_ok s → ∃ pp, unmap_owner root s = Ok (pp, s).
Proof.
  intros Hcur. unfold unmap_owner. rewrite (bind_ok _ _ _ (cur s) s) by done.
  destruct (cur s) as [c|] eqn:Ec; [|by eexists]. destruct (Hcur c Ec) as [x Hx].
  rewrite (bind_ok _ _ _ _ _ (get_proc_ok s c x Hx)). by eexists.
Qed.

(** vm.c:236-287 without [do_free]: the entry is 0 afterwards *)
Lemma unmap_high_page s own root va pp :
  tree_inv (mem s) (freelist s) own → own root = RTab root 2 0 → high va →
  ∃ m, uvmunmap_page root va false pp s = Ok (tt, with_mem m s) ∧ tree_inv m (freelist s) own ∧
    same_data own (mem s) m ∧ dims own (mem s) m ∧ clear_at m own root va.
Proof.
  intros Ht Hr Hva. destruct (high_range va Hva) as (_ & Hmax & _).
  destruct (walk_ok s own root va false Ht Hr Hmax) as (o & m' & fl' & own' & Ew & _ & _ & Ho & Hro).
  destruct (Hro eq_refl) as (-> & -> & ->).
  assert (with_mem (mem s) (with_freelist (freelist s) s) = s) as Hs by by destruct s. rewrite Hs in Ew.
  unfold uvmunmap_page. rewrite (bind_ok _ _ _ tt s) by done. rewrite (bind_ok _ _ _ _ _ Ew).
  destruct o as [pte|].
  2:{ exists (mem s). split_and!; [by destruct s|done|by intros a|by intros b r l p i|].
      intros pte (b & p & Hb & _ & Hsp). destruct Ho as [Hno _]. destruct (Hno b). rewrite Hb. f_equal.
      pose proof (PX_range 0 va). rewrite Hsp, Z.div_add_l by lia. rewrite (Z.div_small (PX 0 va)); lia. }
  pose proof (leaf_ram _ _ _ _ _ _ Ht Ho) as Hram.
  erewrite bind_ok by (by apply load64_ok).
  destruct (leaf_high_write (mem s) (freelist s) own root va pte 0 Ht Ho Hva ltac:(lia) eq_refl) as [Ht' Hd].
  exists (wr64 (mem s) pte 0). split_and!; [|done|done|by eapply dims_clear; [eapply tree_sane|]|].
  - destruct (valid_pte (rd64 (mem s) pte)); cbn [negb]; [rewrite bind_ret_l|]; by apply store64_ok.
  - intros pte' Hl'. rewrite (leaf_unique _ _ _ _ _ _ _ Ht Hl' Ho). by rewrite rd64_wr64 by lia.
Qed.

Lemma uvmunmap_high_ok s own root va :
  vinv s own → own root = RTab root 2 0 → cur_ok s → high va →
  ∃ m, uvmunmap root va 1 false s = Ok (tt, with_mem m s) ∧
    vinv (with_mem m s) own ∧ paged s own (with_mem m s) own ∧
    dims own (mem s) m ∧ clear_at m own root va.
Proof.
  intros Hv Hr Hcur Hva. destruct (high_range va Hva) as (_ & Hmax & Hal).
  pose proof PGSIZE_4096 as Hpg. pose proof MAXVA_range.
  destruct (unmap_owner_run s root Hcur) as (pp & E0).
  destruct (unmap_high_page s own root va pp (vi_tree _ _ Hv) Hr Hva) as (m & E & Ht & Hd & Hdim & Hc).
  destruct (paged_tree s own m (freelist s) own Hv Ht) as [Hv' Hpg'];
    [apply Hv|done|by intros a r v Ha; apply Hd; rewrite Ha|by intros a q Ha; split; [|apply Hd; rewrite Ha]|done|].
  exists m. replace (with_mem m (with_freelist (freelist s) s)) with (with_mem m s) in * by by destruct s.
  split_and!; [|done..].
  unfold uvmunmap. rewrite decide_False by (intros Hx; apply Hx; by apply Z.mod_divide; [lia|]).
  rewrite (bind_ok _ _ _ _ _ E0). change (Z.to_nat 1) with 1%nat. rewrite Z.mul_1_l. rewrite u64_id by lia.
  simpl. rewrite decide_True by lia. rewrite (bind_ok _ _ _ _ _ E). rewrite u64_id by lia.
  by rewrite decide_False by lia.
Qed.

Lemma clear_dims m m' own root va : dims own m m' → clear_at m own root va → clear_at m' own root va.
Proof.
  intros Hd Hc pte Hl. specialize (Hc pte Hl). destruct Hl as (b & p & Hb & -> & _).
  destruct (valid_pte (rd64 m' _)) eqn:Hv; [|done].
  pose proof (Hd b root 0%nat p (PX 0 va) Hb (PX_range 0 va) Hv) as He. unfold entry in He. congruence.
Qed.

(** The address of a user page. *)
Lemma page_va_ok m fl own a root v : tree_inv m fl own → own a = RPage root v → va_ok v.
Proof.
  intros [_ Hp] Ha. pose proof PGSIZE_4096 as Hpg. pose proof (pt_low _ _ Hp _ _ _ Ha).
  destruct (pt_page _ _ Hp _ _ _ Ha) as (b0 & p0 & i0 & Hb0 & Hi0 & -> & _).
  destruct (pt_parent _ _ Hp _ _ _ _ Hb0) as (b1 & p1 & i1 & Hb1 & Hi1 & -> & _); [lia|].
  destruct (pt_parent _ _ Hp _ _ _ _ Hb1) as (b2 & p2 & i2 & Hb2 & Hi2 & -> & _); [lia|].
  destruct (pt_root _ _ Hp _ _ _ _ Hb2) as [_ Hr]. destruct Hr as [_ ->]; [done|].
  split; [|by eexists]. split; [nia|done].
Qed.

(** When its pages are gone and the two high entries are clear, a tree has
    no leaf entry. *)
Lemma no_entries m fl own root :
  tree_inv m fl own → (∀ a v, own a ≠ RPage root v) →
  clear_at m own root TRAPFRAME → clear_at m own root TRAMPOLINE →
  ∀ b pre i a, own b = RTab root 0 pre → 0 ≤ i < 512 → ¬ points m b i a.
Proof.
  intros [_ Hp] Hno Htf Htr b pre i a Hb Hi Hpt. pose proof PGSIZE_4096 as Hpg.
  pose proof (pt_high _ _ Hp b root pre i a Hb Hi Hpt) as [Hmax _].
  pose proof TRAMPOLINE_top as HT. pose proof TRAPFRAME_below as HF. pose proof MAXVA_aligned as [k Hk].
  destruct (decide ((pre * 512 + i) * PGSIZE < TRAPFRAME)) as [Hlt|Hge].
  { by destruct (Hno a _ (pt_leaf _ _ Hp b root pre i a Hb Hi Hpt Hlt)). }
  assert (high ((pre * 512 + i) * PGSIZE)) as Hh.
  { unfold high. assert (pre * 512 + i = k - 2 ∨ pre * 512 + i = k - 1) as [-> | ->] by nia; [left|right]; lia. }
  set (va := (pre * 512 + i) * PGSIZE) in *. destruct (high_range va Hh) as (_ & Hva & _).
  assert (leaf_at own root va (b + 8 * i)) as Hleaf.
  { pose proof (PX_split va Hva) as Hsp. pose proof (PX_range 0 va).
    assert (va / PGSIZE = pre * 512 + i) as Hdiv by (unfold va; by rewrite Z.div_mul by lia).
    assert (PX 0 va = i) as HPX by lia. exists b, pre. rewrite HPX. split_and!; [done..|lia]. }
  destruct Hpt as [Hv _]. unfold entry in Hv.
  assert (clear_at m own root va) as Hc by (destruct Hh as [-> | ->]; done).
  rewrite (Hc _ Hleaf) in Hv. done.
Qed.
End tables.

(** ** Giving up an address space *)
Section release.
Context `{Sv39} `{!ProcEnv} `{!Chans} {D : Type} `{!SwapDev D} `{!SwapDevSpec D}.
Implicit Types s : kernel D.

(** The pages of the address space [root], tables included. *)
Definition owned (root : Z) (r : role) : bool :=
  match r with RTab r' _ _ | RPage r' _ => bool_decide (r' = root) | _ => false end.

(** They are free, every other page has the role it had. *)
Definition reclaimed (root : Z) (own own' : owners) : Prop :=
  ∀ a, own' a = if owned root (own a) then RFree else own a.

Lemma recycled_page root own a r v : recycled root own a = RPage r v ↔ own a = RPage r v.
Proof.
  unfold recycled, is_tab. destruct (own a) as [| | |r' l' p'| |]; try done. by case_bool_decide.
Qed.

Lemma recycled_root root own r l p : r ≠ root → own r = RTab r l p → recycled root own r = RTab r l p.
Proof. intros Hne Hr. unfold recycled, is_tab. rewrite Hr. by rewrite bool_decide_eq_false_2. Qed.

Lemma live_detach s p (f : proc → proc) m fl q r :
  (∀ x, p_pagetable (f x) = 0) →
  live (with_procs (alter f p (procs s)) (with_mem m (with_freelist fl s))) q r ↔ live s q r ∧ q ≠ p.
Proof.
  intros Hf. unfold live. simpl. destruct (decide (q = p)) as [->|Hne].
  - rewrite list_lookup_alter_eq. split; [|by intros [_ ?]]. intros (x & Hx & Hr & Hn).
    apply fmap_Some in Hx as (y & _ & ->). by rewrite Hf in Hr.
  - rewrite list_lookup_alter_ne by done. naive_solver.
Qed.

(** A process whose pages, slots and tables are gone leaves its page table. *)
Lemma detach_ok s own p root f m' fl' :
  vinv s own → live s p root → no_slots s p → (∀ x, p_pagetable (f x) = 0) →
  tree_inv m' fl' (recycled root own) →
  (∀ a, data (own a) → rdbytes m' a PGSIZE = rdbytes (mem s) a PGSIZE) →
  let s' := with_procs (alter f p (procs s)) (with_mem m' (with_freelist fl' s)) in
  vinv s' (recycled root own) ∧ except_same s s' p.
Proof.
  intros Hv Hl Hns Hf Ht Hdata s'. pose proof (vi_tree _ _ Hv) as Ht0.
  assert (∀ q r, live s q r → q ≠ p → recycled root own r = RTab r 2 0) as Hroots.
  { intros q r Hq Hne. apply recycled_root; [|by apply (vi_live _ _ Hv q)]. intros ->.
    by apply Hne, (vi_roots _ _ Hv q p root). }
  assert (∀ q r, live s' q r ↔ live s q r ∧ q ≠ p) as Hlive by (intros q r; by apply live_detach).
  assert (∀ q, is_Some (procs s !! q) → is_Some (procs s' !! q)) as Hsome.
  { intros q [x Hx]. simpl. destruct (decide (q = p)) as [->|Hne].
    - rewrite list_lookup_alter_eq, Hx. by eexists.
    - rewrite list_lookup_alter_ne by done. by eexists. }
  split; [split; try apply Hv|].
  - done.
  - intros q r [Hq Hne]%Hlive. by apply (Hroots q).
  - intros q1 q2 r [Hq1 _]%Hlive [Hq2 _]%Hlive. by apply (vi_roots _ _ Hv q1 q2 r).
  - intros i fr Hi Hu. destruct (vi_frames _ _ Hv i fr Hi Hu) as (? & ? & q & ? & ?). split_and!; [done..|].
    exists q. split; [done|]. by apply Hsome.
  - intros i e Hi Hu. destruct (vi_swap _ _ Hv i e Hi Hu) as (? & ? & q & r & Hq & Hlq & Hno). split_and!; [done..|].
    exists q, r. split_and!; [done| |].
    + apply Hlive. split; [done|]. intros ->. by destruct (Hns i e Hi Hu).
    + intros a Ha%recycled_page. by apply (Hno a).
  - intros q r v Hq Hvv Hne. assert (live s' q r) as Hq' by by apply Hlive.
    pose proof (vi_live _ _ Hv q r Hq) as Hr.
    destruct (resident_dec _ _ _ r v Ht0 Hr Hvv) as [[a Ha]|Hnone].
    + rewrite (user_page_res s own q r v a) by done.
      rewrite (user_page_res s' (recycled root own) q r v a); [|done|by apply (Hroots q)|done|done|by apply recycled_page].
      apply Hdata. by rewrite Ha.
    + rewrite (user_page_swp s own q r v) by done.
      rewrite (user_page_swp s' (recycled root own) q r v); [done|done|by apply (Hroots q)|done|done|].
      intros a Ha%recycled_page. by apply (Hnone a).
Qed.

Lemma PGROUNDUP_user sz : 0 ≤ sz ≤ TRAPFRAME →
  (PGSIZE | PGROUNDUP sz) ∧ sz ≤ PGROUNDUP sz ≤ TRAPFRAME.
Proof.
  intros Hsz. pose proof PGSIZE_4096 as Hpg. pose proof MAXVA_range. pose proof TRAMPOLINE_top.
  pose proof TRAPFRAME_below. destruct (high_range TRAPFRAME ltac:(by left)) as (_ & _ & [k Hk]).
  destruct (PGROUNDUP_ok sz) as (Hr & Hd & Hle); [lia|]. split; [done|]. split; [lia|].
  apply Hle; [by exists k|lia].
Qed.

(** vm.c:366-371 up to the recursion: no page is left *)
Lemma free_pages_ok s own p root sz :
  vinv s own → live s p root → cur_ok s → 0 ≤ sz ≤ TRAPFRAME →
  (∀ a v, own a = RPage root v → v < PGROUNDUP sz) →
  ∃ s' own', (if decide (0 < sz) then uvmunmap root 0 (PGROUNDUP sz / PGSIZE) true else ret tt) s = Ok (tt, s') ∧
    vinv s' own' ∧ unmapped s own s' own' root ∧ except_same s s' p ∧ ∀ a v, own' a ≠ RPage root v.
Proof.
  intros Hv Hl Hcur Hsz Hpages. pose proof PGSIZE_4096 as Hpg. pose proof (vi_tree _ _ Hv) as Ht.
  assert (∀ a v, own a = RPage root v → va_ok v) as Hvas by (intros a v; by eapply page_va_ok).
  destruct (PGROUNDUP_user sz Hsz) as ([k Hk] & Hup). case_decide as Hpos.
  2:{ exists s, own. split_and!; [done|done|apply unmapped_refl|done|]. intros a v Ha.
      pose proof (Hpages a v Ha). destruct (Hvas a v Ha). assert (sz = 0) as -> by lia.
      unfold PGROUNDUP in *. rewrite u64_id in * by lia. rewrite Z.div_small in * by lia. lia. }
  rewrite Hk, Z.div_mul by lia.
  destruct (uvmunmap_ok s own p root 0 k Hv Hl Hcur) as (s' & own' & E & Hv' & Hout & Hum & Hin); [by exists 0|lia|lia|lia|].
  exists s', own'. split_and!; [done..| |].
  - intros q r v Hq Hvv Hne. apply (Hout q r v); [done..|]. by intros [? _].
  - intros a v Ha. pose proof (released_page _ _ _ _ _ (um_rel _ _ _ _ _ Hum) Ha) as Ha0.
    destruct (Hin v) as [Hx _]; [by eapply Hvas| |by apply (Hx a)]. unfold in_pages.
    pose proof (Hpages a v Ha0). destruct (Hvas a v Ha0). lia.
Qed.

(** [free_pages_ok] and [detach_ok] together: all of the address space is free. *)
Lemma released_reclaimed root own own' :
  released own own' root → (∀ a v, own' a ≠ RPage root v) → reclaimed root own (recycled root own').
Proof.
  intros Hrel Hno a. unfold recycled. destruct (Hrel a) as [Ea|[Ea [v Hv]]]; rewrite Ea; simpl.
  - unfold is_tab, owned. destruct (own a) as [| | |r l q|r v|] eqn:Ho; try done.
    case_bool_decide; [|done]. subst. by destruct (Hno a v).
  - rewrite Hv. simpl. by rewrite bool_decide_eq_true_2.
Qed.

(** What is left when an address space is given up, for any update [f] of the
    process that forgets its page table. *)
Definition gave_up s own (p : nat) (root : Z) s' own' : Prop :=
  reclaimed root own own' ∧ same_procs s s' ∧ cur s' = cur s ∧ pinned s own s' own' ∧ sub_frames s s' ∧
  ∀ f, (∀ x, p_pagetable (f x) = 0) →
    vinv (with_procs (alter f p (procs s')) s') own' ∧
    except_same s (with_procs (alter f p (procs s')) s') p.

Lemma uvmfree_ok s own p root sz :
  vinv s own → live s p root → cur_ok s → no_slots s p → 0 ≤ sz ≤ TRAPFRAME →
  (∀ a v, own a = RPage root v → v < PGROUNDUP sz) →
  clear_at (mem s) own root TRAPFRAME → clear_at (mem s) own root TRAMPOLINE →
  ∃ s' own', uvmfree root sz s = Ok (tt, s') ∧ gave_up s own p root s' own'.
Proof.
  intros Hv Hl Hcur Hns Hsz Hpages Hc1 Hc2. unfold uvmfree.
  destruct (free_pages_ok s own p root sz Hv Hl Hcur Hsz Hpages) as (s1 & own1 & E1 & Hv1 & Hum & Hex & Hno).
  rewrite (bind_ok _ _ _ _ _ E1). pose proof (um_procs _ _ _ _ _ Hum) as Hps.
  assert (live s1 p root) as Hl1 by by apply (live_same s s1).
  pose proof (vi_tree _ _ Hv1) as Ht1. pose proof (vi_live _ _ Hv1 p root Hl1) as Hr1.
  assert (∀ va, clear_at (mem s) own root va → clear_at (mem s1) own1 root va) as Hclear.
  { intros va Hc pte (b & q & Hb & Hpte & Hsp). eapply (clear_dims (mem s)); [apply Hum|done|].
    exists b, q. split_and!; [|done..]. destruct (um_rel _ _ _ _ _ Hum b) as [<-|[? _]]; congruence. }
  destruct (freewalk_root_ok s1 own1 root Ht1 Hr1 Hno) as (m' & fl' & E2 & Ht2 & Hd).
  { eapply no_entries; [done..|by apply Hclear|by apply Hclear]. }
  set (s2 := with_mem m' (with_freelist fl' s1)) in *.
  exists s2, (recycled root own1). split; [done|].
  assert (no_slots s1 p) as Hns1.
  { intros i e Hi Hu. apply (Hns i e); [|done]. by apply (um_sub _ _ _ _ _ Hum). }
  split_and!; [by apply released_reclaimed; [apply Hum|]|done|apply Hum| |apply Hum|].
  - eapply pinned_trans; [apply Hum|]. intros a q Ha. unfold recycled. rewrite Ha. split; [done|].
    apply Hd. by rewrite Ha.
  - intros f Hf. destruct (detach_ok s1 own1 p root f m' fl' Hv1 Hl1 Hns1 Hf Ht2 Hd) as [Hv2 Hex2].
    split; [done|]. by eapply except_trans.
Qed.

Lemma paged_gave_up s own s1 own1 p root s' own' :
  paged s own s1 own1 → (∀ a, own1 a = own a) → frame_table s1 = frame_table s → gave_up s1 own1 p root s' own' → gave_up s own p root s' own'.
Proof.
  intros Hpg Ho Hft (Hrec & Hps & Hc & Hpin & Hsf & Hf). split_and!.
  - intros a. by rewrite (Hrec a), Ho.
  - unfold same_procs in *. rewrite Hps. apply Hpg.
  - rewrite Hc. apply Hpg.
  - eapply pinned_trans; [apply Hpg|done].
  - intros i f. rewrite <- Hft. apply Hsf.
  - intros f Hff. destruct (Hf f Hff) as [? Hex]. split; [done|].
    eapply except_trans; [apply Hpg| |done]. intros q r v Hq Hvv _. by apply (pg_views _ _ _ _ Hpg q r).
Qed.

(** proc.c:306-311 *)
Lemma proc_freepagetable_ok s own p root sz :
  vinv s own → live s p root → cur_ok s → no_slots s p → 0 ≤ sz ≤ TRAPFRAME →
  (∀ a v, own a = RPage root v → v < PGROUNDUP sz) →
  ∃ s' own', proc_freepagetable root sz s = Ok (tt, s') ∧ gave_up s own p root s' own'.
Proof.
  intros Hv Hl Hcur Hns Hsz Hpages. pose proof (vi_live _ _ Hv p root Hl) as Hr.
  destruct (uvmunmap_high_ok s own root TRAMPOLINE Hv Hr Hcur ltac:(by right)) as (m1 & E1 & Hv1 & Hpg1 & Hd1 & Hc1).
  destruct (uvmunmap_high_ok (with_mem m1 s) own root TRAPFRAME Hv1 Hr Hcur ltac:(by left)) as (m2 & E2 & Hv2 & Hpg2 & Hd2 & Hc2).
  unfold proc_freepagetable. rewrite (bind_ok _ _ _ _ _ E1), (bind_ok _ _ _ _ _ E2).
  destruct (uvmfree_ok (with_mem m2 (with_mem m1 s)) own p root sz) as (s' & own' & E & Hg); try done.
  { eapply clear_dims; [exact Hd2|done]. }
  exists s', own'. split; [done|]. by eapply paged_gave_up; [eapply paged_trans|..].
Qed.

(** ** [freeproc] *)

(** A page the kernel holds becomes a trapframe, or the reverse. *)
Lemma repin_ok s own a r :
  vinv s own → data (own a) → (∀ root v, own a ≠ RPage root v) → data r → (∀ root v, r ≠ RPage root v) →
  vinv s (give a r own).
Proof.
  intros Hv Ha Hap Hr Hrp. pose proof (vi_tree _ _ Hv) as [Hk Hp].
  replace s with (with_mem (mem s) (with_freelist (freelist s) s)) by by destruct s.
  apply (vinv_tree s own); [done|split| |].
  - apply kmem_give; [done| | |]; intros E; rewrite E in *; done.
  - apply pt_give; [done| |].
    + destruct (own a); try done. by destruct (Hap root va).
    + destruct r; try done. by destruct (Hrp root va).
  - intros q root Hq. pose proof (vi_live _ _ Hv q root Hq) as Hb. rewrite give_ne; [done|].
    intros ->. by rewrite Hb in Ha.
  - intros b root va. unfold give. case_decide; [|done]. subst. split; intros E; [by destruct (Hrp root va)|by destruct (Hap root va)].
Qed.

(** A process and what it holds: a trapframe, pages below its size. *)
Definition holds (own : owners) (p : nat) (x : proc) : Prop :=
  (p_trapframe x ≠ 0 → own (p_trapframe x) = RPin p) ∧
  (p_pagetable x ≠ 0 → 0 ≤ p_sz x ≤ TRAPFRAME ∧
     ∀ a v, own a = RPage (p_pagetable x) v → v < PGROUNDUP (p_sz x)).

(** The pages it holds are free, the others have the role they had. *)
Definition returned (x : proc) (own own' : owners) : Prop :=
  ∀ a, own' a = if decide (a ≠ 0 ∧ a = p_trapframe x) then RFree
                else if owned (p_pagetable x) (own a) then RFree else own a.

Lemma owned_0 m fl own a : tree_inv m fl own → owned 0 (own a) = false.
Proof.
  intros Ht. pose proof (tree_sane _ _ _ Ht) as Hs.
  assert (∀ l p, own 0 ≠ RTab 0 l p) as Hnull.
  { intros l p E. assert (page_addr 0) as Hp by (apply Hs; by rewrite E). apply page_addr_pos in Hp. lia. }
  unfold owned. destruct (own a) as [| | |r l p|r v|] eqn:Ha; try done; apply bool_decide_eq_false_2; intros ->.
  - destruct (ancestor m own 0 l p a (2 - l) (proj2 Ht) Ha) as [c Hc].
    { destruct (pt_root _ _ (proj2 Ht) _ _ _ _ Ha). lia. }
    destruct (pt_root _ _ (proj2 Ht) _ _ _ _ Hc) as [_ Hr]. destruct (pt_root _ _ (proj2 Ht) _ _ _ _ Ha).
    destruct Hr as [-> _]; [lia|]. by apply Hnull in Hc.
  - destruct (pt_page _ _ (proj2 Ht) _ _ _ Ha) as (b & pre & i & Hb & _).
    destruct (ancestor m own 0 0 pre b 2 (proj2 Ht) Hb) as [c Hc]; [lia|].
    destruct (pt_root _ _ (proj2 Ht) _ _ _ _ Hc) as [_ Hr]. destruct Hr as [-> _]; [done|]. by apply Hnull in Hc.
Qed.

(** What [freeproc] leaves of the process. *)
Definition freed_proc (x : proc) : proc := reset_proc (set_p_trapframe 0 x).

(** proc.c:244-246: the trapframe goes back to the allocator *)
Lemma free_trapframe_ok s own p x :
  vinv s own → procs s !! p = Some x → (p_trapframe x ≠ 0 → own (p_trapframe x) = RPin p) →
  let tf := p_trapframe x in
  ∃ s' own', (if decide (tf ≠ 0) then kfree tf else ret tt) s = Ok (tt, s') ∧ vinv s' own' ∧
    (∀ a, own' a = if decide (a ≠ 0 ∧ a = tf) then RFree else own a) ∧
    procs s' = procs s ∧ cur s' = cur s ∧ same_views s s' ∧ frame_table s' = frame_table s ∧
    (∀ a q, q ≠ p → own a = RPin q → rdbytes (mem s') a PGSIZE = rdbytes (mem s) a PGSIZE).
Proof.
  intros Hv Hx Hpin tf. case_decide as Htf.
  2:{ exists s, own. split_and!; try done. intros a. rewrite decide_False; [done|]. by intros [? ->]. }
  specialize (Hpin Htf). set (own1 := give tf RKern own).
  assert (vinv s own1) as Hv1 by (apply repin_ok; try done; unfold tf; by rewrite Hpin).
  destruct (kfree_kern_ok s own1 tf Hv1 (give_eq _ _ _)) as (m & E & Hv' & Hpg & _).
  eexists _, _. split; [exact E|]. split_and!; [exact Hv'| |done|done|apply Hpg|done|].
  - intros a. unfold own1, give. repeat case_decide; naive_solver.
  - intros a q Hq Ha. assert (a ≠ tf) as Hne by (intros ->; unfold tf in Ha; congruence).
    apply (pg_pin _ _ _ _ Hpg a q). unfold own1. by rewrite give_ne.
Qed.

Lemma kept_except s s1 s' p :
  same_views s s1 → (∀ q r, live s q r → live s1 q r) → except_same s1 s' p → except_same s s' p.
Proof. intros Hvw Hl Hex q r v Hq Hvv Hne. rewrite (Hex q r v); [by apply (Hvw q r)|by apply Hl|done..]. Qed.

(** Updates that do not look at the counters. *)
Definition blind (f : proc → proc) : Prop := ∀ x, core (f x) = f (core x).

Lemma cores_alter f p (l : list proc) : blind f → core <$> alter f p l = alter f p (core <$> l).
Proof.
  intros Hf. apply list_eq. intros j. rewrite list_lookup_fmap. destruct (decide (j = p)) as [->|Hne].
  - rewrite !list_lookup_alter_eq, list_lookup_fmap. destruct (l !! p); simpl; by rewrite ?Hf.
  - by rewrite !list_lookup_alter_ne, list_lookup_fmap.
Qed.

Lemma blind_reset : blind reset_proc.
Proof. by intros []. Qed.
(** proc.c:238-266 *)
Lemma freeproc_ok s own p x :
  vinv s own → cur_ok s → procs s !! p = Some x → holds own p x →
  ∃ s' own', freeproc p s = Ok (tt, s') ∧ vinv s' own' ∧ returned x own own' ∧ except_same s s' p ∧
    core <$> procs s' = core <$> alter freed_proc p (procs s) ∧ cur s' = cur s ∧
    (p_pagetable x ≠ 0 → no_frames s' p) ∧
    (∀ a q, q ≠ p → own a = RPin q → rdbytes (mem s') a PGSIZE = rdbytes (mem s) a PGSIZE).
Proof.
  intros Hv Hcur Hx [Hpin Hsp]. unfold freeproc. rewrite (bind_ok _ _ _ _ _ (get_proc_ok s p x Hx)).
  destruct (free_trapframe_ok s own p x Hv Hx Hpin) as (s1 & own1 & E1 & Hv1 & Ho1 & Hp1 & Hc1 & Hvw1 & Hft1 & Hpin1).
  rewrite (bind_ok _ _ _ _ _ E1). set (tf := p_trapframe x) in *.
  rewrite (bind_ok _ _ _ _ _ (upd_proc_run s1 p (set_p_trapframe 0))).
  destruct (vinv_procs s1 own1 (alter (set_p_trapframe 0) p (procs s1)) Hv1) as [Hv2 Hvw2];
    [by apply same_roots_alter|].
  set (s2 := with_procs (alter (set_p_trapframe 0) p (procs s1)) s1) in *.
  assert (∀ q r, live s q r → live s2 q r) as Hl2.
  { intros q r (y & Hy & Hr). apply (live_roots s1); [by apply same_roots_alter|]. exists y. by rewrite Hp1. }
  assert (same_views s s2) as Hvw.
  { intros q r v Hq Hvv. rewrite (Hvw2 q r v); [by apply (Hvw1 q r)| |done].
    destruct Hq as (y & Hy & Hr). exists y. by rewrite Hp1. }
  destruct (decide (p_pagetable x ≠ 0)) as [Hr|Hr].
  - destruct (Hsp Hr) as [Hsz Hpages]. set (root := p_pagetable x) in *.
    assert (live s2 p root) as Hlp by (apply Hl2; by exists x).
    destruct (free_proc_swap_slots_ok s2 own1 p root Hv2 Hlp) as (s3 & E3 & Hv3 & Hto & Hns & Hnf).
    assert (live s3 p root) as Hl3 by (destruct Hlp as (y & ?); exists y; by rewrite (to_procs _ _ _ Hto)).
    destruct (proc_freepagetable_ok s3 own1 p root (p_sz x) Hv3 Hl3) as (s4 & own4 & E4 & Hrec & Hps4 & Hc4 & Hpin4 & Hsf & Hf); try done.
    { intros c Hc. rewrite (to_procs _ _ _ Hto). rewrite (to_cur _ _ _ Hto) in Hc. simpl in *. rewrite Hc1 in Hc.
      destruct (Hcur c Hc) as [y Hy]. rewrite Hp1. destruct (decide (c = p)) as [->|].
      - rewrite list_lookup_alter_eq, Hy. by eexists.
      - rewrite list_lookup_alter_ne by done. by eexists. }
    { intros a v Ha. apply (Hpages a). rewrite Ho1 in Ha. case_decide; [done|done]. }
    destruct (Hf reset_proc ltac:(done)) as [Hv5 Hex5].
    assert (same_procs s2 s4) as Hps24 by (unfold same_procs in *; by rewrite Hps4, (to_procs _ _ _ Hto)).
    exists (with_procs (alter reset_proc p (procs s4)) s4), own4. split.
    { rewrite (bind_ok _ _ _ tt s4); [apply upd_proc_run|]. by rewrite (bind_ok _ _ _ _ _ E3). }
    split_and!; [done| | | | | |].
    + intros a. rewrite (Hrec a), Ho1. fold tf root. by destruct (decide (a ≠ 0 ∧ a = tf)).
    + eapply kept_except; [done..|]. eapply except_trans; [|apply Hto|done]. unfold same_procs. by rewrite (to_procs _ _ _ Hto).
    + simpl. rewrite cores_alter by apply blind_reset. rewrite Hps24. simpl.
      rewrite Hp1, <- cores_alter by apply blind_reset. by rewrite alter_alter.
    + simpl. rewrite Hc4, (to_cur _ _ _ Hto). done.
    + intros _ i fr Hi Hu. apply (Hnf i fr); [|done]. by apply Hsf.
    + intros a q Hq Ha. destruct (Hpin4 a q) as [_ Hb].
      * rewrite Ho1. rewrite decide_False; [done|]. intros [Hn ->]. rewrite Hpin in Ha by done. congruence.
      * etransitivity; [exact Hb|]. rewrite (to_mem _ _ _ Hto). by apply (Hpin1 a q).
  - rewrite (bind_ok _ _ _ tt s2) by done.
    exists (with_procs (alter reset_proc p (procs s2)) s2), own1.
    assert (p_pagetable x = 0) as Hr0 by lia.
    assert (same_roots (procs s2) (alter reset_proc p (procs s2))) as Hroots.
    { apply list_eq. intros j. rewrite !list_lookup_fmap. destruct (decide (j = p)) as [->|Hne].
      - rewrite list_lookup_alter_eq. simpl. rewrite list_lookup_alter_eq, Hp1, Hx. simpl. by rewrite Hr0.
      - by rewrite list_lookup_alter_ne. }
    destruct (vinv_procs s2 own1 _ Hv2 Hroots) as [Hv3 Hvw3].
    split_and!; [apply upd_proc_run|done| | | |done|done|].
    + intros a. rewrite Ho1. rewrite Hr0, (owned_0 _ _ _ _ (vi_tree _ _ Hv)). done.
    + eapply kept_except; [done..|]. intros q r v Hq Hvv _. by apply (Hvw3 q r).
    + simpl. by rewrite Hp1, alter_alter.
    + intros a q Hq Ha. by apply (Hpin1 a q).
Qed.
End release.
