(* ===== verification/ProcTable.v ===== *)
(** * The process table (proc.c:41-407, 470-523)

    Allocation of a process with its trapframe and page table, fork, and the
    reaping of a child, against an invariant of the process table that
    accounts for every page: a page is free, a trapframe of one process, part
    of the address space of one process, or kernel memory of other kinds. *)
From S2P Require Import Prelude Interfaces Mem KState Kmem PageTable Frames Paging Vm Fault Boot.
From S2P Require Import Spaces Fork Teardown Sched Proc ProcMem.
Local Open Scope Z_scope.

Section tree.
Context `{Sv39} `{!ProcEnv} `{!Chans} {D : Type} `{!SwapDev D} `{!SwapDevSpec D}.
Implicit Types s : kernel D.

(** No page belongs to a tree whose root is not a table. *)
Lemma unowned m fl own root a :
  tree_inv m fl own → (∀ l p, own root ≠ RTab root l p) → owned root (own a) = false.
Proof.
  intros Ht Hroot. unfold owned.
  assert (∀ b l p, own b ≠ RTab root l p) as Hno.
  { intros b l p Hb. destruct (pt_root _ _ (proj2 Ht) _ _ _ _ Hb) as [Hl _].
    destruct (ancestor m own root l p b (2 - l) (proj2 Ht) Hb) as [c Hc]; [lia|].
    destruct (pt_root _ _ (proj2 Ht) _ _ _ _ Hc) as [_ Hr]. destruct Hr as [-> _]; [lia|]. by apply Hroot in Hc. }
  destruct (own a) as [| | |r l p|r v|] eqn:Ha; try done; apply bool_decide_eq_false_2; intros ->.
  - by apply Hno in Ha.
  - destruct (pt_page _ _ (proj2 Ht) _ _ _ Ha) as (b & pre & i & Hb & _). by apply Hno in Hb.
Qed.

(** A tree that no process uses is given back. *)
Lemma drop_tree_ok s own root :
  vinv s own → own root = RTab root 2 0 → (∀ q, ¬ live s q root) → (∀ a v, own a ≠ RPage root v) →
  clear_at (mem s) own root TRAPFRAME → clear_at (mem s) own root TRAMPOLINE →
  ∃ m fl, let s' := with_mem m (with_freelist fl s) in
    freewalk 3 root s = Ok (tt, s') ∧ vinv s' (recycled root own) ∧ paged s own s' (recycled root own).
Proof.
  intros Hv Hr Hdead Hno Hc1 Hc2. pose proof (vi_tree _ _ Hv) as Ht.
  destruct (freewalk_root_ok s own root Ht Hr Hno) as (m & fl & E & Ht' & Hd).
  { by eapply no_entries. }
  exists m, fl. split; [done|]. apply paged_tree; [done|done| | | | |].
  - intros q r Hq. apply recycled_root; [|by apply (vi_live _ _ Hv q)]. intros ->. by apply (Hdead q).
  - intros a r v. apply recycled_page.
  - intros a r v Ha. apply Hd. by rewrite Ha.
  - intros a q Ha. unfold recycled. rewrite Ha. split; [done|]. apply Hd. by rewrite Ha.
  - unfold recycled. split; [intros a q|intros r Ha]; by case_match.
Qed.

(** A tree grown from a free page, and dropped again. *)
Lemma recycled_back m fl own root own' :
  tree_inv m fl own → own root = RFree → confined root own own' → (∀ a v, own' a ≠ RPage root v) →
  ∀ a, recycled root own' a = own a.
Proof.
  intros Ht Hr Hc Hno a. unfold recycled.
  assert (owned root (own a) = false) as Hun by (apply (unowned m fl); [done|by rewrite Hr]).
  destruct (Hc a) as [->|[Hm Hm']].
  - unfold is_tab, owned in *. destruct (own a); try done. by rewrite Hun.
  - assert (own a = RFree) as Ha.
    { unfold mine, owned in *. destruct (own a); try done; by rewrite bool_decide_eq_true_2 in Hun. }
    rewrite Ha. unfold mine, is_tab in *. destruct (own' a) as [| | |r l p|r v|] eqn:Ha'; try done.
    + by rewrite bool_decide_eq_true_2.
    + subst. by destruct (Hno a v).
Qed.

(** Flags for the pages above user memory. *)
Definition kernel_perm (perm : Z) : Prop := 0 ≤ perm < 1024 ∧ Z.land perm PTE_U = 0.

Lemma perm_high : kernel_perm (Z.lor PTE_R PTE_X) ∧ kernel_perm (Z.lor PTE_R PTE_W).
Proof. unfold kernel_perm. destruct pte_bits as (_ & -> & -> & -> & ->). done. Qed.

(** The states of [proc_pagetable]: a tree [root] grown from a free page,
    with no user page and no owner. *)
Record growing s own (root : Z) s' own' : Prop := {
  gr_vinv : vinv s' own';
  gr_viewed : viewed s own s' own';
  gr_root : own' root = RTab root 2 0;
  gr_mine : confined root own own';
  gr_none : ∀ a v, own' a ≠ RPage root v;
  gr_dead : ∀ q, ¬ live s' q root;
  gr_form : ∃ m fl, s' = with_mem m (with_freelist fl s);
}.

Lemma growing_map s own root s1 own1 va pa perm :
  growing s own root s1 own1 → high va → pa_ok pa → kernel_perm perm → clear_at (mem s1) own1 root va →
  ∃ r s2 own2, mappages root va PGSIZE pa perm s1 = Ok (r, s2) ∧ growing s own root s2 own2 ∧
    (∀ va', high va' → va' ≠ va → clear_at (mem s1) own1 root va' → clear_at (mem s2) own2 root va') ∧
    (r = 0 ∨ r = -1 ∧ clear_at (mem s2) own2 root va).
Proof.
  intros [Hv Hpg Hr Hc Hno Hdead (m0 & fl0 & Hs)] Hva Hpa [Hperm Hnu] Hcl.
  destruct (mappages_high_ok s1 own1 root va pa perm (vi_tree _ _ Hv) Hr Hva Hpa Hperm Hnu Hcl)
    as (r & m & fl & own2 & E & Hg & Hcf & Ht & Hoth & Hcase).
  destruct (paged_grow s1 own1 m fl own2 Hv Ht Hg) as [Hv2 Hpg2].
  exists r, (with_mem m (with_freelist fl s1)), own2. split_and!; [done| |done|].
  - split; [done|by eapply viewed_trans| |by eapply confined_trans| |done|].
    + by apply (grow_tab _ _ _ _ _ _ _ _ Hg).
    + intros a v Ha%(pg_sub _ _ _ _ Hpg2). by apply (Hno a v).
    + subst s1. by exists m, fl.
  - destruct Hcase as [?|(? & _ & ?)]; [by left|by right].
Qed.

(** The tree is given back and the pages are where they were. *)
Lemma growing_drop s own root s1 own1 :
  vinv s own → own root = RFree → growing s own root s1 own1 →
  clear_at (mem s1) own1 root TRAPFRAME → clear_at (mem s1) own1 root TRAMPOLINE →
  ∃ s2 own2, uvmfree root 0 s1 = Ok (tt, s2) ∧ vinv s2 own2 ∧ viewed s own s2 own2 ∧
    (∀ a, own2 a = own a) ∧ ∃ m fl, s2 = with_mem m (with_freelist fl s).
Proof.
  intros Hv Hfree [Hv1 Hpg Hr Hc Hno Hdead (m0 & fl0 & Hs)] Hc1 Hc2.
  destruct (drop_tree_ok s1 own1 root Hv1 Hr Hdead Hno Hc1 Hc2) as (m & fl & E & Hv2 & Hpg2).
  eexists _, _. split_and!; [|exact Hv2|by eapply viewed_trans| |].
  - unfold uvmfree. rewrite decide_False by lia. rewrite bind_ret_l. exact E.
  - eapply recycled_back; [apply Hv|done..].
  - subst s1. by exists m, fl.
Qed.

(** proc.c:270-302 *)
Lemma proc_pagetable_ok s own tf :
  vinv s own → cur_ok s → pa_ok tf →
  ∃ r s' own', proc_pagetable tf s = Ok (r, s') ∧
    ((r = 0 ∧ vinv s' own' ∧ viewed s own s' own' ∧ (∀ a, own' a = own a)) ∨
     (r ≠ 0 ∧ own r = RFree ∧ growing s own r s' own')) ∧
    ∃ m fl, s' = with_mem m (with_freelist fl s).
Proof.
  intros Hv Hcur Htf. unfold proc_pagetable. destruct perm_high as [Hp1 Hp2].
  destruct (uvmcreate_ok s own Hv) as [[E _]|(root & s1 & Hr0 & Hfree & E & Hv1 & Hpg1 & Hps1 & Hfr & m0 & fl0 & Hs1)];
    rewrite (bind_ok _ _ _ _ _ E).
  { exists 0, s, own. split_and!; [done| |by exists (mem s), (freelist s); destruct s].
    left. split_and!; try done. }
  rewrite decide_False by done. set (own1 := give root (RTab root 2 0) own) in *.
  assert (∀ a, owned root (own a) = false) as Hun.
  { intros a. eapply unowned; [apply Hv|by rewrite Hfree]. }
  assert (growing s own root s1 own1) as G1.
  { split; [done|done|apply give_eq| | | |by exists m0, fl0].
    - intros a. unfold own1, give. case_decide; [subst; right; by rewrite Hfree|by left].
    - intros a v. unfold own1, give. case_decide; [done|]. intros Ha. specialize (Hun a). rewrite Ha in Hun.
      simpl in Hun. by rewrite bool_decide_eq_true_2 in Hun.
    - intros q Hq. apply (Hfr q root); [|done]. destruct Hq as (x & Hx & ?). exists x. by rewrite <- Hps1. }
  assert (∀ va, clear_at (mem s1) own1 root va) as C1.
  { intros va pte (b & p & Hb & _). unfold own1, give in Hb. case_decide; [done|]. specialize (Hun b).
    rewrite Hb in Hun. simpl in Hun. by rewrite bool_decide_eq_true_2 in Hun. }
  destruct (growing_map s own root s1 own1 TRAMPOLINE trampoline _ G1 ltac:(by right) trampoline_ok Hp1 (C1 _))
    as (r2 & s2 & own2 & E2 & G2 & K2 & Hr2). rewrite (bind_ok _ _ _ _ _ E2).
  assert (TRAPFRAME ≠ TRAMPOLINE) as Hne by (pose proof TRAPFRAME_below; pose proof PGSIZE_4096; lia).
  assert (clear_at (mem s2) own2 root TRAPFRAME) as C2 by (apply K2; [by left|done|apply C1]).
  destruct Hr2 as [-> |[-> C2']].
  2:{ rewrite decide_True by lia.
      destruct (growing_drop s own root s2 own2 Hv Hfree G2 C2 C2') as (s3 & own3 & E3 & Hv3 & Hpg3 & Ho3 & Hs3).
      rewrite (bind_ok _ _ _ _ _ E3). exists 0, s3, own3. split_and!; [done| |done]. by left. }
  rewrite decide_False by lia.
  destruct (growing_map s own root s2 own2 TRAPFRAME tf _ G2 ltac:(by left) Htf Hp2 C2)
    as (r3 & s3 & own3 & E3 & G3 & K3 & Hr3). rewrite (bind_ok _ _ _ _ _ E3).
  destruct Hr3 as [-> |[-> C3]].
  { rewrite decide_False by lia. exists root, s3, own3. split_and!; [done|by right|apply G3]. }
  rewrite decide_True by lia.
  assert (cur_ok s3) as Hcur3 by (eapply cur_ok_same; [apply (gr_viewed _ _ _ _ _ G3)..|done]).
  destruct (uvmunmap_high_ok s3 own3 root TRAMPOLINE (gr_vinv _ _ _ _ _ G3) (gr_root _ _ _ _ _ G3) Hcur3 ltac:(by right))
    as (m4 & E4 & Hv4 & Hpg4 & Hd4 & C4). rewrite (bind_ok _ _ _ _ _ E4).
  assert (growing s own root (with_mem m4 s3) own3) as G4.
  { destruct G3 as [_ Hpg Hrt Hcf Hno Hdead (m & fl & ->)].
    split; [done|by eapply viewed_trans|done|done|done|done|by exists m4, fl]. }
  destruct (growing_drop s own root (with_mem m4 s3) own3 Hv Hfree G4) as (s5 & own5 & E5 & Hv5 & Hpg5 & Ho5 & Hs5);
    [by eapply clear_dims|done|].
  rewrite (bind_ok _ _ _ _ _ E5). exists 0, s5, own5. split_and!; [done| |done]. by left.
Qed.
End tree.

(** ** The invariant of the process table *)
Section table.
Context `{Sv39} `{!ProcEnv} `{!Chans} {D : Type} `{!SwapDev D} `{!SwapDevSpec D}.
Implicit Types s : kernel D.

(** A process that holds nothing. *)
Definition vacant (x : proc) : Prop := p_pagetable x = 0 ∧ p_trapframe x = 0 ∧ p_sz x = 0.

(** Processes and pages account for each other: every slot in use has a
    trapframe and a page table with its pages below the size, an unused slot
    has nothing, and every trapframe page and every table belongs to a slot. *)
Record pok (ps : list proc) (own : owners) : Prop := {
  pk_holds : ∀ p x, ps !! p = Some x → holds own p x;
  pk_unused : ∀ p x, ps !! p = Some x → p_state x = UNUSED → vacant x;
  pk_used : ∀ p x, ps !! p = Some x → p_state x ≠ UNUSED → p_pagetable x ≠ 0 ∧ p_trapframe x ≠ 0;
  pk_pins : ∀ a p, own a = RPin p → ∃ x, ps !! p = Some x ∧ p_trapframe x = a;
  pk_trees : ∀ a r l pre, own a = RTab r l pre → ∃ p x, ps !! p = Some x ∧ p_pagetable x = r;
}.

Definition pinv s (own : owners) : Prop := vinv s own ∧ cur_ok s ∧ pok (procs s) own.

(** The swap entries of a process lie below its size. *)
Definition swap_low s : Prop :=
  ∀ i e p x, swap_map s !! i = Some e → s_used e = true → s_proc e = Some p → procs s !! p = Some x →
    s_va e < PGROUNDUP (p_sz x).

(** The process of an entry is in use. *)
Lemma entry_slot s own i e p x :
  pinv s own → swap_map s !! i = Some e → s_used e = true → s_proc e = Some p → procs s !! p = Some x → p_state x ≠ UNUSED.
Proof.
  intros (Hv & _ & Hpok) Hi Hu Hp Hx Hst. destruct (vi_swap _ _ Hv i e Hi Hu) as (_ & _ & q & r & Hq & (z & Hz & Hr & Hn) & _).
  destruct (pk_unused _ _ Hpok p x Hx Hst). congruence.
Qed.

(** New entries lie below the size, and processes keep theirs. *)
Lemma swap_low_table s own s' own' :
  pinv s own → pinv s' own' → swap_low s →
  (∀ i e, s_used e = true → swap_map s' !! i = Some e → swap_map s !! i = Some e ∨
     ∀ p y, s_proc e = Some p → procs s' !! p = Some y → p_state y ≠ UNUSED → s_va e < PGROUNDUP (p_sz y)) →
  (∀ i z z', procs s !! i = Some z → p_state z ≠ UNUSED → procs s' !! i = Some z' → p_state z' ≠ UNUSED → p_sz z' = p_sz z) →
  swap_low s'.
Proof.
  intros Hinv Hinv' Hl He Hz i e p x' Hi Hu Hp Hx'. pose proof (entry_slot _ _ _ _ _ _ Hinv' Hi Hu Hp Hx') as Hst.
  destruct (He i e Hu Hi) as [Hi'|Hn]; [|by eapply Hn]. pose proof Hinv as (Hv & _ & _).
  destruct (vi_swap _ _ Hv i e Hi' Hu) as (_ & _ & q & r & Hq & (z & Hzl & _) & _). assert (q = p) as -> by congruence.
  rewrite (Hz p z x' Hzl (entry_slot _ _ _ _ _ _ Hinv Hi' Hu Hp Hzl) Hx' Hst). by eapply Hl.
Qed.

Lemma swap_low_new s own s' : pinv s own → same_procs s s' → from_memory s own s' → swap_low s → swap_low s'.
Proof.
  intros (Hv & _ & Hpok) Hps Hn Hl i e p x' Hi Hu He Hx'.
  destruct (same_procs_lookup s' s p x' ltac:(by apply same_procs_sym) Hx') as (x & Hx & Hc).
  pose proof (f_equal p_sz Hc) as Hsz. simpl in Hsz. rewrite <- Hsz.
  destruct (Hn i e Hi Hu) as [Hi'|(q & root & a & Hq & (z & Hz & Hzr & Hr) & Ha)]; [by eapply Hl|].
  assert (q = p) as -> by congruence. assert (z = x) as -> by congruence. subst root.
  destruct (pk_holds _ _ Hpok p x Hx) as [_ Hh]. destruct (Hh Hr) as [_ Hb]. by eapply Hb.
Qed.

(** The fields it speaks of. *)
Definition same_hold (x y : proc) : Prop :=
  p_pagetable y = p_pagetable x ∧ p_trapframe y = p_trapframe x ∧ p_sz y = p_sz x ∧
  (p_state y = UNUSED ↔ p_state x = UNUSED).

Lemma core_hold x y : core x = core y → same_hold x y.
Proof.
  intros Hc. split_and!; [exact (eq_sym (f_equal p_pagetable Hc))|exact (eq_sym (f_equal p_trapframe Hc))
    |exact (eq_sym (f_equal p_sz Hc))|].
  assert (p_state x = p_state y) as -> by exact (f_equal p_state Hc). done.
Qed.

Lemma pok_hold ps ps' own :
  (∀ p x, ps !! p = Some x → ∃ y, ps' !! p = Some y ∧ same_hold x y) →
  (∀ p y, ps' !! p = Some y → ∃ x, ps !! p = Some x ∧ same_hold x y) → pok ps own → pok ps' own.
Proof.
  intros Hfw Hbw [K U V P T]. split.
  - intros p y Hy. destruct (Hbw p y Hy) as (x & Hx & E1 & E2 & E3 & _). unfold holds. rewrite E1, E2, E3. by apply K.
  - intros p y Hy Hu. destruct (Hbw p y Hy) as (x & Hx & E1 & E2 & E3 & E4). unfold vacant. rewrite E1, E2, E3.
    apply (U p x Hx). by apply E4.
  - intros p y Hy Hu. destruct (Hbw p y Hy) as (x & Hx & E1 & E2 & E3 & E4). rewrite E1, E2.
    apply (V p x Hx). by rewrite <- E4.
  - intros a p Ha. destruct (P a p Ha) as (x & Hx & <-). destruct (Hfw p x Hx) as (y & Hy & _ & E2 & _). by exists y.
  - intros a r l pre Ha. destruct (T a r l pre Ha) as (p & x & Hx & <-).
    destruct (Hfw p x Hx) as (y & Hy & E1 & _). by exists p, y.
Qed.

Lemma pok_core ps ps' own : core <$> ps' = core <$> ps → pok ps own → pok ps' own.
Proof.
  assert (∀ l l' : list proc, core <$> l' = core <$> l → ∀ p x, l !! p = Some x → ∃ y, l' !! p = Some y ∧ core y = core x) as Hlk.
  { intros l l' Hl p x Hx. apply (f_equal (.!! p)) in Hl. rewrite !list_lookup_fmap, Hx in Hl.
    apply fmap_Some in Hl as (y & ? & ?). by exists y. }
  intros Hc. apply pok_hold.
  - intros p x Hx. destruct (Hlk ps ps' Hc p x Hx) as (y & ? & ?). exists y. split; [done|]. by apply core_hold.
  - intros p y Hy. destruct (Hlk ps' ps (eq_sym Hc) p y Hy) as (x & ? & ?). exists x. split; [done|]. by apply core_hold.
Qed.

Lemma pok_alter ps own p f : (∀ x, ps !! p = Some x → same_hold x (f x)) → pok ps own → pok (alter f p ps) own.
Proof.
  intros Hf. apply pok_hold.
  - intros q x Hx. destruct (decide (q = p)) as [->|Hne].
    + exists (f x). rewrite list_lookup_alter_eq, Hx. auto.
    + exists x. by rewrite list_lookup_alter_ne.
  - intros q y Hy. destruct (decide (q = p)) as [->|Hne].
    + rewrite list_lookup_alter_eq in Hy. apply fmap_Some in Hy as (x & Hx & ->). exists x. auto.
    + rewrite list_lookup_alter_ne in Hy by done. by exists y.
Qed.

Lemma pok_own ps own own' : (∀ a, own' a = own a) → pok ps own → pok ps own'.
Proof.
  intros Ho [K U V P T]. split; [|done|done| |].
  - intros p x Hx. destruct (K p x Hx) as [K1 K2]. split; [rewrite Ho; auto|]. intros Hr.
    destruct (K2 Hr) as [? K3]. split; [done|]. intros a v. rewrite Ho. apply K3.
  - intros a p. rewrite Ho. apply P.
  - intros a r l pre. rewrite Ho. apply T.
Qed.

(** The slot [p] is released with everything it held. *)
Lemma pok_freed ps own own' p x :
  pok ps own → sane own → ps !! p = Some x → returned x own own' → pok (alter freed_proc p ps) own'.
Proof.
  intros [K U V P T] Hs Hx Hret.
  assert (∀ a r, own' a = r → r ≠ RFree → own a = r ∧ owned (p_pagetable x) r = false ∧ (a = p_trapframe x → a = 0)) as Hkept.
  { intros a r Ha Hr. rewrite Hret in Ha. case_decide as Ha'; [congruence|].
    destruct (owned _ _) eqn:Ho; [congruence|]. rewrite <- Ha. split_and!; [done|done|].
    intros ->. destruct (decide (p_trapframe x = 0)); [done|]. by destruct Ha'. }
  assert (∀ q y, alter freed_proc p ps !! q = Some y → (q = p ∧ y = freed_proc x) ∨ (q ≠ p ∧ ps !! q = Some y)) as Hlk.
  { intros q y. destruct (decide (q = p)) as [->|Hne]; [|rewrite list_lookup_alter_ne by done; auto].
    rewrite list_lookup_alter_eq, Hx. intros [= <-]. auto. }
  split.
  - intros q y [[-> ->]|[Hne Hy]]%Hlk; [split; by intros []|]. destruct (K q y Hy) as [K1 K2]. split.
    + intros Htf. specialize (K1 Htf). rewrite Hret. rewrite decide_False.
      * rewrite K1. done.
      * intros [Hn Heq]. destruct (K p x Hx) as [K1' _]. rewrite Heq in K1, Hn. specialize (K1' Hn). congruence.
    + intros Hr. destruct (K2 Hr) as [? K3]. split; [done|]. intros a v Ha. apply (K3 a). by apply Hkept in Ha as [? _].
  - intros q y [[-> ->]|[Hne Hy]]%Hlk Hu; [done|by eapply U].
  - intros q y [[-> ->]|[Hne Hy]]%Hlk Hu; [by destruct Hu|by eapply V].
  - intros a q Ha. destruct (Hkept _ _ Ha) as (Ha0 & _ & Htf); [done|]. destruct (P a q Ha0) as (y & Hy & Hya).
    exists y. split; [|done]. rewrite list_lookup_alter_ne; [done|]. intros ->.
    assert (a = 0) as -> by (apply Htf; congruence).
    assert (page_addr 0) as Hp by (apply Hs; by rewrite Ha0). apply page_addr_pos in Hp. lia.
  - intros a r l pre Ha. destruct (Hkept _ _ Ha) as (Ha0 & Hown & _); [done|]. destruct (T _ _ _ _ Ha0) as (q & y & Hy & Hr).
    exists q, y. split; [|done]. rewrite list_lookup_alter_ne; [done|]. intros ->.
    simpl in Hown. apply bool_decide_eq_false in Hown. congruence.
Qed.

(** Every process keeps its address space and what it sees in it. *)
Definition kept s s' : Prop := (∀ q r, live s q r → live s' q r) ∧ same_views s s'.

Lemma kept_refl s : kept s s.
Proof. split; [done|apply same_views_refl]. Qed.

Lemma kept_trans s1 s2 s3 : kept s1 s2 → kept s2 s3 → kept s1 s3.
Proof.
  intros [L1 V1] [L2 V2]. split; [auto|]. intros q r v Hq Hvv.
  rewrite (V2 q r v); [by apply (V1 q r)|by apply L1|done].
Qed.

Lemma viewed_kept s own s' own' : viewed s own s' own' → kept s s'.
Proof. intros [V P _ _ _]. split; [|done]. intros q r. by apply live_same. Qed.

Lemma paged_kept s own s' own' : paged s own s' own' → kept s s'.
Proof. intros Hpg%paged_viewed. by eapply viewed_kept. Qed.

Lemma procs_kept s own ps :
  vinv s own → same_roots (procs s) ps → vinv (with_procs ps s) own ∧ kept s (with_procs ps s).
Proof.
  intros Hv Hr. destruct (vinv_procs s own ps Hv Hr) as [Hv' Hvw]. split; [done|]. split; [|done].
  intros q r. by apply live_roots.
Qed.

(** The first round of [allocproc]: the slot is taken (proc.c:139-140). *)
Definition take_slot (pid : Z) (p : nat) s : kernel D :=
  with_procs (alter (set_p_state USED) p (alter (set_p_pid pid) p (procs s))) (with_nextpid (i32 (pid + 1)) s).

Lemma take_slot_ok s own pid p :
  vinv s own → vinv (take_slot pid p s) own ∧ kept s (take_slot pid p s).
Proof.
  intros Hv. set (s1 := with_nextpid (i32 (pid + 1)) s).
  assert (vinv s1 own) as Hv1 by by destruct Hv; split.
  destruct (procs_kept s1 own (alter (set_p_state USED) p (alter (set_p_pid pid) p (procs s))) Hv1) as [Hv2 Hk].
  { unfold same_roots. rewrite (same_roots_alter (alter (set_p_pid pid) p (procs s))) by done. by apply same_roots_alter. }
  split; [done|]. by apply (kept_trans s s1).
Qed.

(** A page of a tree grown in state [own], with the trapframe [tf]. *)
Lemma returned_back m fl own ownm y root tf p :
  tree_inv m fl own → own root = RFree → own tf = RFree → tf ≠ 0 → p_pagetable y = root → p_trapframe y = tf →
  confined root (give tf (RPin p) own) ownm → ∀ own', returned y ownm own' → ∀ a, own' a = own a.
Proof.
  intros Ht Hr Htf Hn <- <- Hcf own' Hret a. rewrite Hret. case_decide as Ha; [by destruct Ha as [_ ->]|].
  assert (a ≠ p_trapframe y) as Hne by (intros ->; by destruct Ha).
  assert (owned (p_pagetable y) (own a) = false) as Hun by (apply (unowned m fl); [done|by rewrite Hr]).
  specialize (Hcf a). rewrite give_ne in Hcf by done. destruct Hcf as [->|[Hm Hm']]; [by rewrite Hun|].
  assert (own a = RFree) as Hfree.
  { unfold mine, owned in *. destruct (own a); try done; by rewrite bool_decide_eq_true_2 in Hun. }
  rewrite Hfree. unfold mine, owned in *. destruct (ownm a); try done; by rewrite bool_decide_eq_true_2.
Qed.

Lemma sane_0 own : sane own → own 0 = RNone.
Proof.
  intros Ho. destruct (decide (own 0 = RNone)) as [|Hn]; [done|]. apply Ho, page_addr_pos in Hn. lia.
Qed.

(** A slot that was unused in [s] is given back in a later state [sm]. *)
Record untaking s own (p : nat) (y : proc) sm ownm : Prop := {
  ut_vinv : vinv sm ownm;
  ut_cur : cur sm = cur s;
  ut_kept : kept s sm;
  ut_slot : procs sm !! p = Some y;
  ut_procs : core <$> procs sm = core <$> alter (λ _, y) p (procs s);
  ut_holds : holds ownm p y;
  ut_sz : p_sz y = 0;
  ut_back : ∀ own', returned y ownm own' → ∀ a, own' a = own a;
  ut_pins : pinned s own sm ownm;
}.

(** proc.c:145-147, 154-156 and 374-376 *)
Lemma untake_ok s own sm ownm p x y :
  pinv s own → procs s !! p = Some x → p_state x = UNUSED → untaking s own p y sm ownm →
  ∃ s' own', freeproc p sm = Ok (tt, s') ∧ pinv s' own' ∧ kept s s' ∧
    pinned s own s' own' ∧ cur s' = cur s ∧ (∀ a, own' a = own a) ∧
    ∀ q z, procs s !! q = Some z → p_state z ≠ UNUSED → ∃ z', procs s' !! q = Some z' ∧ core z' = core z.
Proof.
  intros (Hv & Hcur & Hpok) Hx Hu [Hvm Hcm Hkm Hy Hpm Hh Hsz0 Hback Hbytes].
  assert (∀ c, is_Some (procs s !! c) → is_Some (procs sm !! c)) as Hsome.
  { intros c [z Hz]. apply (f_equal (.!! c)) in Hpm. rewrite !list_lookup_fmap in Hpm. destruct (decide (c = p)) as [->|].
    - by exists y.
    - rewrite list_lookup_alter_ne, Hz in Hpm by done. apply fmap_Some in Hpm as (z' & ? & _). by exists z'. }
  assert (cur_ok sm) as Hcurm by (intros c Hc; rewrite Hcm in Hc; auto).
  destruct (freeproc_ok sm ownm p y Hvm Hcurm Hy Hh) as (s' & own' & E & Hv' & Hret & Hex & Hps & Hc & _ & Hpin).
  assert (core <$> procs s' = core <$> alter (λ _, freed_proc y) p (procs s)) as Hps'.
  { rewrite Hps, cores_alter, Hpm, <- cores_alter by (intros []; done). by rewrite alter_alter. }
  pose proof (pk_unused _ _ Hpok p x Hx Hu) as (V1 & V2 & V3). pose proof (Hback own' Hret) as Hown.
  exists s', own'. split; [done|].
  assert (∀ q z, procs s !! q = Some z → p_state z ≠ UNUSED → ∃ z', procs s' !! q = Some z' ∧ core z' = core z) as Hused.
  { intros q z Hz Hzu. assert (q ≠ p) as Hne by (intros ->; congruence).
    apply (f_equal (.!! q)) in Hps'. rewrite !list_lookup_fmap, list_lookup_alter_ne, Hz in Hps' by done.
    apply fmap_Some in Hps' as (z' & ? & ?). by exists z'. }
  split_and!; [split_and!; [done| |]| | |congruence|done|done].
  - intros c Hcc. rewrite Hc in Hcc. destruct (Hcurm c Hcc) as [z Hz]. apply (f_equal (.!! c)) in Hps.
    rewrite !list_lookup_fmap in Hps. destruct (decide (c = p)) as [->|Hne].
    + rewrite list_lookup_alter_eq, Hz in Hps. apply fmap_Some in Hps as (z' & ? & _). by exists z'.
    + rewrite list_lookup_alter_ne, Hz in Hps by done. apply fmap_Some in Hps as (z' & ? & _). by exists z'.
  - eapply pok_core; [exact Hps'|]. apply pok_alter; [|by eapply pok_own].
    intros x' Hx'. assert (x' = x) as -> by congruence. split_and!; simpl; [congruence..|done].
  - split.
    + intros q r Hq. pose proof Hq as (z & Hz & Hzr & Hn). destruct (Hused q z Hz) as (z' & Hz' & Hc').
      * intros Hzu. destruct (pk_unused _ _ Hpok q z Hz Hzu). congruence.
      * exists z'. split_and!; [done| |done]. by rewrite (core_pagetable _ _ Hc').
    + intros q r v Hq Hvv. assert (q ≠ p) as Hne by (intros ->; destruct Hq as (z & Hz & Hzr & Hn); congruence).
      rewrite (Hex q r v); [by apply (proj2 Hkm q r)|by apply Hkm|done|done].
  - intros a q Ha. rewrite Hown. split; [done|]. destruct (Hbytes a q Ha) as [Ham <-].
    apply (Hpin a q); [|done]. intros ->. destruct (pk_pins _ _ Hpok a p Ha) as (z & Hz & Hza).
    assert (a = 0) as -> by congruence. rewrite (sane_0 own) in Ha; [done|]. by eapply tree_sane, Hv.
Qed.

(** The process that [allocproc] returns. *)
Definition new_proc (pid root tf : Z) (x : proc) : proc :=
  init_proc (set_p_pagetable root (set_p_trapframe tf (set_p_state USED (set_p_pid pid x)))).

Record allocated s own (p : nat) (root tf : Z) s' own' : Prop := {
  al_unused : ∃ x, procs s !! p = Some x ∧ p_state x = UNUSED;
  al_procs : procs s' = alter (new_proc (nextpid s) root tf) p (procs s);
  al_root : root ≠ 0 ∧ own root = RFree;
  al_tf : tf ≠ 0 ∧ own tf = RFree ∧ own' tf = RPin p;
  al_mine : confined root (give tf (RPin p) own) own';
  al_fresh : ∀ v, va_ok v → fresh s' own' p root v;
}.

(** A slot without an address space gets a tree of its own. *)
Lemma pok_new m fl ps own own' p x pid root tf :
  tree_inv m fl own → pok ps own → ps !! p = Some x → p_state x = UNUSED → root ≠ 0 → tf ≠ 0 → own' tf = RPin p →
  own tf = RFree → own root = RFree → (∀ a v, own' a ≠ RPage root v) →
  confined root (give tf (RPin p) own) own' →
  pok (alter (new_proc pid root tf) p ps) own'.
Proof.
  intros Ht [K U V P T] Hx Hu Hr Htf Hptf Hftf Hfr Hno Hcf. pose proof (tree_sane _ _ _ Ht) as Hs.
  pose proof (U p x Hx Hu) as (Vx1 & Vx2 & Vx3).
  assert (∀ q y, alter (new_proc pid root tf) p ps !! q = Some y →
    (q = p ∧ y = new_proc pid root tf x) ∨ (q ≠ p ∧ ps !! q = Some y)) as Hlk.
  { intros q y. destruct (decide (q = p)) as [->|Hne]; [|rewrite list_lookup_alter_ne by done; auto].
    rewrite list_lookup_alter_eq, Hx. intros [= <-]. auto. }
  assert (∀ a, own' a = own a ∨ a = tf ∨ mine root (own a) ∧ mine root (own' a)) as Hcf'.
  { intros a. destruct (decide (a = tf)) as [->|Hne]; [auto|]. specialize (Hcf a). rewrite give_ne in Hcf by done. tauto. }
  split.
  - intros q y [[-> ->]|[Hne Hy]]%Hlk.
    + split; [done|]. intros _. simpl. rewrite Vx3. split.
      * pose proof (high_range TRAPFRAME ltac:(by left)). lia.
      * intros a v Ha. by destruct (Hno a v).
    + destruct (K q y Hy) as [K1 K2]. split.
      * intros Hn. specialize (K1 Hn). destruct (Hcf' (p_trapframe y)) as [->|[E|[Hm _]]]; [done|congruence|].
        by rewrite K1 in Hm.
      * intros Hn. destruct (K2 Hn) as [? K3]. split; [done|]. intros a v Ha. apply (K3 a).
        destruct (Hcf' a) as [<-|[->|[_ Hm]]]; [done|congruence|]. rewrite Ha in Hm. simpl in Hm. 
        rewrite Hm in Ha. by destruct (Hno a v).
  - intros q y [[-> ->]|[Hne Hy]]%Hlk Hyu; [done|by eapply U].
  - intros q y [[-> ->]|[Hne Hy]]%Hlk Hyu; [done|by eapply V].
  - intros a q Ha. destruct (decide (a = tf)) as [->|Hat].
    + assert (q = p) as -> by congruence. eexists. by rewrite list_lookup_alter_eq, Hx.
    + destruct (Hcf' a) as [E|[?|[_ Hm]]]; [|done|by rewrite Ha in Hm]. rewrite E in Ha.
      destruct (P a q Ha) as (y & Hy & Hya). destruct (decide (q = p)) as [->|Hne].
      * assert (a = 0) as -> by congruence. assert (page_addr 0) as Hp by (apply Hs; by rewrite Ha).
        apply page_addr_pos in Hp. lia.
      * exists y. by rewrite list_lookup_alter_ne.
  - intros a r l pre Ha. destruct (decide (r = root)) as [->|Hrr].
    + exists p. eexists. by rewrite list_lookup_alter_eq, Hx.
    + destruct (Hcf' a) as [E|[->|[_ Hm]]]; [|congruence|by rewrite Ha in Hm]. rewrite E in Ha.
      destruct (T a r l pre Ha) as (q & y & Hy & Hyr). destruct (decide (q = p)) as [->|Hne].
      * pose proof (owned_0 m fl own a Ht) as Hz. rewrite Ha in Hz. by assert (r = 0) as -> by congruence.
      * exists q, y. by rewrite list_lookup_alter_ne.
Qed.

Lemma procs_with (ps : list proc) s : procs (with_procs ps s) = ps.
Proof. done. Qed.

Lemma alter_slot (l : list proc) p x f : l !! p = Some x → alter f p l = alter (λ _, f x) p l.
Proof.
  intros Hx. apply list_eq. intros j. destruct (decide (j = p)) as [->|Hne].
  - by rewrite !list_lookup_alter_eq, Hx.
  - by rewrite !list_lookup_alter_ne.
Qed.

Lemma cur_ok_alter s s' p f : cur_ok s → cur s' = cur s → procs s' = alter f p (procs s) → cur_ok s'.
Proof.
  intros Hcur Hc Hp c Hcc. rewrite Hc in Hcc. destruct (Hcur c Hcc) as [z Hz]. rewrite Hp.
  destruct (decide (c = p)) as [->|]; [rewrite list_lookup_alter_eq|rewrite list_lookup_alter_ne by done]; rewrite Hz; by eexists.
Qed.

Lemma vinv_ext s own own' : (∀ a, own' a = own a) → vinv s own → vinv s own'.
Proof.
  intros Ho Hv. replace s with (with_mem (mem s) (with_freelist (freelist s) s)) by by destruct s.
  apply (vinv_tree s own); [done|by eapply tree_inv_ext; [|apply Hv]| |].
  - intros q r Hq. rewrite Ho. by apply (vi_live _ _ Hv q).
  - intros a r v. by rewrite Ho.
Qed.

Lemma no_entry_dead s own p v : vinv s own → (∀ r, ¬ live s p r) → no_entry s p v.
Proof.
  intros Hv Hd i e Hi (Hu & Hp & _). destruct (vi_swap _ _ Hv i e Hi Hu) as (_ & _ & q & r & Hq & Hl & _).
  apply (Hd r). congruence.
Qed.

Lemma kept_other s p f : (∀ r, ¬ live s p r) → kept s (with_procs (alter f p (procs s)) s).
Proof.
  intros Hd. assert (∀ q r, live s q r → alter f p (procs s) !! q = procs s !! q) as Hlk.
  { intros q r Hq. apply list_lookup_alter_ne. intros ->. by apply (Hd r). }
  split.
  - intros q r Hq. pose proof Hq as (z & Hz & ?). exists z. simpl. by rewrite (Hlk q r).
  - intros q r v Hq Hvv. unfold user_page. simpl. by rewrite (Hlk q r).
Qed.

(** proc.c:119-184 *)
Lemma allocproc_ok s own :
  pinv s own →
  ∃ o s' own', allocproc s = Ok (o, s') ∧ pinv s' own' ∧ kept s s' ∧ pinned s own s' own' ∧ cur s' = cur s ∧
    match o with
    | None => (∀ a, own' a = own a) ∧ ∀ q z, procs s !! q = Some z → p_state z ≠ UNUSED →
        ∃ z', procs s' !! q = Some z' ∧ core z' = core z
    | Some p => ∃ root tf, allocated s own p root tf s' own'
    end.
Proof.
  intros Hinv. pose proof Hinv as (Hv & Hcur & Hpok). unfold allocproc.
  rewrite (bind_ok _ _ _ (procs s) s) by done.
  destruct (list_find _ (procs s)) as [[p x]|] eqn:Ef.
  2:{ exists None, s, own. split_and!; try done. by eauto. }
  apply list_find_Some in Ef as (Hx & Hu & _). pose proof (pk_unused _ _ Hpok p x Hx Hu) as (V1 & V2 & V3).
  set (pid := nextpid s). rewrite (bind_ok _ _ _ pid (with_nextpid (i32 (pid + 1)) s)) by done.
  do 2 rewrite (bind_ok _ _ _ _ _ (upd_proc_run _ _ _)).
  change (with_procs (alter (set_p_state USED) p _) _) with (take_slot pid p s).
  destruct (take_slot_ok s own pid p Hv) as [Hv1 Hk1]. set (s1 := take_slot pid p s) in *.
  set (x1 := set_p_state USED (set_p_pid pid x)).
  assert (procs s1 = alter (λ _, x1) p (procs s)) as Hp1.
  { unfold s1, take_slot. simpl. rewrite alter_alter.
    exact (alter_slot _ _ _ (λ x, set_p_state USED (set_p_pid pid x)) Hx). }
  destruct (kalloc_kern_ok s1 own Hv1) as [[E _]|(tf & m & fl & E & Htf & Hfree & Hv2 & Hpg2)];
    rewrite (bind_ok _ _ _ _ _ E); rewrite (bind_ok _ _ _ _ _ (upd_proc_run _ _ _)).
  - rewrite decide_True by done. set (y := set_p_trapframe 0 x1).
    destruct (procs_kept s1 own (alter (set_p_trapframe 0) p (procs s1)) Hv1) as [Hv2 Hk2]; [by apply same_roots_alter|].
    destruct (untake_ok s own (with_procs (alter (set_p_trapframe 0) p (procs s1)) s1) own p x y Hinv Hx Hu)
      as (s' & own' & E' & ?).
    { assert (alter (set_p_trapframe 0) p (procs s1) = alter (λ _, y) p (procs s)) as Hp2 by by rewrite Hp1, alter_alter.
      split; [done|done|by eapply kept_trans| |by rewrite procs_with, Hp2| |done| |by intros a q Ha].
      - rewrite procs_with, Hp2, list_lookup_alter_eq, Hx. done.
      - split; [done|]. intros Hn. by destruct Hn.
      - intros own' Hret a. rewrite Hret. simpl. rewrite V1, (owned_0 _ _ _ _ (vi_tree _ _ Hv)).
        rewrite decide_False; [done|]. by intros [? ->]. }
    exists None, s', own'. split; [by rewrite (bind_ok _ _ _ _ _ E')|]. naive_solver.
  - rewrite decide_False by done. set (s2 := with_mem m (with_freelist fl s1)) in *.
    set (own2 := give tf (RPin p) own). set (x2 := set_p_trapframe tf x1).
    assert (vinv s2 own2) as Hv2'.
    { apply (vinv_ext s2 (give tf (RPin p) (give tf RKern own))); [intros a; unfold own2, give; by case_decide|].
      apply repin_ok; try done; by rewrite give_eq. }
    destruct (procs_kept s2 own2 (alter (set_p_trapframe tf) p (procs s2)) Hv2') as [Hv3 Hk3]; [by apply same_roots_alter|].
    set (s3 := with_procs (alter (set_p_trapframe tf) p (procs s2)) s2) in *.
    assert (procs s3 = alter (λ _, x2) p (procs s)) as Hp3.
    { unfold s3. rewrite procs_with. change (procs s2) with (procs s1). by rewrite Hp1, alter_alter. }
    assert (kept s s3) as Hks3 by (eapply kept_trans; [|done]; eapply kept_trans; [done|by eapply paged_kept]).
    assert (pinned s own s3 own2) as Hpin3.
    { intros a q Ha. unfold own2. rewrite give_ne by (intros ->; congruence). split; [done|].
      exact (proj2 (pg_pin _ _ _ _ Hpg2 a q Ha)). }
    assert (pa_ok tf) as Hpa.
    { apply page_pa_ok, (tree_sane _ _ _ (vi_tree _ _ Hv)). by rewrite Hfree. }
    destruct (proc_pagetable_ok s3 own2 tf Hv3) as (r & s4 & own4 & E4 & Hcase & m4 & fl4 & Hs4); [by eapply cur_ok_alter|done|].
    assert (procs s4 = alter (λ _, x2) p (procs s)) as Hp4 by by rewrite Hs4.
    rewrite (bind_ok _ _ _ _ _ E4). rewrite (bind_ok _ _ _ _ _ (upd_proc_run _ _ _)).
    destruct Hcase as [(-> & Hv4 & Hpg4 & Ho4)|(Hr & Hfr & G)].
    + rewrite decide_True by done. set (y := set_p_pagetable 0 x2).
      destruct (procs_kept s4 own4 (alter (set_p_pagetable 0) p (procs s4)) Hv4) as [Hv5 Hk5].
      { apply list_eq. intros j. rewrite !list_lookup_fmap, Hp4. destruct (decide (j = p)) as [->|Hne].
        - rewrite !list_lookup_alter_eq, Hx. simpl. by rewrite V1.
        - by rewrite list_lookup_alter_ne. }
      destruct (untake_ok s own (with_procs (alter (set_p_pagetable 0) p (procs s4)) s4) own4 p x y Hinv Hx Hu)
        as (s' & own' & E' & ?).
      { assert (alter (set_p_pagetable 0) p (procs s4) = alter (λ _, y) p (procs s)) as Hp5 by by rewrite Hp4, alter_alter.
        split; [done|by rewrite Hs4| | |by rewrite procs_with, Hp5| |done| |].
        - eapply kept_trans; [done|]. eapply kept_trans; [by eapply viewed_kept|done].
        - rewrite procs_with, Hp5, list_lookup_alter_eq, Hx. done.
        - split; [|intros Hn; by destruct Hn]. intros _. rewrite Ho4. unfold own2. apply give_eq.
        - intros own' Hret a. rewrite Hret. simpl. rewrite (owned_0 _ _ _ _ (vi_tree _ _ Hv4)).
          case_decide as Ha; [by destruct Ha as [_ ->]|]. rewrite Ho4. unfold own2. apply give_ne. intros ->. by destruct Ha.
        - exact (pinned_trans _ _ _ _ _ _ Hpin3 (vw_pin _ _ _ _ Hpg4)). }
      exists None, s', own'. split; [by rewrite (bind_ok _ _ _ _ _ E')|]. naive_solver.
    + rewrite decide_False by done. rewrite (bind_ok _ _ _ _ _ (upd_proc_run _ _ _)).
      destruct G as [Hv4 Hpg4 Hrt Hcf Hno Hdead _].
      assert (∀ q, ¬ live s p q) as Hpdead by (intros q (z & Hz & Hzr & Hn); congruence).
      assert (procs s4 !! p = Some x2) as Hx4 by (rewrite Hp4, list_lookup_alter_eq, Hx; done).
      assert (∀ q r', live s4 q r' → r' ≠ r) as Hfresh by (intros q r' Hq ->; by apply (Hdead q)).
      pose proof (assign_root_ok s4 own4 p x2 r Hv4 Hrt Hr Hfresh Hx4 V1) as Hv5.
      set (s5 := with_procs (alter (set_p_pagetable r) p (procs s4)) s4) in *.
      destruct (procs_kept s5 own4 (alter init_proc p (procs s5)) Hv5) as [Hv6 Hk6]; [by apply same_roots_alter|].
      set (s6 := with_procs (alter init_proc p (procs s5)) s5) in *.
      assert (procs s6 = alter (new_proc pid r tf) p (procs s)) as Hp6.
      { unfold s6, s5. rewrite !procs_with, Hp4, !alter_alter. symmetry. exact (alter_slot _ _ _ (new_proc pid r tf) Hx). }
      exists (Some p), s6, own4. split; [reflexivity|].
      assert (∀ r', ¬ live s4 p r') as Hd4.
      { intros r' (z & Hz & Hzr & Hn). assert (p_pagetable x2 = 0) by exact V1. congruence. }
      assert (kept s4 s5) as Hk5 by by apply kept_other.
      assert (cur s6 = cur s) as Hc6 by (change (cur s4 = cur s); by rewrite Hs4).
      assert (own4 tf = RPin p) as Htf4 by (apply (vw_pin _ _ _ _ Hpg4); apply give_eq).
      assert (own r = RFree) as Hfr0 by (unfold own2, give in Hfr; by case_decide).
      split_and!; [| | |done|].
      * split_and!; [done|by eapply cur_ok_alter|]. rewrite Hp6. by eapply pok_new; [apply Hv|..].
      * eapply kept_trans; [exact Hks3|]. eapply kept_trans; [by eapply viewed_kept|]. by eapply kept_trans.
      * exact (pinned_trans _ _ _ _ _ _ Hpin3 (vw_pin _ _ _ _ Hpg4)).
      * exists r, tf. split; [by exists x|done|done|done|done|]. intros v Hvv. split; [by intros a; apply Hno|].
        intros i e Hi He. by eapply (no_entry_dead s4 own4 p v Hv4 Hd4).
Qed.
End table.
