(* ===== verification/UserCopy.v ===== *)
(** * Copying between the kernel and user memory

    [copyout], [copyin] and [copyinstr] (vm.c:522-639) against the bytes a
    process sees, resident or swapped out.  The first two take the pages in
    with [vmfault]; the last one does not. *)
From S2P Require Import Prelude Interfaces Mem KState Kmem PageTable Frames Vm Paging Fault Boot Spaces Teardown Sched Proc ProcMem ProcTable.
Local Open Scope Z_scope.

Section usercopy.
Context `{Sv39} `{!ProcEnv} `{!Chans} {D : Type} `{!SwapDev D} `{!SwapDevSpec D}.
Implicit Types s : kernel D.

(** The byte at the address [a] of process [p]. *)
Definition user_byte s (p : nat) (a : Z) : option Z := user_page s p (PGROUNDDOWN a) !! Z.to_nat (a mod PGSIZE).
Definition user_bytes s (p : nat) (a n : Z) : bytes := (λ i, default 0 (user_byte s p (a + i))) <$> seqZ 0 n.

(** The process that runs, with its page table and size. *)
Definition running s (p : nat) (root sz : Z) : Prop :=
  cur s = Some p ∧ ∃ x, procs s !! p = Some x ∧ p_pagetable x = root ∧ p_sz x = sz ∧ root ≠ 0.

Lemma running_same s s' p root sz :
  same_procs s s' → cur s' = cur s → running s p root sz → running s' p root sz.
Proof.
  intros Hps Hc [Hcur (x & Hx & <- & <- & Hr)]. split; [congruence|].
  destruct (same_procs_lookup _ _ _ _ Hps Hx) as (y & Hy & Hcy). exists y.
  split_and!; [done|exact (f_equal p_pagetable Hcy)|exact (f_equal p_sz Hcy)|done].
Qed.

Lemma running_live s p root sz : running s p root sz → live s p root.
Proof. intros [_ (x & Hx & <- & _ & Hr)]. by exists x. Qed.

Lemma running_size s own p root sz : pinv s own → running s p root sz → 0 ≤ sz ≤ TRAPFRAME.
Proof.
  intros (_ & _ & Hpok) [_ (x & Hx & <- & <- & Hr)]. by apply (pk_holds _ _ Hpok p x Hx).
Qed.

(** Steps that only take pages in keep the process table in order. *)
Lemma pinv_steady s own s' own' p x va :
  pinv s own → vinv s' own' → procs s !! p = Some x → p_pagetable x ≠ 0 → va < PGROUNDUP (p_sz x) →
  steady s own s' own' (p_pagetable x) va → pinv s' own'.
Proof.
  intros (Hv & Hcur & [K U V P T]) Hv' Hx Hr Hva [_ Hps Hc Hpin Hpg [Sp St]].
  split_and!; [done|by eapply cur_ok_same|]. apply (pok_core (procs s)); [done|]. split; [|done|done| |].
  - intros q z Hz. destruct (K q z Hz) as [K1 K2]. split; [intros Ht; by apply Hpin, K1|]. intros Hrz.
    destruct (K2 Hrz) as [Hsz K3]. split; [done|]. intros a v Ha. destruct (Hpg a _ v Ha) as [Ha'|[Hrr ->]]; [by eapply K3|].
    assert (q = p) as -> by (apply (vi_roots _ _ Hv q p (p_pagetable x)); [exists z; by rewrite <- Hrr|by exists x]).
    assert (z = x) as -> by congruence. done.
  - intros a q Ha. by apply P, Sp.
  - intros a r l pre Ha. pose proof (proj2 (vi_tree _ _ Hv')) as Hp.
    destruct (pt_root _ _ Hp _ _ _ _ Ha) as [Hl _].
    destruct (ancestor (mem s') own' r l pre a (2 - l) Hp Ha) as [c Hb]; [lia|].
    destruct (pt_root _ _ Hp _ _ _ _ Hb) as [_ Hroot]. destruct Hroot as [-> Hz]; [lia|].
    replace (l + (2 - l))%nat with 2%nat in Hb by lia. rewrite Hz in Hb. by eapply T, St.
Qed.

Lemma walkaddr_none s own root va :
  tree_inv (mem s) (freelist s) own → own root = RTab root 2 0 → va_ok va → (∀ a, own a ≠ RPage root va) →
  walkaddr root va s = Ok (0, s).
Proof.
  intros Ht Hr Hva Hno. pose proof (va_ok_max va Hva). unfold walkaddr. rewrite decide_False by lia.
  destruct (walk_ro_ok s own root va Ht Hr Hva) as (o & E & Ho). rewrite (bind_ok _ _ _ _ _ E).
  destruct o as [pte|]; [|done]. destruct (leaf_read s own root va pte Ht Ho Hva) as [El Hv].
  rewrite (bind_ok _ _ _ _ _ El). destruct (valid_pte _); [by apply Hno in Hv|done].
Qed.

Lemma va_ok_down va : va_ok va → PGROUNDDOWN va = va.
Proof.
  intros [_ [k ->]]. unfold PGROUNDDOWN. pose proof PGSIZE_4096. rewrite Z.div_mul by lia. done.
Qed.

(** Why a page is not handed out: its entry lacks a permission in [perm], or
    there is no memory or swap for it. *)
Definition refused s (own : owners) (root va perm : Z) : Prop :=
  (∃ pte, leaf_at own root va pte ∧ Z.land (rd64 (mem s) pte) perm ≠ perm) ∨
  swap_full s ∨ nused (frame_table s) = 0 ∨ scarce own.

(** The first step of a round: the page of [va], taken in if need be. *)
Lemma fetch_page_ok s own p root sz va :
  pinv s own → running s p root sz → va_ok va → va < sz →
  ∃ r0 r s' own', walkaddr root va s = Ok (r0, s) ∧
    (if decide (r0 = 0) then vmfault root va false else ret r0) s = Ok (r, s') ∧
    pinv s' own' ∧ same_views s s' ∧ same_procs s s' ∧ cur s' = cur s ∧ pinned s own s' own' ∧
    (swap_low s → swap_low s') ∧
    ((r ≠ 0 ∧ own' r = RPage root va ∧ rdbytes (mem s') r PGSIZE = user_page s p va) ∨
     (r = 0 ∧ refused s' own' root va PTE_U)).
Proof.
  intros Hinv Hrun Hva Hlt. pose proof (running_size _ _ _ _ _ Hinv Hrun) as Hsz.
  pose proof (running_live _ _ _ _ Hrun) as Hl. pose proof Hinv as (Hv & _ & _).
  pose proof (vi_tree _ _ Hv) as Ht. pose proof (vi_live _ _ Hv p root Hl) as Hroot.
  assert (∃ r0, walkaddr root va s = Ok (r0, s) ∧ (r0 = 0 ∨ r0 ≠ 0 ∧ own r0 = RPage root va)) as (r0 & E0 & Hr0).
  { destruct (ismapped_ok s own root va Ht Hroot Hva) as [[_ [a Ha]]|[_ Hno]].
    - destruct (walkaddr_ok s own root va a Ht Hroot Hva Ha) as (r & E & [->|[-> _]]); [|by exists 0; auto].
      exists a. split; [done|]. right. split; [|done].
      assert (page_addr a) as Hpa%page_addr_pos by (apply (tree_sane _ _ _ Ht); by rewrite Ha). lia.
    - exists 0. split; [by eapply walkaddr_none|auto]. }
  exists r0. destruct Hr0 as [->|[Hn Ha]].
  - rewrite decide_True by done. destruct Hrun as [Hcur (x & Hx & Hxr & Hxs & Hr)].
    destruct (vmfault_ok s own p x root va false Hv Hcur Hx Hxr Hr) as (r & s' & own' & E & Hv' & Hst & Hc);
      [unfold va_ok in Hva; lia|lia|]. rewrite (va_ok_down va Hva) in *.
    exists r, s', own'. split_and!; [done|done| |apply Hst..|by eapply swap_low_new; [|apply Hst..]|].
    + subst root. eapply (pinv_steady s own s' own' p x va); [done..| |done].
      pose proof (PGROUNDUP_user (p_sz x)). lia.
    + destruct Hc as [?|[-> Hc]]; [by left|right]. split; [done|]. destruct Hc as [(pte & ? & Hz)|?]; [left|by right].
      exists pte. split; [done|]. rewrite Hz. intros Hz'. destruct pte_bits as (_ & _ & _ & _ & HU). rewrite HU in Hz'. done.
  - rewrite decide_False by done. exists r0, s, own.
    split_and!; [done..|apply same_views_refl|done|done|apply pinned_refl|done|]. left. split_and!; [done..|]. symmetry.
    by apply (user_page_res s own p root va r0).
Qed.

Lemma lookup_rdbytes m a n i : 0 ≤ i < n → rdbytes m a n !! Z.to_nat i = Some (m (a + i)).
Proof.
  intros Hi. unfold rdbytes. rewrite list_lookup_fmap, lookup_seqZ_lt by lia. simpl. do 2 f_equal. lia.
Qed.

(** A user page is written. *)
Lemma write_user_ok s own p root va c m' :
  pinv s own → live s p root → va_ok va → own c = RPage root va → only_page c (mem s) m' →
  pinv (with_mem m' s) own ∧ pinned s own (with_mem m' s) own ∧
  user_page (with_mem m' s) p va = rdbytes m' c PGSIZE ∧
  ∀ q r v, live s q r → va_ok v → ¬ (q = p ∧ v = va) → user_page (with_mem m' s) q v = user_page s q v.
Proof.
  intros (Hv & Hcur & Hpok) Hl Hva Hc Ho. pose proof (vi_tree _ _ Hv) as Ht. pose proof (tree_sane _ _ _ Ht) as Hs.
  assert (page_addr c) as Hpc by (apply Hs; by rewrite Hc).
  assert (tree_inv m' (freelist s) own) as Ht' by (eapply (tree_write _ _ _ c); [done|by rewrite Hc|done]).
  assert (∀ a, a ≠ c → own a ≠ RNone → rdbytes m' a PGSIZE = rdbytes (mem s) a PGSIZE) as Hb.
  { intros a Ha Hn. apply (only_page_bytes c a); [done|done|by apply Hs|done]. }
  split_and!.
  - split_and!; [|done|done].
    replace (with_mem m' s) with (with_mem m' (with_freelist (freelist s) s)) by by destruct s.
    apply (vinv_tree s own); [done|done|apply Hv|done].
  - intros a q Ha. split; [done|]. apply Hb; [congruence|by rewrite Ha].
  - apply (user_page_res (with_mem m' s) own p root va c); [done|by apply (vi_live _ _ Hv p)|done..].
  - intros q r v Hq Hvv Hne. pose proof (vi_live _ _ Hv q r Hq) as Hr.
    destruct (ismapped_ok s own r v Ht Hr Hvv) as [[_ [a Ha]]|[_ Hno]].
    + rewrite (user_page_res (with_mem m' s) own q r v a) by done. rewrite (user_page_res s own q r v a) by done.
      apply Hb; [|by rewrite Ha]. intros ->. apply Hne. rewrite Hc in Ha. injection Ha as <- <-.
      split; [by apply (vi_roots _ _ Hv q p root)|done].
    + rewrite (user_page_swp (with_mem m' s) own q r v) by done. by rewrite (user_page_swp s own q r v) by done.
Qed.

(** What [copyout] of [src] to [dst] leaves: the process table and the
    trapframes, and every byte outside the range. *)
Record copied s (own : owners) s' (own' : owners) (p : nat) (dst len : Z) : Prop := {
  cp_inv : pinv s' own';
  cp_procs : same_procs s s';
  cp_cur : cur s' = cur s;
  cp_pin : pinned s own s' own';
  cp_rest : ∀ q r a, live s q r → 0 ≤ a < TRAPFRAME → ¬ (q = p ∧ dst ≤ a < dst + len) → user_byte s' q a = user_byte s q a;
  cp_low : swap_low s → swap_low s';
  cp_others : ∀ q r v, q ≠ p → live s q r → va_ok v → user_page s' q v = user_page s q v;
}.

Lemma copied_views s own s' own' p dst :
  pinv s' own' → same_views s s' → same_procs s s' → cur s' = cur s → pinned s own s' own' → (swap_low s → swap_low s') →
  copied s own s' own' p dst 0.
Proof.
  intros Hinv Hvw Hps Hc Hpin Hlow. split; try done; [|intros q r v _; by apply Hvw]. intros q r a Hq Ha _. unfold user_byte.
  by rewrite (Hvw q r (PGROUNDDOWN a) Hq (PGROUNDDOWN_ok a Ha)).
Qed.

Lemma copied_trans s1 o1 s2 o2 s3 o3 p dst n m :
  0 ≤ n → 0 ≤ m → copied s1 o1 s2 o2 p dst n → copied s2 o2 s3 o3 p (dst + n) m → copied s1 o1 s3 o3 p dst (n + m).
Proof.
  intros Hn Hm [I1 P1 C1 K1 R1 L1 O1] [I2 P2 C2 K2 R2 L2 O2].
  split; [done|unfold same_procs in *; congruence|congruence|by eapply pinned_trans| |auto|].
  2:{ intros q r v Hq Hl Hvv. rewrite (O2 q r v); [by apply (O1 q r v)|done|by apply (live_same s1 s2)|done]. }
  intros q r a Hq Ha Hne. rewrite (R2 q r a); [apply (R1 q r a); [done..|]|by apply (live_same s1 s2)|done|];
    intros [-> ?]; apply Hne; (split; [done|lia]).
Qed.

(** The part of the range that lies in its first page. *)
Lemma first_page a len :
  0 ≤ a → 0 < len → a < TRAPFRAME →
  let va := PGROUNDDOWN a in let o := a - va in let n := Z.min (PGSIZE - o) len in
  va_ok va ∧ 0 ≤ o < PGSIZE ∧ 0 < n ≤ len ∧ o + n ≤ PGSIZE ∧ u64 (va + PGSIZE) = va + PGSIZE ∧
  (n < len → va + PGSIZE = a + n) ∧
  ∀ i, 0 ≤ i < n → PGROUNDDOWN (a + i) = va ∧ (a + i) mod PGSIZE = o + i.
Proof.
  intros Ha Hlen Hle va o n. pose proof PGSIZE_4096 as Hpg.
  assert (0 ≤ a < TRAPFRAME) as Hat by lia. pose proof (PGROUNDDOWN_ok a Hat) as Hva. fold va in Hva.
  assert (0 < PGSIZE ∧ PGSIZE ≠ 0) as [Hp0 Hpn] by lia.
  pose proof (Z.div_mod a PGSIZE Hpn) as Hd. pose proof (Z.mod_pos_bound a PGSIZE Hp0) as Hm.
  assert (va = a / PGSIZE * PGSIZE) as Eva by done.
  assert (o = a mod PGSIZE) as Eo by (unfold o; lia).
  assert (a = va + o) as Eao by (unfold o; lia). clearbody va o.
  assert (n = Z.min (PGSIZE - o) len) as En by done. clearbody n. split_and!; [done|lia..| |lia|].
  - apply u64_id. pose proof (va_ok_max va Hva). pose proof MAXVA_range. destruct Hva as [? _]. lia.
  - intros i Hi. unfold PGROUNDDOWN. assert (a + i = a / PGSIZE * PGSIZE + (o + i)) as E by lia.
    rewrite E, Z.div_add_l by lia. rewrite (Z.div_small (o + i)) by lia. rewrite Z.add_0_r. split; [done|].
    rewrite Z.add_comm, Z_mod_plus_full. apply Z.mod_small. lia.
Qed.

Lemma below_page a b : (PGSIZE | b) → PGROUNDDOWN a < b → a < b.
Proof.
  intros [k ->]. unfold PGROUNDDOWN. pose proof PGSIZE_4096. rewrite PGSIZE_4096 in *.
  intros ?. Z.to_euclidean_division_equations. lia.
Qed.

(** One round of [copyout]. *)
Lemma copyout_round s own p root sz fuel dst src :
  pinv s own → running s p root sz → 0 ≤ dst → src ≠ [] → PGROUNDDOWN dst < sz →
  let va := PGROUNDDOWN dst in let n := Z.min (PGSIZE - (dst - va)) (Z.of_nat (length src)) in
  ∃ s' own',
    (copyout_loop (S fuel) root dst src s = Ok (-1, s') ∧ copied s own s' own' p dst 0 ∧
       (refused s' own' root va PTE_U ∨ refused s' own' root va PTE_W)) ∨
    (copyout_loop (S fuel) root dst src s = copyout_loop fuel root (va + PGSIZE) (drop (Z.to_nat n) src) s' ∧
       copied s own s' own' p dst n ∧ ∀ i, 0 ≤ i < n → user_byte s' p (dst + i) = src !! Z.to_nat i).
Proof.
  intros Hinv Hrun Hd Hne Hle va n. pose proof PGSIZE_4096 as Hpg. assert (0 < PGSIZE) as Hp0 by lia.
  pose proof (running_size _ _ _ _ _ Hinv Hrun) as Hsz.
  assert (0 < Z.of_nat (length src)) as Hlen by (destruct src; [done|simpl; lia]).
  destruct (first_page dst (Z.of_nat (length src))) as (Hva & Ho & Hn & Hon & Eu & _ & Hin); [done|lia|apply below_page; [apply high_range; by left|lia]|]. fold va in Hva, Ho, Hn, Hon, Eu, Hin.
  fold n in Hn, Hon, Hin. set (o := dst - va) in *. pose proof (va_ok_max va Hva) as Hmax.
  destruct (fetch_page_ok s own p root sz va Hinv Hrun Hva Hle)
    as (r0 & r & s1 & own1 & E0 & E1 & Hinv1 & Hvw & Hps & Hc & Hpin & Hlow & Hcase).
  pose proof (copied_views _ _ _ _ p dst Hinv1 Hvw Hps Hc Hpin Hlow) as Hcp1.
  pose proof (running_live _ _ _ _ (running_same _ _ _ _ _ Hps Hc Hrun)) as Hl1.
  pose proof Hinv1 as (Hv1 & _ & _). pose proof (vi_tree _ _ Hv1) as Ht1. pose proof (vi_live _ _ Hv1 p root Hl1) as Hr1.
  assert (copyout_loop (S fuel) root dst src s =
    (if decide (r = 0) then ret (-1) else
      let* q := walk root va false in
      match q with
      | None => ret (-1)
      | Some pte => let* v := load64 pte in
        if decide (Z.land v PTE_W = 0) then ret (-1) else
        store_bytes (r + o) (take (Z.to_nat n) src) ;;;
        copyout_loop fuel root (va + PGSIZE) (drop (Z.to_nat n) src)
      end) s1) as Eq.
  { destruct src as [|b src]; [done|]. cbn [copyout_loop]. fold va. rewrite decide_False by lia.
    rewrite (bind_ok _ _ _ _ _ E0), (bind_ok _ _ _ _ _ E1). unfold n, o. by rewrite Eu. }
  rewrite Eq. clear Eq.
  destruct Hcase as [(Hr & Hown & Hbytes)|(-> & Href)].
  2:{ rewrite decide_True by done. exists s1, own1. left. split_and!; [done..|by left]. }
  rewrite decide_False by done.
  destruct (walk_ro_ok s1 own1 root va Ht1 Hr1 Hva) as (q & E2 & Hq). rewrite (bind_ok _ _ _ _ _ E2).
  destruct q as [pte|]; [|by apply Hq in Hown].
  destruct (leaf_read s1 own1 root va pte Ht1 Hq Hva) as [E3 _]. rewrite (bind_ok _ _ _ _ _ E3).
  destruct (decide (Z.land (rd64 (mem s1) pte) PTE_W = 0)) as [Hw|Hw].
  { exists s1, own1. left. split_and!; [done..|]. right. left. exists pte. split; [done|]. rewrite Hw.
    destruct pte_bits as (_ & _ & HW & _). rewrite HW. done. }
  set (d := take (Z.to_nat n) src). assert (Z.of_nat (length d) = n) as Hld by (unfold d; rewrite length_take; lia).
  set (m' := wrbytes (mem s1) (r + o) d).
  assert (page_addr r) as Hpr by (apply (tree_sane _ _ _ Ht1); by rewrite Hown).
  assert (only_page r (mem s1) m') as Hom by (intros x Hx; apply wrbytes_out; lia).
  destruct (write_user_ok s1 own1 p root va r m' Hinv1 Hl1 Hva Hown Hom) as (Hinv2 & Hpin2 & Hpage & Hoth).
  exists (with_mem m' s1), own1. right. split_and!.
  - erewrite bind_ok; [done|]. unfold store_bytes. rewrite Hld. by rewrite (page_ram r) by (done || lia).
  - apply (copied_trans _ _ s1 own1 _ _ p dst 0 n); [lia|lia|done|]. rewrite Z.add_0_r.
    split; [done|done|done|done| |done|by intros q z v Hq' Hl' Hvv; apply (Hoth q z v Hl' Hvv); intros [? _]]. intros q z a Hq' Ha Hna. unfold user_byte.
    pose proof (PGROUNDDOWN_ok a Ha) as Hvd.
    destruct (decide (q = p ∧ PGROUNDDOWN a = va)) as [[-> Ev]|Hn']; [|by rewrite (Hoth q z _ Hq' Hvd Hn')].
    rewrite Ev, Hpage, (user_page_res s1 own1 p root va r) by done.
    pose proof (Z.mod_pos_bound a PGSIZE Hp0). rewrite !lookup_rdbytes by done. f_equal.
    apply wrbytes_out. rewrite Hld. intros Hx. apply Hna. split; [done|].
    assert (a = va + a mod PGSIZE) as Ea; [|unfold o in *; lia].
    rewrite <- Ev. unfold PGROUNDDOWN. rewrite Z.mul_comm. apply Z.div_mod. lia.
  - intros i Hi. destruct (Hin i Hi) as [E4 E5]. unfold user_byte. rewrite E4, E5, Hpage, lookup_rdbytes by lia.
    unfold m', wrbytes. rewrite decide_True by lia. replace (Z.to_nat (r + (o + i) - (r + o))) with (Z.to_nat i) by lia.
    unfold d. rewrite lookup_take_lt by lia.
    destruct (src !! Z.to_nat i) eqn:Es; [done|]. apply lookup_ge_None in Es. lia.
Qed.

Lemma copyout_nil fuel root dst s : copyout_loop fuel root dst [] s = Ok (0, s).
Proof. by destruct fuel. Qed.

Lemma copied_mono s own s' own' p dst n m : n ≤ m → copied s own s' own' p dst n → copied s own s' own' p dst m.
Proof.
  intros Hnm [I P C K R L O]. split; try done. intros q r a Hq Ha Hne. apply (R q r a); [done..|].
  intros [-> ?]. apply Hne. split; [done|lia].
Qed.

Lemma copied_refl s own p dst : pinv s own → copied s own s own p dst 0.
Proof. intros Hinv. apply copied_views; [done|apply same_views_refl|done|done|apply pinned_refl|done]. Qed.

Lemma copyout_loop_ok fuel s own p root sz dst src :
  (length src ≤ fuel)%nat → pinv s own → running s p root sz → 0 ≤ dst → dst + Z.of_nat (length src) ≤ sz →
  ∃ r s' own', copyout_loop fuel root dst src s = Ok (r, s') ∧ copied s own s' own' p dst (Z.of_nat (length src)) ∧
    ((r = 0 ∧ ∀ i, 0 ≤ i < Z.of_nat (length src) → user_byte s' p (dst + i) = src !! Z.to_nat i) ∨
     (r = -1 ∧ ∃ v, va_ok v ∧ dst - PGSIZE < v < dst + Z.of_nat (length src) ∧
        (refused s' own' root v PTE_U ∨ refused s' own' root v PTE_W))).
Proof.
  revert s own dst src. induction fuel as [|fuel IH]; intros s own dst src Hf Hinv Hrun Hd Hle.
  { destruct src; [|simpl in Hf; lia]. exists 0, s, own. split_and!; [done|by apply copied_refl|].
    left. split; [done|]. simpl. lia. }
  destruct (decide (src = [])) as [->|Hne].
  { exists 0, s, own. split_and!; [done|by apply copied_refl|]. left. split; [done|]. simpl. lia. }
  pose proof (running_size _ _ _ _ _ Hinv Hrun) as Hsz.
  assert (0 < Z.of_nat (length src)) as Hlen by (destruct src; [done|simpl; lia]).
  destruct (first_page dst (Z.of_nat (length src))) as (Hva & Ho & Hn & Hon & _ & Hnext & Hin); [done..|lia|].
  destruct (copyout_round s own p root sz fuel dst src Hinv Hrun Hd Hne ltac:(lia)) as
    (s1 & own1 & [(E & Hcp & Href)|(E & Hcp & Hw)]); rewrite E; set (va := PGROUNDDOWN dst) in *;
    set (len := Z.of_nat (length src)) in *; set (n := Z.min (PGSIZE - (dst - va)) len) in *.
  { exists (-1), s1, own1. split_and!; [done|eapply copied_mono; [|done]; lia|]. right. split; [done|].
    exists va. split_and!; [done|lia|lia|done]. }
  assert (Z.of_nat (length (drop (Z.to_nat n) src)) = len - n) as Hdl by (rewrite length_drop; lia).
  destruct (decide (n = len)) as [En|Hnl].
  { rewrite drop_ge, copyout_nil by lia. exists 0, s1, own1. rewrite <- En. split_and!; [done..|by left]. }
  destruct (IH s1 own1 (va + PGSIZE) (drop (Z.to_nat n) src)) as (r & s2 & own2 & E2 & Hcp2 & Hc2).
  - lia.
  - apply Hcp.
  - eapply running_same; [apply Hcp..|done].
  - destruct Hva as [? _]. lia.
  - lia.
  - rewrite Hdl, Hnext in * by lia. exists r, s2, own2. split_and!; [done| |].
    + replace len with (n + (len - n)) by lia. eapply copied_trans; [lia|lia|done|done].
    + destruct Hc2 as [[-> Hb]|[-> (v & ? & ? & ?)]]; [left|right; split; [done|]; exists v; split_and!; [done|lia|lia|done]].
      split; [done|]. intros i Hi. destruct (decide (i < n)) as [Hin'|Hge].
      * rewrite (cp_rest _ _ _ _ _ _ _ Hcp2 p root (dst + i)); [apply Hw; lia| | |].
        -- apply (running_live _ _ root sz). eapply running_same; [apply Hcp..|done].
        -- lia.
        -- intros [_ ?]. lia.
      * replace (dst + i) with (dst + n + (i - n)) by lia. rewrite Hb by lia. rewrite lookup_drop. f_equal. lia.
Qed.

(** [copyout] into memory of the running process. *)
Lemma copyout_ok s own p root sz dst src :
  pinv s own → running s p root sz → 0 ≤ dst → dst + Z.of_nat (length src) ≤ sz →
  ∃ r s' own', copyout root dst src s = Ok (r, s') ∧ copied s own s' own' p dst (Z.of_nat (length src)) ∧
    ((r = 0 ∧ ∀ i, 0 ≤ i < Z.of_nat (length src) → user_byte s' p (dst + i) = src !! Z.to_nat i) ∨
     (r = -1 ∧ ∃ v, va_ok v ∧ dst - PGSIZE < v < dst + Z.of_nat (length src) ∧
        (refused s' own' root v PTE_U ∨ refused s' own' root v PTE_W))).
Proof. intros. by eapply copyout_loop_ok. Qed.

Lemma user_bytes_app s p a n m :
  0 ≤ n → 0 ≤ m → user_bytes s p a (n + m) = user_bytes s p a n ++ user_bytes s p (a + n) m.
Proof.
  intros Hn Hm. unfold user_bytes. rewrite seqZ_app, fmap_app by done. f_equal.
  apply list_eq. intros i. rewrite !list_lookup_fmap.
  destruct (decide (Z.of_nat i < m)) as [Hi|Hi]; [|by rewrite !lookup_seqZ_ge by lia].
  rewrite !lookup_seqZ_lt by lia. simpl. do 3 f_equal. lia.
Qed.

Lemma user_bytes_same s s' p a n :
  (∀ i, 0 ≤ i < n → user_byte s' p (a + i) = user_byte s p (a + i)) → user_bytes s' p a n = user_bytes s p a n.
Proof.
  intros Hb. unfold user_bytes. apply list_fmap_ext. intros i x Hi. apply lookup_seqZ in Hi as [-> ?].
  by rewrite Hb by lia.
Qed.

(** The bytes of a range in one page. *)
Lemma page_bytes s p a n c m :
  0 ≤ a → 0 < n → a - PGROUNDDOWN a + n ≤ PGSIZE → a + n ≤ TRAPFRAME →
  rdbytes m c PGSIZE = user_page s p (PGROUNDDOWN a) →
  rdbytes m (c + (a - PGROUNDDOWN a)) n = user_bytes s p a n.
Proof.
  intros Ha Hn Hle Hat Hpg. destruct (first_page a n) as (Hva & Ho & _ & _ & _ & _ & Hin); [done|done|lia|].
  apply list_eq. intros i. unfold user_bytes, rdbytes at 1. rewrite !list_lookup_fmap.
  destruct (decide (Z.of_nat i < n)) as [Hi|Hi]; [|by rewrite !lookup_seqZ_ge by lia].
  rewrite !lookup_seqZ_lt by lia. simpl. f_equal.
  destruct (Hin (0 + Z.of_nat i)) as [E1 E2]; [lia|]. unfold user_byte. rewrite E1, E2, <- Hpg, lookup_rdbytes by lia.
  simpl. f_equal. lia.
Qed.

(** [copyin] of memory of the running process. *)
Lemma copyin_loop_ok fuel s own p root sz src len dst :
  len ≤ Z.of_nat fuel → pinv s own → running s p root sz → 0 ≤ src → 0 ≤ len → src + len ≤ sz →
  ∃ r d s' own', copyin_loop fuel root src len dst s = Ok ((r, dst ++ d), s') ∧ copied s own s' own' p src 0 ∧
    ((r = 0 ∧ d = user_bytes s p src len) ∨
     (r = -1 ∧ ∃ v, va_ok v ∧ src - PGSIZE < v < src + len ∧ refused s' own' root v PTE_U)).
Proof.
  revert s own src len dst. induction fuel as [|fuel IH]; intros s own src len dst Hf Hinv Hrun Hs Hlen Hle.
  { assert (len = 0) as -> by lia. exists 0, [], s, own. rewrite app_nil_r. split_and!; [done|by apply copied_refl|by left]. }
  cbn [copyin_loop]. destruct (decide (len ≤ 0)) as [Hz|Hpos].
  { assert (len = 0) as -> by lia. exists 0, [], s, own. rewrite app_nil_r. split_and!; [done|by apply copied_refl|by left]. }
  pose proof (running_size _ _ _ _ _ Hinv Hrun) as Hsz. pose proof (running_live _ _ _ _ Hrun) as Hl.
  destruct (first_page src len) as (Hva & Ho & Hn & Hon & Eu & Hnext & _); [lia..|]. rewrite Eu. clear Eu.
  destruct (fetch_page_ok s own p root sz (PGROUNDDOWN src) Hinv Hrun Hva ltac:(lia))
    as (r0 & r & s1 & own1 & E0 & E1 & Hinv1 & Hvw & Hps & Hc & Hpin & Hlow & Hcase).
  rewrite (bind_ok _ _ _ _ _ E0), (bind_ok _ _ _ _ _ E1).
  pose proof (copied_views _ _ _ _ p src Hinv1 Hvw Hps Hc Hpin Hlow) as Hcp1.
  set (n := Z.min (PGSIZE - (src - PGROUNDDOWN src)) len) in *.
  destruct Hcase as [(Hr & Hown & Hbytes)|(-> & Href)].
  2:{ rewrite decide_True by done. exists (-1), [], s1, own1. rewrite app_nil_r. split_and!; [done..|]. right.
      split; [done|]. exists (PGROUNDDOWN src). split_and!; [done|lia|lia|done]. }
  rewrite decide_False by done. pose proof Hinv1 as (Hv1 & _ & _).
  assert (page_addr r) as Hpr by (apply (tree_sane _ _ _ (vi_tree _ _ Hv1)); by rewrite Hown).
  rewrite (bind_ok _ _ _ (user_bytes s p src n) s1).
  2:{ unfold load_bytes. rewrite (page_ram r) by (done || lia). by rewrite (page_bytes s p src n r) by (done || lia). }
  destruct (decide (n = len)) as [En|Hnl].
  { rewrite En, Z.sub_diag. exists 0, (user_bytes s p src len), s1, own1. split_and!; [by destruct fuel|done|by left]. }
  destruct (IH s1 own1 (PGROUNDDOWN src + PGSIZE) (len - n) (dst ++ user_bytes s p src n))
    as (r' & d & s2 & own2 & E2 & Hcp2 & Hc2); [lia|done|by eapply running_same|destruct Hva as [? _]; lia|lia|lia|].
  rewrite Hnext in * by lia. exists r', (user_bytes s p src n ++ d), s2, own2. rewrite app_assoc. split_and!; [done| |].
  - eapply (copied_trans _ _ s1 own1 _ _ p src 0 0); [done..|]. rewrite Z.add_0_r.
    destruct Hcp2 as [I P C K R]. split; try done. intros q z a Hq Ha _. apply (R q z a); [done..|]. lia.
  - destruct Hc2 as [[-> ->]|[-> (v & ? & ? & ?)]]; [left|right; split; [done|]; exists v; split_and!; [done|lia|lia|done]].
    split; [done|]. replace len with (n + (len - n)) at 2 by lia. rewrite user_bytes_app by lia. f_equal.
    apply user_bytes_same. intros i Hi. apply (cp_rest _ _ _ _ _ _ _ Hcp1 p root); [done|lia|lia].
Qed.

Lemma copyin_ok s own p root sz src len :
  pinv s own → running s p root sz → 0 ≤ src → 0 ≤ len → src + len ≤ sz →
  ∃ r d s' own', copyin root src len s = Ok ((r, d), s') ∧ copied s own s' own' p src 0 ∧
    ((r = 0 ∧ d = user_bytes s p src len) ∨
     (r = -1 ∧ ∃ v, va_ok v ∧ src - PGSIZE < v < src + len ∧ refused s' own' root v PTE_U)).
Proof. intros. by eapply (copyin_loop_ok (Z.to_nat len) s own p root sz src len []); try done; lia. Qed.

Lemma until_null_ok d :
  let '(l, g) := until_null d in (0 ∉ l) ∧ if g then ∃ rest, d = l ++ 0 :: rest else d = l.
Proof.
  induction d as [|b d IH]; simpl; [split; [apply not_elem_of_nil|done]|].
  destruct (decide (b = 0)) as [->|Hb]; [split; [apply not_elem_of_nil|by exists d]|].
  destruct (until_null d) as [l g]. destruct IH as [Hl Hg]. split; [rewrite elem_of_cons; naive_solver|].
  destruct g; [destruct Hg as [rest ->]; by exists rest|by subst].
Qed.

(** A page that [walkaddr] does not hand out. *)
Definition absent s (own : owners) (root va : Z) : Prop :=
  (∀ a, own a ≠ RPage root va) ∨ ∃ pte, leaf_at own root va pte ∧ Z.land (rd64 (mem s) pte) PTE_U = 0.

Lemma walkaddr_cases s own root va :
  tree_inv (mem s) (freelist s) own → own root = RTab root 2 0 → va_ok va →
  ∃ r, walkaddr root va s = Ok (r, s) ∧ ((r ≠ 0 ∧ own r = RPage root va) ∨ (r = 0 ∧ absent s own root va)).
Proof.
  intros Ht Hr Hva. destruct (ismapped_ok s own root va Ht Hr Hva) as [[_ [a Ha]]|[_ Hno]].
  - destruct (walkaddr_ok s own root va a Ht Hr Hva Ha) as (r & E & [->|[-> Hp]]).
    + exists a. split; [done|]. left. split; [|done].
      assert (page_addr a) as Hpa%page_addr_pos by (apply (tree_sane _ _ _ Ht); by rewrite Ha). lia.
    + exists 0. split; [done|]. right. split; [done|by right].
  - exists 0. split; [by eapply walkaddr_none|]. right. split; [done|by left].
Qed.

(** What [copyinstr] stores: a string that ends within [max] bytes; otherwise
    the bytes before the page that stopped it, or all [max] of them. *)
Definition fetched s (own : owners) (p : nat) (root src max r : Z) (d : bytes) : Prop :=
  Z.of_nat (length d) ≤ max ∧ d = user_bytes s p src (Z.of_nat (length d)) ∧
  ((r = 0 ∧ ∃ l, d = l ++ [0] ∧ 0 ∉ l) ∨
   (r = -1 ∧ (0 ∉ d) ∧ (Z.of_nat (length d) = max ∨
      Z.of_nat (length d) < max ∧ absent s own root (PGROUNDDOWN (src + Z.of_nat (length d)))))).

Lemma length_user_bytes s p a n : length (user_bytes s p a n) = Z.to_nat n.
Proof. unfold user_bytes. by rewrite length_fmap, length_seqZ. Qed.

Lemma user_bytes_prefix s p a n l r : l ++ r = user_bytes s p a n → 0 ≤ n → l = user_bytes s p a (Z.of_nat (length l)).
Proof.
  intros E Hn. pose proof (f_equal length E) as El. rewrite length_app, length_user_bytes in El.
  replace n with (Z.of_nat (length l) + Z.of_nat (length r)) in E by lia.
  rewrite user_bytes_app in E by lia. apply app_inj_1 in E as [E _]; [done|]. rewrite length_user_bytes. lia.
Qed.

Lemma copyinstr_loop_ok fuel s own p root src max dst :
  max ≤ Z.of_nat fuel → vinv s own → live s p root → 0 ≤ src → 0 ≤ max → src + max ≤ TRAPFRAME →
  ∃ r d, copyinstr_loop fuel root src max dst s = Ok ((r, dst ++ d), s) ∧ fetched s own p root src max r d.
Proof.
  intros Hf Hv Hl Hs. revert src max dst Hf Hs. induction fuel as [|fuel IH]; intros src max dst Hf Hs Hm Hle.
  { assert (max = 0) as -> by lia. exists (-1), []. rewrite app_nil_r. split; [done|]. split_and!; [done..|].
    right. split_and!; [done|apply not_elem_of_nil|by left]. }
  cbn [copyinstr_loop]. destruct (decide (max ≤ 0)) as [Hz|Hpos].
  { assert (max = 0) as -> by lia. exists (-1), []. rewrite app_nil_r. split; [done|]. split_and!; [done..|].
    right. split_and!; [done|apply not_elem_of_nil|by left]. }
  pose proof (vi_tree _ _ Hv) as Ht. pose proof (vi_live _ _ Hv p root Hl) as Hr.
  destruct (first_page src max) as (Hva & Ho & Hn & Hon & Eu & Hnext & _); [lia..|]. rewrite Eu. clear Eu.
  destruct (walkaddr_cases s own root (PGROUNDDOWN src) Ht Hr Hva) as (r & E & [[Hr0 Ha]|[-> Hab]]);
    rewrite (bind_ok _ _ _ _ _ E).
  2:{ rewrite decide_True by done. exists (-1), []. rewrite app_nil_r. split; [done|]. split_and!; [done..|].
      right. split_and!; [done|apply not_elem_of_nil|]. right. split; [simpl; lia|]. simpl. by rewrite Z.add_0_r. }
  rewrite decide_False by done. set (n := Z.min (PGSIZE - (src - PGROUNDDOWN src)) max) in *.
  assert (page_addr r) as Hpr by (apply (tree_sane _ _ _ Ht); by rewrite Ha).
  rewrite (bind_ok _ _ _ (user_bytes s p src n) s).
  2:{ unfold load_bytes. rewrite (page_ram r) by (done || lia). rewrite (page_bytes s p src n r); try done; try lia.
      symmetry. by apply (user_page_res s own p root _ r). }
  pose proof (until_null_ok (user_bytes s p src n)) as Hun.
  destruct (until_null (user_bytes s p src n)) as [l g]. destruct Hun as [Hnl Hg]. destruct g.
  - destruct Hg as [rest Hd]. exists 0, (l ++ [0]). split; [done|].
    assert (l ++ [0] = user_bytes s p src (Z.of_nat (length (l ++ [0])))) as Hpre.
    { apply (user_bytes_prefix s p src n (l ++ [0]) rest); [|lia]. by rewrite <- app_assoc. }
    split_and!; [|done|left; by eauto]. apply (f_equal length) in Hd. rewrite length_user_bytes, length_app in Hd.
    simpl in Hd. rewrite length_app. simpl. lia.
  - subst l. assert (length (user_bytes s p src n) = Z.to_nat n) as Hln by apply length_user_bytes.
    destruct (decide (n = max)) as [En|Hnm].
    { rewrite En, Z.sub_diag. exists (-1), (user_bytes s p src max). split; [by destruct fuel|].
      unfold fetched. rewrite length_user_bytes, Z2Nat.id by lia. split_and!; [lia|done|]. right.
      rewrite <- En. split_and!; [done|by rewrite <- En in *|by left]. }
    destruct (IH (PGROUNDDOWN src + PGSIZE) (max - n) (dst ++ user_bytes s p src n)) as (r' & d & E2 & Hlen & Hd & Hc);
      [lia|destruct Hva as [? _]; lia|lia|lia|].
    rewrite Hnext in * by lia. exists r', (user_bytes s p src n ++ d). rewrite app_assoc. split; [done|].
    unfold fetched. rewrite length_app, Hln, Nat2Z.inj_add, Z2Nat.id by lia. split_and!; [lia| |].
    + rewrite user_bytes_app by lia. by rewrite <- Hd.
    + destruct Hc as [[-> (l & -> & Hl')]|(-> & Hd0 & Hc)]; [left|right].
      * split; [done|]. exists (user_bytes s p src n ++ l). rewrite app_assoc. split; [done|]. rewrite elem_of_app. tauto.
      * split_and!; [done|rewrite elem_of_app; tauto|]. rewrite Z.add_assoc. destruct Hc as [?|[? ?]]; [left; lia|right; split; [lia|done]].
Qed.

Lemma copyinstr_ok s own p root src max :
  vinv s own → live s p root → 0 ≤ src → 0 ≤ max → src + max ≤ TRAPFRAME →
  ∃ r d, copyinstr root src max s = Ok ((r, d), s) ∧ fetched s own p root src max r d.
Proof. intros. eapply (copyinstr_loop_ok (Z.to_nat max) s own p root src max []); try done; lia. Qed.
(** ** Addresses at and above the size

    No user page is mapped there, and the two pages above user memory are
    refused because their entries lack [PTE_U]. *)
Lemma walkaddr_out s own p root sz va :
  pinv s own → running s p root sz → 0 ≤ va → (PGSIZE | va) → sz ≤ va → walkaddr root va s = Ok (0, s).
Proof.
  intros Hinv Hrun Hva Hal Hsz. pose proof Hinv as (Hv & _ & Hpok). pose proof (vi_tree _ _ Hv) as Ht.
  pose proof (vi_live _ _ Hv p root (running_live _ _ _ _ Hrun)) as Hr.
  destruct (decide (MAXVA ≤ va)) as [Hmax|Hmax]; [unfold walkaddr; by rewrite decide_True|].
  destruct (decide (va < TRAPFRAME)) as [Hlt|Hge].
  - apply (walkaddr_none s own); [done..|]. intros a Ha.
    destruct Hrun as [_ (x & Hx & Hxr & Hxs & Hr0)]. destruct (pk_holds _ _ Hpok p x Hx) as [_ Hh]. subst root sz.
    destruct (Hh Hr0) as [Hb Hp]. pose proof (Hp a va Ha). pose proof PGSIZE_4096.
    destruct (PGROUNDUP_ok (p_sz x)) as (_ & _ & Hle); [pose proof MAXVA_range; pose proof TRAMPOLINE_top; pose proof TRAPFRAME_below; lia|].
    specialize (Hle va Hal ltac:(lia)). lia.
  - unfold walkaddr. rewrite decide_False by done.
    destruct (walk_ok s own root va false Ht Hr) as (o & m' & fl' & own' & E & _ & _ & Ho & Hro); [lia|].
    destruct (Hro eq_refl) as (-> & -> & ->).
    assert (with_mem (mem s) (with_freelist (freelist s) s) = s) as Hs by by destruct s. rewrite Hs in E.
    rewrite (bind_ok _ _ _ _ _ E). destruct o as [pte|]; [|done].
    erewrite bind_ok by (apply load64_ok; by eapply leaf_ram). destruct (valid_pte (rd64 (mem s) pte)) eqn:Hval; [|done].
    rewrite decide_True; [done|]. destruct Ho as (b & pre & Hb & -> & Hdiv).
    destruct (pt_high _ _ (proj2 Ht) b root pre (PX 0 va) _ Hb (PX_range _ _) (conj Hval eq_refl)) as [_ Hu].
    apply Hu. rewrite <- Hdiv. destruct Hal as [k ->]. pose proof PGSIZE_4096. rewrite Z.div_mul by lia. lia.
Qed.

Lemma vmfault_out s p root sz va rd : running s p root sz → sz ≤ va → vmfault root va rd s = Ok (0, s).
Proof.
  intros [Hc (x & Hx & _ & <- & _)] Hva. unfold vmfault. rewrite (bind_ok _ _ _ (Some p) s) by (unfold gets; by rewrite Hc).
  rewrite (bind_ok _ _ _ _ _ (get_proc_ok s p x Hx)). by rewrite decide_True.
Qed.

(** [copyout] to any address returns, and changes at most the memory of the
    process. *)
Lemma copyout_loop_any fuel s own p root sz dst src :
  (length src ≤ fuel)%nat → pinv s own → running s p root sz → 0 ≤ dst →
  ∃ r s' own', copyout_loop fuel root dst src s = Ok (r, s') ∧ pinv s' own' ∧ same_procs s s' ∧ cur s' = cur s ∧
    pinned s own s' own' ∧ (swap_low s → swap_low s') ∧
    ∀ q r v, q ≠ p → live s q r → va_ok v → user_page s' q v = user_page s q v.
Proof.
  revert s own dst src. induction fuel as [|fuel IH]; intros s own dst src Hf Hinv Hrun Hd.
  { destruct src; [|simpl in Hf; lia]. exists 0, s, own. by split_and!. }
  destruct (decide (src = [])) as [->|Hne].
  { exists 0, s, own. by split_and!. }
  pose proof PGSIZE_4096 as Hpg. destruct (decide (PGROUNDDOWN dst < sz)) as [Hlt|Hge].
  - pose proof (running_size _ _ _ _ _ Hinv Hrun) as Hsz.
    assert (0 < Z.of_nat (length src)) as Hlen by (destruct src; [done|simpl; lia]).
    destruct (first_page dst (Z.of_nat (length src))) as (Hva & Ho & Hn & _);
      [done|lia|apply below_page; [apply high_range; by left|lia]|].
    assert (∀ s1 own1 l n, copied s own s1 own1 p l n → ∀ q r v, q ≠ p → live s q r → va_ok v → user_page s1 q v = user_page s q v) as Hpages.
    { intros s1 own1 l n Hcp. apply Hcp. }
    destruct (copyout_round s own p root sz fuel dst src Hinv Hrun Hd Hne Hlt) as (s1 & own1 & [(E & Hcp & _)|(E & Hcp & _)]).
    + exists (-1), s1, own1. split_and!; [done|apply Hcp..|]. by eapply Hpages.
    + set (va := PGROUNDDOWN dst) in *. set (n := Z.min _ _) in *.
      destruct (IH s1 own1 (va + PGSIZE) (drop (Z.to_nat n) src)) as (r & s2 & own2 & E2 & Hi2 & Hp2 & Hc2 & Hpin2 & Hl2 & Hv2).
      * rewrite length_drop. lia.
      * apply Hcp.
      * eapply running_same; [apply Hcp..|done].
      * destruct Hva. lia.
      * exists r, s2, own2. split_and!; [by rewrite E|done| | |by eapply pinned_trans; [apply Hcp|]| |].
        -- unfold same_procs in *. rewrite Hp2. apply Hcp.
        -- rewrite Hc2. apply Hcp.
        -- intros Hl. by apply Hl2, Hcp.
        -- intros q r' v Hq Hlq Hvv. rewrite (Hv2 q r' v Hq); [by eapply Hpages| |done].
           apply (live_same s s1); [apply Hcp|done].
  - exists (-1), s, own. split_and!; try done.
    destruct src as [|b src]; [done|]. cbn [copyout_loop]. destruct (decide (MAXVA ≤ PGROUNDDOWN dst)); [done|].
    assert (0 ≤ PGROUNDDOWN dst ∧ (PGSIZE | PGROUNDDOWN dst)) as [Hlo Hal].
    { unfold PGROUNDDOWN. split; [|by eexists]. rewrite PGSIZE_4096. apply Z.mul_nonneg_nonneg; [apply Z.div_pos; lia|lia]. }
    assert (sz ≤ PGROUNDDOWN dst) as Hsz by lia.
    rewrite (bind_ok _ _ _ _ _ (walkaddr_out s own p root sz (PGROUNDDOWN dst) Hinv Hrun Hlo Hal Hsz)). rewrite decide_True by done.
    rewrite (bind_ok _ _ _ _ _ (vmfault_out s p root sz (PGROUNDDOWN dst) false Hrun Hsz)). done.
Qed.

End usercopy.
