(* ===== verification/Kfork.v ===== *)
(** * Fork (proc.c:357-407)

    [kfork] makes a child that sees its parent's memory and resumes with a 0
    in [a0]; on failure every page is where it was. *)
From S2P Require Import Prelude Interfaces Mem KState Kmem PageTable Frames Paging Vm Fault Boot.
From S2P Require Import Spaces Fork Teardown Sched Proc Keeps ProcMem ProcTable.
Local Open Scope Z_scope.

Section kfork.
Context `{Sv39} `{!ProcEnv} `{!Chans} {D : Type} `{!SwapDev D} `{!SwapDevSpec D}.
Implicit Types s : kernel D.

(** A store to a trapframe. *)
Lemma write_pin_ok s own c p m' :
  vinv s own → own c = RPin p → only_page c (mem s) m' →
  vinv (with_mem m' s) own ∧ kept s (with_mem m' s) ∧
  ∀ a q, a ≠ c → own a = RPin q → rdbytes m' a PGSIZE = rdbytes (mem s) a PGSIZE.
Proof.
  intros Hv Hc Ho. pose proof (tree_sane _ _ _ (vi_tree _ _ Hv)) as Hs.
  assert (page_addr c) as Hpc by (apply Hs; by rewrite Hc).
  assert (tree_inv m' (freelist s) own) as Ht.
  { eapply (tree_write _ _ _ c); [apply Hv|by rewrite Hc|done]. }
  assert (∀ a, a ≠ c → own a ≠ RNone → rdbytes m' a PGSIZE = rdbytes (mem s) a PGSIZE) as Hb.
  { intros a Ha Hn. apply (only_page_bytes c a); [done|done|by apply Hs|done]. }
  replace (with_mem m' s) with (with_mem m' (with_freelist (freelist s) s)) by by destruct s.
  split_and!.
  - apply (vinv_tree s own); [done|done|apply Hv|done].
  - split; [done|]. eapply (same_views_keep s _ own own); [done|exact Ht| |done| |done].
    + intros q r Hq. split; [done|]. by apply (vi_live _ _ Hv q).
    + intros a r v Ha. apply Hb; [intros ->; congruence|by rewrite Ha].
  - intros a q Ha Hq. apply Hb; [done|by rewrite Hq].
Qed.

(** The trapframe of the child: the parent's with a 0 in [a0]. *)
Definition child_frame (m m' : memory) (ptf ctf : Z) : Prop :=
  rd64 m' (ctf + TF_A0) = 0 ∧
  ∀ o, 0 ≤ o < TRAPFRAME_SIZE → ¬ (TF_A0 ≤ o < TF_A0 + 8) → m' (ctf + o) = m (ptf + o).

(** proc.c:381-384 *)
Lemma copy_frame_ok s own p q ptf ctf :
  vinv s own → own ptf = RPin q → own ctf = RPin p → ptf ≠ ctf →
  ∃ m', (let* tf := load_bytes ptf TRAPFRAME_SIZE in store_bytes ctf tf ;;; store64 (ctf + TF_A0) 0) s =
      Ok (tt, with_mem m' s) ∧ only_page ctf (mem s) m' ∧ child_frame (mem s) m' ptf ctf.
Proof.
  intros Hv Hq Hp Hne. pose proof (tree_sane _ _ _ (vi_tree _ _ Hv)) as Hs. pose proof PGSIZE_4096 as Hpg.
  assert (page_addr ptf) as Hpp by (apply Hs; by rewrite Hq).
  assert (page_addr ctf) as Hpc by (apply Hs; by rewrite Hp).
  set (d := rdbytes (mem s) ptf TRAPFRAME_SIZE).
  assert (length d = 288%nat) as Hd by (unfold d; by rewrite length_rdbytes).
  exists (wr64 (wrbytes (mem s) ctf d) (ctf + TF_A0) 0). unfold TF_A0, TRAPFRAME_SIZE in *. split_and!.
  - rewrite (bind_ok _ _ _ d s) by (unfold load_bytes; by rewrite (page_ram ptf) by (done || lia)).
    rewrite (bind_ok _ _ _ tt (with_mem (wrbytes (mem s) ctf d) s)).
    2:{ unfold store_bytes. rewrite Hd. by rewrite (page_ram ctf) by (done || lia). }
    rewrite store64_ok; [done|]. apply (page_ram ctf); [done|lia|lia].
  - eapply only_page_trans; [apply only_page_wrbytes; rewrite Hd; lia|apply only_page_wr64; lia].
  - split; [by rewrite rd64_wr64 by lia|]. unfold TRAPFRAME_SIZE, TF_A0. intros o Ho Hna.
    unfold wr64. rewrite decide_False by lia. unfold wrbytes. rewrite decide_True by lia.
    replace (Z.to_nat (ctf + o - ctf)) with (Z.to_nat o) by lia. unfold d, rdbytes.
    rewrite list_lookup_fmap, lookup_seqZ_lt by lia. simpl. f_equal. lia.
Qed.

(** Updates of one process in a row. *)
Lemma upd_upd {A} p f g (k : M (kernel D) A) s :
  (upd_proc p f ;;; upd_proc p g ;;; k) s = (upd_proc p (λ x, g (f x)) ;;; k) s.
Proof. unfold upd_proc, modify, bind. by rewrite procs_with, alter_alter. Qed.

Lemma upd_get {A} p f (k : proc → M (kernel D) A) s x :
  procs s !! p = Some x → (upd_proc p f ;;; let* y := get_proc p in k y) s = (upd_proc p f ;;; k (f x)) s.
Proof.
  intros Hx. rewrite !(bind_ok _ _ _ _ _ (upd_proc_run s p f)). erewrite bind_ok; [done|].
  apply get_proc_ok. by rewrite procs_with, list_lookup_alter_eq, Hx.
Qed.

(** The child as [kfork] leaves it. *)
Definition child_of (p : nat) (x y : proc) : proc :=
  set_p_state RUNNABLE (set_p_parent (Some p) (set_p_name (safestrcpy (p_name y) (p_name x) 16)
    (set_p_cwd (idup (p_cwd x)) (set_p_ofile (dup_files (p_ofile x) (p_ofile y)) (set_p_sz (p_sz x) y))))).

Lemma child_space p x y :
  p_trapframe (child_of p x y) = p_trapframe y ∧ p_pagetable (child_of p x y) = p_pagetable y.
Proof. by destruct y. Qed.

Lemma child_ids p x y :
  p_state (child_of p x y) = RUNNABLE ∧ p_parent (child_of p x y) = Some p ∧
  p_pid (child_of p x y) = p_pid y ∧ p_sz (child_of p x y) = p_sz x.
Proof. by destruct y. Qed.

Lemma list_fmap_alter_const (l : list proc) p a : core <$> alter (λ _, a) p l = alter (λ _, core a) p (core <$> l).
Proof.
  apply list_eq. intros j. rewrite list_lookup_fmap. destruct (decide (j = p)) as [->|Hne].
  - rewrite !list_lookup_alter_eq, list_lookup_fmap. by destruct (l !! p).
  - by rewrite !list_lookup_alter_ne, list_lookup_fmap.
Qed.

Lemma finish_fork_ok s own p np x y yc :
  vinv s own → own (p_trapframe x) = RPin p → own (p_trapframe y) = RPin np → p ≠ np → procs s !! np = Some yc →
  ∃ m', let s' := with_procs (alter (child_of p x) np (procs s)) (with_mem m' s) in
    finish_fork p np x y s = Ok (p_pid yc, s') ∧ vinv s' own ∧ kept s s' ∧
    child_frame (mem s) m' (p_trapframe x) (p_trapframe y) ∧
    ∀ a q, q ≠ np → own a = RPin q → rdbytes m' a PGSIZE = rdbytes (mem s) a PGSIZE.
Proof.
  intros Hv Hx Hy Hne Hyc. assert (p_trapframe x ≠ p_trapframe y) as Hnt by congruence.
  destruct (procs_kept s own (alter (set_p_sz (p_sz x)) np (procs s)) Hv) as [Hv1 Hk1]; [by apply same_roots_alter|].
  destruct (copy_frame_ok _ own np p (p_trapframe x) (p_trapframe y) Hv1 Hx Hy Hnt) as (m' & E & Ho & Hcf).
  destruct (write_pin_ok s own (p_trapframe y) np m' Hv Hy Ho) as (Hv2 & Hk2 & Hb).
  destruct (procs_kept (with_mem m' s) own (alter (child_of p x) np (procs s)) Hv2) as [Hv3 Hk3];
    [by apply same_roots_alter|].
  exists m'. split_and!; [|done|by eapply kept_trans|done|].
  - unfold finish_fork. rewrite (bind_ok _ _ _ _ _ (upd_proc_run _ _ _)). rewrite (bind_ok _ _ _ _ _ E).
    set (s1 := with_mem m' _). assert (procs s1 !! np = Some (set_p_sz (p_sz x) yc)) as Hy1.
    { unfold s1. simpl. by rewrite list_lookup_alter_eq, Hyc. }
    rewrite upd_upd, upd_upd, (upd_get _ _ _ _ _ Hy1), upd_upd, upd_upd.
    rewrite (bind_ok _ _ _ _ _ (upd_proc_run _ _ _)). unfold ret, s1. simpl. by rewrite alter_alter.
  - intros a q Hq Ha. eapply Hb; [|done]. intros ->. congruence.
Qed.

(** A slot with a size that covers its pages, whatever pages and tables its
    tree has come to hold. *)
Lemma pok_resize ps own own' f np y root :
  pok ps own → ps !! np = Some y → p_pagetable y = root → root ≠ 0 → p_state y ≠ UNUSED →
  p_trapframe (f y) = p_trapframe y → p_pagetable (f y) = p_pagetable y → p_state (f y) ≠ UNUSED →
  0 ≤ p_sz (f y) ≤ TRAPFRAME → (∀ q z, q ≠ np → ps !! q = Some z → p_pagetable z ≠ root) →
  (∀ a q, own a = RPin q ↔ own' a = RPin q) →
  confined root own own' → (∀ a v, own' a = RPage root v → v < PGROUNDUP (p_sz (f y))) →
  pok (alter f np ps) own'.
Proof.
  intros [K U V P T] Hy <- Hr Hyu Ec1 Ec2 Hfu Hsz Hroots Hpin Hcf Hpages.
  assert (∀ q z, alter f np ps !! q = Some z → (q = np ∧ z = f y) ∨ (q ≠ np ∧ ps !! q = Some z)) as Hlk.
  { intros q z. destruct (decide (q = np)) as [->|Hq]; [|rewrite list_lookup_alter_ne by done; auto].
    rewrite list_lookup_alter_eq, Hy. intros [= <-]. auto. }
  assert (∀ q z, ps !! q = Some z → ∃ z', alter f np ps !! q = Some z' ∧
    p_trapframe z' = p_trapframe z ∧ p_pagetable z' = p_pagetable z) as Hfw.
  { intros q z Hz. destruct (decide (q = np)) as [->|Hq]; [|rewrite list_lookup_alter_ne by done; eauto].
    assert (z = y) as -> by congruence. exists (f y). by rewrite list_lookup_alter_eq, Hy. }
  split.
  - intros q z [[-> ->]|[Hq Hz]]%Hlk.
    + destruct (K np _ Hy) as [K1 _]. unfold holds. rewrite Ec1, Ec2. split; [|done]. intros Hn. apply Hpin, K1, Hn.
    + destruct (K q z Hz) as [K1 K2]. split; [intros Hn; by apply Hpin, K1|]. intros Hn.
      destruct (K2 Hn) as [? K3]. split; [done|]. intros a v Ha.
      destruct (confined_page _ _ _ _ _ _ Hcf Ha) as [Ha'|Hr']; [by apply (K3 a)|by destruct (Hroots q z Hq Hz)].
  - intros q z [[-> ->]|[Hq Hz]]%Hlk Hz'; [done|by eapply U].
  - intros q z [[-> ->]|[Hq Hz]]%Hlk Hz'; [rewrite Ec1, Ec2; by apply (V np _ Hy)|by eapply V].
  - intros a q Ha%Hpin. destruct (P a q Ha) as (z & Hz & <-). destruct (Hfw q z Hz) as (z' & ? & ? & ?). by exists z'.
  - intros a r l pre Ha. destruct (decide (r = p_pagetable y)) as [->|Hrr].
    + exists np, (f y). by rewrite list_lookup_alter_eq, Hy.
    + destruct (Hcf a) as [E|[_ Hm]]; [|by rewrite Ha in Hm]. rewrite E in Ha.
      destruct (T a r l pre Ha) as (q & z & Hz & <-). destruct (Hfw q z Hz) as (z' & ? & ? & ?). by exists q, z'.
Qed.

Lemma rdbytes_inj m m' a n o : rdbytes m' a n = rdbytes m a n → 0 ≤ o < n → m' (a + o) = m (a + o).
Proof.
  intros E Ho. unfold rdbytes in E. apply (f_equal (.!! Z.to_nat o)) in E.
  rewrite !list_lookup_fmap, lookup_seqZ_lt in E by lia. simpl in E. injection E as E.
  by rewrite !Z2Nat.id in E by lia.
Qed.

Lemma child_frame_from m m1 m' ptf ctf :
  rdbytes m1 ptf PGSIZE = rdbytes m ptf PGSIZE → child_frame m1 m' ptf ctf → child_frame m m' ptf ctf.
Proof.
  intros E [? Hc]. pose proof PGSIZE_4096. split; [done|]. intros o Ho Hn. rewrite Hc by done.
  eapply rdbytes_inj; [done|]. unfold TRAPFRAME_SIZE in Ho. lia.
Qed.

(** What the caller of a failed fork finds: the same pages in the same roles,
    the same processes. *)
Definition unforked s (own : owners) s' (own' : owners) : Prop :=
  (∀ a, own' a = own a) ∧
  ∀ q z, procs s !! q = Some z → p_state z ≠ UNUSED → ∃ z', procs s' !! q = Some z' ∧ core z' = core z.

(** The child [np] of [q]. *)
Record forked s (q : nat) (x : proc) (np : nat) (y : proc) s' : Prop := {
  fk_slot : ∃ z, procs s !! np = Some z ∧ p_state z = UNUSED;
  fk_child : procs s' !! np = Some y;
  fk_state : p_state y = RUNNABLE ∧ p_parent y = Some q ∧ p_pid y = nextpid s ∧ p_sz y = p_sz x;
  fk_memory : ∀ v, va_ok v → v < p_sz x → user_page s' np v = user_page s q v;
  fk_regs : child_frame (mem s) (mem s') (p_trapframe x) (p_trapframe y);
  fk_sched : p_level y = 0 ∧ p_ticks_used y = 0 ∧ p_ticks y = [0; 0; 0; 0];
  fk_length : length (procs s') = length (procs s);
  fk_others : ∀ i z, i ≠ np → procs s !! i = Some z → ∃ z', procs s' !! i = Some z' ∧ core z' = core z;
}.

(** An unused slot has no trapframe. *)
Lemma vacant_pin s own p z a : pinv s own → procs s !! p = Some z → p_state z = UNUSED → own a ≠ RPin p.
Proof.
  intros (Hv & _ & Hpok) Hz Hu Ha. destruct (pk_pins _ _ Hpok a p Ha) as (z' & Hz' & Hza).
  destruct (pk_unused _ _ Hpok p z Hz Hu) as (_ & ? & _). assert (a = 0) as -> by congruence.
  rewrite (sane_0 own) in Ha; [done|]. by eapply tree_sane, Hv.
Qed.

(** Entries added for the child lie below its size. *)
Definition cores_kept s s' : Prop :=
  ∀ q z, procs s !! q = Some z → p_state z ≠ UNUSED → ∃ z', procs s' !! q = Some z' ∧ core z' = core z.

Lemma fork_low s own s' own' np lim :
  pinv s own → pinv s' own' → (∃ z, procs s !! np = Some z ∧ p_state z = UNUSED) → child_entries np lim s s' →
  (∀ y, procs s' !! np = Some y → p_state y ≠ UNUSED → lim ≤ PGROUNDUP (p_sz y)) → cores_kept s s' →
  swap_low s → swap_low s'.
Proof.
  intros Hinv Hinv' (z0 & Hz0 & Hu0) Hc Hlim Hoth Hl. eapply swap_low_table; [exact Hinv|exact Hinv'|done| |].
  - intros i e Hu Hi. destruct (Hc i e Hu Hi) as [?|[Hp Hva]]; [by left|right]. intros p y Hp' Hy Hst.
    assert (p = np) as -> by congruence. specialize (Hlim y Hy Hst). lia.
  - intros i z z' Hz Hst Hz' _. destruct (Hoth i z Hz Hst) as (z'' & Hz'' & Hcore).
    pose proof (f_equal p_sz Hcore) as Hsz. simpl in Hsz. congruence.
Qed.

Lemma alloc_low s own s' own' :
  pinv s own → pinv s' own' → sub_entries s s' → cores_kept s s' → swap_low s → swap_low s'.
Proof.
  intros Hinv Hinv' Hs Hoth Hl. eapply swap_low_table; [exact Hinv|exact Hinv'|done|by left; apply Hs|].
  intros i z z' Hz Hst Hz' _. destruct (Hoth i z Hz Hst) as (z'' & Hz'' & Hcore).
  pose proof (f_equal p_sz Hcore) as Hsz. simpl in Hsz. congruence.
Qed.

Lemma sub_child np lim s s' : sub_entries s s' → child_entries np lim s s'.
Proof. intros Hs i e Hu Hi. left. by apply Hs. Qed.

Lemma kfork_ok s own q x :
  pinv s own → cur s = Some q → procs s !! q = Some x → p_state x ≠ UNUSED →
  ∃ r s' own', kfork s = Ok (r, s') ∧ pinv s' own' ∧ kept s s' ∧ cur s' = cur s ∧ pinned s own s' own' ∧
    (swap_low s → swap_low s') ∧
    ((r = -1 ∧ unforked s own s' own') ∨ (r = nextpid s ∧ ∃ np y, forked s q x np y s')).
Proof.
  intros Hinv Hcur Hx Hxu. unfold kfork. rewrite (bind_ok _ _ _ (Some q) s) by (unfold gets; by rewrite Hcur).
  rewrite (bind_ok _ _ _ q s) by done.
  destruct (allocproc_ok s own Hinv) as (o & s1 & own1 & E1 & Hinv1 & Hk1 & Hpin1 & Hc1 & Ho). rewrite (bind_ok _ _ _ _ _ E1).
  pose proof (keeps_allocproc sub_entries _ s _ s1 E1) as Hsub1.
  destruct o as [np|]; [|exists (-1), s1, own1; split_and!; try done; [|by left]; eapply (alloc_low s own s1 own1); [done..|exact (proj2 Ho)]].
  destruct Ho as (root & tf & [(z & Hz & Hzu) Hp1 [Hr Hfr] (Htf & Hftf & Hptf) Hcf1 Hfresh]).
  assert (q ≠ np) as Hne by (intros ->; congruence).
  set (y1 := new_proc (nextpid s) root tf z).
  assert (procs s1 !! q = Some x) as Hx1 by (by rewrite Hp1, list_lookup_alter_ne).
  assert (procs s1 !! np = Some y1) as Hy1 by (rewrite Hp1, list_lookup_alter_eq, Hz; reflexivity).
  rewrite (bind_ok _ _ _ _ _ (get_proc_ok s1 q x Hx1)), (bind_ok _ _ _ _ _ (get_proc_ok s1 np y1 Hy1)).
  pose proof Hinv as (Hv & _ & Hpok). pose proof Hinv1 as (Hv1 & Hcur1 & Hpok1).
  destruct (pk_used _ _ Hpok q x Hx Hxu) as [Hxr Hxt]. destruct (pk_holds _ _ Hpok q x Hx) as [Hxpin Hxsz].
  destruct (Hxsz Hxr) as [Hsz _].
  assert (live s1 q (p_pagetable x)) as Hlq by by exists x.
  assert (p_pagetable y1 = root ∧ p_trapframe y1 = tf ∧ p_sz y1 = 0 ∧ p_pid y1 = nextpid s) as (Ey1 & Ey2 & Ey3 & Ey4).
  { split_and!; [reflexivity..|exact (proj2 (proj2 (pk_unused _ _ Hpok np z Hz Hzu)))|reflexivity]. }
  assert (live s1 np root) as Hlnp by by exists y1.
  rewrite Ey1.
  destruct (uvmcopy_ok s1 own1 np root q (p_pagetable x) (p_sz x) Hv1 Hlnp Hlq) as
    (r & s2 & own2 & E2 & Hv2 & Hps2 & Hc2 & Hex2 & Hpin2 & Hcf2 & Hcase); [done|congruence|done|done|].
  rewrite (bind_ok _ _ _ _ _ E2).
  assert (child_entries np (p_sz x) s s2) as Hent.
  { transitivity s1; [by apply sub_child|]. eapply (keeps_uvmcopy _ _ np (p_sz x)); [|reflexivity|exact E2]. done. }
  assert (kept s s2) as Hk2.
  { split.
    - intros q' r' Hq'. apply (live_same s1 s2); [done|]. by apply Hk1.
    - intros q' r' v Hq' Hvv. rewrite (Hex2 q' r' v); [by apply (proj2 Hk1 q' r')|by apply Hk1|done|].
      intros ->. destruct Hq' as (z' & Hz' & Hzr & Hn). destruct (pk_unused _ _ Hpok np z Hz Hzu). congruence. }
  destruct (same_procs_lookup _ _ _ _ Hps2 Hy1) as (y2 & Hy2 & Hcy2).
  assert (p_pagetable y2 = root ∧ p_trapframe y2 = tf ∧ p_sz y2 = 0 ∧ p_pid y2 = nextpid s) as (Ec1 & Ec2 & Ec3 & Ec4).
  { split_and!; [rewrite <- Ey1; exact (f_equal p_pagetable Hcy2)|rewrite <- Ey2; exact (f_equal p_trapframe Hcy2)
      |rewrite <- Ey3; exact (f_equal p_sz Hcy2)|rewrite <- Ey4; exact (f_equal p_pid Hcy2)]. }
  destruct Hcase as [(-> & Hcp & Hpg)|(-> & Hno)].
  - rewrite decide_False by lia.
    destruct (finish_fork_ok s2 own2 q np x y1 y2 Hv2) as (m' & E3 & Hv3 & Hk3 & Hcf & Hb3); [|by rewrite Ey2; apply Hpin2|done|done|].
    { apply Hpin2, Hpin1. by apply Hxpin. }
    set (s' := with_procs (alter (child_of q x) np (procs s2)) (with_mem m' s2)) in *.
    assert (∀ i w, i ≠ np → procs s !! i = Some w → ∃ w', procs s' !! i = Some w' ∧ core w' = core w) as Hrest.
    { intros i w Hi Hw. assert (procs s1 !! i = Some w) as Hw1 by (by rewrite Hp1, list_lookup_alter_ne).
      destruct (same_procs_lookup _ _ _ _ Hps2 Hw1) as (w' & Hw' & ?). exists w'. split; [|done].
      unfold s'. by rewrite procs_with, list_lookup_alter_ne. }
    assert (pinv s' own2) as Hinv3.
    { split_and!; [done|by eapply (cur_ok_alter s2); [eapply cur_ok_same|..]|].
      assert (p_state y2 = USED) as Hst by exact (f_equal p_state Hcy2).
      destruct (child_space q x y2) as [Es1 Es2]. destruct (child_ids q x y2) as (Ei1 & _ & _ & Ei2).
      eapply (pok_resize (procs s2) own1); [by eapply pok_core|exact Hy2|exact Ec1|done|by rewrite Hst|exact Es1|exact Es2|by rewrite Ei1|by rewrite Ei2| | |exact Hcf2|].
      * intros i w Hi Hw Hwr. apply Hi. eapply (vi_roots _ _ Hv2 i np root); [by exists w|]. by apply (live_same s1 s2).
      * intros a i. split; [by apply Hpin2|]. intros Ha. destruct (Hcf2 a) as [<-|[_ Hm]]; [done|]. by rewrite Ha in Hm.
      * intros a v Ha. rewrite Ei2. destruct (decide (p_sz x ≤ v)) as [Hle|Hlt].
        -- by destruct (Hpg v a (page_va_ok _ _ _ _ _ _ (vi_tree _ _ Hv2) Ha) Hle).
        -- destruct (PGROUNDUP_user (p_sz x) Hsz) as [_ ?]. lia. }
    exists (nextpid s), s', own2. rewrite Ec4 in E3. split_and!; [done|done|by eapply kept_trans|change (cur s2 = cur s); congruence| | |].
    + intros a i Ha. destruct (pinned_trans _ _ _ _ _ _ Hpin1 Hpin2 a i Ha) as [Ha2 Hb]. split; [done|].
      rewrite <- Hb. apply (Hb3 a i); [|done]. intros ->. exact (vacant_pin s own np z a Hinv Hz Hzu Ha).
    + assert (cores_kept s s') as Hck by (intros i w Hw Hst; apply Hrest; [congruence|done]).
      apply (fork_low s own s' own2 np (p_sz x)); [done|done|by exists z|done| |done].
      intros y Hy _. unfold s' in Hy. rewrite procs_with, list_lookup_alter_eq, Hy2 in Hy. injection Hy as <-.
      destruct (child_ids q x y2) as (_ & _ & _ & ->). destruct (PGROUNDUP_user (p_sz x) Hsz). lia.
    + right. split; [done|]. exists np, (child_of q x y2). split.
      * by exists z.
      * unfold s'. by rewrite procs_with, list_lookup_alter_eq, Hy2.
      * destruct (child_ids q x y2) as (-> & -> & -> & ->). by rewrite Ec4.
      * intros v Hvv Hlt. rewrite (proj2 Hk3 np root v); [|by apply (live_same s1 s2)|done].
        rewrite (Hcp v Hvv Hlt). apply (proj2 Hk1 q (p_pagetable x)); [by exists x|done].
      * destruct (child_space q x y2) as [-> _]. rewrite Ec2, <- Ey2. eapply child_frame_from; [|exact Hcf].
        apply (proj2 (pinned_trans _ _ _ _ _ _ Hpin1 Hpin2 _ q (Hxpin Hxt))).
      * split_and!; [exact (f_equal p_level Hcy2)|exact (f_equal p_ticks_used Hcy2)|exact (f_equal p_ticks Hcy2)].
      * unfold s'. rewrite procs_with, length_alter. apply (f_equal length) in Hps2. rewrite !length_fmap in Hps2.
        rewrite Hps2, Hp1. apply length_alter.
      * intros i w Hi Hw. by apply Hrest.
  - rewrite decide_True by lia.
    destruct (untake_ok s own s2 own2 np z y2 Hinv Hz Hzu) as (s' & own' & E3 & Hinv3 & Hk3 & Hpin3 & Hc3 & Hown & Hused).
    { split; [done|congruence|done|done| | |congruence| |by eapply pinned_trans].
      - rewrite Hps2, Hp1, (alter_slot _ _ _ _ Hz). fold y1. rewrite !list_fmap_alter_const. by rewrite Hcy2.
      - split; [intros _; rewrite Ec2; by apply Hpin2|]. intros _. rewrite Ec3.
        split; [pose proof (high_range TRAPFRAME ltac:(by left)); lia|].
        intros a v Ha. rewrite Ec1 in Ha. by destruct (Hno v a (page_va_ok _ _ _ _ _ _ (vi_tree _ _ Hv2) Ha)).
      - eapply (returned_back (mem s) (freelist s)); [apply Hv|exact Hfr|exact Hftf|done|done|done|].
        by eapply confined_trans. }
    rewrite (bind_ok _ _ _ _ _ E3). exists (-1), s', own'. split_and!; try done; [|by left].
    assert (sub_entries s2 s') as Hsub by exact (keeps_freeproc sub_entries _ np s2 _ s' E3).
    apply (fork_low s own s' own' np (p_sz x)); [done|done|by exists z|by etransitivity; [|apply sub_child]| |done].
    intros y Hy Hst. exfalso. destruct Hinv3 as (Hv3 & _ & Hpok3). destruct (pk_used _ _ Hpok3 np y Hy Hst) as [_ Ht].
    pose proof (proj1 (pk_holds _ _ Hpok3 np y Hy) Ht) as Hpn. rewrite Hown in Hpn. exact (vacant_pin s own np z _ Hinv Hz Hzu Hpn).
Qed.
End kfork.
