(* ===== verification/Reap.v ===== *)
(** * Exit and wait (proc.c:411-523)

    [kexit] leaves a zombie that keeps its memory, hands its children to
    init and wakes those who wait; [kwait] frees the first zombie child of the
    caller with everything it held, reports its exit status, and otherwise
    sleeps or fails. *)
From S2P Require Import Prelude Interfaces Mem KState Kmem PageTable Frames Paging Vm Fault.
From S2P Require Import Spaces Fork Teardown Sched Proc ProcMem ProcTable UserCopy Kfork.
Local Open Scope Z_scope.

(** The file system keeps to its own blocks. *)
Class FileEnvSpec `{BlockParams} (D : Type) `{!SwapDev D} `{!SwapDevSpec D} `{!FileEnv D} := {
  fileclose_quiet f d : dev_inv d → quiet d (fileclose f d);
  begin_op_quiet d : dev_inv d → quiet d (begin_op d);
  iput_quiet i d : dev_inv d → quiet d (iput i d);
  end_op_quiet d : dev_inv d → quiet d (end_op d);
}.

Section reap.
Context `{Sv39} `{!ProcEnv} `{!Chans} {D : Type} `{!SwapDev D} `{!SwapDevSpec D} `{!FileEnv D}.
Implicit Types s : kernel D.

(** ** Release of a process *)
Lemma freeproc_pinv s own p x :
  pinv s own → procs s !! p = Some x →
  ∃ s' own', freeproc p s = Ok (tt, s') ∧ pinv s' own' ∧ returned x own own' ∧ except_same s s' p ∧
    core <$> procs s' = core <$> alter freed_proc p (procs s) ∧ cur s' = cur s ∧
    (∀ a q, q ≠ p → own a = RPin q → rdbytes (mem s') a PGSIZE = rdbytes (mem s) a PGSIZE).
Proof.
  intros (Hv & Hcur & Hpok) Hx. pose proof (tree_sane _ _ _ (vi_tree _ _ Hv)) as Hs.
  destruct (freeproc_ok s own p x Hv Hcur Hx (pk_holds _ _ Hpok p x Hx))
    as (s' & own' & E & Hv' & Hret & Hex & Hps & Hc & _ & Hpin).
  exists s', own'. split_and!; try done. split_and!; [done| |].
  - intros c Hcc. rewrite Hc in Hcc. destruct (Hcur c Hcc) as [z Hz]. apply (f_equal (.!! c)) in Hps.
    rewrite !list_lookup_fmap in Hps. destruct (decide (c = p)) as [->|Hne].
    + rewrite list_lookup_alter_eq, Hz in Hps. apply fmap_Some in Hps as (z' & ? & _). by exists z'.
    + rewrite list_lookup_alter_ne, Hz in Hps by done. apply fmap_Some in Hps as (z' & ? & _). by exists z'.
  - eapply pok_core; [exact Hps|]. by eapply pok_freed.
Qed.

(** ** Updates of the process table that leave memory alone *)
Definition same_holds (ps ps' : list proc) : Prop :=
  length ps' = length ps ∧ ∀ i x, ps !! i = Some x → ∃ y, ps' !! i = Some y ∧ same_hold x y.

Lemma pinv_table s own ps c :
  pinv s own → same_holds (procs s) ps → (∀ i, c = Some i → is_Some (ps !! i)) →
  pinv (with_cur c (with_procs ps s)) own ∧ kept s (with_cur c (with_procs ps s)).
Proof.
  intros (Hv & Hcur & Hpok) [Hlen Hps] Hc.
  assert (∀ i y, ps !! i = Some y → ∃ x, procs s !! i = Some x ∧ same_hold x y) as Hbw.
  { intros i y Hy. destruct (lookup_lt_is_Some_2 (procs s) i) as [x Hx]; [apply lookup_lt_Some in Hy; lia|].
    destruct (Hps i x Hx) as (y' & Hy' & ?). exists x. split; [done|]. congruence. }
  assert (same_roots (procs s) ps) as Hroots.
  { apply list_eq. intros i. rewrite !list_lookup_fmap. destruct (procs s !! i) as [x|] eqn:Hx.
    - destruct (Hps i x Hx) as (y & -> & Hr & _). simpl. by rewrite Hr.
    - destruct (ps !! i) as [y|] eqn:Hy; [|done]. destruct (Hbw i y Hy) as (x & ? & _). congruence. }
  destruct (procs_kept s own ps Hv Hroots) as [Hv' Hk']. split; [|by destruct Hk'].
  split_and!; [by destruct Hv'|done|]. by apply (pok_hold (procs s)).
Qed.

Lemma same_holds_alter ps p f x : ps !! p = Some x → same_hold x (f x) → same_holds ps (alter f p ps).
Proof.
  intros Hx Hf. split; [apply length_alter|]. intros i y Hy. destruct (decide (i = p)) as [->|Hne].
  - exists (f y). rewrite list_lookup_alter_eq, Hy. split; [done|]. congruence.
  - exists y. by rewrite list_lookup_alter_ne.
Qed.

(** ** [kwait] *)
(** A child of [p], and one that has exited. *)
Definition child (p : nat) (y : proc) : Prop := p_parent y = Some p.
Definition zombie (p : nat) (y : proc) : Prop := p_parent y = Some p ∧ p_state y = ZOMBIE.
#[global] Instance child_dec p y : Decision (child p y).
Proof. unfold child. apply _. Defined.
#[global] Instance zombie_dec p y : Decision (zombie p y).
Proof. unfold zombie. apply _. Defined.

Lemma kwait_scan_none s p addr l hk :
  (∀ i, i ∈ l → ∃ y, procs s !! i = Some y ∧ ¬ zombie p y) →
  ∃ b, kwait_scan p addr l hk s = Ok (inr b, s) ∧
    (b = true ↔ hk = true ∨ ∃ i y, i ∈ l ∧ procs s !! i = Some y ∧ child p y).
Proof.
  revert hk. induction l as [|i l IH]; intros hk Hl.
  { exists hk. split; [done|]. split; [by left|]. intros [?|(i & y & Hi & _)]; [done|by apply elem_of_nil in Hi]. }
  destruct (Hl i) as (y & Hy & Hz); [set_solver|]. cbn [kwait_scan].
  rewrite (bind_ok _ _ _ _ _ (get_proc_ok s i y Hy)).
  destruct (decide (p_parent y = Some p)) as [Hp|Hp].
  - rewrite decide_False by (intros ?; by apply Hz). destruct (IH true) as (b & E & Hb); [set_solver|].
    exists b. split; [done|]. rewrite Hb. split; [|by left]. intros _. right. exists i, y. set_solver.
  - destruct (IH hk) as (b & E & Hb); [set_solver|]. exists b. split; [done|]. rewrite Hb. split.
    + intros [?|(j & z & ? & ? & ?)]; [by left|]. right. exists j, z. set_solver.
    + intros [?|(j & z & [->|Hj]%elem_of_cons & Hz' & Hc)]; [by left| |right; by exists j, z].
      unfold child in Hc. congruence.
Qed.

Lemma kwait_scan_skip s p addr l1 i y l2 hk x :
  (∀ i, i ∈ l1 → ∃ y, procs s !! i = Some y ∧ ¬ zombie p y) →
  procs s !! i = Some y → zombie p y → procs s !! p = Some x →
  kwait_scan p addr (l1 ++ i :: l2) hk s =
  (let* r := if decide (addr ≠ 0) then copyout (p_pagetable x) addr (le_bytes 4 (p_xstate y)) else ret 0 in
   if decide (r < 0) then ret (inl (-1)) else freeproc i ;;; ret (inl (p_pid y))) s.
Proof.
  intros Hl Hy [Hp Hz] Hx. revert hk Hl. induction l1 as [|j l1 IH]; intros hk Hl; simpl.
  - rewrite (bind_ok _ _ _ _ _ (get_proc_ok s i y Hy)). rewrite !decide_True by done.
    by rewrite (bind_ok _ _ _ _ _ (get_proc_ok s p x Hx)).
  - destruct (Hl j) as (z & Hjz & Hn); [set_solver|]. rewrite (bind_ok _ _ _ _ _ (get_proc_ok s j z Hjz)).
    destruct (decide (p_parent z = Some p)) as [Hzp|Hzp]; [rewrite decide_False by (intros ?; by apply Hn)|];
      apply IH; set_solver.
Qed.

Lemma kwait_none s own p root sz addr :
  pinv s own → running s p root sz → list_find (zombie p) (procs s) = None →
  ∃ o s', kwait addr s = Ok (o, s') ∧ pinv s' own ∧ kept s s' ∧
    if decide (Exists (child p) (procs s) ∧ p_killed <$> procs s !! p = Some 0)
    then o = None ∧ s' = with_cur None (with_procs (alter (λ x, set_p_state SLEEPING (set_p_chan (chan_proc p) x)) p (procs s)) s)
    else o = Some (-1) ∧ s' = s.
Proof.
  intros Hinv [Hcur (x & Hx & Hr & Hsz & Hr0)] Hnone. unfold kwait.
  rewrite (bind_ok _ _ _ (Some p) s) by (unfold gets; by rewrite Hcur). rewrite (bind_ok _ _ _ p s) by done.
  rewrite (bind_ok _ _ _ (procs s) s) by done.
  destruct (kwait_scan_none s p addr (seq 0 (length (procs s))) false) as (b & E & Hb).
  { intros i Hi%elem_of_seq. destruct (lookup_lt_is_Some_2 (procs s) i) as [y Hy]; [lia|]. exists y. split; [done|].
    apply list_find_None in Hnone. by eapply Forall_lookup_1 in Hnone. }
  rewrite (bind_ok _ _ _ _ _ E), (bind_ok _ _ _ _ _ (get_proc_ok s p x Hx)).
  assert (b = true ↔ Exists (child p) (procs s)) as Hkids.
  { rewrite Hb, Exists_exists. split.
    - intros [?|(i & y & _ & Hy & Hc)]; [done|]. exists y. split; [by eapply list_elem_of_lookup_2|done].
    - intros (y & [i Hy]%list_elem_of_lookup & Hc). right. exists i, y. split_and!; [|done..].
      apply elem_of_seq. apply lookup_lt_Some in Hy. lia. }
  rewrite Hx. simpl.
  destruct (decide (Exists (child p) (procs s) ∧ Some (p_killed x) = Some 0)) as [[Hc [= Hk]]|Hn].
  - rewrite (proj2 Hkids Hc), bool_decide_eq_false_2 by (intros ?; done). simpl.
    destruct (pinv_table s own (alter (λ x, set_p_state SLEEPING (set_p_chan (chan_proc p) x)) p (procs s)) None Hinv)
      as [Hinv' Hk']; [|done|].
    { eapply same_holds_alter; [done|]. split_and!; [done..|]. simpl. split; [done|]. intros Hu.
      destruct Hinv as (_ & _ & Hpok). destruct (pk_unused _ _ Hpok p x Hx Hu). congruence. }
    eexists None, _. split_and!; [|exact Hinv'|exact Hk'|done|reflexivity].
    unfold sleep. rewrite !bind_assoc, (bind_ok _ _ _ (Some p) s) by (unfold gets; by rewrite Hcur).
    rewrite !bind_assoc, (bind_ok _ _ _ p s) by done. rewrite !bind_assoc.
    rewrite (bind_ok _ _ _ _ _ (upd_proc_run _ _ _)). rewrite !bind_assoc, (bind_ok _ _ _ _ _ (upd_proc_run _ _ _)).
    unfold modify, bind. simpl. by rewrite alter_alter.
  - exists (Some (-1)), s. split_and!; [|done|apply kept_refl|done|done].
    destruct (negb b || bool_decide (p_killed x ≠ 0)) eqn:Eb; [done|]. apply orb_false_iff in Eb as [Eb1 Eb2].
    destruct Hn. split; [apply Hkids; by destruct b|]. apply bool_decide_eq_false in Eb2. f_equal. by apply dec_stable.
Qed.

Lemma length_le_bytes n v : length (le_bytes n v) = n.
Proof. unfold le_bytes. by rewrite length_fmap, length_seq. Qed.

Lemma list_find_seq s p pp y :
  list_find (zombie p) (procs s) = Some (pp, y) →
  ∃ l1 l2, seq 0 (length (procs s)) = l1 ++ pp :: l2 ∧
    (∀ i, i ∈ l1 → ∃ z, procs s !! i = Some z ∧ ¬ zombie p z) ∧ procs s !! pp = Some y ∧ zombie p y.
Proof.
  intros (Hy & Hz & Hn)%list_find_Some. pose proof (lookup_lt_Some _ _ _ Hy) as Hlt.
  exists (seq 0 pp), (seq (S pp) (length (procs s) - S pp)). split_and!; [|..|done|done].
  - replace (length (procs s)) with (pp + S (length (procs s) - S pp))%nat at 1 by lia. by rewrite seq_app.
  - intros i Hi%elem_of_seq. destruct (lookup_lt_is_Some_2 (procs s) i) as [z Hz']; [lia|]. exists z.
    split; [done|]. eapply Hn; [done|lia].
Qed.

(** The zombie child [pp], found as [y], is gone: its slot is unused and the
    pages of the others are as they were, the four bytes of the status apart. *)
Record reaped s s' (p : nat) (addr : Z) (pp : nat) (y : proc) : Prop := {
  rp_procs : core <$> procs s' = core <$> alter freed_proc pp (procs s);
  rp_cur : cur s' = cur s;
  rp_others : ∀ q r a, live s q r → q ≠ pp → 0 ≤ a < TRAPFRAME → ¬ (q = p ∧ addr ≠ 0 ∧ addr ≤ a < addr + 4) →
    user_byte s' q a = user_byte s q a;
  rp_status : addr ≠ 0 → p ≠ pp → ∀ i, 0 ≤ i < 4 → user_byte s' p (addr + i) = le_bytes 4 (p_xstate y) !! Z.to_nat i;
}.

Lemma kwait_some s own p root sz addr pp y :
  pinv s own → running s p root sz → list_find (zombie p) (procs s) = Some (pp, y) →
  addr = 0 ∨ 0 ≤ addr ∧ addr + 4 ≤ sz →
  ∃ o s' own', kwait addr s = Ok (o, s') ∧ pinv s' own' ∧
    ((o = Some (p_pid y) ∧ reaped s s' p addr pp y) ∨
     (o = Some (-1) ∧ addr ≠ 0 ∧ copied s own s' own' p addr 4 ∧
        ∃ v, va_ok v ∧ addr - PGSIZE < v < addr + 4 ∧ (refused s' own' root v PTE_U ∨ refused s' own' root v PTE_W))).
Proof.
  intros Hinv Hrun Hfind Haddr. pose proof Hrun as [Hcur (x & Hx & Hr & Hsz & Hr0)].
  destruct (list_find_seq s p pp y Hfind) as (l1 & l2 & El & Hl1 & Hy & Hz). unfold kwait.
  rewrite (bind_ok _ _ _ (Some p) s) by (unfold gets; by rewrite Hcur). rewrite (bind_ok _ _ _ p s) by done.
  rewrite (bind_ok _ _ _ (procs s) s) by done. rewrite El.
  unfold bind at 1. rewrite (kwait_scan_skip s p addr l1 pp y l2 false x Hl1 Hy Hz Hx). rewrite Hr.
  set (st := le_bytes 4 (p_xstate y)). assert (length st = 4%nat) as Hst by apply length_le_bytes.
  assert (∃ r s1 own1, (if decide (addr ≠ 0) then copyout root addr st else ret 0) s = Ok (r, s1) ∧
    copied s own s1 own1 p addr (if decide (addr ≠ 0) then 4 else 0) ∧
    ((r = 0 ∧ (addr ≠ 0 → ∀ i, 0 ≤ i < 4 → user_byte s1 p (addr + i) = st !! Z.to_nat i)) ∨
     (r = -1 ∧ addr ≠ 0 ∧ ∃ v, va_ok v ∧ addr - PGSIZE < v < addr + 4 ∧
        (refused s1 own1 root v PTE_U ∨ refused s1 own1 root v PTE_W)))) as (r & s1 & own1 & E1 & Hcp & Hcase).
  { destruct (decide (addr ≠ 0)) as [Hn|Hn].
    - destruct Haddr as [?|[Ha1 Ha2]]; [done|].
      destruct (copyout_ok s own p root sz addr st Hinv Hrun Ha1) as (r & s1 & own1 & E & Hcp & Hc);
        [rewrite Hst; done|]. rewrite Hst in *. exists r, s1, own1. split_and!; [done..|].
      destruct Hc as [[-> Hc]|[-> Hc]]; [left|right]; eauto.
    - exists 0, s, own. split_and!; [done|by apply copied_refl|]. by left. }
  rewrite (bind_ok _ _ _ _ _ E1). destruct Hcase as [[-> Hb]|(-> & Hn & Hc)].
  2:{ rewrite decide_True by lia. exists (Some (-1)), s1, own1. rewrite decide_True in Hcp by done.
      split_and!; [done|apply Hcp|right; by split_and!]. }
  rewrite decide_False by lia. destruct Hcp as [Hinv1 Hps1 Hc1 Hpin1 Hrest1].
  destruct (same_procs_lookup _ _ _ _ Hps1 Hy) as (y1 & Hy1 & Hcy1).
  destruct (freeproc_pinv s1 own1 pp y1 Hinv1 Hy1) as (s' & own' & E2 & Hinv2 & _ & Hex & Hps2 & Hc2 & _).
  rewrite (bind_ok _ _ _ _ _ E2). exists (Some (p_pid y)), s', own'. split_and!; [done..|]. left. split; [done|].
  assert (∀ q r a, live s q r → q ≠ pp → 0 ≤ a < TRAPFRAME → user_byte s' q a = user_byte s1 q a) as Hub.
  { intros q r a Hq Hqp Ha. unfold user_byte. rewrite (Hex q r); [done|by apply (live_same s s1)|by apply PGROUNDDOWN_ok|done]. }
  split.
  - rewrite Hps2, !cores_alter by (intros []; done). by rewrite Hps1.
  - congruence.
  - intros q r a Hq Hqp Ha Hne. rewrite (Hub q r a Hq Hqp Ha). apply (Hrest1 q r a Hq Ha). intros [-> Hin].
    apply Hne. destruct (decide (addr ≠ 0)); [split_and!; [done..|lia|lia]|lia].
  - intros Hn Hpp i Hi. destruct Haddr as [?|[Ha1 Ha2]]; [done|].
    pose proof (running_size _ _ _ _ _ Hinv Hrun). rewrite (Hub p root); [by apply Hb|by eapply running_live|done|lia].
Qed.

(** ** [kexit] *)
Lemma quiet_trans d1 d2 d3 : quiet d1 d2 → (dev_inv d2 → quiet d2 d3) → quiet d1 d3.
Proof. intros [I1 P1] Hq. destruct (Hq I1) as [I2 P2]. split; [done|]. intros j Hj. by rewrite P2, P1. Qed.

Lemma quiet_refl d : dev_inv d → quiet d d.
Proof. by split. Qed.

Context `{!FileEnvSpec D}.

Definition closed_proc (x : proc) : proc := set_p_cwd 0 (set_p_ofile (replicate (length (p_ofile x)) 0) x).

Lemma on_disk_run s f d l : on_disk f (with_swapdev d (with_procs l s)) = Ok (tt, with_swapdev (f d) (with_procs l s)).
Proof. by destruct s. Qed.

Lemma upd_disk_run s p g d l :
  upd_proc p g (with_swapdev d (with_procs l s)) = Ok (tt, with_swapdev d (with_procs (alter g p l) s)).
Proof. by destruct s. Qed.

Lemma close_files_ok s p x :
  dev_inv (swapdev s) → procs s !! p = Some x →
  ∃ d, quiet (swapdev s) d ∧
    close_files p s = Ok (tt, with_swapdev d (with_procs (alter closed_proc p (procs s)) s)).
Proof.
  intros Hd Hx. unfold close_files. rewrite (bind_ok _ _ _ _ _ (get_proc_ok s p x Hx)). set (n := length (p_ofile x)).
  destruct (for_list_inv (λ k (_ : unit) s', ∃ l d, quiet (swapdev s) d ∧ length l = n ∧
      s' = with_swapdev d (with_procs (alter (set_p_ofile l) p (procs s)) s) ∧
      ∀ i, l !! i = if decide (i < k)%nat then (λ _, 0) <$> p_ofile x !! i else p_ofile x !! i)
    (seq 0 n) (λ fd _, close_fd p fd) tt s) as ([] & s1 & E & l & d & Hq & Hl & -> & Hlk).
  - exists (p_ofile x), (swapdev s). split_and!; [by apply quiet_refl|done| |].
    + rewrite (alter_same _ _ _ _ Hx); [by destruct s|by destruct x].
    + intros i. by rewrite decide_False by lia.
  - intros k i [] s' Hk (l & d & Hq & Hl & -> & Hlk). apply lookup_seq in Hk as [-> Hlt]. simpl.
    destruct (lookup_lt_is_Some_2 l k) as [f Hf]; [lia|]. pose proof (Hlk k) as Hk. rewrite decide_False in Hk by lia.
    unfold close_fd. erewrite bind_ok.
    2:{ apply get_proc_ok. simpl. by rewrite list_lookup_alter_eq, Hx. }
    simpl. change (p_ofile (set_p_ofile l x)) with l. rewrite (bind_ok _ _ _ f _) by (unfold deref; by rewrite Hf).
    destruct (decide (f ≠ 0)) as [Hn|Hn%dec_stable].
    + rewrite (bind_ok _ _ _ _ _ (on_disk_run _ _ _ _)), upd_disk_run.
      eexists tt, _. split; [done|]. exists (<[k := 0]> l), (fileclose f d). split_and!.
      * eapply quiet_trans; [done|]. apply fileclose_quiet.
      * by rewrite length_insert.
      * do 2 f_equal. rewrite alter_alter. apply (alter_as _ _ x); [done|]. by destruct x.
      * intros i. destruct (decide (i = k)) as [->|Hne].
        -- rewrite list_lookup_insert_eq, decide_True by lia. rewrite <- Hk, Hf. done.
        -- rewrite list_lookup_insert_ne, Hlk by done. destruct (decide (i < k)%nat); [by rewrite decide_True by lia|by rewrite decide_False by lia].
    + eexists tt, _. split; [reflexivity|]. exists l, d. split_and!; [done..|]. intros i. rewrite Hlk.
      destruct (decide (i = k)) as [->|Hne].
      * rewrite decide_False, decide_True by lia. rewrite <- Hk, Hf. simpl. by subst.
      * destruct (decide (i < k)%nat); [by rewrite decide_True by lia|by rewrite decide_False by lia].
  - rewrite (bind_ok _ _ _ _ _ E). rewrite length_seq in Hlk.
    assert (l = replicate n 0) as ->.
    { apply list_eq. intros i. rewrite Hlk. destruct (decide (i < n)%nat) as [Hi|Hi].
      - rewrite (lookup_replicate_2 n 0 i) by done. destruct (lookup_lt_is_Some_2 (p_ofile x) i) as [f ->]; [done|]. done.
      - rewrite !lookup_ge_None_2; [done|rewrite length_replicate; lia|lia]. }
    exists (end_op (iput (p_cwd x) (begin_op d))). split.
    + eapply quiet_trans; [|apply end_op_quiet]. eapply quiet_trans; [|apply iput_quiet].
      eapply quiet_trans; [done|apply begin_op_quiet].
    + rewrite (bind_ok _ _ _ _ _ (on_disk_run _ _ _ _)). erewrite bind_ok.
      2:{ apply get_proc_ok. simpl. by rewrite list_lookup_alter_eq, Hx. }
      rewrite !(bind_ok _ _ _ _ _ (on_disk_run _ _ _ _)), upd_disk_run. do 4 f_equal.
      rewrite alter_alter. apply (alter_as _ _ x); [done|]. by destruct x.
Qed.

(** The entry [i] after [reparent] looked at the first [k] entries. *)
Definition adopt (c ip : option nat) (p : nat) (seen orphans : bool) (i : nat) (x : proc) : proc :=
  let y := if seen && bool_decide (p_parent x = Some p) then set_p_parent ip x else x in
  if orphans then wake_proc c (chan_of ip) i y else y.

Lemma wake_set_parent c chan i q x :
  wake_proc c chan i (set_p_parent q x) = set_p_parent q (wake_proc c chan i x).
Proof. unfold wake_proc. destruct x. simpl. repeat case_decide; done. Qed.

Lemma wake_parent c chan i x : p_parent (wake_proc c chan i x) = p_parent x.
Proof. unfold wake_proc. destruct x. repeat case_decide; done. Qed.

Lemma wake_twice c chan i x : wake_proc c chan i (wake_proc c chan i x) = wake_proc c chan i x.
Proof. unfold wake_proc. destruct x. simpl. repeat (case_decide; simpl in *; try done); tauto || (destruct_and!; congruence). Qed.

Lemma adopt_parent c ip p b i x : p_parent (adopt c ip p false b i x) = p_parent x.
Proof. unfold adopt. destruct b; [apply wake_parent|done]. Qed.

(** Whether there is a child of [p] among the first [k] entries. *)
Definition orphans (p : nat) (k : nat) (l : list proc) : bool := bool_decide (Exists (child p) (take k l)).

Lemma orphans_S p k l x :
  l !! k = Some x → orphans p (S k) l = orphans p k l || bool_decide (child p x).
Proof.
  intros Hx. unfold orphans. rewrite (take_S_r _ _ _ Hx). apply eq_true_iff_eq.
  rewrite orb_true_iff, !bool_decide_eq_true, Exists_app, Exists_cons, Exists_nil. tauto.
Qed.

Lemma reparent_run s p :
  reparent p s = Ok (tt, with_procs (imap (adopt (cur s) (initproc s) p true (orphans p (length (procs s)) (procs s))) (procs s)) s).
Proof.
  unfold reparent. rewrite (bind_ok _ _ _ (procs s) s) by done. set (n := length (procs s)).
  edestruct (for_list_inv (λ k (_ : unit) s', ∃ l, s' = with_procs l s ∧
    ∀ i, l !! i = adopt (cur s) (initproc s) p (bool_decide (i < k)%nat) (orphans p k (procs s)) i <$> procs s !! i) (seq 0 n))
    as ([] & s' & E & l & -> & Hl); [..|rewrite E].
  - exists (procs s). split; [by destruct s|]. intros i. rewrite bool_decide_eq_false_2 by lia.
    unfold orphans. simpl. by destruct (procs s !! i).
  - intros k i [] s' Hk (l & -> & Hl). apply lookup_seq in Hk as [-> Hlt]. simpl.
    destruct (lookup_lt_is_Some_2 (procs s) k) as [x Hx]; [done|].
    pose proof (Hl k) as Hk. rewrite Hx, bool_decide_eq_false_2 in Hk by lia. simpl in Hk.
    rewrite (bind_ok _ _ _ _ _ (get_proc_ok (with_procs l s) k _ Hk)). rewrite adopt_parent. rewrite Nat.add_1_r.
    destruct (decide (p_parent x = Some p)) as [Hp|Hp].
    + rewrite (bind_ok _ _ _ (initproc s) (with_procs l s)) by done. rewrite (bind_ok _ _ _ _ _ (upd_proc_run _ _ _)).
      rewrite wakeup_run. eexists tt, _. split; [reflexivity|]. eexists. split; [by unfold with_procs|].
      intros i. rewrite list_lookup_imap. simpl. rewrite (orphans_S _ _ _ _ Hx), (bool_decide_eq_true_2 (child p x)), orb_true_r by done.
      destruct (decide (i = k)) as [->|Hne].
      * rewrite list_lookup_alter_eq, Hk, Hx. simpl. f_equal. rewrite bool_decide_eq_true_2 by lia. unfold adopt.
        rewrite (bool_decide_eq_true_2 (p_parent x = Some p)) by done. simpl.
        destruct (orphans p k (procs s)); [|done]. by rewrite !wake_set_parent, wake_twice.
      * rewrite list_lookup_alter_ne, Hl by done. destruct (procs s !! i) as [y|]; [|done]. simpl. f_equal.
        replace (bool_decide (i < S k)%nat) with (bool_decide (i < k)%nat) by (apply bool_decide_ext; lia).
        unfold adopt. destruct (orphans p k (procs s)); [by rewrite wake_twice|done].
    + eexists tt, _. split; [reflexivity|]. exists l. split; [done|]. intros i.
      rewrite Hl, (orphans_S _ _ _ _ Hx), (bool_decide_eq_false_2 (child p x)), orb_false_r by done.
      destruct (decide (i = k)) as [->|Hne].
      * rewrite Hx. simpl. f_equal. rewrite bool_decide_eq_false_2, bool_decide_eq_true_2 by lia. unfold adopt.
        by rewrite (bool_decide_eq_false_2 (p_parent x = Some p)) by done.
      * by replace (bool_decide (i < S k)%nat) with (bool_decide (i < k)%nat) by (apply bool_decide_ext; lia).
  - rewrite length_seq in Hl. do 3 f_equal. apply list_eq. intros i. rewrite Hl, list_lookup_imap.
    destruct (procs s !! i) as [y|] eqn:Hy; [|done]. simpl. apply lookup_lt_Some in Hy. by rewrite bool_decide_eq_true_2.
Qed.

Lemma same_hold_refl x : same_hold x x.
Proof. done. Qed.

Lemma same_hold_trans x y z : same_hold x y → same_hold y z → same_hold x z.
Proof. intros (A1 & A2 & A3 & A4) (B1 & B2 & B3 & B4). split_and!; [congruence..|]. by rewrite B4. Qed.

Lemma wake_hold c chan i x : same_hold x (wake_proc c chan i x).
Proof.
  unfold wake_proc. case_decide; [done|]. case_decide as Hs; [|done]. destruct Hs as [Hs _].
  split_and!; [done..|]. rewrite Hs. by destruct x.
Qed.

Lemma adopt_hold c ip p a b i x : same_hold x (adopt c ip p a b i x).
Proof.
  unfold adopt. assert (same_hold x (if a && bool_decide (p_parent x = Some p) then set_p_parent ip x else x)) as Hx.
  { by destruct (a && _); [destruct x|]. }
  destruct b; [|done]. eapply same_hold_trans; [done|apply wake_hold].
Qed.

(** What waking leaves alone, and the state it gives. *)
Lemma wake_ids c chan i x :
  let y := wake_proc c chan i x in
  p_pid y = p_pid x ∧ p_parent y = p_parent x ∧ p_chan y = p_chan x ∧ p_xstate y = p_xstate x ∧
  p_ofile y = p_ofile x ∧ p_cwd y = p_cwd x.
Proof. unfold wake_proc. case_decide; [done|]. case_decide; [|done]. by destruct x. Qed.

Lemma wake_state c chan i x :
  c ≠ Some i → p_state (wake_proc c chan i x) =
    if decide (p_state x = SLEEPING ∧ p_chan x = chan) then RUNNABLE else p_state x.
Proof. intros Hc. unfold wake_proc. rewrite decide_False by done. case_decide; [by destruct x|done]. Qed.

Lemma adopt_ids c ip p b i x :
  let y := adopt c ip p true b i x in
  p_pid y = p_pid x ∧ p_parent y = (if decide (child p x) then ip else p_parent x) ∧ p_chan y = p_chan x ∧
  p_ofile y = p_ofile x ∧ p_cwd y = p_cwd x.
Proof.
  unfold adopt. simpl. assert (∀ z, p_pid z = p_pid x ∧ p_parent z = (if decide (child p x) then ip else p_parent x) ∧
    p_chan z = p_chan x ∧ p_ofile z = p_ofile x ∧ p_cwd z = p_cwd x →
    let y := if b then wake_proc c (chan_of ip) i z else z in
    p_pid y = p_pid x ∧ p_parent y = (if decide (child p x) then ip else p_parent x) ∧ p_chan y = p_chan x ∧
    p_ofile y = p_ofile x ∧ p_cwd y = p_cwd x) as Hz.
  { intros z Hz. cbv zeta. destruct b; [|done]. destruct (wake_ids c (chan_of ip) i z) as (-> & -> & -> & _ & -> & ->). done. }
  apply Hz. destruct (decide (child p x)) as [Hc|Hc].
  - rewrite bool_decide_eq_true_2 by done. by destruct x.
  - by rewrite bool_decide_eq_false_2.
Qed.

Lemma adopt_state c ip p b i x :
  c ≠ Some i → p_state (adopt c ip p true b i x) =
    if decide (b = true ∧ p_state x = SLEEPING ∧ p_chan x = chan_of ip) then RUNNABLE else p_state x.
Proof.
  intros Hc. unfold adopt. simpl.
  assert (p_state (if bool_decide (p_parent x = Some p) then set_p_parent ip x else x) = p_state x ∧
    p_chan (if bool_decide (p_parent x = Some p) then set_p_parent ip x else x) = p_chan x) as [E1 E2].
  { by case_bool_decide; [destruct x|]. }
  destruct b.
  - rewrite wake_state, E1, E2 by done. apply decide_ext. tauto.
  - rewrite E1, decide_False by naive_solver. done.
Qed.

(** The process [p], found as [x], has exited with [status]. *)
Record exited s s' (p : nat) (x : proc) (status : Z) : Prop := {
  ex_zombie : ∃ x', procs s' !! p = Some x' ∧ p_state x' = ZOMBIE ∧ p_xstate x' = status ∧
    p_parent x' = p_parent x ∧ p_pid x' = p_pid x ∧ p_pagetable x' = p_pagetable x ∧
    p_ofile x' = replicate (length (p_ofile x)) 0 ∧ p_cwd x' = 0;
  ex_others : ∀ q y, q ≠ p → procs s !! q = Some y → ∃ y', procs s' !! q = Some y' ∧ p_pid y' = p_pid y ∧
    p_parent y' = (if decide (child p y) then initproc s else p_parent y) ∧
    p_state y' = if decide (p_state y = SLEEPING ∧ (p_chan y = chan_of (p_parent x) ∨
        (p_chan y = chan_of (initproc s) ∧ Exists (child p) (procs s)))) then RUNNABLE else p_state y;
  ex_cur : cur s' = None;
}.

Lemma exists_child_alter p ps : Exists (child p) (alter closed_proc p ps) ↔ Exists (child p) ps.
Proof.
  rewrite !Exists_exists. split; intros (y & [i Hy]%list_elem_of_lookup & Hc).
  - destruct (decide (i = p)) as [->|Hne].
    + rewrite list_lookup_alter_eq in Hy. apply fmap_Some in Hy as (x & Hx & ->). exists x.
      split; [by eapply list_elem_of_lookup_2|by destruct x].
    + rewrite list_lookup_alter_ne in Hy by done. exists y. split; [by eapply list_elem_of_lookup_2|done].
  - destruct (decide (i = p)) as [->|Hne].
    + exists (closed_proc y). split; [|by destruct y]. apply (list_elem_of_lookup_2 _ p). by rewrite list_lookup_alter_eq, Hy.
    + exists y. split; [|done]. apply (list_elem_of_lookup_2 _ i). by rewrite list_lookup_alter_ne.
Qed.

(** The process table that [kexit] leaves. *)
Definition exit_table s (p : nat) (parent : option nat) (status : Z) : list proc :=
  alter (λ x, set_p_state ZOMBIE (set_p_xstate status x)) p (imap (wake_proc (Some p) (chan_of parent))
    (imap (adopt (Some p) (initproc s) p true (bool_decide (Exists (child p) (procs s)))) (alter closed_proc p (procs s)))).

Lemma kexit_run s p x status :
  dev_inv (swapdev s) → cur s = Some p → procs s !! p = Some x → initproc s ≠ Some p → p_parent x ≠ Some p →
  ∃ d, quiet (swapdev s) d ∧
    kexit status s = Ok (tt, with_cur None (with_procs (exit_table s p (p_parent x) status) (with_swapdev d s))).
Proof.
  intros Hd Hcur Hx Hip Hpar. destruct (close_files_ok s p x Hd Hx) as (d & Hq & E1). exists d. split; [done|].
  unfold kexit. rewrite (bind_ok _ _ _ (Some p) s) by (unfold gets; by rewrite Hcur). rewrite (bind_ok _ _ _ p s) by done.
  rewrite (bind_ok _ _ _ (initproc s) s) by done. rewrite decide_False by done. rewrite (bind_ok _ _ _ _ _ E1).
  set (l1 := alter closed_proc p (procs s)). set (s1 := with_swapdev d (with_procs l1 s)).
  rewrite (bind_ok _ _ _ _ _ (reparent_run s1 p)). change (procs s1) with l1. change (cur s1) with (cur s). rewrite Hcur.
  change (initproc s1) with (initproc s).
  assert (orphans p (length l1) l1 = bool_decide (Exists (child p) (procs s))) as ->.
  { unfold orphans. rewrite take_ge by done. apply bool_decide_ext, exists_child_alter. }
  set (l2 := imap (adopt (Some p) (initproc s) p true (bool_decide (Exists (child p) (procs s)))) l1).
  destruct (adopt_ids (Some p) (initproc s) p (bool_decide (Exists (child p) (procs s))) p (closed_proc x)) as (_ & Hpx & _).
  rewrite decide_False in Hpx by (intros Hc; by apply Hpar; destruct x).
  assert (procs (with_procs l2 s1) !! p = Some (adopt (Some p) (initproc s) p true (bool_decide (Exists (child p) (procs s))) p (closed_proc x))) as Hx2.
  { rewrite procs_with. unfold l2, l1. by rewrite list_lookup_imap, list_lookup_alter_eq, Hx. }
  rewrite (bind_ok _ _ _ _ _ (get_proc_ok _ _ _ Hx2)), Hpx.
  rewrite (bind_ok _ _ _ _ _ (wakeup_run _ _)), upd_upd. change (cur (with_procs l2 s1)) with (cur s). rewrite Hcur.
  replace (p_parent (closed_proc x)) with (p_parent x) by by destruct x.
  rewrite (bind_ok _ _ _ _ _ (upd_proc_run _ _ _)). unfold modify. done.
Qed.

Lemma kexit_ok s own p x status :
  pinv s own → cur s = Some p → procs s !! p = Some x → p_state x ≠ UNUSED → initproc s ≠ Some p → p_parent x ≠ Some p →
  ∃ s', kexit status s = Ok (tt, s') ∧ pinv s' own ∧ kept s s' ∧ exited s s' p x status.
Proof.
  intros Hinv Hcur Hx Hu Hip Hpar. pose proof Hinv as (Hv & Hcok & Hpok).
  destruct (kexit_run s p x status (vi_dev _ _ Hv) Hcur Hx Hip Hpar) as (d & Hq & E).
  destruct (quiet_dev s own d Hv Hq) as [Hv1 Hpg1]. set (s1 := with_swapdev d s) in *.
  assert (pinv s1 own) as Hinv1 by done. set (e := bool_decide (Exists (child p) (procs s))) in *.
  set (ps := exit_table s p (p_parent x) status) in *.
  assert (∀ q y, q ≠ p → procs s !! q = Some y → ps !! q = Some (wake_proc (Some p) (chan_of (p_parent x)) q (adopt (Some p) (initproc s) p true e q y))) as Hoth.
  { intros q y Hne Hy. unfold ps, exit_table. rewrite list_lookup_alter_ne, !list_lookup_imap, list_lookup_alter_ne, Hy by done. done. }
  set (x2 := adopt (Some p) (initproc s) p true e p (closed_proc x)).
  set (x3 := wake_proc (Some p) (chan_of (p_parent x)) p x2).
  assert (ps !! p = Some (set_p_state ZOMBIE (set_p_xstate status x3))) as Hp.
  { unfold ps, exit_table. by rewrite list_lookup_alter_eq, !list_lookup_imap, list_lookup_alter_eq, Hx. }
  assert (same_hold x x3) as Hh3.
  { eapply same_hold_trans; [|apply wake_hold]. eapply same_hold_trans; [|apply adopt_hold]. by destruct x. }
  destruct (pinv_table s1 own ps None Hinv1) as [Hinv2 Hk2].
  { split; [unfold ps, exit_table; rewrite length_alter, !length_imap; by rewrite length_alter|].
    intros q y Hy. destruct (decide (q = p)) as [->|Hne].
    - assert (y = x) as -> by (change (procs s !! p = Some y) in Hy; congruence). eexists. split; [exact Hp|].
      destruct Hh3 as (A1 & A2 & A3 & A4). split_and!; [exact A1|exact A2|exact A3|]. by split.
    - eexists. split; [by apply Hoth|]. eapply same_hold_trans; [apply adopt_hold|apply wake_hold]. }
  { done. }
  exists (with_cur None (with_procs ps s1)). split_and!; [done|done|by eapply kept_trans; [eapply paged_kept|]|].
  split; [| |done].
  - eexists. split; [exact Hp|].
    destruct (wake_ids (Some p) (chan_of (p_parent x)) p x2) as (W1 & W2 & _ & _ & W5 & W6).
    destruct (adopt_ids (Some p) (initproc s) p e p (closed_proc x)) as (A1 & A2 & _ & A4 & A5).
    rewrite decide_False in A2 by (intros Hc; by apply Hpar; destruct x).
    fold x3 in W1, W2, W5, W6. fold x2 in A1, A2, A4, A5. split_and!; [done|done|..].
    + change (p_parent x3 = p_parent x). rewrite W2, A2. by destruct x.
    + change (p_pid x3 = p_pid x). rewrite W1, A1. by destruct x.
    + change (p_pagetable x3 = p_pagetable x). apply Hh3.
    + change (p_ofile x3 = replicate (length (p_ofile x)) 0). rewrite W5, A4. by destruct x.
    + change (p_cwd x3 = 0). rewrite W6, A5. by destruct x.
  - intros q y Hne Hy. eexists. split; [by apply Hoth|]. assert (Some p ≠ Some q) as Hnq by congruence.
    destruct (wake_ids (Some p) (chan_of (p_parent x)) q (adopt (Some p) (initproc s) p true e q y)) as (-> & -> & W3 & _).
    destruct (adopt_ids (Some p) (initproc s) p e q y) as (-> & -> & A3 & _). split_and!; [done..|].
    rewrite wake_state, adopt_state, A3 by done.
    assert (e = true ↔ Exists (child p) (procs s)) as He by apply bool_decide_eq_true.
    repeat case_decide; first [done|tauto|naive_solver].
Qed.
End reap.
