(* ===== verification/ProcBoot.v ===== *)
(** * The process table at boot, and growing in place

    [procinit] and [userinit] after [kinit] establish the invariant of the
    process table; a larger [p->sz] keeps it. *)
From S2P Require Import Prelude Interfaces Mem KState Kmem PageTable Frames Paging Vm Fault Boot.
From S2P Require Import Spaces Fork Teardown Sched Proc ProcMem ProcTable UserCopy Kfork Reap.
Local Open Scope Z_scope.

Section boot.
Context `{Sv39} `{!ProcEnv} `{!Chans} {D : Type} `{!SwapDev D} `{!SwapDevSpec D}.
Implicit Types s : kernel D.

(** The process table before [procinit]: zeroed. *)
Definition zeroed (x : proc) : Prop := p_pagetable x = 0 ∧ p_trapframe x = 0 ∧ p_sz x = 0.

Lemma procinit_ok s own :
  vinv s own → no_users own → Forall zeroed (procs s) → cur s = None →
  ∃ s', procinit s = Ok (tt, s') ∧ pinv s' own ∧ cur s' = None ∧ nextpid s' = nextpid s ∧
    Forall (λ x, p_state x = UNUSED ∧ zeroed x) (procs s') ∧ length (procs s') = length (procs s).
Proof.
  intros Hv Hof Hz Hc. eexists. split; [reflexivity|]. set (ps := imap _ _).
  assert (∀ i y, ps !! i = Some y → p_state y = UNUSED ∧ zeroed y) as Hps.
  { intros i y. unfold ps. rewrite list_lookup_imap. destruct (procs s !! i) as [x|] eqn:Hx; [|done]. simpl.
    intros [= <-]. split; [by destruct x|]. eapply Forall_lookup_1 in Hz; [|done]. by destruct x. }
  assert (same_roots (procs s) ps) as Hroots.
  { apply list_eq. intros i. rewrite !list_lookup_fmap. unfold ps. rewrite list_lookup_imap.
    destruct (procs s !! i) as [x|]; [|done]. by destruct x. }
  destruct (vinv_procs s own ps Hv Hroots) as [Hv' _].
  split_and!; [split_and!; [done|by intros c ?; simpl in *; congruence|]|done|done| |apply length_imap].
  - split.
    + intros i y Hy. destruct (Hps i y Hy) as (_ & Z1 & Z2 & Z3). split; by rewrite ?Z1, ?Z2.
    + intros i y Hy _. by destruct (Hps i y Hy).
    + intros i y Hy Hn. by destruct (Hps i y Hy).
    + intros a p Ha. destruct (Hof a) as [?|[?|?]]; congruence.
    + intros a r l pre Ha. destruct (Hof a) as [?|[?|?]]; congruence.
  - apply Forall_lookup_2. intros i y. apply Hps.
Qed.

(** Another size, above all pages the tree of the process holds now. *)
Lemma pinv_resized s own own' p x sz :
  pok (procs s) own → vinv s own' → cur_ok s → procs s !! p = Some x → p_pagetable x ≠ 0 → 0 ≤ sz ≤ TRAPFRAME →
  (∀ a q, own a = RPin q → own' a = RPin q) → confined (p_pagetable x) own own' →
  (∀ a v, own' a = RPage (p_pagetable x) v → v < PGROUNDUP sz) →
  let s' := with_procs (alter (set_p_sz sz) p (procs s)) s in pinv s' own' ∧ kept s s'.
Proof.
  intros Hpok Hv Hcur Hx Hr Hsz Hpin Hcf Hpg s'.
  destruct (procs_kept s own' (alter (set_p_sz sz) p (procs s)) Hv) as [Hv' Hk]; [by apply same_roots_alter|].
  split; [|done]. split_and!; [done|by eapply cur_ok_alter|]. change (procs s') with (alter (set_p_sz sz) p (procs s)).
  assert (p_state x ≠ UNUSED) as Hu by (intros Hu; destruct (pk_unused _ _ Hpok p x Hx Hu); congruence).
  eapply (pok_resize (procs s) own); [done|exact Hx|done|done|done|done|done|done|done| | |done|done].
  - intros q z Hq Hz Hzr. apply Hq. eapply (vi_roots _ _ Hv q p (p_pagetable x)); [exists z|exists x]; split_and!; congruence.
  - intros a q. split; [apply Hpin|]. intros Ha. destruct (Hcf a) as [<-|[_ Hm]]; [done|]. by rewrite Ha in Hm.
Qed.

Lemma pinv_resize s own p x sz :
  pinv s own → procs s !! p = Some x → p_pagetable x ≠ 0 → 0 ≤ sz ≤ TRAPFRAME →
  (∀ a v, own a = RPage (p_pagetable x) v → v < PGROUNDUP sz) →
  let s' := with_procs (alter (set_p_sz sz) p (procs s)) s in pinv s' own ∧ kept s s'.
Proof. intros (Hv & Hcur & Hpok) Hx Hr Hsz Hpg. eapply pinv_resized; [done..|apply confined_refl|done]. Qed.

Lemma PGROUNDUP_mono a b : 0 ≤ a ≤ b → b ≤ TRAPFRAME → PGROUNDUP a ≤ PGROUNDUP b.
Proof.
  intros Ha Hb. pose proof PGSIZE_4096. unfold PGROUNDUP.
  pose proof MAXVA_range. pose proof TRAMPOLINE_top. pose proof TRAPFRAME_below. rewrite !u64_id by lia.
  apply Z.mul_le_mono_nonneg_r; [lia|]. apply Z.div_le_mono; lia.
Qed.

(** A larger size. *)
Lemma pinv_size s own p x sz :
  pinv s own → procs s !! p = Some x → p_pagetable x ≠ 0 → p_sz x ≤ sz ≤ TRAPFRAME →
  let s' := with_procs (alter (set_p_sz sz) p (procs s)) s in pinv s' own ∧ kept s s'.
Proof.
  intros Hinv Hx Hr Hsz. pose proof Hinv as (_ & _ & Hpok). destruct (pk_holds _ _ Hpok p x Hx) as [_ K2].
  destruct (K2 Hr) as [Hs K3]. apply (pinv_resize s own p x sz); [done..|lia|]. intros a v Ha.
  pose proof (K3 a v Ha). pose proof (PGROUNDUP_mono (p_sz x) sz). lia.
Qed.

(** The first process. *)
Lemma userinit_ok s own root_dir :
  pinv s own →
  userinit root_dir s = Ub ∨
  ∃ s' own' p x, userinit root_dir s = Ok (tt, s') ∧ pinv s' own' ∧ kept s s' ∧ cur s' = cur s ∧ initproc s' = Some p ∧
    procs s' !! p = Some x ∧ p_state x = RUNNABLE ∧ p_cwd x = root_dir ∧ p_pid x = nextpid s ∧ p_pagetable x ≠ 0 ∧
    ∃ z, procs s !! p = Some z ∧ p_parent x = p_parent z ∧ (p_level x, p_ticks_used x, p_ticks x) = (0, 0, [0; 0; 0; 0]) ∧
      ∀ q, q ≠ p → procs s' !! q = procs s !! q.
Proof.
  intros Hinv. destruct (allocproc_ok s own Hinv) as (o & s1 & own1 & E & Hinv1 & Hk & _ & Hc & Ho).
  unfold userinit. rewrite (bind_ok _ _ _ _ _ E). destruct o as [p|]; [right|by left].
  destruct Ho as (root & tf & [(z & Hz & _) Hps [Hr _] _ _ _]).
  rewrite (bind_ok _ _ _ tt (with_initproc (Some p) s1)) by done.
  rewrite (bind_ok _ _ _ p (with_initproc (Some p) s1)) by done.
  set (f := λ x, set_p_state RUNNABLE (set_p_cwd root_dir x)). set (y := new_proc (nextpid s) root tf z).
  assert (procs s1 !! p = Some y) as Hy by (rewrite Hps, list_lookup_alter_eq, Hz; reflexivity).
  assert (p_state y = USED ∧ p_pagetable y = root ∧ p_pid y = nextpid s ∧ p_parent y = p_parent z ∧
    (p_level y, p_ticks_used y, p_ticks y) = (0, 0, [0; 0; 0; 0])) as (Y1 & Y2 & Y3 & Y4 & Y5) by done. clearbody y.
  assert (pinv (with_initproc (Some p) s1) own1 ∧ kept s1 (with_initproc (Some p) s1)) as [Hinv2 Hk2].
  { split; [|done]. destruct Hinv1 as (Hv1 & ? & ?). split_and!; [by destruct Hv1|done|done]. }
  destruct (pinv_table (with_initproc (Some p) s1) own1 (alter f p (procs s1)) (cur s1) Hinv2) as [Hinv3 Hk3].
  { eapply same_holds_alter; [done|]. split_and!; [by destruct y..|]. rewrite Y1. by split. }
  { intros i Hi. destruct Hinv1 as (_ & Hcok & _). destruct (Hcok i Hi) as [w Hw].
    destruct (decide (i = p)) as [->|]; [rewrite list_lookup_alter_eq|rewrite list_lookup_alter_ne by done];
      rewrite Hw; by eexists. }
  eexists _, own1, p, (f y). split_and!; [|exact Hinv3| |done|done| |by destruct y|by destruct y|by destruct y|by destruct y; simpl in *; congruence|].
  - rewrite (bind_ok _ _ _ _ _ (upd_proc_run _ _ _)), upd_proc_run. simpl. rewrite alter_alter. by destruct s1.
  - eapply kept_trans; [done|]. by eapply kept_trans.
  - simpl. by rewrite list_lookup_alter_eq, Hy.
  - exists z. split_and!; [done|by destruct y|by destruct y|]. intros q Hq. simpl. by rewrite list_lookup_alter_ne, Hps, list_lookup_alter_ne.
Qed.
End boot.
