(* ===== verification/Grow.v ===== *)
(** * Changing the size of a process (vm.c:293-339, proc.c:330-353)

    [uvmdealloc] releases the pages between two sizes, [uvmalloc] maps zero
    pages there or leaves everything as it was, and [growproc] does either
    for the running process. *)
From S2P Require Import Prelude Interfaces Mem KState Kmem PageTable Frames Paging Vm Fault Boot.
From S2P Require Import Spaces Fork Teardown Sched Proc Keeps ProcMem ProcTable UserCopy Kfork Reap ProcBoot.
Local Open Scope Z_scope.

Section grow.
Context `{Sv39} `{!ProcEnv} {D : Type} `{!SwapDev D} `{!SwapDevSpec D}.
Implicit Types s : kernel D.

(** ** Shrinking *)
(** Pages of [p] at and above [lo] are gone, with their swap entries; all
    other pages of everybody are as before. *)
Record shrunk s s' (p : nat) (root lo hi : Z) : Prop := {
  sh_rest : ∀ q r v, live s q r → va_ok v → ¬ (q = p ∧ lo ≤ v < hi) → user_page s' q v = user_page s q v;
  sh_gone : ∀ v, va_ok v → lo ≤ v < hi → user_page s' p v = replicate pgsize 0;
}.

Lemma pok_released ps own own' root : released own own' root → pok ps own → pok ps own'.
Proof.
  intros Hrel [K U V P T].
  assert (∀ a r, own' a = r → r ≠ RFree → own a = r) as Hb by (intros a r Ha Hr; destruct (Hrel a) as [<-|[? _]]; congruence).
  split; [|done|done| |].
  - intros p x Hx. destruct (K p x Hx) as [K1 K2]. split.
    + intros Ht. destruct (Hrel (p_trapframe x)) as [->|[_ [v Hv]]]; [auto|]. rewrite K1 in Hv by done. done.
    + intros Hr. destruct (K2 Hr) as [? K3]. split; [done|]. intros a v Ha%Hb; [by eapply K3|done].
  - intros a p Ha%Hb; [auto|done].
  - intros a r l pre Ha%Hb; [by eapply T|done].
Qed.

Lemma pinv_unmapped s own s' own' root : pinv s own → vinv s' own' → unmapped s own s' own' root → pinv s' own'.
Proof.
  intros (_ & Hcur & Hpok) Hv' [Hps Hc _ Hrel _ _ _]. split_and!; [done|by eapply cur_ok_same|].
  eapply pok_core; [exact Hps|]. by eapply pok_released.
Qed.

Lemma page_count lo hi :
  0 ≤ lo ≤ hi → hi ≤ TRAPFRAME → (PGSIZE | lo) → (PGSIZE | hi) →
  u64 (i32 ((hi - lo) / PGSIZE)) = (hi - lo) / PGSIZE ∧ lo + (hi - lo) / PGSIZE * PGSIZE = hi.
Proof.
  intros Hlo Hhi [a ->] [b ->]. pose proof PGSIZE_4096 as Hpg. pose proof MAXVA_range. pose proof TRAMPOLINE_top. pose proof TRAPFRAME_below.
  replace (b * PGSIZE - a * PGSIZE) with ((b - a) * PGSIZE) by lia. rewrite Z.div_mul by lia.
  rewrite i32_id, u64_id by lia. split; lia.
Qed.

(** The pages between two sizes are released. *)
Lemma uvmdealloc_ok s own p root o n :
  vinv s own → cur_ok s → cur s = Some p → live s p root → 0 ≤ n ≤ o → o ≤ TRAPFRAME →
  ∃ s' own', uvmdealloc root o n s = Ok (n, s') ∧ vinv s' own' ∧ unmapped s own s' own' root ∧
    (∀ q r v, live s q r → va_ok v → ¬ (q = p ∧ PGROUNDUP n ≤ v < PGROUNDUP o) → user_page s' q v = user_page s q v) ∧
    (∀ v, va_ok v → PGROUNDUP n ≤ v < PGROUNDUP o → fresh s' own' p root v).
Proof.
  intros Hv Hcok Hc Hl Hn Ho. pose proof PGSIZE_4096 as Hpg.
  destruct (PGROUNDUP_user n) as [Hal1 Hup1]; [lia|]. destruct (PGROUNDUP_user o) as [Hal2 Hup2]; [lia|].
  unfold uvmdealloc. destruct (decide (o ≤ n)) as [Hle|Hlt].
  { assert (o = n) as -> by lia. exists s, own. split_and!; [done|done|apply unmapped_refl|done|lia]. }
  destruct (decide (PGROUNDUP n < PGROUNDUP o)) as [Hlt'|Hge].
  2:{ exists s, own. split_and!; [done|done|apply unmapped_refl|done|lia]. }
  destruct (page_count (PGROUNDUP n) (PGROUNDUP o)) as [En Eend]; [lia|lia|done|done|].
  set (k := (PGROUNDUP o - PGROUNDUP n) / PGSIZE) in *. rewrite En.
  destruct (uvmunmap_ok s own p root (PGROUNDUP n) k Hv Hl) as (s1 & own1 & E & Hv1 & Hout & Hum & Hin); [done|done|lia| |lia|].
  { unfold k. apply Z.div_pos; lia. }
  exists s1, own1. split_and!; [by rewrite (bind_ok _ _ _ _ _ E)|done|done| |].
  - intros q r v Hq Hvv Hne. apply (Hout q r v Hq Hvv). unfold in_pages. by rewrite Eend.
  - intros v Hvv Hi. destruct (Hin v Hvv) as [? Hno]; [unfold in_pages; by rewrite Eend|]. split; auto.
Qed.

Lemma fresh_page s own p root v : vinv s own → live s p root → va_ok v → fresh s own p root v → user_page s p v = replicate pgsize 0.
Proof. intros Hv Hl Hvv [Hno Hne]. by apply (user_page_none s own p root v). Qed.

(** A size below the entries of the process, which are those it had. *)
Lemma swap_low_resized s s' p x sz :
  swap_low s → sub_entries s s' → procs s !! p = Some x →
  core <$> procs s' = core <$> alter (set_p_sz sz) p (procs s) →
  (∀ i e, swap_map s' !! i = Some e → s_used e = true → s_proc e = Some p → s_va e < PGROUNDUP (p_sz x) → s_va e < PGROUNDUP sz) →
  swap_low s'.
Proof.
  intros Hlow Hsub Hx Hps Hp i e q y Hi Hu He Hy. apply (f_equal (.!! q)) in Hps. rewrite !list_lookup_fmap, Hy in Hps.
  symmetry in Hps. apply fmap_Some in Hps as (z & Hz & Hcz). pose proof (f_equal p_sz Hcz) as Hsz. simpl in Hsz. rewrite Hsz.
  destruct (decide (q = p)) as [->|Hne].
  - rewrite list_lookup_alter_eq, Hx in Hz. injection Hz as <-. eapply Hp; [done..|]. by eapply (Hlow i e); [apply Hsub|..].
  - rewrite list_lookup_alter_ne in Hz by done. by eapply (Hlow i e); [apply Hsub|..].
Qed.

(** ** The running process *)
Lemma growproc_run s p x n :
  cur s = Some p → procs s !! p = Some x →
  growproc n s =
    (if decide (0 < n) then
       if decide (TRAPFRAME < u64 (p_sz x + n)) then ret (-1) else
       let* sz' := uvmalloc (p_pagetable x) (p_sz x) (u64 (p_sz x + n)) PTE_W in
       if decide (sz' = 0) then ret (-1) else upd_proc p (set_p_sz sz') ;;; ret 0
     else if decide (n < 0) then
       let* sz' := uvmdealloc (p_pagetable x) (p_sz x) (u64 (p_sz x + n)) in upd_proc p (set_p_sz sz') ;;; ret 0
     else upd_proc p (set_p_sz (p_sz x)) ;;; ret 0) s.
Proof.
  intros Hc Hx. unfold growproc. rewrite (bind_ok _ _ _ (Some p) s) by (unfold gets; by rewrite Hc).
  rewrite (bind_ok _ _ _ p s) by done. by rewrite (bind_ok _ _ _ _ _ (get_proc_ok s p x Hx)).
Qed.

(** A change of zero, and one below address 0, which wraps around, are no
    change. *)
Lemma growproc_same s p x n :
  cur s = Some p → procs s !! p = Some x → 0 ≤ p_sz x ≤ TRAPFRAME → - 2 ^ 31 ≤ n → n = 0 ∨ p_sz x + n < 0 →
  growproc n s = Ok (0, s).
Proof.
  intros Hc Hx Hsz Hn Hcase. rewrite (growproc_run s p x n Hc Hx). rewrite decide_False by lia.
  assert ((upd_proc p (set_p_sz (p_sz x)) ;;; ret 0) s = Ok (0, s)) as E.
  { rewrite (bind_ok _ _ _ _ _ (upd_proc_run _ _ _)). rewrite (alter_same _ _ x); [by destruct s|done|by destruct x]. }
  case_decide; [|done]. unfold uvmdealloc. rewrite decide_True; [by rewrite bind_ret_l|].
  pose proof MAXVA_range. pose proof TRAMPOLINE_top. pose proof TRAPFRAME_below. pose proof PGSIZE_4096.
  unfold u64. rewrite <- (Z_mod_plus_full _ 1). rewrite Z.mod_small by lia. lia.
Qed.

(** [growproc] of a negative number. *)
Lemma growproc_shrink_ok s own p x n :
  pinv s own → cur s = Some p → procs s !! p = Some x → p_pagetable x ≠ 0 → n < 0 → 0 ≤ p_sz x + n →
  ∃ s' own', growproc n s = Ok (0, s') ∧ pinv s' own' ∧
    core <$> procs s' = core <$> alter (set_p_sz (p_sz x + n)) p (procs s) ∧
    shrunk s s' p (p_pagetable x) (PGROUNDUP (p_sz x + n)) (PGROUNDUP (p_sz x)) ∧
    cur s' = cur s ∧ pinned s own s' own' ∧ (swap_low s → swap_low s') ∧
    ∀ a v, own a = RPage (p_pagetable x) v → PGROUNDUP (p_sz x + n) ≤ v → own' a = RFree.
Proof.
  intros Hinv Hc Hx Hr Hn Hsz. set (root := p_pagetable x) in *. pose proof Hinv as (Hv & Hcok & Hpok).
  destruct (pk_holds _ _ Hpok p x Hx) as [_ Hh]. destruct (Hh Hr) as [Hszx Hpages].
  assert (live s p root) as Hl by by exists x. pose proof PGSIZE_4096 as Hpg.
  pose proof MAXVA_range. pose proof TRAMPOLINE_top. pose proof TRAPFRAME_below.
  set (nsz := p_sz x + n) in *. assert (0 ≤ nsz ≤ TRAPFRAME) as Hnsz by (unfold nsz; lia).
  destruct (uvmdealloc_ok s own p root (p_sz x) nsz Hv Hcok Hc Hl) as (s1 & own1 & E & Hv1 & Hum & Hrest & Hgone); [unfold nsz; lia|lia|].
  pose proof (um_procs _ _ _ _ _ Hum) as Hps. pose proof (pinv_unmapped _ _ _ _ _ Hinv Hv1 Hum) as Hinv1.
  assert (live s1 p root) as Hl1 by (by apply (live_same s s1 _ _ Hps)).
  destruct (same_procs_lookup _ _ _ _ Hps Hx) as (x1 & Hx1 & Hcx1). pose proof (core_pagetable _ _ Hcx1) as Hr1. fold root in Hr1.
  assert (∀ a v, PGROUNDUP nsz ≤ v → own1 a ≠ RPage root v) as Hno.
  { intros a v Hle Ha. pose proof (page_va_ok _ _ _ _ _ _ (vi_tree _ _ Hv1) Ha) as Hvv.
    assert (v < PGROUNDUP (p_sz x)) by (apply (Hpages a); by eapply released_page; [apply Hum|]).
    by apply (proj1 (Hgone v Hvv ltac:(lia)) a). }
  destruct (pinv_resize s1 own1 p x1 nsz Hinv1 Hx1) as [Hinv2 Hk2]; [congruence|done| |].
  { intros a v Ha. rewrite Hr1 in Ha. destruct (decide (PGROUNDUP nsz ≤ v)); [by destruct (Hno a v)|lia]. }
  set (s' := with_procs (alter (set_p_sz nsz) p (procs s1)) s1) in *.
  assert (core <$> procs s' = core <$> alter (set_p_sz nsz) p (procs s)) as Hcores.
  { unfold s'. rewrite procs_with, !cores_alter by (intros []; done). by rewrite Hps. }
  exists s', own1. split_and!; [|done|done| |exact (um_cur _ _ _ _ _ Hum)|exact (um_pin _ _ _ _ _ Hum)| |].
  - rewrite (growproc_run s p x n Hc Hx). rewrite decide_False, decide_True by lia. fold nsz root.
    rewrite u64_id by (unfold nsz in *; lia). by rewrite (bind_ok _ _ _ _ _ E).
  - split.
    + intros q r v Hq Hvv Hne. rewrite (proj2 Hk2 q r v); [by eapply Hrest|by apply (live_same s s1)|done].
    + intros v Hvv Hi. rewrite (proj2 Hk2 p root v); [|done|done]. by apply (fresh_page s1 own1 p root); auto.
  - intros Hlow. apply (swap_low_resized s s' p x nsz); [done|exact (um_sub _ _ _ _ _ Hum)|done|done|].
    intros i e Hi Hu He Hlt. destruct (decide (PGROUNDUP nsz ≤ s_va e)); [|lia].
    destruct (vi_swap _ _ (proj1 Hinv2) i e Hi Hu) as (_ & Hva & _). by destruct (proj2 (Hgone (s_va e) Hva ltac:(lia)) i e).
  - intros a v Ha Hle. destruct (um_rel _ _ _ _ _ Hum a) as [Heq|[? _]]; [|done]. rewrite Ha in Heq. by destruct (Hno a v).
Qed.

(** ** Growing *)
(** From [s0] on, pages of the tree of [p] were mapped below [a], nothing is
    held at [a] and above, and every page of everybody reads as it did. *)
Record enlarged s0 (own0 : owners) s (own : owners) (p : nat) (root a : Z) : Prop := {
  en_vinv : vinv s own;
  en_kept : kept s0 s;
  en_procs : same_procs s0 s;
  en_cur : cur s = cur s0;
  en_pin : pinned s0 own0 s own;
  en_conf : confined root own0 own;
  en_fresh : ∀ v, va_ok v → a ≤ v → fresh s own p root v;
}.

Lemma PGROUNDUP_id a : 0 ≤ a ≤ TRAPFRAME → (PGSIZE | a) → PGROUNDUP a = a.
Proof.
  intros Ha [k ->]. pose proof PGSIZE_4096 as Hpg. pose proof MAXVA_range. pose proof TRAMPOLINE_top. pose proof TRAPFRAME_below.
  unfold PGROUNDUP. rewrite u64_id by lia. rewrite Hpg in *. Z.to_euclidean_division_equations. lia.
Qed.

(** One more page of zeros, or none. *)
Lemma enlarged_post s0 own0 s own p root a ok s' own' :
  enlarged s0 own0 s own p root a → live s0 p root → va_ok a → user_page s0 p a = replicate pgsize 0 →
  copy_post s own p root a (replicate pgsize 0) ok s' own' → confined root own own' →
  enlarged s0 own0 s' own' p root (if ok then a + PGSIZE else a).
Proof.
  intros [Hv [Hkl Hkv] Hps Hc Hpin Hcf Hfr] Hl Ha Hz (Hv' & Hps' & Hc' & Hoth & Hf & Hpin' & Hok) Hcf'.
  assert (∀ q r, live s q r → live s' q r) as Hls by (intros q r; by apply live_same).
  split; [done| |unfold same_procs in *; congruence|congruence|by eapply pinned_trans|by eapply confined_trans|].
  - split; [auto|]. intros q r v Hq Hvv. rewrite <- (Hkv q r v Hq Hvv).
    destruct (decide (q = p ∧ v = a)) as [[-> ->]|Hne]; [|apply (Hoth q r v); auto].
    assert (user_page s' p a = replicate pgsize 0) as ->; [|rewrite (Hkv p r a); auto].
    destruct ok; [done|]. apply (fresh_page s' own' p root); [done|auto|done|apply Hok].
  - intros v Hvv Hle. pose proof PGSIZE_4096. destruct (decide (v = a)) as [->|Hne]; [|apply Hf, Hfr; [done|done|destruct ok; lia]].
    destruct ok; [lia|apply Hok].
Qed.

(** When a page is missing, those mapped so far are released. *)
Lemma enlarged_undo s0 own0 s own p root a base :
  enlarged s0 own0 s own p root a → cur_ok s0 → cur s0 = Some p → live s0 p root →
  (PGSIZE | a) → (PGSIZE | base) → 0 ≤ base ≤ a → a ≤ TRAPFRAME →
  (∀ v, va_ok v → base ≤ v → user_page s0 p v = replicate pgsize 0) →
  ∃ s' own', uvmdealloc root a base s = Ok (base, s') ∧ enlarged s0 own0 s' own' p root base.
Proof.
  intros [Hv [Hkl Hkv] Hps Hc Hpin Hcf Hfr] Hcok Hc0 Hl Hal Hal0 Hba Ha Hz.
  destruct (uvmdealloc_ok s own p root a base Hv) as (s' & own' & E & Hv' & Hum & Hrest & Hgone);
    [by eapply cur_ok_same|congruence|auto|done|done|]. rewrite !PGROUNDUP_id in Hrest, Hgone by (done || lia).
  destruct Hum as [Hps' Hc' Hsub Hrel Hpin' _ _].
  exists s', own'. split; [done|]. split; [done| |unfold same_procs in *; congruence|congruence|by eapply pinned_trans| |].
  - split; [intros q r Hq; apply (live_same s s'); auto|]. intros q r v Hq Hvv. rewrite <- (Hkv q r v Hq Hvv).
    destruct (decide (q = p ∧ base ≤ v < a)) as [[-> Hi]|Hne]; [|apply (Hrest q r v); auto].
    rewrite (fresh_page s' own' p root), (Hkv p r v), Hz by (done || lia || auto || apply (live_same s s'); auto). done.
  - eapply confined_trans; [done|]. by apply released_confined.
  - intros v Hvv Hle. destruct (decide (v < a)); [auto|]. destruct (Hfr v Hvv) as [Hno Hne]; [lia|].
    split; [intros c Hcc%(released_page _ _ _ _ _ Hrel); by apply (Hno c)|by eapply sub_no_entry].
Qed.

Lemma uvmalloc_loop_ok fuel s0 own0 s own p root a base newsz xperm :
  enlarged s0 own0 s own p root a → cur_ok s0 → cur s0 = Some p → live s0 p root →
  (PGSIZE | a) → (PGSIZE | base) → 0 ≤ base ≤ a → a ≤ PGROUNDUP newsz ∨ a = base → base ≤ TRAPFRAME → 0 < newsz ≤ TRAPFRAME →
  (∀ v, va_ok v → base ≤ v → user_page s0 p v = replicate pgsize 0) →
  0 ≤ Z.lor (Z.lor PTE_R PTE_U) xperm < 1024 → newsz ≤ a + Z.of_nat fuel * PGSIZE →
  ∃ r s' own', uvmalloc_loop fuel root a base newsz xperm s = Ok (r, s') ∧
    ((r = newsz ∧ enlarged s0 own0 s' own' p root (Z.max base (PGROUNDUP newsz))) ∨
     (r = 0 ∧ enlarged s0 own0 s' own' p root base)).
Proof.
  intros Hen Hcok Hc0 Hl Hal Hal0 Hba Hup Hb Hnsz Hz Hperm. pose proof PGSIZE_4096 as Hpg.
  destruct (PGROUNDUP_user newsz) as [Haln Hupn]; [lia|].
  revert s own a Hen Hal Hba Hup. induction fuel as [|fuel IH]; intros s own a Hen Hal Hba Hup Hfuel; simpl.
  all: destruct (decide (a < newsz)) as [Hlt|Hge]; [try lia|].
  1,3: exists newsz, s, own; split; [done|left]; split; [done|]; destruct Hen as [? ? ? ? ? ? Hfr]; split; try done;
    intros v Hvv Hle; apply Hfr; [done|lia].
  assert (va_ok a) as Hva by (split; [lia|done]).
  pose proof (en_vinv _ _ _ _ _ _ _ Hen) as Hv. pose proof (proj1 (en_kept _ _ _ _ _ _ _ Hen) _ _ Hl) as Hls.
  assert (∃ s' own', uvmdealloc root a base s = Ok (base, s') ∧ enlarged s0 own0 s' own' p root base) as Hundo.
  { eapply enlarged_undo; try done. lia. }
  destruct (kalloc_kern_ok s own Hv) as [[E Hno]|(c & m & f & E & Hc & Hfree & Hv1 & Hpg1)]; rewrite (bind_ok _ _ _ _ _ E).
  { rewrite decide_True by done. destruct Hundo as (s' & own' & E' & Hen'). rewrite (bind_ok _ _ _ _ _ E'). eauto 8. }
  rewrite decide_False by done.
  destruct (memset_kern_ok _ _ c Hv1 (give_eq _ _ _)) as (s2 & E2 & Hv2 & Hpg2 & Hrd). rewrite (bind_ok _ _ _ _ _ E2).
  pose proof (paged_trans _ _ _ _ _ _ Hpg1 Hpg2) as Hp2.
  destruct (place_page_ok s2 _ p root a c (Z.lor (Z.lor PTE_R PTE_U) xperm) Hv2 (paged_live _ _ _ _ _ _ Hp2 Hls) Hva (give_eq _ _ _)) as (r & m3 & f3 & own3 & E3 & Hcf & Hcase); [|exact Hperm|].
  { apply (paged_fresh s own); [done..|]. by apply (en_fresh _ _ _ _ _ _ _ Hen). }
  rewrite (bind_ok _ _ _ _ _ E3). rewrite Hrd in Hcase. destruct Hcase as [(-> & Hpost)|(Hr & s4 & E4 & Hpost)].
  - rewrite decide_False by (by intros Hx; apply Hx). pose proof MAXVA_range. pose proof TRAMPOLINE_top. pose proof TRAPFRAME_below.
    rewrite u64_id by lia. eapply IH; [|by apply Z.divide_add_r; [|exists 1; lia]|lia| |lia].
    + eapply (enlarged_post s0 own0 s own p root a true); [done|done|done|by apply Hz; [|lia]| |].
      * by eapply copy_post_trans.
      * by apply (confined_swap root own c).
    + left. destruct Hal as [i ->]. destruct Haln as [j Ej]. rewrite Ej in *. nia.
  - rewrite decide_True by done. rewrite (bind_ok _ _ _ _ _ E4).
    destruct (enlarged_undo s0 own0 s4 (give c RFree own3) p root a base) as (s' & own' & E' & Hen'); try done; [|lia|].
    + eapply (enlarged_post s0 own0 s own p root a false); [done|done|done|by apply Hz; [|lia]| |].
      * by eapply copy_post_trans.
      * by apply (confined_swap root own c).
    + rewrite (bind_ok _ _ _ _ _ E'). eauto 8.
Qed.

(** The process table does not see the pages. *)
Lemma enlarged_pinv s0 own0 s own p x a :
  pinv s0 own0 → procs s0 !! p = Some x → p_pagetable x ≠ 0 → enlarged s0 own0 s own p (p_pagetable x) a →
  a ≤ PGROUNDUP (p_sz x) → pinv s own.
Proof.
  intros (_ & Hcok & Hpok) Hx Hr [Hv _ Hps Hc Hpin Hcf Hfr] Ha. destruct (same_procs_lookup _ _ _ _ Hps Hx) as (y & Hy & Hcy).
  pose proof (f_equal p_sz Hcy) as Hsz. pose proof (f_equal p_pagetable Hcy) as Hpt. simpl in Hsz, Hpt.
  destruct (pk_holds _ _ Hpok p x Hx) as [_ Hh]. destruct (Hh Hr) as [Hszx _].
  assert (pok (procs s) own0) as Hpok' by (by eapply pok_core).
  assert (p_state y ≠ UNUSED) as Hu by (intros Hu; destruct (pk_unused _ _ Hpok' p y Hy Hu); congruence).
  split_and!; [done|by eapply cur_ok_same|]. rewrite <- (list_alter_id id (procs s) p) by done.
  eapply (pok_resize (procs s) own0); [done|exact Hy|exact Hpt|done..| | | |done|].
  - unfold id. rewrite Hsz. lia.
  - intros q z Hq Hz Hzr. apply Hq. eapply (vi_roots _ _ Hv q p (p_pagetable x)); [exists z|exists y]; split_and!; congruence.
  - intros b q. split; [apply Hpin|]. intros Hb. destruct (Hcf b) as [<-|[_ Hm]]; [done|]. by rewrite Hb in Hm.
  - intros b v Hb. unfold id. rewrite Hsz. destruct (decide (v < PGROUNDUP (p_sz x))); [done|].
    pose proof (page_va_ok _ _ _ _ _ _ (vi_tree _ _ Hv) Hb) as Hvv. by destruct (proj1 (Hfr v Hvv ltac:(lia)) b).
Qed.

(** [growproc] of a positive number: more zero pages, or no change. *)
Lemma growproc_grow_ok s own p x n :
  pinv s own → cur s = Some p → procs s !! p = Some x → p_pagetable x ≠ 0 → swap_low s → 0 < n < 2 ^ 31 →
  ∃ r s' own', growproc n s = Ok (r, s') ∧ pinv s' own' ∧ kept s s' ∧ cur s' = cur s ∧ pinned s own s' own' ∧ swap_low s' ∧
    ((r = 0 ∧ p_sz x + n ≤ TRAPFRAME ∧ core <$> procs s' = core <$> alter (set_p_sz (p_sz x + n)) p (procs s)) ∨
     (r = -1 ∧ same_procs s s')).
Proof.
  intros Hinv Hc Hx Hr Hlow Hn. set (root := p_pagetable x) in *. pose proof Hinv as (Hv & Hcok & Hpok).
  destruct (pk_holds _ _ Hpok p x Hx) as [_ Hh]. destruct (Hh Hr) as [Hszx Hpages]. pose proof PGSIZE_4096 as Hpg.
  pose proof MAXVA_range. pose proof TRAMPOLINE_top. pose proof TRAPFRAME_below.
  assert (live s p root) as Hl by by exists x. destruct (PGROUNDUP_user (p_sz x) Hszx) as [Hal0 Hup0].
  assert (∃ r s' own', growproc n s = Ok (r, s') ∧ pinv s' own' ∧ kept s s' ∧ cur s' = cur s ∧ pinned s own s' own' ∧
    ((r = 0 ∧ p_sz x + n ≤ TRAPFRAME ∧ core <$> procs s' = core <$> alter (set_p_sz (p_sz x + n)) p (procs s)) ∨
     (r = -1 ∧ same_procs s s'))) as (r & s' & own' & E & Hinv' & Hk & Hc' & Hpin & Hcase).
  2:{ exists r, s', own'. split_and!; try done. assert (sub_entries s s') as Hsub by exact (keeps_growproc sub_entries _ n s _ s' E).
      destruct Hcase as [(_ & Hle & Hps)|(_ & Hps)].
      - apply (swap_low_resized s s' p x (p_sz x + n)); [done..|]. intros i e _ _ _ ?.
        pose proof (PGROUNDUP_mono (p_sz x) (p_sz x + n)). lia.
      - eapply (swap_low_table s own); [done|done|done|by left; apply Hsub|]. intros i z z' Hz _ Hz' _.
        destruct (same_procs_lookup _ _ _ _ Hps Hz) as (w & Hw & Hcw). pose proof (f_equal p_sz Hcw) as Hsz. simpl in Hsz. congruence. }
  rewrite (growproc_run s p x n Hc Hx). rewrite decide_True by lia. fold root. rewrite u64_id by lia.
  destruct (decide (TRAPFRAME < p_sz x + n)) as [Hbig|Hfit].
  { exists (-1), s, own. split_and!; [done|done|apply kept_refl|done|apply pinned_refl|by right]. }
  set (nsz := p_sz x + n) in *.
  assert (enlarged s own s own p root (PGROUNDUP (p_sz x))) as Hen.
  { split; [done|apply kept_refl|done|done|apply pinned_refl|apply confined_refl|]. intros v Hvv Hle. split.
    - intros a Ha. specialize (Hpages a v Ha). lia.
    - intros i e Hi (Hu & He & <-). specialize (Hlow i e p x Hi Hu He Hx). lia. }
  unfold uvmalloc. rewrite decide_False by (unfold nsz; lia).
  destruct (uvmalloc_loop_ok (Z.to_nat ((nsz - p_sz x) / PGSIZE + 1)) s own s own p root (PGROUNDUP (p_sz x)) (PGROUNDUP (p_sz x)) nsz PTE_W)
    as (r & s1 & own1 & E & Hcase); try done; [lia|by right|lia|unfold nsz; lia| | | |].
  { intros v Hvv Hle. by apply (fresh_page s own p root), (en_fresh _ _ _ _ _ _ _ Hen). }
  { destruct pte_bits as (_ & -> & -> & _ & ->). by vm_compute. }
  { pose proof (Z.div_pos (nsz - p_sz x) PGSIZE). pose proof (Z.div_mod (nsz - p_sz x) PGSIZE).
    pose proof (Z.mod_pos_bound (nsz - p_sz x) PGSIZE). unfold nsz in *. lia. }
  rewrite (bind_ok _ _ _ _ _ E). destruct Hcase as [(-> & Hen1)|(-> & Hen1)].
  - rewrite decide_False by (unfold nsz; lia). pose proof Hen1 as [Hv1 Hk1 Hps1 Hc1 Hpin1 Hcf1 Hfr1].
    destruct (same_procs_lookup _ _ _ _ Hps1 Hx) as (x1 & Hx1 & Hcx1). pose proof (core_pagetable _ _ Hcx1) as Hr1. fold root in Hr1.
    destruct (pinv_resized s1 own own1 p x1 nsz) as [Hinv2 Hk2]; [by eapply pok_core|done|by eapply cur_ok_same|done|congruence|
      unfold nsz; lia|apply Hpin1|by rewrite Hr1| |].
    { intros a v Ha. rewrite Hr1 in Ha. destruct (decide (v < PGROUNDUP nsz)); [done|].
      pose proof (page_va_ok _ _ _ _ _ _ (vi_tree _ _ Hv1) Ha) as Hvv. pose proof (PGROUNDUP_mono (p_sz x) nsz).
      by destruct (proj1 (Hfr1 v Hvv ltac:(unfold nsz in *; lia)) a). }
    rewrite (bind_ok _ _ _ _ _ (upd_proc_run _ _ _)). eexists 0, _, own1. split; [done|].
    split_and!; [done|by eapply kept_trans|done|done|left]. split_and!; [done|lia|].
    rewrite procs_with, !cores_alter by (intros []; done). by rewrite Hps1.
  - rewrite decide_True by done. exists (-1), s1, own1. split; [done|]. pose proof Hen1 as [Hv1 Hk1 Hps1 Hc1 Hpin1 _ _].
    split_and!; [by eapply (enlarged_pinv s own)|done|done|done|by right].
Qed.

(** Of a number that is not negative. *)
Lemma growproc_any s own p x n :
  pinv s own → cur s = Some p → procs s !! p = Some x → p_pagetable x ≠ 0 → swap_low s → 0 ≤ n < 2 ^ 31 →
  ∃ r s' own', growproc n s = Ok (r, s') ∧ pinv s' own' ∧ kept s s' ∧
    ((r = 0 ∧ p_sz x + n ≤ TRAPFRAME ∧ core <$> procs s' = core <$> alter (set_p_sz (p_sz x + n)) p (procs s)) ∨
     (r = -1 ∧ same_procs s s' ∧ (TRAPFRAME < p_sz x + n → s' = s))).
Proof.
  intros Hinv Hc Hx Hr Hlow Hn. pose proof Hinv as (_ & _ & Hpok). destruct (pk_holds _ _ Hpok p x Hx) as [_ Hh]. destruct (Hh Hr) as [Hsz _].
  pose proof MAXVA_range. pose proof TRAMPOLINE_top. pose proof TRAPFRAME_below. pose proof PGSIZE_4096.
  destruct (decide (n = 0)) as [->|Hne].
  { exists 0, s, own. split_and!; [apply (growproc_same s p x); [done..|lia|by left]|done|apply kept_refl|left]. rewrite Z.add_0_r.
    split_and!; [done|lia|]. by rewrite (alter_same _ _ x) by (done || by destruct x). }
  destruct (decide (TRAPFRAME < p_sz x + n)) as [Hb|Hb].
  { exists (-1), s, own. split_and!; [|done|apply kept_refl|by right]. rewrite (growproc_run s p x n Hc Hx), decide_True by lia.
    rewrite u64_id by lia. by rewrite decide_True. }
  destruct (growproc_grow_ok s own p x n Hinv Hc Hx Hr Hlow) as (r & s' & own' & E & Hinv' & Hk & _ & _ & _ & Hcase); [lia|].
  exists r, s', own'. split_and!; [done..|]. destruct Hcase as [?|[? ?]]; [by left|right]. by split_and!.
Qed.
End grow.
