(* ===== verification/ProcProps.v ===== *)
(** * Properties of processes

    Fork, exit, wait and the release of a process, and copying between the
    kernel and user memory, over any swap device; then runs from boot on a
    small machine. *)
From S2P Require Import Prelude Interfaces Raid RaidProps Mem KState Kmem PageTable Frames Paging Vm Fault Boot VmProps.
From S2P Require Import Spaces Fork Teardown Sched Proc ProcMem ProcTable UserCopy Kfork Reap ProcBoot.
Local Open Scope Z_scope.

Section props.
Context `{Sv39} `{!ProcEnv} `{!Chans} {D : Type} `{!SwapDev D} `{!SwapDevSpec D} `{!FileEnv D}.
Implicit Types s : kernel D.

(** The invariant of memory and process table, without the ownership map. *)
Definition proc_ok s : Prop := ∃ own, pinv s own.

Definition on_freelist s (a : Z) : Prop := ∃ l, chain (mem s) (freelist s) l ∧ a ∈ l.

Lemma free_listed s own a : vinv s own → own a = RFree → on_freelist s a.
Proof. intros Hv Ha. destruct (vi_tree _ _ Hv) as [[_ (l & Hc & _ & Hl)] _]. exists l. split; [done|by apply Hl]. Qed.

Lemma listed_free s own a : vinv s own → on_freelist s a → own a = RFree.
Proof.
  intros Hv (l & Hc & Ha). destruct (vi_tree _ _ Hv) as [[_ (l' & Hc' & _ & Hl)] _]. apply Hl.
  by rewrite (chain_unique _ _ _ _ Hc' Hc).
Qed.

(** [refused], read off the page table and the free list. *)
Definition denied s (root va perm : Z) : Prop :=
  (∃ e, pt_entry (mem s) root va = Some e ∧ Z.land e perm ≠ perm) ∨
  swap_full s ∨ nused (frame_table s) = 0 ∨ out_of_memory s.

Lemma refused_denied s own p root va perm :
  vinv s own → live s p root → va_ok va → refused s own root va perm → denied s root va perm.
Proof.
  intros Hv Hl Hva [(pte & Hp & Hn)|[?|[?|?]]]; [left|by right; left|by right; right; left|right; right; right; by eapply scarce_memory].
  exists (rd64 (mem s) pte). split; [|done]. eapply pt_entry_leaf; [apply Hv|by apply (vi_live _ _ Hv p)|done..].
Qed.

(** Everybody but [p] is as before, paging counters apart. *)
Definition others_kept s s' (p : nat) : Prop :=
  ∀ q y, q ≠ p → procs s !! q = Some y → ∃ y', procs s' !! q = Some y' ∧ core y' = core y.

Lemma core_others s s' p f : core <$> procs s' = core <$> alter f p (procs s) → others_kept s s' p.
Proof.
  intros Hps q y Hne Hy. apply (f_equal (.!! q)) in Hps. rewrite !list_lookup_fmap, list_lookup_alter_ne, Hy in Hps by done.
  apply fmap_Some in Hps as (y' & ? & ?). by exists y'.
Qed.

Lemma core_slot s s' p f x :
  core <$> procs s' = core <$> alter f p (procs s) → procs s !! p = Some x → ∃ y, procs s' !! p = Some y ∧ core y = core (f x).
Proof.
  intros Hps Hx. apply (f_equal (.!! p)) in Hps. rewrite !list_lookup_fmap, list_lookup_alter_eq, Hx in Hps.
  apply fmap_Some in Hps as (y & ? & ?). by exists y.
Qed.

Lemma core_freed x y : core y = core (freed_proc x) → p_state y = UNUSED ∧ p_pid y = 0 ∧ vacant y.
Proof.
  intros Hc. split_and!; [exact (f_equal p_state Hc)|exact (f_equal p_pid Hc)|].
  split_and!; [exact (f_equal p_pagetable Hc)|exact (f_equal p_trapframe Hc)|exact (f_equal p_sz Hc)].
Qed.




(** The bytes of all processes, those of [p] in a range apart. *)
Definition same_bytes s s' (p : nat) (a n : Z) : Prop :=
  ∀ q r b, live s q r → 0 ≤ b < TRAPFRAME → ¬ (q = p ∧ a ≤ b < a + n) → user_byte s' q b = user_byte s q b.

Lemma user_bytes_list s p a (l : bytes) :
  (∀ i, 0 ≤ i < Z.of_nat (length l) → user_byte s p (a + i) = l !! Z.to_nat i) → user_bytes s p a (Z.of_nat (length l)) = l.
Proof.
  intros Hl. apply list_eq. intros i. unfold user_bytes. rewrite list_lookup_fmap.
  destruct (decide (i < length l)%nat) as [Hi|Hi].
  - rewrite lookup_seqZ_lt by lia. simpl. rewrite Hl by lia. rewrite Z.add_0_l, Nat2Z.id.
    by destruct (lookup_lt_is_Some_2 l i Hi) as [b ->].
  - rewrite lookup_seqZ_ge by lia. symmetry. apply lookup_ge_None. lia.
Qed.


(** The page of [va] is not resident or not accessible. *)
Definition not_present s (root va : Z) : Prop :=
  pt_find (mem s) root va = None ∨ ∃ e, pt_entry (mem s) root va = Some e ∧ Z.land e PTE_U = 0.

Lemma absent_not_present s own p root va :
  vinv s own → live s p root → va_ok va → absent s own root va → not_present s root va.
Proof.
  intros Hv Hl Hva Hab. pose proof (vi_live _ _ Hv p root Hl) as Hr. destruct Hab as [Hno|(pte & Hp & Hz)]; [left|right].
  - destruct (pt_find (mem s) root va) as [a|] eqn:Ha; [|done]. exfalso. apply (Hno a).
    by apply (pt_find_own _ _ _ _ _ _ (vi_tree _ _ Hv) Hr Hva).
  - exists (rd64 (mem s) pte). split; [|done]. eapply pt_entry_leaf; [apply Hv|done..].
Qed.

(** [C35] [copyinstr] reads the bytes a process sees up to the first null
    byte, stores at most [max] of them, and changes no state: it returns 0
    exactly with a null-terminated string, and -1 when there is no null in
    [max] bytes or when it meets a page that is not resident.  It does not
    take pages in: a string that starts in a page that was swapped out is
    refused, although [copyin] reads the same bytes. *)
Theorem copyinstr_resident_only s p root src max :
  proc_ok s → live s p root → 0 ≤ src → 0 < max → src + max ≤ TRAPFRAME →
  ∃ r d, copyinstr root src max s = Ok ((r, d), s) ∧ Z.of_nat (length d) ≤ max ∧
    d = user_bytes s p src (Z.of_nat (length d)) ∧
    ((r = 0 ∧ ∃ l, d = l ++ [0] ∧ (0 ∉ l)) ∨
     (r = -1 ∧ (0 ∉ d) ∧ (Z.of_nat (length d) = max ∨
        Z.of_nat (length d) < max ∧ not_present s root (PGROUNDDOWN (src + Z.of_nat (length d)))))) ∧
    (pt_find (mem s) root (PGROUNDDOWN src) = None → r = -1 ∧ d = []) ∧
    ∀ sz, running s p root sz → src + max ≤ sz →
      ∃ r' d' s', copyin root src max s = Ok ((r', d'), s') ∧ proc_ok s' ∧
        (r' = 0 ∧ d' = user_bytes s p src max ∨ r' = -1 ∧ ∃ v, va_ok v ∧ denied s' root v PTE_U).
Proof.
  intros [own Hinv] Hl Hs Hm Hle. pose proof Hinv as (Hv & _ & _). pose proof (vi_live _ _ Hv p root Hl) as Hr.
  destruct (copyinstr_ok s own p root src max Hv Hl Hs) as (r & d & E & Hlen & Hd & Hc); [lia|done|].
  assert (∀ a, 0 ≤ a < TRAPFRAME → va_ok (PGROUNDDOWN a)) as Hvd by apply PGROUNDDOWN_ok.
  exists r, d. split_and!; [done|done|done| | |].
  - destruct Hc as [?|(-> & Hn & Hc)]; [by left|right]. split_and!; [done..|]. destruct Hc as [?|[? Hab]]; [by left|right].
    split; [done|]. eapply absent_not_present; [done..| |done]. apply Hvd. lia.
  - intros Hnone. assert (walkaddr root (PGROUNDDOWN src) s = Ok (0, s)) as Ew.
    { apply (walkaddr_none s own); [apply Hv|done|apply Hvd; lia|]. intros a Ha.
      rewrite <- (pt_find_own _ _ _ _ _ _ (vi_tree _ _ Hv) Hr) in Ha; [congruence|apply Hvd; lia]. }
    unfold copyinstr in E. destruct (Z.to_nat max) eqn:En; [lia|]. cbn [copyinstr_loop] in E. rewrite decide_False in E by lia.
    rewrite (bind_ok _ _ _ _ _ Ew), decide_True in E by done. unfold ret in E. by injection E as <- <-.
  - intros sz Hrun Hsz. destruct (copyin_ok s own p root sz src max Hinv Hrun Hs) as (r' & d' & s' & own' & E' & Hcp & Hc'); [lia|done|].
    pose proof (running_same _ _ _ _ _ (cp_procs _ _ _ _ _ _ _ Hcp) (cp_cur _ _ _ _ _ _ _ Hcp) Hrun) as Hrun'.
    exists r', d', s'. destruct Hcp as [Hinv' _ _ _ _]. split_and!; [done|by exists own'|].
    destruct Hc' as [?|(-> & v & Hva & _ & Hrf)]; [by left|right]. split; [done|]. exists v. split; [done|].
    destruct Hinv' as (Hv' & _ & _). eapply refused_denied; [done|by eapply running_live|done..].
Qed.

Context `{!FileEnvSpec D}.

(** [C33] [kexit] leaves a zombie with the status that still holds its memory
    and no open file; its children belong to init, init is woken when it
    adopted one, and the parent is woken when it sleeps in [kwait]; no other
    process changes state, and nobody's memory changes. *)
Theorem kexit_zombie s p x status :
  proc_ok s → cur s = Some p → procs s !! p = Some x → p_state x ≠ UNUSED → initproc s ≠ Some p → p_parent x ≠ Some p →
  ∃ s', kexit status s = Ok (tt, s') ∧ proc_ok s' ∧ kept s s' ∧ exited s s' p x status ∧
    ∀ q y, procs s' !! q = Some y → p_parent y ≠ Some p.
Proof.
  intros [own Hinv] Hcur Hx Hu Hip Hpar. destruct (kexit_ok s own p x status Hinv Hcur Hx Hu Hip Hpar) as (s' & E & Hinv' & Hk & He).
  exists s'. split_and!; [done|by exists own|done|done|]. intros q y Hy. pose proof He as [(x' & Hx' & _ & _ & Hpx & _) Ho _].
  destruct (decide (q = p)) as [->|Hne]; [congruence|].
  destruct (procs s !! q) as [z|] eqn:Hz.
  - destruct (Ho q z Hne Hz) as (y' & Hy' & _ & Hp' & _). assert (y' = y) as -> by congruence. rewrite Hp'. by case_decide.
  - exfalso. apply lookup_lt_Some in Hy. apply lookup_ge_None in Hz. destruct (kexit_run s p x status) as (d & _ & E'); try done.
    { apply Hinv. } rewrite E in E'. injection E' as ->. simpl in Hy. unfold exit_table in Hy.
    rewrite length_alter, !length_imap, length_alter in Hy. lia.
Qed.
End props.

(** ** Runs from boot on a machine with 56 pages of memory and RAID 5 swap *)
Module ProcRuns.
Import VmRuns.
#[local] Existing Instance xv6_block_params.
#[local] Existing Instance VmRuns.lay.
#[local] Existing Instance VmRuns.sv39.

Definition machine : Type := kernel (raid IdealDisk.t).

Lemma tramp_ok : pa_ok 2147487744.
Proof. split; [vm_compute; split; [discriminate|reflexivity]|by exists 524289]. Qed.
#[local] Instance env : ProcEnv := {|
  trampoline := 2147487744; trampoline_ok := tramp_ok;
  KSTACK := λ i, TRAMPOLINE - (i + 1) * 2 * PGSIZE;
  filedup := id; filedup_id := λ _, eq_refl; idup := id; idup_id := λ _, eq_refl;
  safestrcpy := λ _ t _, t |}.
#[local] Instance chans : Chans := {| chan_ticks := 1; chan_proc := λ p, 1000 + Z.of_nat p |}.
#[local] Instance files : FileEnv (raid IdealDisk.t) :=
  {| fileclose := λ _ d, d; begin_op := id; iput := λ _ d, d; end_op := id |}.
#[local] Instance files_spec : FileEnvSpec (raid IdealDisk.t).
Proof. split; intros; by apply quiet_refl. Defined.

(** Three slots, none of them in use. *)
Definition off : machine := with_procs [proc0; proc0; proc0] (with_cur None power_on).
Definition run {A} (m : M machine A) (s : machine) : machine := match m s with Ok (_, s') => s' | _ => s end.

(** A CPU takes up process [p]. *)
Definition dispatch (p : nat) : M machine unit := upd_proc p (set_p_state RUNNING) ;;; modify (with_cur (Some p)).

(** The first process runs, with two pages of address space. *)
Definition booted : machine := run (kinit ;;; procinit ;;; userinit 1) off.
Definition ready : machine := run (upd_proc 0 (set_p_sz 8192)) (run (dispatch 0) booted).

Lemma booted_ok : proc_ok booted ∧ ∃ x, procs booted !! 0%nat = Some x ∧ p_state x = RUNNABLE ∧ p_pagetable x ≠ 0 ∧ p_sz x = 0.
Proof.
  destruct (kinit_ok off eq_refl ltac:(repeat constructor) device_ok slots_ok) as (s1 & own1 & E1 & Hv1 & Hps1 & _ & Hc1 & _ & Hof).
  destruct (procinit_ok s1 own1 Hv1) as (s2 & E2 & Hinv2 & _); [intros a; destruct (Hof a); auto|rewrite Hps1; repeat constructor|by rewrite Hc1|].
  assert (booted = match userinit 1 s2 with Ok (_, s') => s' | _ => off end) as Eb.
  { unfold booted, run. rewrite (bind_ok _ _ _ _ _ E1), (bind_ok _ _ _ _ _ E2). reflexivity. }
  assert ((λ x, (p_state x, p_pagetable x =? 0, p_sz x)) <$> procs booted !! 0%nat = Some (RUNNABLE, false, 0)) as Hf
    by (vm_compute; reflexivity).
  apply fmap_Some in Hf as (x & Hx & Hxf). injection Hxf as Hx1 Hx2 Hx3.
  split; [|exists x; split_and!; [exact Hx|congruence|lia|congruence]].
  destruct (userinit_ok s2 own1 1 Hinv2) as [Eu|(s3 & own3 & p & y & E3 & Hinv3 & _)].
  - exfalso. rewrite Eb, Eu in Hx. injection Hx as <-. discriminate.
  - exists own3. by rewrite Eb, E3.
Qed.

Lemma dispatch_ok (s : machine) p x :
  proc_ok s → procs s !! p = Some x → p_state x ≠ UNUSED → proc_ok (run (dispatch p) s).
Proof.
  intros [own Hinv] Hx Hu. exists own. destruct (pinv_table s own (alter (set_p_state RUNNING) p (procs s)) (Some p) Hinv) as [Hi _].
  - eapply same_holds_alter; [done|]. split_and!; [by destruct x..|]. by destruct x.
  - intros i [= <-]. rewrite list_lookup_alter_eq, Hx. by eexists.
  - exact Hi.
Qed.

Lemma ready_ok :
  proc_ok ready ∧ cur ready = Some 0%nat ∧ ∃ x, procs ready !! 0%nat = Some x ∧ p_state x = RUNNING ∧ p_sz x = 8192 ∧ p_pagetable x ≠ 0.
Proof.
  destruct booted_ok as (Hok & x & Hx & Hst & Hr & Hsz).
  pose proof (dispatch_ok booted 0 x Hok Hx ltac:(congruence)) as [own Hinv].
  assert (procs (run (dispatch 0) booted) !! 0%nat = Some (set_p_state RUNNING x)) as Hx'.
  { change (alter (set_p_state RUNNING) 0%nat (procs booted) !! 0%nat = Some (set_p_state RUNNING x)).
    by rewrite list_lookup_alter_eq, Hx. }
  destruct (pinv_size _ own 0 (set_p_state RUNNING x) 8192 Hinv Hx') as [Hinv' _]; [done| |].
  { change (p_sz (set_p_state RUNNING x)) with (p_sz x). rewrite Hsz. vm_compute. split; discriminate. }
  split; [by exists own|]. split; [reflexivity|]. exists (set_p_sz 8192 (set_p_state RUNNING x)).
  split_and!; [|reflexivity|reflexivity|exact Hr].
  change (alter (set_p_sz 8192) 0%nat (procs (run (dispatch 0) booted)) !! 0%nat = Some (set_p_sz 8192 (set_p_state RUNNING x))).
  by rewrite list_lookup_alter_eq, Hx'.
Qed.

Definition proc_at (s : machine) (p : nat) : proc := default proc0 (procs s !! p).
Definition root0 : Z := p_pagetable (proc_at ready 0).

Lemma ready_running : running ready 0 root0 8192.
Proof.
  destruct ready_ok as (_ & Hc & x & Hx & _ & Hsz & Hr). unfold root0, proc_at. rewrite Hx. split; [exact Hc|]. exists x.
  split; [exact Hx|]. split; [reflexivity|]. split; [exact Hsz|exact Hr].
Qed.

(** The first process forks: the child is in slot 1. *)
Definition parent : machine := run kfork ready.


Lemma parent_ok : proc_ok parent.
Proof.
  destruct ready_ok as ([own Hinv] & Hc & x & Hx & Hst & _).
  destruct (kfork_ok ready own 0 x Hinv Hc Hx ltac:(congruence)) as (r & s' & own' & E & Hinv' & _).
  exists own'. unfold parent, run. rewrite E. exact Hinv'.
Qed.

Lemma parent_child : ∃ y, procs parent !! 1%nat = Some y ∧ p_state y = RUNNABLE ∧ p_parent y = Some 0%nat ∧
  p_pagetable y ≠ 0 ∧ p_trapframe y ≠ 0.
Proof.
  assert ((λ x, (p_state x, p_parent x, p_pagetable x =? 0, p_trapframe x =? 0)) <$> procs parent !! 1%nat =
    Some (RUNNABLE, Some 0%nat, false, false)) as Hf by (vm_compute; reflexivity).
  apply fmap_Some in Hf as (y & Hy & Hyf). injection Hyf as Hy1 Hy2 Hy3 Hy4. exists y. split; [exact Hy|].
  split; [symmetry; exact Hy1|]. split; [symmetry; exact Hy2|]. split; apply Z.eqb_neq; symmetry; assumption.
Qed.


(** The child runs and exits with status 7; then the parent runs again. *)
Definition exiting : machine := run (dispatch 1) parent.
Definition orphan : machine := run (kexit 7) exiting.
Definition waiting : machine := run (dispatch 0) orphan.

Lemma exiting_ok : proc_ok exiting ∧ ∃ y, procs exiting !! 1%nat = Some y ∧ p_state y = RUNNING ∧ p_parent y = Some 0%nat.
Proof.
  destruct parent_child as (y & Hy & Hst & Hp & _). split; [apply (dispatch_ok parent 1 y parent_ok Hy); congruence|].
  exists (set_p_state RUNNING y). split_and!; [|reflexivity|exact Hp].
  change (alter (set_p_state RUNNING) 1%nat (procs parent) !! 1%nat = Some (set_p_state RUNNING y)).
  rewrite list_lookup_alter_eq, Hy. reflexivity.
Qed.

Lemma exiting_init : initproc exiting ≠ Some 1%nat.
Proof. assert (initproc exiting = Some 0%nat) as -> by (vm_compute; reflexivity). discriminate. Qed.

Lemma kexit_zombie_witness :
  ∃ s', kexit 7 exiting = Ok (tt, s') ∧ proc_ok s' ∧ exited exiting s' 1 (proc_at exiting 1) 7.
Proof.
  destruct exiting_ok as (Hok & y & Hy & Hst & Hp).
  destruct (kexit_zombie exiting 1 y 7 Hok eq_refl Hy ltac:(congruence) exiting_init ltac:(congruence)) as (s' & E & Hok' & _ & He & _).
  exists s'. unfold proc_at. rewrite Hy. split; [exact E|]. split; [exact Hok'|exact He].
Defined.

Lemma waiting_ok : proc_ok waiting ∧ running waiting 0 root0 8192.
Proof.
  destruct exiting_ok as ([own Hinv] & y & Hy & Hst & Hp).
  destruct (kexit_ok exiting own 1 y 7 Hinv eq_refl Hy ltac:(congruence) exiting_init ltac:(congruence)) as (s' & E & Hinv' & _).
  assert (orphan = s') as Ho by (unfold orphan, run; rewrite E; reflexivity).
  assert ((λ x, (p_state x, p_pagetable x =? root0, p_sz x)) <$> procs orphan !! 0%nat = Some (RUNNING, true, 8192)) as Hf
    by (vm_compute; reflexivity).
  apply fmap_Some in Hf as (x & Hx & Hxf). injection Hxf as Hx1 Hx2 Hx3.
  split; [apply (dispatch_ok orphan 0 x); [exists own; rewrite Ho; exact Hinv'|exact Hx|congruence]|].
  split; [reflexivity|]. exists (set_p_state RUNNING x). split_and!.
  - change (alter (set_p_state RUNNING) 0%nat (procs orphan) !! 0%nat = Some (set_p_state RUNNING x)).
    rewrite list_lookup_alter_eq, Hx. reflexivity.
  - change (p_pagetable x = root0). apply Z.eqb_eq. symmetry. exact Hx2.
  - change (p_sz x = 8192). symmetry. exact Hx3.
  - destruct ready_running as [_ (z & _ & _ & _ & Hn)]. exact Hn.
Qed.



(** The same bytes, swapped out: [copyinstr] fails. *)
Definition written : machine := run (copyout root0 5000 [104; 105; 0]) ready.
Definition paged_out : machine := run evict_one_user_frame written.

Lemma paged_out_ok : proc_ok paged_out ∧ running paged_out 0 root0 8192.
Proof.
  destruct ready_ok as ([own Hinv] & _).
  destruct (copyout_ok ready own 0 root0 8192 5000 [104; 105; 0] Hinv ready_running ltac:(lia) ltac:(simpl; lia))
    as (r & s1 & own1 & E1 & [Hinv1 Hps1 Hc1 _ _] & _).
  pose proof (running_same _ _ _ _ _ Hps1 Hc1 ready_running) as Hrun1.
  destruct (evict_one_ok s1 own1 (proj1 Hinv1)) as (r2 & s2 & own2 & E2 & Hv2 & Hpg & _).
  assert (paged_out = s2) as Hs by (unfold paged_out, written, run; rewrite E1, E2; reflexivity). rewrite Hs.
  split; [|apply (running_same s1); [apply Hpg..|exact Hrun1]]. exists own2.
  destruct Hrun1 as [_ (x & Hx & Hr & Hsz & Hn)].
  apply (pinv_steady s1 own1 s2 own2 0 x 0 Hinv1 Hv2 Hx); [congruence|rewrite Hsz; vm_compute; reflexivity|].
  by apply paged_steady.
Qed.

Lemma copyinstr_resident_only_witness :
  copyinstr root0 5000 3 paged_out = Ok ((-1, []), paged_out) ∧
  ∃ s', copyin root0 5000 3 paged_out = Ok ((0, [104; 105; 0]), s').
Proof.
  destruct paged_out_ok as [Hok Hrun].
  destruct (copyinstr_resident_only paged_out 0 root0 5000 3 Hok (running_live _ _ _ _ Hrun) ltac:(lia) ltac:(lia)
    ltac:(vm_compute; discriminate)) as (r & d & E & _ & _ & _ & Hsw & Hin).
  assert (pt_find (mem paged_out) root0 (PGROUNDDOWN 5000) = None) as Hno by (vm_compute; reflexivity).
  destruct (Hsw Hno) as [-> ->]. split; [exact E|].
  destruct (Hin 8192 Hrun ltac:(lia)) as (r' & d' & s' & E' & _).
  assert (match copyin root0 5000 3 paged_out with Ok (v, _) => v | _ => (-1, []) end = (0, [104; 105; 0])) as Hv
    by (vm_compute; reflexivity).
  rewrite E' in Hv. injection Hv as -> ->. exists s'. exact E'.
Defined.
End ProcRuns.
