(* ===== verification/Kvm.v ===== *)
(** * The kernel's own page table (kernel/vm.c:34-80, kernel/proc.c:44-56)

    At boot [kvmmake] builds a table that maps the devices, the kernel and
    all of memory at their own addresses, the trampoline at the top, and a
    stack for each process below it.  The addresses come from memlayout.h and
    the linker script and are parameters. *)
From S2P Require Import Prelude Interfaces Mem KState Kmem PageTable Proc.
Local Open Scope Z_scope.

Class KvmEnv `{Layout} `{!ProcEnv} := {
  UART0 : Z;
  VIRTIO0 : Z;
  PLIC : Z;
  etext : Z;
  devices_order : 0 ≤ PLIC ∧ PLIC + 67108864 ≤ UART0 ∧ UART0 + PGSIZE ≤ VIRTIO0 ∧ VIRTIO0 + PGSIZE ≤ KERNBASE;
  devices_aligned : (PGSIZE | PLIC) ∧ (PGSIZE | UART0) ∧ (PGSIZE | VIRTIO0);
  etext_range : KERNBASE < etext < PHYSTOP;
  text_aligned : (PGSIZE | KERNBASE) ∧ (PGSIZE | etext);
  KSTACK_at i : KSTACK i = TRAMPOLINE - (i + 1) * (2 * PGSIZE);
  stacks_above : PHYSTOP + PGSIZE ≤ TRAMPOLINE - Z.of_nat NPROC * (2 * PGSIZE);
}.

Section kvm.
Context `{Sv39} `{!ProcEnv} `{!KvmEnv} {D : Type}.

(** vm.c:70-74 *)
Definition kvmmap (kpgtbl va pa sz perm : Z) : M (kernel D) unit :=
  let* r := mappages kpgtbl va sz pa perm in
  if decide (r ≠ 0) then panic "kvmmap" else ret tt.

(** proc.c:50-54 *)
Definition map_stack (kpgtbl i : Z) : M (kernel D) unit :=
  let* pa := kalloc in
  if decide (pa = 0) then panic "kalloc" else
  kvmmap kpgtbl (KSTACK i) pa PGSIZE (Z.lor PTE_R PTE_W).
(** proc.c:44-56 *)
Definition proc_mapstacks (kpgtbl : Z) : M (kernel D) unit :=
  for_list (seqZ 0 (Z.of_nat NPROC)) (λ i _, map_stack kpgtbl i) tt.

(** vm.c:34-65 *)
Definition kvmmake : M (kernel D) Z :=
  let* kpgtbl := kalloc in
  memset kpgtbl 0 PGSIZE ;;;
  kvmmap kpgtbl UART0 UART0 PGSIZE (Z.lor PTE_R PTE_W) ;;;
  kvmmap kpgtbl VIRTIO0 VIRTIO0 PGSIZE (Z.lor PTE_R PTE_W) ;;;
  kvmmap kpgtbl PLIC PLIC 67108864 (Z.lor PTE_R PTE_W) ;;;
  kvmmap kpgtbl KERNBASE KERNBASE (etext - KERNBASE) (Z.lor PTE_R PTE_X) ;;;
  kvmmap kpgtbl etext etext (PHYSTOP - etext) (Z.lor PTE_R PTE_W) ;;;
  kvmmap kpgtbl TRAMPOLINE trampoline PGSIZE (Z.lor PTE_R PTE_X) ;;;
  proc_mapstacks kpgtbl ;;;
  ret kpgtbl.

(** vm.c:77-80: the value of [kernel_pagetable] *)
Definition kvminit : M (kernel D) Z := kvmmake.
End kvm.
