(* ===== verification/KvmOk.v ===== *)
(** * Correctness of the kernel page table

    The pages of the table are kernel pages of the allocator; the ghost map
    [kt] gives the page of each place (level, index prefix) of the tree.  The
    lemmas say that mapping a range changes the entries of that range only,
    and count the pages it takes. *)
From stdpp Require Import gmap.
From S2P Require Import Prelude Interfaces Mem KState Kmem PageTable Frames Paging Vm Fault Boot Spaces Proc Kvm.
Local Open Scope Z_scope.

(** The page of each place of a tree. *)
Abbreviation places := (gmap (nat * Z) Z).

Section kvmok.
Context `{Sv39} {D : Type} `{!SwapDev D} `{!SwapDevSpec D}.
Implicit Types s : kernel D.

(** ** Free pages *)
(** At least [n] pages are free. *)
Definition room (own : owners) (n : Z) : Prop :=
  ∃ l : list Z, NoDup l ∧ Z.of_nat (length l) = Z.max 0 n ∧ ∀ a, a ∈ l → own a = RFree.

Lemma room_mono own n k : room own n → k ≤ n → room own k.
Proof.
  intros (l & Hnd & Hl & Hf) Hk. exists (take (Z.to_nat k) l). split_and!.
  - rewrite <- (take_drop (Z.to_nat k) l) in Hnd. by apply NoDup_app in Hnd as (? & _).
  - rewrite length_take. lia.
  - intros a Ha. apply Hf. rewrite <- (take_drop (Z.to_nat k) l). apply elem_of_app. by left.
Qed.

Lemma room_pos own n : room own n → 0 < n → ∃ a, own a = RFree.
Proof. intros (l & _ & Hl & Hf) Hn. destruct l as [|a l]; [simpl in Hl; lia|]. exists a. apply Hf. by left. Qed.

Lemma room_take own n a : room own n → room (give a RKern own) (n - 1).
Proof.
  intros (l & Hnd & Hl & Hf). destruct (decide (a ∈ l)) as [Hin|Hin].
  - apply elem_of_Permutation in Hin as [l' Hp]. exists l'. rewrite Hp in Hnd. apply NoDup_cons in Hnd as [Hna Hnd].
    apply Permutation_length in Hp as Hlen. simpl in Hlen. split_and!; [done|lia|].
    intros b Hb. rewrite give_ne by (intros ->; done). apply Hf. rewrite Hp. by right.
  - apply (room_mono _ n); [|lia]. exists l. split_and!; [done..|].
    intros b Hb. rewrite give_ne by (intros ->; done). by apply Hf.
Qed.

(** ** The tree *)
Record kt_inv (m : memory) (own : owners) (kt : places) (root : Z) : Prop := {
  kt_root : kt !! (2%nat, 0) = Some root;
  kt_kern : ∀ pl b, kt !! pl = Some b → own b = RKern;
  kt_inj : ∀ pl pl' b, kt !! pl = Some b → kt !! pl' = Some b → pl = pl';
  kt_up : ∀ l pre b, kt !! (l, pre) = Some b → (l ≤ 2)%nat ∧ ((l < 2)%nat → is_Some (kt !! (S l, pre / 512)));
  kt_node : ∀ l pre b i, kt !! (S l, pre) = Some b → 0 ≤ i < 512 →
    match kt !! (l, pre * 512 + i) with
    | Some c => points m b i c
    | None => valid_pte (entry m b i) = false
    end;
}.

(** The entry of virtual page [w]. *)
Definition kpte (m : memory) (kt : places) (w : Z) : Z :=
  match kt !! (0%nat, w / 512) with Some b => entry m b (w mod 512) | None => 0 end.

Record kinv s (own : owners) (kt : places) (root : Z) : Prop := {
  ki_vinv : vinv s own;
  ki_tree : kt_inv (mem s) own kt root;
}.

Lemma kt_page s own kt root pl b : kinv s own kt root → kt !! pl = Some b → page_addr b.
Proof.
  intros [Hv Ht] Hb. apply (tree_sane _ _ _ (vi_tree _ _ Hv)). rewrite (kt_kern _ _ _ _ Ht _ _ Hb). discriminate.
Qed.

(** The indices of an address in terms of its page number. *)
Lemma PX_page va : 0 ≤ va < MAXVA →
  PX 0 va = va / PGSIZE mod 512 ∧ PX 1 va = va / PGSIZE / 512 mod 512 ∧ PX 2 va = va / PGSIZE / 512 / 512.
Proof.
  intros Hva. pose proof (PX_split va Hva). pose proof (PX_range 0 va). pose proof (PX_range 1 va). pose proof (PX_range 2 va).
  set (w := va / PGSIZE) in *. Z.to_euclidean_division_equations. lia.
Qed.

(** Writing to kernel pages. *)
Lemma kern_write s own c m' : vinv s own → own c = RKern → only_page c (mem s) m' → vinv (with_mem m' s) own.
Proof. intros Hv Hc Ho. destruct s. exact (proj1 (paged_write _ own c m' Hv Hc Ho)). Qed.

(** ** A new table *)
(** [a] was cleared and entry [i] of [b] set to [v]. *)
Definition links (m m' : memory) (a b i v : Z) : Prop :=
  ∀ b' i', page_addr b' → 0 ≤ i' < 512 →
    entry m' b' i' = if decide (b' = a) then 0 else if decide (b' = b ∧ i' = i) then v else entry m b' i'.

Lemma links_ok m m1 a b i v :
  only_page a m m1 → page_addr a → page_addr b → a ≠ b → 0 ≤ i < 512 → 0 ≤ v < 2 ^ 64 →
  links m (wr64 (fill m1 a 0 PGSIZE) (b + 8 * i) v) a b i v.
Proof.
  intros Ho Ha Hb Hne Hi Hv b' i' Hb' Hi'. rewrite entry_wr64 by done.
  destruct (decide (b' = a)) as [->|Hba].
  - rewrite decide_False by (intros [? _]; done). unfold entry. destruct (entry_in a i' Ha Hi'). apply rd64_fill; lia.
  - case_decide; [done|]. transitivity (entry m1 b' i').
    + apply (entry_ext _ _ a); [apply only_page_fill|done..].
    + by apply (entry_ext _ _ a).
Qed.

Lemma kt_link m m' own kt root l pre a b i v :
  kt_inv m own kt root → (∀ pl c, kt !! pl = Some c → page_addr c) → page_addr a → own a = RFree →
  kt !! (S l, pre) = Some b → kt !! (l, pre * 512 + i) = None → 0 ≤ i < 512 →
  links m m' a b i v → valid_pte v = true → PTE2PA v = a →
  kt_inv m' (give a RKern own) (<[(l, pre * 512 + i) := a]> kt) root.
Proof.
  intros [Kr Kk Ki Ku Kn] Hpg Hpa Ha Hb Hno Hi Hl Hv Hpt. set (pl := (l, pre * 512 + i)).
  assert (∀ pl' c, kt !! pl' = Some c → c ≠ a) as Hnew by (intros pl' c Hc ->; apply Kk in Hc; congruence).
  destruct (Ku _ _ _ Hb) as [Hl2 _]. split.
  - rewrite lookup_insert_ne; [done|]. unfold pl. intros [=]. lia.
  - intros pl' c Hc. destruct (decide (c = a)) as [->|]; [apply give_eq|]. rewrite give_ne by done.
    apply lookup_insert_Some in Hc as [[_ ->]|[_ Hc]]; [done|by eapply Kk].
  - intros p1 p2 c [[<- <-]|[N1 L1]]%lookup_insert_Some [[<- E2]|[N2 L2]]%lookup_insert_Some; try done.
    + by destruct (Hnew _ _ L2).
    + subst c. by destruct (Hnew _ _ L1).
    + by eapply Ki.
  - intros l' pre' c [[[= <- <-] <-]|[_ Hc]]%lookup_insert_Some.
    + split; [lia|]. intros _. replace ((pre * 512 + i) / 512) with pre by (Z.to_euclidean_division_equations; lia).
      rewrite lookup_insert_ne by (intros [=]; lia). by rewrite Hb.
    + destruct (Ku _ _ _ Hc) as [? Hup]. split; [done|]. intros Hlt. apply lookup_insert_is_Some'. right. by apply Hup.
  - intros l' pre' b' i' Hb' Hi'. apply lookup_insert_Some in Hb' as [[Epl <-]|[Npl Hb']].
    + rewrite lookup_insert_ne by (unfold pl in Epl |- *; intros [=]; simplify_eq; lia).
      destruct (kt !! (l', pre' * 512 + i')) as [c|] eqn:Hc.
      * exfalso. destruct (Ku _ _ _ Hc) as [_ Hup]. replace ((pre' * 512 + i') / 512) with pre' in Hup by (Z.to_euclidean_division_equations; lia).
        unfold pl in Epl. destruct Hup as [d Hd]; [simplify_eq; lia|]. rewrite <- Epl in Hd. congruence.
      * rewrite Hl by done. rewrite decide_True by done. apply valid_pte_0.
    + assert (b' ≠ a) as Hba by by eapply Hnew. specialize (Kn _ _ _ _ Hb' Hi').
      assert (page_addr b') as Hpb by by eapply Hpg.
      destruct (decide (b' = b ∧ i' = i)) as [[-> ->]|Hne].
      * pose proof (Ki _ _ _ Hb Hb') as [= <- <-]. fold pl. rewrite lookup_insert_eq.
        unfold points. rewrite (Hl b i Hpb Hi). rewrite decide_False, decide_True by done. done.
      * rewrite lookup_insert_ne.
        -- unfold points in *. rewrite (Hl b' i' Hpb Hi'). by rewrite decide_False, decide_False by done.
        -- unfold pl. intros [= <- E]. assert (pre' = pre ∧ i' = i) as [-> ->] by lia. destruct Hne. split; congruence.
Qed.

Lemma kpte_link m m' own kt root l pre a b i v w :
  kt_inv m own kt root → (∀ pl c, kt !! pl = Some c → page_addr c) → page_addr a → own a = RFree →
  kt !! (S l, pre) = Some b → kt !! (l, pre * 512 + i) = None → links m m' a b i v →
  kpte m' (<[(l, pre * 512 + i) := a]> kt) w = kpte m kt w.
Proof.
  intros Ht Hpg Hpa Ha Hb Hno Hl. unfold kpte. pose proof (Z.mod_pos_bound w 512 ltac:(lia)) as Hw.
  destruct (decide ((l, pre * 512 + i) = (0%nat, w / 512))) as [E|Hne].
  - rewrite E, lookup_insert_eq. rewrite E in Hno. rewrite Hno. rewrite Hl by done. by rewrite decide_True.
  - rewrite lookup_insert_ne by done. destruct (kt !! (0%nat, w / 512)) as [c|] eqn:Hc; [|done].
    rewrite Hl by (done || by eapply Hpg). rewrite decide_False; [rewrite decide_False; [done|]|].
    + intros [-> _]. pose proof (kt_inj _ _ _ _ Ht _ _ _ Hb Hc). discriminate.
    + intros ->. pose proof (kt_kern _ _ _ _ Ht _ _ Hc). congruence.
Qed.

(** ** One level of the walk *)
Definition missing (kt : places) (pl : nat * Z) : Z := match kt !! pl with Some _ => 0 | None => 1 end.

(** What building tables does to the places and the roles. *)
Record built s (own : owners) (kt : places) s' (own' : owners) (kt' : places) : Prop := {
  bu_sub : ∀ pl c, kt !! pl = Some c → kt' !! pl = Some c;
  bu_new : ∀ pl c, kt' !! pl = Some c → kt !! pl = Some c ∨ own c = RFree;
  bu_kern : ∀ a, own a = RKern → own' a = RKern;
  bu_free : ∀ a, own' a = RFree → own a = RFree;
  bu_roles : ∀ a, own' a = own a ∨ own' a = RKern;
  bu_procs : same_procs s s' ∧ cur s' = cur s;
}.

Lemma built_refl s own kt s' : same_procs s s' → cur s' = cur s → built s own kt s' own kt.
Proof. intros Hps Hc. by split; auto. Qed.

Lemma built_trans s1 o1 k1 s2 o2 k2 s3 o3 k3 : built s1 o1 k1 s2 o2 k2 → built s2 o2 k2 s3 o3 k3 → built s1 o1 k1 s3 o3 k3.
Proof.
  intros [A1 B1 C1 E1 F1 [G1 I1]] [A2 B2 C2 E2 F2 [G2 I2]].
  split; [by auto| |by auto|by auto| |unfold same_procs in *; split; congruence].
  - intros pl c Hc. destruct (B2 pl c Hc) as [Hc'|Hf]; [by apply B1|right; by apply E1].
  - intros a. destruct (F2 a) as [->|?]; auto.
Qed.

Lemma kstep_ok s own kt root l pre b va n :
  let lev := Z.of_nat (S l) in let pl := (l, pre * 512 + PX lev va) in
  kinv s own kt root → kt !! (S l, pre) = Some b → room own n → missing kt pl ≤ n →
  ∃ c s' own' kt', walk_step lev b va true s = Ok (Some c, s') ∧ kinv s' own' kt' root ∧ kt' !! pl = Some c ∧
    built s own kt s' own' kt' ∧ (∀ w, kpte (mem s') kt' w = kpte (mem s) kt w) ∧ room own' (n - missing kt pl) ∧
    ∀ pl', pl' ≠ pl → kt' !! pl' = kt !! pl'.
Proof.
  intros lev pl Hk Hb Hn Hneed. pose proof Hk as [Hv Ht]. pose proof (PX_range lev va) as Hi. set (i := PX lev va) in *.
  pose proof (kt_page s own kt root _ b Hk Hb) as Hpb. pose proof (kt_node _ _ _ _ Ht _ _ _ _ Hb Hi) as Hnode. fold pl in Hnode.
  unfold walk_step. fold i. rewrite (bind_ok _ _ _ _ _ (load64_ok s _ (entry_ram b i Hpb Hi))). fold (entry (mem s) b i).
  unfold missing in *. destruct (kt !! pl) as [c|] eqn:Hc.
  - destruct Hnode as [-> ->]. exists c, s, own, kt. split_and!; [done|done|done|by apply built_refl|done|by rewrite Z.sub_0_r|done].
  - rewrite Hnode. destruct (kalloc_tree s own (vi_tree _ _ Hv)) as [(_ & Hno & _)|(a & fl & m & Ha & Ha0 & E & Ho & Htr)].
    { destruct (room_pos own n Hn) as [a Ha]; [lia|]. by destruct (Hno a). }
    rewrite (bind_ok _ _ _ _ _ E). rewrite decide_False by done. set (s1 := with_mem m (with_freelist fl s)).
    assert (page_addr a) as Hpa by (apply (tree_sane _ _ _ (vi_tree _ _ Hv)); by rewrite Ha).
    destruct (paged_give s own m fl a RKern Hv) as [Hv1 Hpg1]; [by left|by right|done..|]. fold s1 in Hv1, Hpg1.
    assert (in_ram a PGSIZE = true) as Hra by (apply (page_ram a); [done|lia|lia]).
    rewrite (bind_ok _ _ _ _ _ (memset_ok s1 a 0 PGSIZE Hra)). set (s2 := with_mem _ s1).
    assert (vinv s2 (give a RKern own)) as Hv2 by (apply (kern_write s1 _ a); [done|apply give_eq|apply only_page_fill]).
    rewrite (bind_ok _ _ _ _ _ (store64_ok s2 _ _ (entry_ram b i Hpb Hi))).
    destruct (table_pte a Hpa) as (Hr & Hval & Hpt & _). set (v := Z.lor (PA2PTE a) PTE_V) in *.
    pose proof (kt_kern _ _ _ _ Ht _ _ Hb) as Hkb. assert (a ≠ b) as Hab by (intros ->; congruence).
    set (s3 := with_mem _ s2).
    assert (links (mem s) (mem s3) a b i v) as Hl by by apply links_ok.
    exists a, s3, (give a RKern own), (<[pl := a]> kt). split_and!; [done| |apply lookup_insert_eq| | |by apply room_take|].
    + split.
      * apply (kern_write s2 _ b); [done|by rewrite give_ne by congruence|]. destruct (entry_in b i Hpb Hi). by apply only_page_wr64.
      * eapply kt_link; try done. intros pl' c Hc'. by eapply kt_page.
    + split.
      * intros pl' c Hc'. rewrite lookup_insert_ne; [done|]. intros <-. congruence.
      * intros pl' c [[_ <-]|[_ Hc']]%lookup_insert_Some; auto.
      * intros c Hc'. unfold give. by case_decide.
      * intros c. unfold give. by case_decide.
      * intros c. unfold give. case_decide; auto.
      * split; [exact (pg_procs _ _ _ _ Hpg1)|exact (pg_cur _ _ _ _ Hpg1)].
    + intros w. eapply kpte_link; try done. intros pl' c Hc'. by eapply kt_page.
    + intros pl' Hne. by rewrite lookup_insert_ne.
Qed.

(** ** The walk *)
Definition need (kt : places) (w : Z) : Z := missing kt (1%nat, w / 512 / 512) + missing kt (0%nat, w / 512).

Lemma missing_range kt pl : 0 ≤ missing kt pl ≤ 1.
Proof. unfold missing. destruct (kt !! pl); lia. Qed.

Lemma kwalk_ok s own kt root va n :
  let w := va / PGSIZE in
  kinv s own kt root → 0 ≤ va < MAXVA → room own n → need kt w ≤ n →
  ∃ b s' own' kt', walk root va true s = Ok (Some (b + 8 * (w mod 512)), s') ∧ kinv s' own' kt' root ∧
    kt' !! (0%nat, w / 512) = Some b ∧ built s own kt s' own' kt' ∧ (∀ v, kpte (mem s') kt' v = kpte (mem s) kt v) ∧
    room own' (n - need kt w).
Proof.
  intros w Hk Hva Hn Hneed. destruct (PX_page va Hva) as (P0 & P1 & P2). fold w in P0, P1, P2.
  unfold walk. rewrite decide_False by lia. unfold need in *.
  pose proof (missing_range kt (1%nat, w / 512 / 512)). pose proof (missing_range kt (0%nat, w / 512)).
  destruct (kstep_ok s own kt root 1 0 root va n Hk (kt_root _ _ _ _ (ki_tree _ _ _ _ Hk)) Hn) as (p1 & s1 & own1 & kt1 & E1 & Hk1 & Hp1 & Hg1 & Hv1 & Hn1 & Hs1).
  { change (Z.of_nat 2) with 2. rewrite P2, Z.mul_0_l, Z.add_0_l. lia. }
  change (Z.of_nat 2) with 2 in *. rewrite P2 in *. rewrite Z.mul_0_l, Z.add_0_l in *.
  rewrite (bind_ok _ _ _ _ _ E1).
  assert (w / 512 / 512 * 512 + PX (Z.of_nat 1) va = w / 512) as Ew.
  { change (Z.of_nat 1) with 1. rewrite P1. Z.to_euclidean_division_equations. lia. }
  assert (missing kt1 (0%nat, w / 512) = missing kt (0%nat, w / 512)) as Em by (unfold missing; by rewrite Hs1).
  destruct (kstep_ok s1 own1 kt1 root 0 (w / 512 / 512) p1 va _ Hk1 Hp1 Hn1) as (p0 & s2 & own2 & kt2 & E2 & Hk2 & Hp2 & Hg2 & Hv2 & Hn2 & _).
  { rewrite Ew, Em. lia. }
  rewrite Ew, Em in *. change (Z.of_nat 1) with 1 in E2. rewrite (bind_ok _ _ _ _ _ E2), P0.
  exists p0, s2, own2, kt2. split_and!; [done|done|done|by eapply built_trans|intros v; by rewrite Hv2|].
  eapply room_mono; [exact Hn2|lia].
Qed.

(** ** Mapping a range *)
Definition pte_for (pa perm : Z) : Z := Z.lor (Z.lor (PA2PTE pa) perm) PTE_V.

(** A leaf entry is written. *)
Lemma kleaf_write s own kt root b q j v :
  kinv s own kt root → kt !! (0%nat, q) = Some b → 0 ≤ j < 512 → 0 ≤ v < 2 ^ 64 →
  let s' := with_mem (wr64 (mem s) (b + 8 * j) v) s in
  kinv s' own kt root ∧ ∀ w, kpte (mem s') kt w = if decide (w = q * 512 + j) then v else kpte (mem s) kt w.
Proof.
  intros Hk Hb Hj Hv s'. pose proof Hk as [Hvi Ht]. pose proof (kt_page s own kt root _ b Hk Hb) as Hpb.
  assert (∀ pl c i, kt !! pl = Some c → 0 ≤ i < 512 →
    entry (mem s') c i = if decide (c = b ∧ i = j) then v else entry (mem s) c i) as He.
  { intros pl c i Hc Hi. apply entry_wr64; try done. by eapply kt_page. }
  split; [split|].
  - apply (kern_write s own b); [done|by apply (kt_kern _ _ _ _ Ht _ _ Hb)|]. destruct (entry_in b j Hpb Hj). by apply only_page_wr64.
  - destruct Ht as [Kr Kk Ki Ku Kn]. split; [done..|]. intros l pre c i Hc Hi. specialize (Kn _ _ _ _ Hc Hi).
    unfold points in *. rewrite (He _ _ _ Hc Hi). rewrite decide_False; [done|]. intros [-> _].
    pose proof (Ki _ _ _ Hb Hc). discriminate.
  - intros w. unfold kpte. pose proof (Z.mod_pos_bound w 512 ltac:(lia)) as Hw.
    destruct (kt !! (0%nat, w / 512)) as [c|] eqn:Hc.
    + rewrite (He _ _ _ Hc Hw). destruct (decide (w = q * 512 + j)) as [E|Hne].
      * assert (w / 512 = q ∧ w mod 512 = j) as [Eq Ej] by (Z.to_euclidean_division_equations; lia).
        rewrite decide_True; [done|]. rewrite Eq in Hc. split; congruence.
      * rewrite decide_False; [done|]. intros [-> Ej]. apply Hne.
        pose proof (kt_inj _ _ _ _ Ht _ _ _ Hb Hc) as [= ->]. Z.to_euclidean_division_equations. lia.
    + rewrite decide_False; [done|]. intros ->.
      replace ((q * 512 + j) / 512) with q in Hc by (Z.to_euclidean_division_equations; lia). congruence.
Qed.

(** The tables that [n] pages from page [w] may take beyond those of [w]. *)
Definition spill (w n : Z) : Z := 2 * ((w + n - 1) / 512 - w / 512).

Lemma spill_step w n : 1 ≤ n → 2 * ((w + 1) / 512 - w / 512) + spill (w + 1) n = spill w (n + 1).
Proof. intros Hn. unfold spill. replace (w + 1 + n - 1) with (w + (n + 1) - 1) by lia. lia. Qed.

Lemma need_next kt b w : 
  kt !! (0%nat, w / 512) = Some b → is_Some (kt !! (1%nat, w / 512 / 512)) → need kt (w + 1) ≤ 2 * ((w + 1) / 512 - w / 512).
Proof.
  intros Hb [c Hc]. unfold need. destruct (decide ((w + 1) / 512 = w / 512)) as [E|Hne].
  - rewrite E. unfold missing. rewrite Hb, Hc. lia.
  - pose proof (missing_range kt (1%nat, (w + 1) / 512 / 512)). pose proof (missing_range kt (0%nat, (w + 1) / 512)).
    pose proof (Z.div_le_mono w (w + 1) 512). lia.
Qed.

Lemma kmap_page s own kt root w pa perm k :
  kinv s own kt root → 0 ≤ w → (w + 1) * PGSIZE ≤ MAXVA → pa_ok pa → 0 ≤ perm < 1024 →
  valid_pte (kpte (mem s) kt w) = false → room own k → need kt w ≤ k →
  ∃ b s1 own1 kt1, walk root (w * PGSIZE) true s = Ok (Some (b + 8 * (w mod 512)), s1) ∧
    load64 (b + 8 * (w mod 512)) s1 = Ok (kpte (mem s) kt w, s1) ∧
    ∃ s2, store64 (b + 8 * (w mod 512)) (pte_for pa perm) s1 = Ok (tt, s2) ∧
    kinv s2 own1 kt1 root ∧ built s own kt s2 own1 kt1 ∧ room own1 (k - need kt w) ∧
    kt1 !! (0%nat, w / 512) = Some b ∧
    ∀ v, kpte (mem s2) kt1 v = if decide (v = w) then pte_for pa perm else kpte (mem s) kt v.
Proof.
  intros Hk Hw Hmax Hpa Hperm Hinv Hn Hneed. pose proof PGSIZE_4096 as Hpg.
  assert (w * PGSIZE / PGSIZE = w) as Ew by (apply Z.div_mul; lia).
  destruct (kwalk_ok s own kt root (w * PGSIZE) k) as (b & s1 & own1 & kt1 & E & Hk1 & Hb & Hg & Hgp & Hl); [done|lia|done|by rewrite Ew|].
  rewrite Ew in *. pose proof (Z.mod_pos_bound w 512 ltac:(lia)) as Hj. pose proof (kt_page s1 own1 kt1 root _ b Hk1 Hb) as Hpb.
  destruct (user_pte pa perm Hpa Hperm) as (Hr & _ & _).
  destruct (kleaf_write s1 own1 kt1 root b (w / 512) (w mod 512) (pte_for pa perm) Hk1 Hb Hj Hr) as [Hk2 Hpte].
  exists b, s1, own1, kt1. split_and!; [done| |].
  - rewrite (load64_ok s1 _ (entry_ram b _ Hpb Hj)). fold (entry (mem s1) b (w mod 512)).
    rewrite <- (Hgp w). unfold kpte. by rewrite Hb.
  - eexists. split; [by apply store64_ok, entry_ram|]. split_and!; [exact Hk2| |done|done|].
    { eapply built_trans; [exact Hg|by apply built_refl]. }
    intros v. rewrite Hpte, (Hgp v).
    replace (w / 512 * 512 + w mod 512) with w by (Z.to_euclidean_division_equations; lia). done.
Qed.

Lemma mappages_loop_S fuel root a last pa perm s :
  mappages_loop (S fuel) root a last pa perm s =
  (let* o := walk root a true in
   match o with
   | None => ret (-1)
   | Some pte =>
     let* v := load64 pte in
     if valid_pte v then panic "mappages: remap" else
     store64 pte (pte_for pa perm) ;;;
     if decide (a = last) then ret 0
     else mappages_loop fuel root (u64 (a + PGSIZE)) last (u64 (pa + PGSIZE)) perm
   end) s.
Proof. reflexivity. Qed.

Lemma kmap_loop (n : nat) s own kt root w pa perm k :
  kinv s own kt root → 0 ≤ w → (w + Z.of_nat (S n)) * PGSIZE ≤ MAXVA → (PGSIZE | pa) → 0 ≤ pa → pa + Z.of_nat (S n) * PGSIZE ≤ 2 ^ 55 →
  0 ≤ perm < 1024 → (∀ v, w ≤ v < w + Z.of_nat (S n) → valid_pte (kpte (mem s) kt v) = false) →
  room own k → need kt w + spill w (Z.of_nat (S n)) ≤ k →
  ∃ s' own' kt', mappages_loop (S n) root (w * PGSIZE) ((w + Z.of_nat n) * PGSIZE) pa perm s = Ok (0, s') ∧
    kinv s' own' kt' root ∧ built s own kt s' own' kt' ∧ room own' (k - (need kt w + spill w (Z.of_nat (S n)))) ∧
    ∀ v, kpte (mem s') kt' v = if decide (w ≤ v < w + Z.of_nat (S n)) then pte_for (pa + (v - w) * PGSIZE) perm else kpte (mem s) kt v.
Proof.
  revert s own kt w pa k. induction n as [|n IH]; intros s own kt w pa k Hk Hw Hmax Hal Hpa Htop Hperm Hfree Hn Hneed;
    pose proof PGSIZE_4096 as Hpg; pose proof MAXVA_range as Hmv.
  - assert (spill w (Z.of_nat 1) = 0) as Hs0 by (unfold spill; replace (w + Z.of_nat 1 - 1) with w by lia; lia).
    destruct (kmap_page s own kt root w pa perm k) as (b & s1 & own1 & kt1 & E1 & E2 & s2 & E3 & Hk2 & Hps & Hl & Hb & Hpte);
      [done|done|lia|by split; [lia|]|done|apply Hfree; lia|done|lia|].
    rewrite mappages_loop_S, (bind_ok _ _ _ _ _ E1), (bind_ok _ _ _ _ _ E2). rewrite Hfree by lia.
    rewrite (bind_ok _ _ _ _ _ E3). rewrite decide_True by lia. exists s2, own1, kt1.
    split_and!; [done..|eapply room_mono; [exact Hl|lia]|].
    intros v. rewrite Hpte. destruct (decide (v = w)) as [->|]; [rewrite decide_True by lia; f_equal; lia|by rewrite decide_False by lia].
  - assert (0 ≤ spill (w + 1) (Z.of_nat (S n)) ∧ 0 ≤ need kt w) as [Hsp Hnd].
    { split; [|unfold need; pose proof (missing_range kt (1%nat, w / 512 / 512)); pose proof (missing_range kt (0%nat, w / 512)); lia].
      unfold spill. pose proof (Z.div_le_mono (w + 1) (w + 1 + Z.of_nat (S n) - 1) 512). lia. }
    pose proof (spill_step w (Z.of_nat (S n)) ltac:(lia)) as Hss. replace (Z.of_nat (S n) + 1) with (Z.of_nat (S (S n))) in Hss by lia.
    pose proof (Z.div_le_mono w (w + 1) 512 ltac:(lia) ltac:(lia)).
    destruct (kmap_page s own kt root w pa perm k) as (b & s1 & own1 & kt1 & E1 & E2 & s2 & E3 & Hk2 & Hps & Hl & Hb & Hpte);
      [done|done|lia|by split; [lia|]|done|apply Hfree; lia|done|lia|].
    assert (is_Some (kt1 !! (1%nat, w / 512 / 512))) as Hup by (apply (kt_up _ _ _ _ (ki_tree _ _ _ _ Hk2) _ _ _ Hb); lia).
    pose proof (need_next kt1 b w Hb Hup) as Hnn.
    assert (pa + 1 * PGSIZE = u64 (pa + PGSIZE)) as Epa by (rewrite u64_id; lia).
    destruct (IH s2 own1 kt1 (w + 1) (pa + PGSIZE) (k - need kt w) Hk2) as (s' & own' & kt' & E' & Hk' & Hps' & Hl' & Hpte');
      [lia|lia|by apply Z.divide_add_r|lia|lia|done| |done|lia|].
    { intros v Hv. rewrite Hpte, decide_False by lia. apply Hfree. lia. }
    rewrite mappages_loop_S, (bind_ok _ _ _ _ _ E1), (bind_ok _ _ _ _ _ E2). rewrite Hfree by lia.
    rewrite (bind_ok _ _ _ _ _ E3). rewrite decide_False by nia.
    exists s', own', kt'. split_and!.
    + rewrite !u64_id by lia. replace (w * PGSIZE + PGSIZE) with ((w + 1) * PGSIZE) by lia.
      replace ((w + Z.of_nat (S n)) * PGSIZE) with ((w + 1 + Z.of_nat n) * PGSIZE) by lia. exact E'.
    + done.
    + by eapply built_trans.
    + eapply room_mono; [exact Hl'|lia].
    + intros v. rewrite Hpte', Hpte. destruct (decide (v = w)) as [->|Hvw].
      * rewrite decide_False, decide_True by lia. f_equal. lia.
      * destruct (decide (w + 1 ≤ v < w + 1 + Z.of_nat (S n))).
        -- rewrite decide_True by lia. f_equal. lia.
        -- by rewrite decide_False by lia.
Qed.

(** ** Regions *)
Record region := mkRegion { g_va : Z; g_pa : Z; g_sz : Z; g_perm : Z }.
Definition covers (r : region) (w : Z) : Prop := g_va r / PGSIZE ≤ w < (g_va r + g_sz r) / PGSIZE.
#[export] Instance covers_dec r w : Decision (covers r w).
Proof. unfold covers. apply _. Defined.

Definition region_pte (r : region) (w : Z) : Z := pte_for (g_pa r + (w - g_va r / PGSIZE) * PGSIZE) (g_perm r).
(** The entry of page [w] in a table made of regions; 0 is no mapping. *)
Fixpoint rmap (rs : list region) (w : Z) : Z :=
  match rs with
  | [] => 0
  | r :: rs => if decide (covers r w) then region_pte r w else rmap rs w
  end.

Record region_ok (r : region) : Prop := {
  ro_va : (PGSIZE | g_va r) ∧ 0 ≤ g_va r;
  ro_pa : (PGSIZE | g_pa r) ∧ 0 ≤ g_pa r ∧ g_pa r + g_sz r ≤ 2 ^ 55;
  ro_sz : (PGSIZE | g_sz r) ∧ 0 < g_sz r ∧ g_va r + g_sz r ≤ MAXVA;
  ro_perm : 0 ≤ g_perm r < 1024;
}.
Definition cost (r : region) : Z := 2 + spill (g_va r / PGSIZE) (g_sz r / PGSIZE).

Record kmapped s (own : owners) (kt : places) (root : Z) (rs : list region) : Prop := {
  km_inv : kinv s own kt root;
  km_pte : ∀ w, kpte (mem s) kt w = rmap rs w;
}.

Lemma rmap_none rs w : Forall (λ r, ¬ covers r w) rs → rmap rs w = 0.
Proof. induction 1 as [|r rs Hr _ IH]; [done|]. simpl. by rewrite decide_False. Qed.

Lemma kvmmap_ok s own kt root rs r k :
  kmapped s own kt root rs → region_ok r → (∀ w, covers r w → rmap rs w = 0) → room own (cost r + k) → 0 ≤ k →
  ∃ s' own' kt', kvmmap root (g_va r) (g_pa r) (g_sz r) (g_perm r) s = Ok (tt, s') ∧
    kmapped s' own' kt' root (r :: rs) ∧ built s own kt s' own' kt' ∧ room own' k.
Proof.
  intros [Hk Hpte] [[[w Hva] Hva0] (Hpa & Hpa0 & Hpa1) ([n Hsz] & Hsz0 & Htop) Hperm] Hfree Hroom Hk0.
  pose proof PGSIZE_4096 as Hpg. pose proof MAXVA_range as Hmv.
  destruct r as [va pa sz perm]. cbn [g_va g_pa g_sz g_perm] in *. subst va sz.
  assert (w * PGSIZE / PGSIZE = w ∧ n * PGSIZE / PGSIZE = n ∧ (w * PGSIZE + n * PGSIZE) / PGSIZE = w + n) as (Ew & En & Ewn).
  { split_and!; [by apply Z.div_mul; lia..|]. rewrite <- Z.mul_add_distr_r. apply Z.div_mul. lia. }
  unfold cost, covers in *. cbn [g_va g_pa g_sz g_perm] in *. rewrite Ew, En, ?Ewn in *.
  assert (n = Z.of_nat (S (Z.to_nat (n - 1)))) as Hn by lia. set (j := Z.to_nat (n - 1)) in *.
  pose proof (missing_range kt (1%nat, w / 512 / 512)). pose proof (missing_range kt (0%nat, w / 512)).
  destruct (kmap_loop j s own kt root w pa perm (2 + spill w n + k)) as (s' & own' & kt' & E & Hk' & Hb & Hl & Hp');
    [done|lia|nia|done|done|nia|done| |done|unfold need; rewrite <- Hn; lia|].
  { intros v Hv. rewrite Hpte, Hfree by lia. apply valid_pte_0. }
  exists s', own', kt'. split_and!; [|split; [done|]|done|].
  - unfold kvmmap, mappages. rewrite !Z_mod_mult. do 2 rewrite decide_False by (intros Hbad; by apply Hbad). rewrite decide_False by lia.
    rewrite En, u64_id by nia. replace (Z.to_nat n) with (S j) by lia.
    replace (w * PGSIZE + n * PGSIZE - PGSIZE) with ((w + Z.of_nat j) * PGSIZE) by lia.
    rewrite (bind_ok _ _ _ _ _ E). done.
  - intros v. rewrite Hp', <- Hn. cbn [rmap].
    destruct (decide (covers _ v)) as [Hc|Hc]; unfold covers in Hc; cbn [g_va g_pa g_sz g_perm] in Hc; rewrite Ewn, Ew in Hc.
    + rewrite decide_True by lia. unfold region_pte. cbn [g_va g_pa g_sz g_perm]. by rewrite Ew.
    + rewrite decide_False by lia. apply Hpte.
  - eapply room_mono; [exact Hl|]. unfold need. rewrite <- Hn. lia.
Qed.

(** A page for the kernel. *)
Lemma kalloc_room s own kt root rs k :
  kmapped s own kt root rs → room own (k + 1) → 0 ≤ k →
  ∃ a s', kalloc s = Ok (a, s') ∧ a ≠ 0 ∧ own a = RFree ∧ page_addr a ∧
    kmapped s' (give a RKern own) kt root rs ∧ room (give a RKern own) k ∧ same_procs s s' ∧ cur s' = cur s.
Proof.
  intros [[Hv Ht] Hpte] Hr Hk.
  destruct (kalloc_tree s own (vi_tree _ _ Hv)) as [(_ & Hno & _)|(a & fl & m & Ha & Ha0 & E & Ho & Htr)].
  { destruct (room_pos own _ Hr) as [a Ha]; [lia|]. by destruct (Hno a). }
  assert (page_addr a) as Hpa by (apply (tree_sane _ _ _ (vi_tree _ _ Hv)); by rewrite Ha).
  destruct (paged_give s own m fl a RKern Hv) as [Hv1 Hpg1]; [by left|by right|done..|].
  exists a, (with_mem m (with_freelist fl s)).
  assert (∀ pl b i, kt !! pl = Some b → 0 ≤ i < 512 → entry m b i = entry (mem s) b i) as He.
  { intros pl b i Hb Hi. apply (entry_ext _ _ a); [done|done| | |done].
    - eapply (kt_page s own kt root); [by split|done].
    - intros <-. pose proof (kt_kern _ _ _ _ Ht _ _ Hb). congruence. }
  split_and!; [done..| | |exact (pg_procs _ _ _ _ Hpg1)|exact (pg_cur _ _ _ _ Hpg1)].
  - split; [split; [done|]|].
    + destruct Ht as [Kr Kk Ki Ku Kn]. split; [done| |done|done|].
      * intros pl b Hb. unfold give. case_decide; [done|by eapply Kk].
      * intros l pre b i Hb Hi. specialize (Kn _ _ _ _ Hb Hi). unfold points in *. simpl. by rewrite (He _ _ _ Hb Hi).
    + intros w. rewrite <- Hpte. unfold kpte. destruct (kt !! _) as [b|] eqn:Hb; [|done]. simpl.
      apply (He _ _ _ Hb), Z.mod_pos_bound. lia.
  - eapply room_mono; [by apply room_take|lia].
Qed.

(** ** What the hardware finds *)
(** The leaf entry for [va], 0 when a table is missing. *)
Definition hw_pte (m : memory) (root va : Z) : Z := default 0 (pt_entry m root va).

Lemma hw_pte_ok s own kt root va : kinv s own kt root → 0 ≤ va < MAXVA → hw_pte (mem s) root va = kpte (mem s) kt (va / PGSIZE).
Proof.
  intros [_ [Kr Kk Ki Ku Kn]] Hva. destruct (PX_page va Hva) as (P0 & P1 & P2). set (w := va / PGSIZE) in *.
  pose proof (PX_range 1 va) as R1. pose proof (PX_range 2 va) as R2.
  assert (w / 512 / 512 * 512 + PX 1 va = w / 512) as Ew by (rewrite P1; Z.to_euclidean_division_equations; lia).
  pose proof (Kn 1%nat 0 root (PX 2 va) Kr R2) as N2. rewrite Z.mul_0_l, Z.add_0_l, P2 in N2.
  unfold hw_pte, pt_entry, pt_step, kpte. fold (entry (mem s) root (PX 2 va)). rewrite P2.
  destruct (kt !! (1%nat, w / 512 / 512)) as [p1|] eqn:Hp1.
  - destruct N2 as [-> ->]. simpl. fold (entry (mem s) p1 (PX 1 va)).
    pose proof (Kn 0%nat _ p1 (PX 1 va) Hp1 R1) as N1. rewrite Ew in N1. destruct (kt !! (0%nat, w / 512)) as [p0|].
    + destruct N1 as [-> ->]. simpl. by rewrite P0.
    + rewrite N1. done.
  - rewrite N2. simpl. destruct (kt !! (0%nat, w / 512)) as [p0|] eqn:Hp0; [|done].
    destruct (Ku _ _ _ Hp0) as [_ [c Hc]]; [lia|]. congruence.
Qed.

(** Regions by address. *)
Lemma covers_addr r w : region_ok r → covers r w ↔ g_va r ≤ w * PGSIZE < g_va r + g_sz r.
Proof.
  intros [[[a Ha] _] _ ([n Hn] & _) _]. pose proof PGSIZE_4096. unfold covers. rewrite Ha, Hn, <- Z.mul_add_distr_r, !Z.div_mul by lia. nia.
Qed.

End kvmok.
