(* ===== verification/KvmProps.v ===== *)
(** * Properties of the kernel page table

    [kvmmake] builds exactly the map of memlayout.h, and how many pages that
    takes. *)
From stdpp Require Import gmap.
From S2P Require Import Prelude Interfaces Raid RaidProps Mem KState Kmem PageTable Frames Paging Vm Fault Boot VmProps Spaces.
From S2P Require Import Fork Teardown Sched Proc ProcMem ProcTable UserCopy Kfork Reap ProcBoot Kvm KvmOk.
Local Open Scope Z_scope.

Section kvmprops.
Context `{Sv39} `{!ProcEnv} `{!KvmEnv} {D : Type} `{!SwapDev D} `{!SwapDevSpec D}.
Implicit Types s : kernel D.

Definition RW : Z := Z.lor PTE_R PTE_W.
Definition RX : Z := Z.lor PTE_R PTE_X.

(** The regions of [kvmmake], the last one first. *)
Definition uart_region := mkRegion UART0 UART0 PGSIZE RW.
Definition virtio_region := mkRegion VIRTIO0 VIRTIO0 PGSIZE RW.
Definition plic_region := mkRegion PLIC PLIC 67108864 RW.
Definition text_region := mkRegion KERNBASE KERNBASE (etext - KERNBASE) RX.
Definition data_region := mkRegion etext etext (PHYSTOP - etext) RW.
Definition tramp_region := mkRegion TRAMPOLINE trampoline PGSIZE RX.
Definition fixed_regions : list region :=
  [tramp_region; data_region; text_region; plic_region; virtio_region; uart_region].
Definition stack_region (i pg : Z) : region := mkRegion (KSTACK i) pg PGSIZE RW.
(** [pages] are the stacks made so far, the last one first. *)
Fixpoint stack_regions (pages : list Z) : list region :=
  match pages with
  | [] => []
  | pg :: pages => stack_region (Z.of_nat (length pages)) pg :: stack_regions pages
  end.

(** The pages that suffice: one for the root, two tables for each single page
    and the first page of a range, two more per 512 pages, and one for the
    stack itself of each process. *)
Definition kvm_pages : Z :=
  1 + cost uart_region + cost virtio_region + cost plic_region + cost text_region + cost data_region + cost tramp_region +
  3 * Z.of_nat NPROC.

Lemma perms_ok : 0 ≤ RW < 1024 ∧ 0 ≤ RX < 1024.
Proof. unfold RW, RX. destruct pte_bits as (_ & -> & -> & -> & _).
  change (Z.lor 2 4) with 6. change (Z.lor 2 8) with 10. lia. Qed.

Ltac layout :=
  pose proof PGSIZE_4096; pose proof devices_order; pose proof etext_range; pose proof kend_range; pose proof KERNBASE_pos;
  pose proof PHYSTOP_range; pose proof MAXVA_range; pose proof TRAMPOLINE_top; pose proof TRAPFRAME_below; pose proof stacks_above;
  pose proof perms_ok.

Lemma trampoline_aligned : (PGSIZE | TRAMPOLINE).
Proof. rewrite TRAMPOLINE_top. apply Z.divide_sub_r; [apply MAXVA_aligned|apply Z.divide_refl]. Qed.

Lemma KSTACK_aligned i : (PGSIZE | KSTACK i).
Proof.
  rewrite KSTACK_at. apply Z.divide_sub_r; [apply trampoline_aligned|]. exists ((i + 1) * 2). lia.
Qed.

Lemma fixed_ok : Forall region_ok fixed_regions.
Proof.
  layout. destruct devices_aligned as (A1 & A2 & A3), text_aligned as [A4 A5], trampoline_ok as [A6 A7].
  pose proof PHYSTOP_aligned as A8. pose proof trampoline_aligned as A9.
  assert ((PGSIZE | 67108864)) as A10 by (exists 16384; lia).
  assert (trampoline + PGSIZE ≤ 2 ^ 55) by (destruct A7 as [t A7]; rewrite PGSIZE_4096 in *; lia).
  repeat constructor; simpl; try done; try lia; try apply Z.divide_refl; by apply Z.divide_sub_r.
Qed.

Lemma stack_ok i pg : 0 ≤ i < Z.of_nat NPROC → page_addr pg → region_ok (stack_region i pg).
Proof.
  intros Hi Hpg. layout. pose proof (page_addr_pos pg Hpg). destruct Hpg as (Ha & Hlo & Hhi). pose proof (KSTACK_aligned i).
  pose proof (KSTACK_at i).
  split; simpl; split_and!; try done; try lia; apply Z.divide_refl.
Qed.

(** ** The regions do not overlap *)
Definition apart (r r' : region) : Prop := g_va r' + g_sz r' ≤ g_va r ∨ g_va r + g_sz r ≤ g_va r'.

Lemma kernel_apart r rs :
  region_ok r → Forall region_ok rs → Forall (apart r) rs → ∀ w, covers r w → rmap rs w = 0.
Proof.
  intros Hr Hok Hap w Hc. apply rmap_none. rewrite covers_addr in Hc by done.
  rewrite Forall_forall in *. intros r' Hin. rewrite covers_addr by auto. destruct (Hap r' Hin); lia.
Qed.

Lemma spill_pos w n : 0 < n → 0 ≤ spill w n.
Proof. intros Hn. unfold spill. pose proof (Z.div_le_mono w (w + n - 1) 512). lia. Qed.

Lemma cost_pos r : region_ok r → 0 < cost r.
Proof.
  intros [_ _ ([n Hn] & Hs & _) _]. unfold cost. pose proof PGSIZE_4096. rewrite Hn, Z.div_mul by lia.
  pose proof (spill_pos (g_va r / PGSIZE) n ltac:(nia)). lia.
Qed.

(** A region is added to [kvmmap]'s table, when it lies apart from the others. *)
Lemma kvmmap_next s own kt root rs r k :
  kmapped s own kt root rs → region_ok r → Forall region_ok rs →
  Forall (apart r) rs → room own (cost r + k) → 0 ≤ k →
  ∃ s' own' kt', kvmmap root (g_va r) (g_pa r) (g_sz r) (g_perm r) s = Ok (tt, s') ∧
    kmapped s' own' kt' root (r :: rs) ∧ built s own kt s' own' kt' ∧ room own' k.
Proof. intros Hk Hr Hrs Hap Hn Hk0. apply kvmmap_ok; [done|done|by apply kernel_apart|done|done]. Qed.

(** ** Stacks *)
Lemma stack_regions_ok pages : Forall page_addr pages → (length pages ≤ NPROC)%nat → Forall region_ok (stack_regions pages).
Proof.
  induction pages as [|pg pages IH]; intros Hp Hl; [constructor|]. apply Forall_cons in Hp as [Hpg Hp]. simpl in Hl.
  constructor; [apply stack_ok; [lia|done]|apply IH; [done|lia]].
Qed.

Lemma stack_apart pages pg :
  (length pages < NPROC)%nat →
  let r := stack_region (Z.of_nat (length pages)) pg in
  Forall (apart r) (stack_regions pages ++ fixed_regions).
Proof.
  intros Hl r. layout. apply Forall_app. split.
  - assert (∀ l, (length l ≤ length pages)%nat →
      Forall (apart r) (stack_regions l)) as Hind; [|by apply Hind].
    induction l as [|q l IH]; intros Hle; [constructor|]. simpl in Hle. constructor; [|apply IH; lia].
    unfold apart, r. cbn [stack_region g_va g_sz]. rewrite !KSTACK_at, PGSIZE_4096. lia.
  - unfold r, fixed_regions. repeat constructor; unfold apart; cbn; rewrite KSTACK_at, ?PGSIZE_4096 in *; lia.
Qed.

Lemma stack_cost i pg : cost (stack_region i pg) = 2.
Proof.
  unfold cost. cbn [stack_region g_va g_sz]. rewrite Z.div_same by (rewrite PGSIZE_4096; lia). unfold spill.
  replace (KSTACK i / PGSIZE + 1 - 1) with (KSTACK i / PGSIZE) by lia. lia.
Qed.

(** What holds after [length pages] stacks; [own0] are the roles before. *)
Record stacked s (own0 own : owners) (kt : places) (root : Z) (pages : list Z) : Prop := {
  sk_map : kmapped s own kt root (stack_regions pages ++ fixed_regions);
  sk_nodup : NoDup pages;
  sk_pages : ∀ a, a ∈ pages → own a = RKern ∧ own0 a = RFree ∧ page_addr a;
  sk_tables : ∀ pl b, kt !! pl = Some b → b ∉ pages;
  sk_free : ∀ a, own a = RFree → own0 a = RFree;
  sk_roles : ∀ a, own a = own0 a ∨ own a = RKern;
}.

Lemma map_stack_ok s own0 own kt root pages k :
  stacked s own0 own kt root pages → (length pages < NPROC)%nat → room own (3 + k) → 0 ≤ k →
  ∃ pg s' own' kt', map_stack root (Z.of_nat (length pages)) s = Ok (tt, s') ∧
    stacked s' own0 own' kt' root (pg :: pages) ∧ room own' k ∧ same_procs s s' ∧ cur s' = cur s.
Proof.
  intros [Hm Hnd Hpg Htab Hfr Hro] Hl Hr Hk. pose proof Hm as [[_ Ht] _].
  destruct (kalloc_room s own kt root _ (2 + k) Hm) as (pg & s1 & E & Hne & Hf & Hpa & Hm1 & Hr1 & Hps1 & Hc1).
  { eapply room_mono; [exact Hr|lia]. } { lia. }
  unfold map_stack. rewrite (bind_ok _ _ _ _ _ E). rewrite decide_False by done.
  assert (pg ∉ pages) as Hnew by (intros Hin; destruct (Hpg pg Hin); congruence).
  destruct (kvmmap_next s1 _ kt root _ (stack_region (Z.of_nat (length pages)) pg) k Hm1) as (s2 & own2 & kt2 & E2 & Hm2 & Hb & Hr2).
  - apply stack_ok; [lia|done].
  - apply Forall_app. split; [apply stack_regions_ok; [by rewrite Forall_forall; intros a Ha; apply Hpg|lia]|apply fixed_ok].
  - by apply stack_apart.
  - by rewrite stack_cost.
  - done.
  - exists pg, s2, own2, kt2. split; [exact E2|]. split; [|split; [done|]].
    + split; [exact Hm2|by constructor| | | |].
      * intros a [->|Ha]%elem_of_cons; [split_and!; [apply (bu_kern _ _ _ _ _ _ Hb), give_eq|by apply Hfr|done]|].
        destruct (Hpg a Ha) as (? & ? & ?). split_and!; [|done..]. apply (bu_kern _ _ _ _ _ _ Hb). unfold give. by case_decide.
      * intros pl b Hb'. destruct (bu_new _ _ _ _ _ _ Hb pl b Hb') as [Hold|Hnf].
        -- intros [->|Hin]%elem_of_cons; [|by eapply Htab]. pose proof (kt_kern _ _ _ _ Ht _ _ Hold). congruence.
        -- intros [->|Hin]%elem_of_cons; [by rewrite give_eq in Hnf|]. destruct (Hpg b Hin) as (Hk1 & _).
           unfold give in Hnf. case_decide; congruence.
      * intros a Ha. apply (bu_free _ _ _ _ _ _ Hb) in Ha. apply Hfr. unfold give in Ha. by case_decide.
      * intros a. destruct (bu_roles _ _ _ _ _ _ Hb a) as [->|?]; [|by right]. unfold give. case_decide; auto.
    + destruct (bu_procs _ _ _ _ _ _ Hb) as [Hps2 Hc2]. unfold same_procs in *. split; congruence.
Qed.

Lemma proc_mapstacks_ok s own0 own kt root k :
  stacked s own0 own kt root [] → room own (3 * Z.of_nat NPROC + k) → 0 ≤ k →
  ∃ s' own' kt' pages, proc_mapstacks root s = Ok (tt, s') ∧ stacked s' own0 own' kt' root pages ∧
    length pages = NPROC ∧ room own' k ∧ same_procs s s' ∧ cur s' = cur s.
Proof.
  intros Hs Hr Hk.
  destruct (for_list_inv (λ j (_ : unit) t, ∃ own' kt' pages, stacked t own0 own' kt' root pages ∧ length pages = j ∧
      room own' (3 * Z.of_nat (NPROC - j) + k) ∧ same_procs s t ∧ cur t = cur s) (seqZ 0 (Z.of_nat NPROC)) (λ i _, map_stack root i) tt s)
    as ([] & s' & E & own' & kt' & pages & Hst & Hlen & Hr' & Hps & Hc).
  - exists own, kt, []. split_and!; [done|done| |done|done]. by rewrite Nat.sub_0_r.
  - intros j i [] t Hj (own1 & kt1 & pages & Hst & Hlen & Hr1 & Hps & Hc). apply lookup_seqZ in Hj as [-> Hj].
    destruct (map_stack_ok t own0 own1 kt1 root pages (3 * Z.of_nat (NPROC - (j + 1)) + k) Hst) as (pg & t' & own2 & kt2 & E & Hst2 & Hr2 & Hps2 & Hc2);
      [lia| |lia|].
    { eapply room_mono; [exact Hr1|lia]. }
    exists tt, t'. rewrite Hlen in E. split; [exact E|]. exists own2, kt2, (pg :: pages).
    split_and!; [done|simpl; lia|done|unfold same_procs in *; congruence|congruence].
  - exists s', own', kt', pages. rewrite length_seqZ, Nat2Z.id in Hlen, Hr'. split_and!; [exact E|done|done| |done|done].
    eapply room_mono; [exact Hr'|lia].
Qed.

(** ** The whole map *)
Fixpoint all_apart (rs : list region) : Prop :=
  match rs with
  | [] => True
  | r :: rs => Forall (apart r) rs ∧ all_apart rs
  end.

Lemma rmap_in rs r w : Forall region_ok rs → all_apart rs → r ∈ rs → covers r w → rmap rs w = region_pte r w.
Proof.
  induction rs as [|r0 rs IH]; [by intros _ _ ?%elem_of_nil|]. intros [Hr0 Hok]%Forall_cons [Hap Hall] Hin Hc. simpl.
  apply elem_of_cons in Hin as [->|Hin]; [by rewrite decide_True|]. rewrite decide_False; [by apply IH|].
  rewrite Forall_forall in Hap, Hok. specialize (Hap r Hin). rewrite covers_addr in Hc by auto. rewrite covers_addr by done.
  unfold apart in Hap. lia.
Qed.

Lemma all_apart_stacks pages : (length pages ≤ NPROC)%nat → all_apart (stack_regions pages ++ fixed_regions).
Proof.
  induction pages as [|pg pages IH]; intros Hl; simpl in *.
  - layout. unfold fixed_regions. repeat split; repeat constructor; unfold apart; cbn; lia.
  - split; [apply stack_apart; lia|apply IH; lia].
Qed.

Lemma stack_regions_in pages i pg : rev pages !! i = Some pg → stack_region (Z.of_nat i) pg ∈ stack_regions pages.
Proof.
  induction pages as [|q pages IH]; [done|]. cbn [rev stack_regions]. rewrite lookup_app_Some, length_rev.
  intros [Hi|[Hge Hi]]; [right; by apply IH|]. destruct (i - length pages)%nat as [|?] eqn:E; [|done].
  injection Hi as ->. replace i with (length pages) by lia. left.
Qed.

Lemma stack_regions_inv pages r : r ∈ stack_regions pages → ∃ i pg, rev pages !! i = Some pg ∧ r = stack_region (Z.of_nat i) pg.
Proof.
  induction pages as [|q pages IH]; [by intros ?%elem_of_nil|]. cbn [rev stack_regions]. intros [->|Hin]%elem_of_cons.
  - exists (length pages), q. split; [|done]. rewrite lookup_app_r by (rewrite length_rev; lia). by rewrite length_rev, Nat.sub_diag.
  - destruct (IH Hin) as (i & pg & Hi & ->). exists i, pg. split; [|done]. by apply lookup_app_l_Some.
Qed.

(** The entries that the hardware finds in the table at [root]; [stacks] are
    the pages of the kernel stacks. *)
Record kernel_map (m : memory) (root : Z) (stacks : list Z) : Prop := {
  map_devices : ∀ va, PLIC ≤ va < PLIC + 67108864 ∨ UART0 ≤ va < UART0 + PGSIZE ∨ VIRTIO0 ≤ va < VIRTIO0 + PGSIZE →
    hw_pte m root va = pte_for (PGROUNDDOWN va) RW;
  map_text : ∀ va, KERNBASE ≤ va < etext → hw_pte m root va = pte_for (PGROUNDDOWN va) RX;
  map_data : ∀ va, etext ≤ va < PHYSTOP → hw_pte m root va = pte_for (PGROUNDDOWN va) RW;
  map_trampoline : ∀ va, TRAMPOLINE ≤ va < MAXVA → hw_pte m root va = pte_for trampoline RX;
  map_stacks : ∀ i pg va, stacks !! i = Some pg → KSTACK (Z.of_nat i) ≤ va < KSTACK (Z.of_nat i) + PGSIZE →
    hw_pte m root va = pte_for pg RW;
  map_nothing_else : ∀ va, 0 ≤ va < MAXVA →
    ¬ (PLIC ≤ va < PLIC + 67108864) → ¬ (UART0 ≤ va < UART0 + PGSIZE) → ¬ (VIRTIO0 ≤ va < VIRTIO0 + PGSIZE) →
    ¬ (KERNBASE ≤ va < PHYSTOP) → ¬ (TRAMPOLINE ≤ va) →
    (∀ i, 0 ≤ i < Z.of_nat (length stacks) → ¬ (KSTACK i ≤ va < KSTACK i + PGSIZE)) → hw_pte m root va = 0;
}.

Lemma covers_va r va : region_ok r → covers r (va / PGSIZE) ↔ g_va r ≤ va < g_va r + g_sz r.
Proof.
  intros [[[a Ha] _] _ ([n Hn] & _) _]. pose proof PGSIZE_4096 as Hp. unfold covers. rewrite Ha, Hn, <- Z.mul_add_distr_r, !Z.div_mul by lia.
  rewrite Hp. Z.to_euclidean_division_equations. lia.
Qed.

Lemma region_pte_va r va :
  region_ok r → region_pte r (va / PGSIZE) = pte_for (g_pa r + (PGROUNDDOWN va - g_va r)) (g_perm r).
Proof.
  intros [[[a Ha] _] _ _ _]. pose proof PGSIZE_4096. unfold region_pte, PGROUNDDOWN. rewrite Ha, Z.div_mul by lia. f_equal. lia.
Qed.

Lemma kernel_map_ok s own0 own kt root pages :
  stacked s own0 own kt root pages → length pages = NPROC → kernel_map (mem s) root (rev pages).
Proof.
  intros [[Hk Hpte] _ Hpg _ _ _] Hl. layout.
  assert (Forall region_ok (stack_regions pages ++ fixed_regions)) as Hok.
  { apply Forall_app. split; [|apply fixed_ok]. apply stack_regions_ok; [|lia]. rewrite Forall_forall. intros a Ha. by apply Hpg. }
  pose proof (all_apart_stacks pages ltac:(lia)) as Hap. set (rs := stack_regions pages ++ fixed_regions) in *.
  assert (∀ r va, r ∈ rs → 0 ≤ va < MAXVA → g_va r ≤ va < g_va r + g_sz r →
    hw_pte (mem s) root va = pte_for (g_pa r + (PGROUNDDOWN va - g_va r)) (g_perm r)) as Hin.
  { intros r va Hr Hva Hc. pose proof (proj1 (Forall_forall _ _) Hok r Hr) as Hro.
    rewrite (hw_pte_ok s own kt root va Hk Hva), Hpte, (rmap_in rs r) by (done || by apply covers_va). by apply region_pte_va. }
  assert (∀ r, r ∈ fixed_regions → r ∈ rs) as Hfix by (intros r Hr; apply elem_of_app; by right).
  split.
  - intros va Hva. assert (0 ≤ va < MAXVA) by lia. destruct Hva as [?|[?|?]];
      [rewrite (Hin plic_region)|rewrite (Hin uart_region)|rewrite (Hin virtio_region)]; try done;
      try (apply Hfix; unfold fixed_regions; set_solver); cbn; f_equal; lia.
  - intros va Hva. rewrite (Hin text_region); try (apply Hfix; unfold fixed_regions; set_solver); cbn; [f_equal; lia|lia|lia].
  - intros va Hva. rewrite (Hin data_region); try (apply Hfix; unfold fixed_regions; set_solver); cbn; [f_equal; lia|lia|lia].
  - intros va Hva. rewrite (Hin tramp_region); try (apply Hfix; unfold fixed_regions; set_solver); cbn; [|lia|lia]. f_equal.
    destruct trampoline_aligned as [t Ht]. unfold PGROUNDDOWN. rewrite PGSIZE_4096 in *. Z.to_euclidean_division_equations. lia.
  - intros i pg va Hi Hva. pose proof (lookup_lt_Some _ _ _ Hi) as Hlt. rewrite length_rev in Hlt. pose proof (KSTACK_at (Z.of_nat i)) as Hst.
    rewrite (Hin (stack_region (Z.of_nat i) pg)); [| |nia|done].
    + cbn. f_equal. destruct (KSTACK_aligned (Z.of_nat i)) as [t Ht]. unfold PGROUNDDOWN. rewrite PGSIZE_4096 in *.
      Z.to_euclidean_division_equations. lia.
    + apply elem_of_app. left. by apply stack_regions_in.
  - intros va Hva N1 N2 N3 N4 N5 N6. rewrite (hw_pte_ok s own kt root va Hk Hva), Hpte. apply rmap_none, Forall_forall.
    intros r Hr. pose proof (proj1 (Forall_forall _ _) Hok r Hr) as Hro. rewrite (covers_va r va Hro).
    apply elem_of_app in Hr as [Hr|Hr].
    + destruct (stack_regions_inv _ _ Hr) as (i & pg & Hi & ->). apply N6. apply lookup_lt_Some in Hi. lia.
    + unfold fixed_regions in Hr. repeat (apply elem_of_cons in Hr as [->|Hr]; [cbn; lia|]). by apply elem_of_nil in Hr.
Qed.

(** ** The root *)
Lemma kvm_root s own k :
  vinv s own → room own (1 + k) → 0 ≤ k →
  ∃ root s1 s', kalloc s = Ok (root, s1) ∧ memset root 0 PGSIZE s1 = Ok (tt, s') ∧ own root = RFree ∧
    kmapped s' (give root RKern own) {[(2%nat, 0) := root]} root [] ∧ room (give root RKern own) k ∧ same_procs s s' ∧ cur s' = cur s.
Proof.
  intros Hv Hr Hk.
  destruct (kalloc_tree s own (vi_tree _ _ Hv)) as [(_ & Hno & _)|(a & fl & m & Ha & Ha0 & E & Ho & Htr)].
  { destruct (room_pos own _ Hr) as [a Ha]; [lia|]. by destruct (Hno a). }
  assert (page_addr a) as Hpa by (apply (tree_sane _ _ _ (vi_tree _ _ Hv)); by rewrite Ha).
  destruct (paged_give s own m fl a RKern Hv) as [Hv1 Hpg1]; [by left|by right|done..|].
  set (s1 := with_mem m (with_freelist fl s)) in *.
  assert (in_ram a PGSIZE = true) as Hra by (apply (page_ram a); [done|lia|lia]).
  exists a, s1, (with_mem (fill m a 0 PGSIZE) s1).
  assert (∀ i, 0 ≤ i < 512 → entry (fill m a 0 PGSIZE) a i = 0) as Hz.
  { intros i Hi. unfold entry. destruct (entry_in a i Hpa Hi). apply rd64_fill; lia. }
  split_and!; [done|by apply memset_ok|done| | |exact (pg_procs _ _ _ _ Hpg1)|exact (pg_cur _ _ _ _ Hpg1)].
  - split; [split|].
    + apply (kern_write s1 _ a); [done|apply give_eq|apply only_page_fill].
    + split; [apply lookup_singleton_eq| | | |].
      * intros pl b [<- <-]%lookup_singleton_Some. apply give_eq.
      * by intros pl pl' b [<- <-]%lookup_singleton_Some [<- _]%lookup_singleton_Some.
      * intros l pre b [[= <- <-] <-]%lookup_singleton_Some. split; [done|lia].
      * intros l pre b i [[= <- <-] <-]%lookup_singleton_Some Hi. rewrite lookup_singleton_ne by done.
        simpl. rewrite Hz by done. apply valid_pte_0.
    + intros w. unfold kpte. by rewrite lookup_singleton_ne.
  - eapply room_mono; [by apply room_take|lia].
Qed.

(** ** Boot *)
Definition free_pages s (n : Z) : Prop := ∃ l, chain (mem s) (freelist s) l ∧ n ≤ Z.of_nat (length l).

Lemma free_room s own n : vinv s own → free_pages s n → room own n.
Proof.
  intros Hv (l & Hc & Hn). destruct (vi_tree _ _ Hv) as [[_ (l' & Hc' & Hnd & Hl')] _].
  rewrite (chain_unique _ _ _ _ Hc Hc') in Hn. apply (room_mono _ (Z.of_nat (length l'))); [|done].
  exists l'. split_and!; [done|lia|]. intros a. by apply Hl'.
Qed.

Lemma kvmmake_ok s own k :
  vinv s own → room own (kvm_pages + k) → 0 ≤ k →
  ∃ root s' own' kt pages, kvmmake s = Ok (root, s') ∧ stacked s' own own' kt root pages ∧ length pages = NPROC ∧
    own root = RFree ∧ room own' k ∧ same_procs s s' ∧ cur s' = cur s.
Proof.
  intros Hv Hr Hk. pose proof fixed_ok as Hfix. unfold fixed_regions in Hfix.
  destruct (proj1 (Forall_cons _ _ _) Hfix) as [R6 F6]. destruct (proj1 (Forall_cons _ _ _) F6) as [R5 F5].
  destruct (proj1 (Forall_cons _ _ _) F5) as [R4 F4]. destruct (proj1 (Forall_cons _ _ _) F4) as [R3 F3].
  destruct (proj1 (Forall_cons _ _ _) F3) as [R2 F2]. destruct (proj1 (Forall_cons _ _ _) F2) as [R1 F1].
  pose proof (cost_pos _ R1). pose proof (cost_pos _ R2). pose proof (cost_pos _ R3). pose proof (cost_pos _ R4).
  pose proof (cost_pos _ R5). pose proof (cost_pos _ R6).
  destruct (all_apart_stacks [] ltac:(simpl; lia)) as (A6 & A5 & A4 & A3 & A2 & A1 & _). unfold kvm_pages in Hr.
  destruct (kvm_root s own (cost uart_region + (cost virtio_region + (cost plic_region + (cost text_region +
      (cost data_region + (cost tramp_region + (3 * Z.of_nat NPROC + k))))))) Hv)
    as (root & s0 & s1 & E0 & E0' & Hrf & K1 & N1 & P1 & C1); [eapply room_mono; [exact Hr|lia]|lia|].
  destruct (kvmmap_next s1 _ _ root [] uart_region _ K1 R1 F1 A1 N1 ltac:(lia)) as (s2 & o2 & k2 & E1 & K2 & B2 & N2).
  destruct (kvmmap_next s2 _ _ root _ virtio_region _ K2 R2 F2 A2 N2 ltac:(lia)) as (s3 & o3 & k3 & E2 & K3 & B3 & N3).
  destruct (kvmmap_next s3 _ _ root _ plic_region _ K3 R3 F3 A3 N3 ltac:(lia)) as (s4 & o4 & k4 & E3 & K4 & B4 & N4).
  destruct (kvmmap_next s4 _ _ root _ text_region _ K4 R4 F4 A4 N4 ltac:(lia)) as (s5 & o5 & k5 & E4 & K5 & B5 & N5).
  destruct (kvmmap_next s5 _ _ root _ data_region _ K5 R5 F5 A5 N5 ltac:(lia)) as (s6 & o6 & k6 & E5 & K6 & B6 & N6).
  destruct (kvmmap_next s6 _ _ root _ tramp_region _ K6 R6 F6 A6 N6 ltac:(lia)) as (s7 & o7 & k7 & E6 & K7 & B7 & N7).
  pose proof (built_trans _ _ _ _ _ _ _ _ _ B2 (built_trans _ _ _ _ _ _ _ _ _ B3 (built_trans _ _ _ _ _ _ _ _ _ B4
    (built_trans _ _ _ _ _ _ _ _ _ B5 (built_trans _ _ _ _ _ _ _ _ _ B6 B7))))) as B.
  destruct (proc_mapstacks_ok s7 own o7 k7 root k) as (s8 & o8 & k8 & pages & E7 & St & Hl & N8 & P8 & C8); [|done|done|].
  { split; [exact K7|constructor|by intros a ?%elem_of_nil|by intros ?? _ ?%elem_of_nil| |].
    - intros a Ha. apply (bu_free _ _ _ _ _ _ B) in Ha. unfold give in Ha. by case_decide.
    - intros a. destruct (bu_roles _ _ _ _ _ _ B a) as [->|?]; [|by right]. unfold give. case_decide; auto. }
  exists root, s8, o8, k8, pages. destruct (bu_procs _ _ _ _ _ _ B) as [Hps Hcu]. split_and!; [|done|done|done|done| |congruence].
  - unfold kvmmake. rewrite (bind_ok _ _ _ _ _ E0), (bind_ok _ _ _ _ _ E0'), (bind_ok _ _ _ _ _ E1), (bind_ok _ _ _ _ _ E2).
    rewrite (bind_ok _ _ _ _ _ E3), (bind_ok _ _ _ _ _ E4), (bind_ok _ _ _ _ _ E5), (bind_ok _ _ _ _ _ E6). by rewrite (bind_ok _ _ _ _ _ E7).
  - unfold same_procs in *. congruence.
Qed.

(** The kernel's page table is in place before the process table: the
    invariant of the process table holds after [kinit], [kvmmake] and
    [procinit]. *)
Lemma boot_tables s own k :
  vinv s own → no_users own → room own (kvm_pages + k) → 0 ≤ k → Forall zeroed (procs s) → cur s = None →
  ∃ root s' own' kt, (let* r := kvminit in procinit ;;; ret r) s = Ok (root, s') ∧ pinv s' own' ∧
    kt_inv (mem s') own' kt root ∧ room own' k.
Proof.
  intros Hv Hnu Hr Hk Hz Hc.
  destruct (kvmmake_ok s own k Hv Hr Hk) as (root & s1 & own1 & kt & pages & E & St & _ & _ & Hr1 & Hps & Hc1).
  destruct St as [[[Hv1 Ht1] _] _ _ _ _ Hro].
  destruct (procinit_ok s1 own1 Hv1) as (s2 & E2 & Hinv & _).
  - intros a. destruct (Hro a) as [->|?]; auto.
  - rewrite Forall_lookup in *. intros i y Hy. destruct (same_procs_lookup s1 s i y) as (x & Hx & Hcore); [by symmetry|done|].
    destruct (Hz i x Hx) as (Z1 & Z2 & Z3). unfold zeroed.
    pose proof (f_equal p_pagetable Hcore). pose proof (f_equal p_trapframe Hcore). pose proof (f_equal p_sz Hcore). simpl in *.
    split_and!; congruence.
  - congruence.
  - exists root, s2, own1, kt. unfold kvminit. rewrite (bind_ok _ _ _ _ _ E), (bind_ok _ _ _ _ _ E2).
    split_and!; [done|done| |done]. injection E2 as <-. exact Ht1.
Qed.

(** [C15] The kernel's address space.  With enough free pages (the bound
    counts the tables of every region and the stacks), [kvmmake] returns and
    the hardware finds exactly the map of memlayout.h in its table: devices,
    kernel text (executable, not writable), data and all of memory (writable,
    not executable) at their own addresses, the trampoline at the top, and
    for each process a stack of its own with an unmapped page below it.  The
    stack pages are distinct pages that were free, and the paging invariant
    holds as before. *)
Theorem kvmmake_maps s :
  vm_ok s → free_pages s kvm_pages →
  ∃ root s' stacks, kvmmake s = Ok (root, s') ∧ vm_ok s' ∧ same_procs s s' ∧ kernel_map (mem s') root stacks ∧
    length stacks = NPROC ∧ NoDup stacks ∧ (root ∉ stacks) ∧ Forall page_addr stacks ∧
    ∀ i, 0 ≤ i < Z.of_nat NPROC → hw_pte (mem s') root (KSTACK i - PGSIZE) = 0.
Proof.
  intros [own Hv] Hf. pose proof (free_room s own _ Hv Hf) as Hr.
  destruct (kvmmake_ok s own 0 Hv) as (root & s' & own' & kt & pages & E & St & Hl & Hrf & _ & Hps & _); [by rewrite Z.add_0_r|done|].
  pose proof (kernel_map_ok s' own own' kt root pages St Hl) as Hmap. destruct St as [[[Hv' Ht] _] Hnd Hpg Htab _ _].
  exists root, s', (rev pages). split_and!; [done|by exists own'|done|done|by rewrite length_rev| | | |].
  - by rewrite <- Permutation_rev.
  - rewrite <- Permutation_rev. exact (Htab _ _ (kt_root _ _ _ _ Ht)).
  - rewrite <- Permutation_rev, Forall_forall. intros a Ha. by apply Hpg.
  - intros i Hi. layout. pose proof (KSTACK_at i). rewrite PGSIZE_4096 in *.
    apply (map_nothing_else _ _ _ Hmap); rewrite ?PGSIZE_4096; try lia.
    rewrite length_rev. intros j Hj. rewrite !KSTACK_at, PGSIZE_4096. lia.
Qed.
End kvmprops.

(** ** Boot on a machine with the 128 MB of xv6 *)
Module KvmRuns.
Import VmRuns.
#[local] Existing Instance xv6_block_params.
Definition top : Z := 2147483648 + 134217728.
Lemma top_lo : 2147483648 + 4096 * 16 ≤ top. Proof. unfold top. lia. Qed.
Lemma top_hi : top < 2 ^ 55. Proof. unfold top. lia. Qed.
Lemma top_al : (4096 | top). Proof. by exists 557056. Qed.
#[local] Instance kvm_lay : Layout := xv6_layout top top_lo top_hi top_al.
#[local] Instance kvm_sv39 : Sv39 := xv6_sv39 top top_lo top_hi top_al.

Lemma tramp_at : pa_ok 2147487744.
Proof. split; [vm_compute; split; [discriminate|reflexivity]|by exists 524289]. Qed.
#[local] Instance kvm_proc_env : ProcEnv := {|
  trampoline := 2147487744; trampoline_ok := tramp_at;
  KSTACK := λ i, TRAMPOLINE - (i + 1) * (2 * PGSIZE);
  filedup := id; filedup_id := λ _, eq_refl; idup := id; idup_id := λ _, eq_refl;
  safestrcpy := λ _ t _, t |}.
#[local] Instance kvm_env : KvmEnv.
Proof.
  refine {| UART0 := 268435456; VIRTIO0 := 268439552; PLIC := 201326592; etext := 2147483648 + 4096 * 4 |}.
  - change PGSIZE with 4096. change KERNBASE with 2147483648. lia.
  - split_and!; [by exists 49152|by exists 65536|by exists 65537].
  - change KERNBASE with 2147483648. change PHYSTOP with top. unfold top. lia.
  - split; [by exists 524288|by exists 524292].
  - intros i. reflexivity.
  - change PHYSTOP with top. change TRAMPOLINE with (2 ^ 38 - 4096). change PGSIZE with 4096. change (Z.of_nat NPROC) with 64.
    unfold top. lia.
Defined.

(** Every page above the kernel is free after [kinit]. *)
Lemma kinit_room (own : owners) :
  (∀ a, own a = RFree ↔ page_addr a) → room own kvm_pages.
Proof.
  intros Hown. exists ((λ i, 2147516416 + 4096 * i) <$> seqZ 0 kvm_pages). split_and!.
  - apply NoDup_fmap_2_strong; [|apply NoDup_seqZ]. intros x y _ _. lia.
  - rewrite length_fmap, length_seqZ. vm_compute. reflexivity.
  - intros a (i & -> & Hi)%list_elem_of_fmap. apply elem_of_seqZ in Hi. apply Hown.
    assert (kvm_pages ≤ 1000) by (vm_compute; discriminate).
    split_and!; [exists (524296 + i)|change kend with 2147516416|change PHYSTOP with 2281701376]; change PGSIZE with 4096; lia.
Qed.

Lemma kvmmake_maps_witness :
  ∃ s s' root stacks, kinit power_on = Ok (tt, s) ∧ kvmmake s = Ok (root, s') ∧ vm_ok s' ∧ kernel_map (mem s') root stacks ∧
    length stacks = 64%nat.
Proof.
  destruct (kinit_ok power_on eq_refl power_on_no_tables device_ok slots_ok) as (s & own & E & Hv & _ & _ & _ & Hown & _).
  assert (free_pages s kvm_pages) as Hf.
  { destruct (kinit_room own Hown) as (l & Hnd & Hl & Hin).
    destruct (vi_tree _ _ Hv) as [[_ (l' & Hc & _ & Hl')] _]. exists l'. split; [exact Hc|].
    assert (length l ≤ length l')%nat as Hle.
    { apply submseteq_length, NoDup_submseteq; [exact Hnd|]. intros a Ha. apply Hl', Hin, Ha. }
    lia. }
  destruct (kvmmake_maps s (ex_intro _ own Hv) Hf) as (root & s' & stacks & E2 & Hok & _ & Hm & Hl & _).
  exists s, s', root, stacks. split; [exact E|]. split; [exact E2|]. split; [exact Hok|]. split; [exact Hm|exact Hl].
Defined.
End KvmRuns.
