(* ===== verification/Syscalls.v ===== *)
(** * System calls (kernel/syscall.c, kernel/sysproc.c)

    Fetching arguments from the trapframe and from user memory, the calls
    implemented in sysproc.c, and the dispatcher.  A handler returns [Some v]
    with its [uint64] result, or [None] when it has put its caller to sleep or
    ended it.  The calls of sysfile.c, the layout of [struct mlfqinfo] and the
    constants of vm.h are outside the repository. *)
From S2P Require Import Prelude Interfaces Raid DiskQueue Bio Mem KState Kmem PageTable Frames Vm Sched Proc.
Local Open Scope Z_scope.

(** ** Numbers (syscall.h:2-35) *)
Definition SYS_fork : Z := 1.
Definition SYS_exit : Z := 2.
Definition SYS_wait : Z := 3.
Definition SYS_pipe : Z := 4.
Definition SYS_read : Z := 5.
Definition SYS_kill : Z := 6.
Definition SYS_exec : Z := 7.
Definition SYS_fstat : Z := 8.
Definition SYS_chdir : Z := 9.
Definition SYS_dup : Z := 10.
Definition SYS_getpid : Z := 11.
Definition SYS_sbrk : Z := 12.
Definition SYS_pause : Z := 13.
Definition SYS_uptime : Z := 14.
Definition SYS_open : Z := 15.
Definition SYS_write : Z := 16.
Definition SYS_mknod : Z := 17.
Definition SYS_unlink : Z := 18.
Definition SYS_link : Z := 19.
Definition SYS_mkdir : Z := 20.
Definition SYS_close : Z := 21.
Definition SYS_hello : Z := 22.
Definition SYS_getpid2 : Z := 23.
Definition SYS_getppid : Z := 24.
Definition SYS_getnumchild : Z := 25.
Definition SYS_sleep : Z := 26.
Definition SYS_getsyscount : Z := 27.
Definition SYS_getchildsyscount : Z := 28.
Definition SYS_getlevel : Z := 29.
Definition SYS_getmlfqinfo : Z := 30.
Definition SYS_getvmstats : Z := 31.
Definition SYS_getdiskstats : Z := 32.
Definition SYS_setdisksched : Z := 33.
Definition SYS_setraidmode : Z := 34.

(** The offset of [a7] (proc.h:68). *)
Definition TF_A7 : Z := 168.

(** ** What the handlers use from elsewhere *)
Class DiskCtl (D : Type) := {
  ctl_raid_mode : Z → M D unit;
  ctl_disk_policy : Z → M D unit;
  ctl_reads : D → Z;
  ctl_writes : D → Z;
  ctl_latency : M D Z;
}.

(** The RAID layer over the buffer cache and its request queue. *)
#[global] Instance raid_bio_ctl `{BlockParams} `{!SleepLock} {V : Type} : DiskCtl (raid (bio V)) := {|
  ctl_raid_mode := set_raid_mode;
  ctl_disk_policy policy := lift_io (lift_q (set_disk_policy policy));
  ctl_reads d := disk_reads (bq (io d));
  ctl_writes d := disk_writes (bq (io d));
  ctl_latency := lift_io (lift_q get_avg_disk_latency);
|}.

Class SysEnv `{Layout} (D : Type) := {
  SBRK_EAGER : Z;
  SBRK_LAZY : Z;
  mlfqinfo_bytes : Z → Z → Z → list Z → bytes;
  sysfile : Z → M (kernel D) (option Z);
}.

Section sys.
Context `{Sv39} `{!ProcEnv} `{!Chans} {D : Type} `{!SwapDev D} `{!FileEnv D} `{!DiskCtl D} `{!SysEnv D}.

(** [myproc()] *)
Definition myproc : M (kernel D) nat := let* c := gets cur in deref c.

(** A [uint64] result, and -1 as one. *)
Definition done_with (v : Z) : M (kernel D) (option Z) := ret (Some (u64 v)).

(** ** Arguments *)
(** syscall.c:12-20: the result and [*ip] *)
Definition fetchaddr (addr : Z) : M (kernel D) (Z * bytes) :=
  let* p := myproc in
  let* x := get_proc p in
  if decide (p_sz x ≤ addr ∨ p_sz x < u64 (addr + 8)) then ret (-1, []) else
  let* r := copyin (p_pagetable x) addr 8 in
  if decide (r.1 ≠ 0) then ret (-1, r.2) else ret (0, r.2).

(** syscall.c:25-31: the result and the buffer *)
Definition fetchstr (addr max : Z) : M (kernel D) (Z * bytes) :=
  let* p := myproc in
  let* x := get_proc p in
  let* r := copyinstr (p_pagetable x) addr max in
  if decide (r.1 < 0) then ret (-1, r.2)
  else ret (Z.of_nat (length (until_null r.2).1), r.2).

(** syscall.c:34-53 *)
Definition argraw (n : Z) : M (kernel D) Z :=
  let* p := myproc in
  let* x := get_proc p in
  if decide (0 ≤ n ≤ 5) then load64 (p_trapframe x + TF_A0 + 8 * n) else panic "argraw".

(** syscall.c:57-60, 66-69, 75-80 *)
Definition argint (n : Z) : M (kernel D) Z := let* v := argraw n in ret (i32 v).
Definition argaddr (n : Z) : M (kernel D) Z := argraw n.
Definition argstr (n max : Z) : M (kernel D) (Z * bytes) := let* addr := argaddr n in fetchstr addr max.

(** ** Handlers *)
(** sysproc.c:13-19 *)
Definition sys_exit : M (kernel D) (option Z) :=
  let* n := argint 0 in
  kexit n ;;;
  ret None.

(** sysproc.c:22-25, 28-31, 34-39 *)
Definition sys_getpid : M (kernel D) (option Z) :=
  let* p := myproc in
  let* x := get_proc p in
  done_with (p_pid x).
Definition sys_fork : M (kernel D) (option Z) := let* r := kfork in done_with r.
Definition sys_wait : M (kernel D) (option Z) :=
  let* addr := argaddr 0 in
  let* r := kwait addr in
  match r with Some v => done_with v | None => ret None end.

(** sysproc.c:42-67 *)
Definition sys_sbrk : M (kernel D) (option Z) :=
  let* n := argint 0 in
  let* t := argint 1 in
  let* p := myproc in
  let* x := get_proc p in
  let addr := p_sz x in
  if decide (t = SBRK_EAGER ∨ n < 0) then
    let* r := growproc n in
    if decide (r < 0) then done_with (-1) else done_with addr
  else if decide (u64 (addr + n) < addr) then done_with (-1)
  else if decide (TRAPFRAME < u64 (addr + n)) then done_with (-1)
  else upd_proc p (λ x, set_p_sz (u64 (p_sz x + n)) x) ;;; done_with addr.

(** sysproc.c:80-88 and 154-162: from the test of the loop; a process that is
    woken runs it again.  The comparison is one of [uint]. *)
Definition pause_loop (n ticks0 : Z) : M (kernel D) (option Z) :=
  let* t := gets ticks in
  if decide (u32 (t - ticks0) < u32 n) then
    let* p := myproc in
    let* k := killed p in
    if decide (k ≠ 0) then done_with (-1) else
    sleep chan_ticks ;;; ret None
  else done_with 0.

(** sysproc.c:70-89 *)
Definition sys_pause : M (kernel D) (option Z) :=
  let* n := argint 0 in
  let n := if decide (n < 0) then 0 else n in
  let* ticks0 := gets ticks in
  pause_loop n ticks0.

(** sysproc.c:92-98, 102-111, 113-118, 120-124 *)
Definition sys_kill : M (kernel D) (option Z) :=
  let* pid := argint 0 in
  let* r := kkill pid in
  done_with r.
Definition sys_uptime : M (kernel D) (option Z) := let* t := gets ticks in done_with t.
Definition sys_hello : M (kernel D) (option Z) := done_with 0.
Definition sys_getpid2 : M (kernel D) (option Z) := sys_getpid.

(** sysproc.c:126-133 *)
Definition sys_getppid : M (kernel D) (option Z) :=
  let* p := myproc in
  let* x := get_proc p in
  match p_parent x with
  | Some q => let* y := get_proc q in done_with (p_pid y)
  | None => done_with (-1)
  end.

(** sysproc.c:135-142 *)
Definition sys_getnumchild : M (kernel D) (option Z) :=
  let* p := myproc in
  let* n := getnumchild p in
  done_with n.

(** sysproc.c:144-163 *)
Definition sys_sleep : M (kernel D) (option Z) :=
  let* n := argint 0 in
  let* ticks0 := gets ticks in
  pause_loop n ticks0.

(** sysproc.c:165-168 *)
Definition sys_getsyscount : M (kernel D) (option Z) :=
  let* p := myproc in
  let* x := get_proc p in
  done_with (p_syscount x).

(** sysproc.c:171-192 *)
Definition sys_getchildsyscount : M (kernel D) (option Z) :=
  let* p := myproc in
  let* pid := argint 0 in
  let* l := gets procs in
  match list_find (λ x, p_pid x = pid ∧ p_parent x = Some p ∧ p_state x ≠ UNUSED) l with
  | Some (_, x) => done_with (p_syscount x)
  | None => done_with (-1)
  end.

(** sysproc.c:194-198 *)
Definition sys_getlevel : M (kernel D) (option Z) :=
  let* p := myproc in
  let* x := get_proc p in
  done_with (p_level x).

(** sysproc.c:224-228, 251-254 and 310-313: a structure goes to the caller *)
Definition reply (addr : Z) (d : bytes) : M (kernel D) (option Z) :=
  let* p := myproc in
  let* x := get_proc p in
  let* r := copyout (p_pagetable x) addr d in
  if decide (r < 0) then done_with (-1) else done_with 0.

(** sysproc.c:200-233 *)
Definition sys_getmlfqinfo : M (kernel D) (option Z) :=
  let* pid := argint 0 in
  let* addr := argaddr 1 in
  let* l := gets procs in
  match list_find (λ x, p_pid x = pid) l with
  | Some (_, x) => reply addr (mlfqinfo_bytes (p_level x) (p_times_scheduled x) (p_syscount x) (p_ticks x))
  | None => done_with (-1)
  end.

(** sysproc.c:240-255; [struct diskstats] is three [uint64] (proc.h:148-153) *)
Definition sys_getdiskstats : M (kernel D) (option Z) :=
  let* addr := argaddr 0 in
  let* d := gets swapdev in
  let* lat := lift_dev ctl_latency in
  reply addr (le_bytes 8 (ctl_reads d) ++ le_bytes 8 (ctl_writes d) ++ le_bytes 8 lat).

(** sysproc.c:259-270 *)
Definition sys_setdisksched : M (kernel D) (option Z) :=
  let* policy := argint 0 in
  if decide (policy ≠ 0 ∧ policy ≠ 1) then done_with (-1) else
  lift_dev (ctl_disk_policy policy) ;;;
  done_with 0.

(** sysproc.c:274-285 *)
Definition sys_setraidmode : M (kernel D) (option Z) :=
  let* mode := argint 0 in
  if decide (mode < 0 ∨ 2 < mode) then done_with (-1) else
  lift_dev (ctl_raid_mode mode) ;;;
  done_with 0.

(** [struct vmstats], five [int] (proc.h:138-145) *)
Definition vmstats_bytes (x : proc) : bytes :=
  le_bytes 4 (p_page_faults x) ++ le_bytes 4 (p_pages_swapped_in x) ++ le_bytes 4 (p_pages_swapped_out x) ++
  le_bytes 4 (p_pages_evicted x) ++ le_bytes 4 (p_resident_pages x).

(** sysproc.c:287-318 *)
Definition sys_getvmstats : M (kernel D) (option Z) :=
  let* pid := argint 0 in
  let* addr := argaddr 1 in
  let* l := gets procs in
  match list_find (λ x, p_pid x = pid) l with
  | Some (_, x) => reply addr (vmstats_bytes x)
  | None => done_with (-1)
  end.

(** ** Dispatch *)
(** syscall.c:121-157 *)
Definition syscalls : list (Z * M (kernel D) (option Z)) := [
  (SYS_fork, sys_fork); (SYS_exit, sys_exit); (SYS_wait, sys_wait); (SYS_pipe, sysfile SYS_pipe);
  (SYS_read, sysfile SYS_read); (SYS_kill, sys_kill); (SYS_exec, sysfile SYS_exec); (SYS_fstat, sysfile SYS_fstat);
  (SYS_chdir, sysfile SYS_chdir); (SYS_dup, sysfile SYS_dup); (SYS_getpid, sys_getpid); (SYS_sbrk, sys_sbrk);
  (SYS_pause, sys_pause); (SYS_uptime, sys_uptime); (SYS_open, sysfile SYS_open); (SYS_write, sysfile SYS_write);
  (SYS_mknod, sysfile SYS_mknod); (SYS_unlink, sysfile SYS_unlink); (SYS_link, sysfile SYS_link);
  (SYS_mkdir, sysfile SYS_mkdir); (SYS_close, sysfile SYS_close); (SYS_hello, sys_hello); (SYS_getpid2, sys_getpid2);
  (SYS_getppid, sys_getppid); (SYS_getnumchild, sys_getnumchild); (SYS_sleep, sys_sleep);
  (SYS_getsyscount, sys_getsyscount); (SYS_getchildsyscount, sys_getchildsyscount); (SYS_getlevel, sys_getlevel);
  (SYS_getmlfqinfo, sys_getmlfqinfo); (SYS_getvmstats, sys_getvmstats); (SYS_getdiskstats, sys_getdiskstats);
  (SYS_setdisksched, sys_setdisksched); (SYS_setraidmode, sys_setraidmode)].

(** syscall.c:168: the entry of the table at [num], if there is one *)
Definition handler_of (num : Z) : option (M (kernel D) (option Z)) :=
  (λ x, x.2.2) <$> list_find (λ x, x.1 = num) syscalls.

(** syscall.c:159-177 *)
Definition syscall : M (kernel D) (option Z) :=
  let* p := myproc in
  count_syscall ;;;
  let* x := get_proc p in
  let* a7 := load64 (p_trapframe x + TF_A7) in
  match handler_of (i32 a7) with
  | Some h =>
    let* r := h in
    match r with
    | Some v => store64 (p_trapframe x + TF_A0) v ;;; ret (Some v)
    | None => ret None
    end
  | None =>
    store64 (p_trapframe x + TF_A0) (u64 (-1)) ;;; ret (Some (u64 (-1)))
  end.
End sys.
