(* ===== verification/Trap.v ===== *)
(** * Traps (kernel/trap.c)

    What [usertrap], [kerneltrap] and [devintr] do with a trap, given the
    control registers it left.  A handler that switches away from its process
    returns [None]; the code after the switch is a definition of its own.
    The interrupt controller, the console, the disk interrupt and the
    registers written on the way out are parameters or results; turning
    interrupts on and off has no counterpart in the state. *)
From S2P Require Import Prelude Interfaces Mem KState Kmem PageTable Frames Vm Sched Proc Syscalls.
Local Open Scope Z_scope.

(** The registers a trap sets, and [satp] and [tp]. *)
Record regs := mkRegs { r_sstatus : Z; r_sepc : Z; r_scause : Z; r_stval : Z; r_satp : Z; r_tp : Z }.

(** Constants of riscv.h and memlayout.h, code addresses, the interrupt
    controller (plic.c), the console (uart.c) and [virtio_disk_intr]. *)
Class TrapEnv (D : Type) := {
  SSTATUS_SPP : Z;
  SSTATUS_SPIE : Z;
  UART0_IRQ : Z;
  VIRTIO0_IRQ : Z;
  uservec_offset : Z;
  usertrap_addr : Z;
  MAKE_SATP : Z → Z;
  plic_claim : M (kernel D) Z;
  plic_complete : Z → M (kernel D) unit;
  uartintr : M (kernel D) unit;
  disk_intr : M (kernel D) unit;
  userret_offset : Z;
  fsinit : Z → M (kernel D) unit;
  kexec_init : M (kernel D) Z;
}.

(** What [sched] asks of its CPU: whether it holds the lock of the process,
    how deep its [push_off] calls nest, and whether interrupts are on. *)
Record cpustate := mkCpu { c_holding : bool; c_noff : Z; c_intr : bool }.

(** Offsets in the trapframe (proc.h:47-51). *)
Definition TF_KERNEL_SATP : Z := 0.
Definition TF_KERNEL_SP : Z := 8.
Definition TF_KERNEL_TRAP : Z := 16.
Definition TF_EPC : Z := 24.
Definition TF_KERNEL_HARTID : Z := 32.

Section traps.
Context `{Sv39} `{!ProcEnv} `{!Chans} {D : Type} `{!SwapDev D} `{!FileEnv D} `{!DiskCtl D} `{!SysEnv D} `{!TrapEnv D}.

(** trap.c:173-213: up to the switch of [yield], or to the end; [true] when
    it switched, and then the boost is left for the return *)
Definition clockintr (cpu0 : bool) : M (kernel D) bool :=
  clock_count cpu0 ;;;
  let* y := clock_charge in
  if y : bool then yield ;;; ret true
  else clock_boost ;;; ret false.

(** trap.c:241-283: [None] when the timer interrupt switched away *)
Definition devintr (r : regs) : M (kernel D) (option Z) :=
  if decide (r_scause r = 9223372036854775817) then
    let* irq := plic_claim in
    (if decide (irq = UART0_IRQ) then uartintr
     else if decide (irq = VIRTIO0_IRQ) then disk_intr
     else ret tt) ;;;
    (if decide (irq ≠ 0) then plic_complete irq else ret tt) ;;;
    ret (Some 1)
  else if decide (r_scause r = 9223372036854775813) then
    let* y := clockintr (bool_decide (r_tp r = 0)) in
    ret (if y : bool then None else Some 2)
  else ret (Some 0).

(** trap.c:113-144: the values for [stvec], [sstatus] and [sepc] *)
Definition prepare_return (p : nat) (r : regs) : M (kernel D) (Z * Z * Z) :=
  let* x := get_proc p in
  let tf := p_trapframe x in
  store64 (tf + TF_KERNEL_SATP) (r_satp r) ;;;
  store64 (tf + TF_KERNEL_SP) (u64 (p_kstack x + PGSIZE)) ;;;
  store64 (tf + TF_KERNEL_TRAP) usertrap_addr ;;;
  store64 (tf + TF_KERNEL_HARTID) (r_tp r) ;;;
  let* epc := load64 (tf + TF_EPC) in
  ret (TRAMPOLINE + uservec_offset, Z.lor (Z.ldiff (r_sstatus r) SSTATUS_SPP) SSTATUS_SPIE, epc).

(** proc.c:578-595: the checks, and the switch to the scheduler *)
Definition sched (c : cpustate) : M (kernel D) unit :=
  let* p := myproc in
  if negb (c_holding c) then panic "sched p->lock" else
  if decide (c_noff c ≠ 1) then panic "sched locks" else
  let* x := get_proc p in
  if decide (p_state x = RUNNING) then panic "sched RUNNING" else
  if c_intr c then panic "sched interruptible" else
  modify (with_cur None).

(** proc.c:606-632: the first run of a process; [first] is the static
    variable, [kexec_init] the call of [kexec] for /init.  The result is the
    address jumped to, its argument, and the registers *)
Definition forkret (first : bool) (r : regs) : M (kernel D) (Z * Z * (Z * Z * Z)) :=
  let* p := myproc in
  (if first then
    fsinit ROOTDEV ;;;
    let* e := kexec_init in
    let* x := get_proc p in
    store64 (p_trapframe x + TF_A0) (u64 e) ;;;
    if decide (u64 e = u64 (-1)) then panic "exec" else ret tt
   else ret tt) ;;;
  let* out := prepare_return p r in
  let* x := get_proc p in
  ret (TRAMPOLINE + userret_offset, MAKE_SATP (p_pagetable x), out).

(** trap.c:98-107: the way back to user mode, [None] when the process ends *)
Definition usertrap_end (p : nat) (r : regs) : M (kernel D) (option (Z * (Z * Z * Z))) :=
  let* k := killed p in
  if decide (k ≠ 0) then kexit (-1) ;;; ret None else
  let* out := prepare_return p r in
  let* x := get_proc p in
  ret (Some (MAKE_SATP (p_pagetable x), out)).

(** trap.c:83-88 *)
Definition user_fault (p : nat) (r : regs) : M (kernel D) unit :=
  let* x := get_proc p in
  let* pa := vmfault (p_pagetable x) (r_stval r) (bool_decide (r_scause r = 13)) in
  if decide (pa = 0) then setkilled p else ret tt.

(** trap.c:40-96; [None] when it does not come back by itself *)
Definition usertrap (r : regs) : M (kernel D) (option (Z * (Z * Z * Z))) :=
  if decide (Z.land (r_sstatus r) SSTATUS_SPP ≠ 0) then panic "usertrap: not from user mode" else
  let* p := myproc in
  let* x := get_proc p in
  let epc := p_trapframe x + TF_EPC in
  store64 epc (r_sepc r) ;;;
  if decide (r_scause r = 8) then
    let* k := killed p in
    if decide (k ≠ 0) then kexit (-1) ;;; ret None else
    (let* v := load64 epc in store64 epc (u64 (v + 4))) ;;;
    let* o := syscall in
    match o with None => ret None | Some _ => usertrap_end p r end
  else
    let* dev := devintr r in
    match dev with
    | None => ret None
    | Some which_dev =>
      (if decide (which_dev ≠ 0) then ret tt
       else if decide (r_scause r = 15 ∨ r_scause r = 13) then user_fault p r
       else setkilled p) ;;;
      usertrap_end p r
    end.

(** trap.c:148-171; [intr] is [intr_get()]; the values for [sepc] and
    [sstatus] *)
Definition kerneltrap (intr : bool) (r : regs) : M (kernel D) (option (Z * Z)) :=
  if decide (Z.land (r_sstatus r) SSTATUS_SPP = 0) then panic "kerneltrap: not from supervisor mode" else
  if intr then panic "kerneltrap: interrupts enabled" else
  let* dev := devintr r in
  match dev with
  | None => ret None
  | Some which_dev => if decide (which_dev = 0) then panic "kerneltrap" else ret (Some (r_sepc r, r_sstatus r))
  end.
End traps.
