(* ===== verification/SysOk.v ===== *)
(** * Lemmas on system calls

    Access to the trapframe, dispatch, and sleeping for a number of ticks. *)
From S2P Require Import Prelude Interfaces Mem KState Kmem PageTable Frames Paging Vm Fault Boot.
From S2P Require Import Spaces Fork Teardown Sched Proc ProcMem ProcTable UserCopy Kfork Reap ProcBoot Grow Syscalls.
Local Open Scope Z_scope.

Section sysok.
Context `{Sv39} `{!ProcEnv} `{!Chans} {D : Type} `{!SwapDev D} `{!SwapDevSpec D} `{!FileEnv D} `{!DiskCtl D} `{!SysEnv D}.
Implicit Types s : kernel D.

(** ** The trapframe of the caller *)
Lemma frame_page s own p x :
  pinv s own → procs s !! p = Some x → p_state x ≠ UNUSED → own (p_trapframe x) = RPin p ∧ page_addr (p_trapframe x).
Proof.
  intros (Hv & _ & Hpok) Hx Hu. destruct (pk_used _ _ Hpok p x Hx Hu) as [_ Ht].
  pose proof (proj1 (pk_holds _ _ Hpok p x Hx) Ht) as Hp. split; [done|].
  apply (tree_sane _ _ _ (vi_tree _ _ Hv)). by rewrite Hp.
Qed.

Lemma frame_ram s own p x o :
  pinv s own → procs s !! p = Some x → p_state x ≠ UNUSED → 0 ≤ o ≤ TRAPFRAME_SIZE - 8 →
  in_ram (p_trapframe x + o) 8 = true.
Proof.
  intros Hinv Hx Hu Ho. destruct (frame_page s own p x Hinv Hx Hu) as [_ Hp]. pose proof PGSIZE_4096.
  unfold TRAPFRAME_SIZE in Ho. apply (page_ram (p_trapframe x)); [done|lia|lia].
Qed.

Lemma myproc_ok s p : cur s = Some p → myproc s = Ok (p, s).
Proof. intros Hc. unfold myproc. rewrite (bind_ok _ _ _ (Some p) s) by (unfold gets; by rewrite Hc). done. Qed.

Lemma argraw_ok s own p x n :
  pinv s own → cur s = Some p → procs s !! p = Some x → p_state x ≠ UNUSED → 0 ≤ n ≤ 5 →
  argraw n s = Ok (rd64 (mem s) (p_trapframe x + TF_A0 + 8 * n), s).
Proof.
  intros Hinv Hc Hx Hu Hn. unfold argraw. rewrite (bind_ok _ _ _ _ _ (myproc_ok s p Hc)).
  rewrite (bind_ok _ _ _ _ _ (get_proc_ok s p x Hx)). rewrite decide_True by done. apply load64_ok.
  rewrite <- Z.add_assoc. eapply frame_ram; [done..|]. unfold TF_A0, TRAPFRAME_SIZE. lia.
Qed.

Lemma argint_ok s own p x n :
  pinv s own → cur s = Some p → procs s !! p = Some x → p_state x ≠ UNUSED → 0 ≤ n ≤ 5 →
  argint n s = Ok (i32 (rd64 (mem s) (p_trapframe x + TF_A0 + 8 * n)), s).
Proof. intros. unfold argint. by rewrite (bind_ok _ _ _ _ _ (argraw_ok s own p x n ltac:(done) ltac:(done) ltac:(done) ltac:(done) ltac:(done))). Qed.

(** A register of the caller is set. *)
Lemma set_reg_ok s own p x o v :
  pinv s own → procs s !! p = Some x → p_state x ≠ UNUSED → 0 ≤ o ≤ TRAPFRAME_SIZE - 8 →
  let s' := with_mem (wr64 (mem s) (p_trapframe x + o) v) s in
  store64 (p_trapframe x + o) v s = Ok (tt, s') ∧ pinv s' own ∧ kept s s'.
Proof.
  intros Hinv Hx Hu Ho s'. destruct (frame_page s own p x Hinv Hx Hu) as [Hpin Hp]. pose proof PGSIZE_4096.
  split; [apply store64_ok; by eapply frame_ram|].
  destruct Hinv as (Hv & Hcur & Hpok). unfold TRAPFRAME_SIZE in Ho.
  destruct (write_pin_ok s own (p_trapframe x) p (wr64 (mem s) (p_trapframe x + o) v) Hv Hpin) as (Hv' & Hk & _).
  { apply only_page_wr64; lia. }
  split; [|done]. by split_and!.
Qed.

(** ** Dispatch *)
Lemma handler_known num : 1 ≤ num ≤ 34 → ∃ h, handler_of num = Some h ∧ (num, h) ∈ (syscalls (D := D)).
Proof.
  intros Hn. unfold handler_of.
  assert (num ∈ (syscalls (D := D)).*1) as (x & Hx & Hin)%list_elem_of_fmap.
  { change ((syscalls (D := D)).*1) with (seqZ 1 34). apply elem_of_seqZ. lia. }
  destruct (list_find _ _) as [[i [m h]]|] eqn:Hf.
  - exists h. split; [done|]. apply list_find_Some in Hf as (Hi & Hm & _). simpl in Hm. subst m.
    by eapply list_elem_of_lookup_2.
  - apply list_find_None in Hf. rewrite Forall_forall in Hf. by destruct (Hf x Hin).
Qed.

Lemma handler_unknown num : ¬ 1 ≤ num ≤ 34 → handler_of (D := D) num = None.
Proof.
  intros Hn. unfold handler_of. rewrite (proj2 (list_find_None _ _)); [done|]. apply Forall_forall. intros x Hx Hm.
  apply Hn. assert (num ∈ (syscalls (D := D)).*1) as Hin by (subst num; by apply list_elem_of_fmap_2).
  change ((syscalls (D := D)).*1) with (seqZ 1 34) in Hin. apply elem_of_seqZ in Hin. lia.
Qed.

Definition counted (x : proc) : proc := set_p_syscount (u64 (p_syscount x + 1)) x.

Lemma counted_ok s own p x :
  pinv s own → procs s !! p = Some x →
  let s1 := with_procs (alter counted p (procs s)) s in pinv s1 own ∧ kept s s1.
Proof.
  intros Hinv Hx s1. destruct (pinv_table s own (alter counted p (procs s)) (cur s) Hinv) as [Hi Hk].
  - eapply same_holds_alter; [done|]. by destruct x.
  - intros i Hi. destruct Hinv as (_ & Hcok & _). destruct (Hcok i Hi) as [w Hw].
    destruct (decide (i = p)) as [->|]; [rewrite list_lookup_alter_eq|rewrite list_lookup_alter_ne by done];
      rewrite Hw; by eexists.
  - split; by destruct s.
Qed.

Lemma syscall_run s own p x :
  pinv s own → cur s = Some p → procs s !! p = Some x → p_state x ≠ UNUSED →
  let s1 := with_procs (alter counted p (procs s)) s in
  syscall s =
    match handler_of (i32 (rd64 (mem s) (p_trapframe x + TF_A7))) with
    | Some h => let* r := h in
        match r with Some v => store64 (p_trapframe x + TF_A0) v ;;; ret (Some v) | None => ret None end
    | None => store64 (p_trapframe x + TF_A0) (u64 (-1)) ;;; ret (Some (u64 (-1)))
    end s1.
Proof.
  intros Hinv Hc Hx Hu s1. unfold syscall. rewrite (bind_ok _ _ _ _ _ (myproc_ok s p Hc)).
  rewrite (bind_ok _ _ _ tt s1).
  2:{ unfold count_syscall. rewrite (bind_ok _ _ _ (Some p) s) by (unfold gets; by rewrite Hc). done. }
  assert (procs s1 !! p = Some (counted x)) as Hx1 by (unfold s1; by rewrite procs_with, list_lookup_alter_eq, Hx).
  rewrite (bind_ok _ _ _ _ _ (get_proc_ok s1 p _ Hx1)). change (p_trapframe (counted x)) with (p_trapframe x).
  rewrite (bind_ok _ _ _ (rd64 (mem s) (p_trapframe x + TF_A7)) s1).
  2:{ change (mem s) with (mem s1). apply load64_ok. eapply frame_ram; [done..|]. unfold TF_A7, TRAPFRAME_SIZE. lia. }
  by destruct (handler_of _).
Qed.

(** ** Sleeping for ticks *)
(** A process that was woken runs again (proc.c:553-558, 646). *)
Definition resume (p : nat) : M (kernel D) unit :=
  upd_proc p (set_p_state RUNNING) ;;; modify (with_cur (Some p)) ;;; sleep_end.

(** At most [k] sleeps, each ended by a tick; the result of the last test. *)
Fixpoint sleep_through (k : nat) (n ticks0 : Z) (p : nat) : M (kernel D) (option Z) :=
  let* r := pause_loop n ticks0 in
  match r, k with
  | None, S k => clock_count true ;;; resume p ;;; sleep_through k n ticks0 p
  | _, _ => ret r
  end.

Lemma u32_step t t0 e : u32 (t - t0) = e → e + 1 < 2 ^ 32 → u32 (u32 (t + 1) - t0) = e + 1.
Proof.
  unfold u32. intros <- He. rewrite Zminus_mod_idemp_l. replace (t + 1 - t0) with (t - t0 + 1) by lia.
  rewrite <- Zplus_mod_idemp_l. apply Z.mod_small. pose proof (Z.mod_pos_bound (t - t0) (2 ^ 32)). lia.
Qed.

(** One round: asleep, a tick, awake. *)
Lemma sleep_round s p x n t0 e :
  cur s = Some p → procs s !! p = Some x → p_killed x = 0 → u32 (ticks s - t0) = e → e < u32 n →
  ∃ s' x', (∀ k, sleep_through (S k) n t0 p s = sleep_through k n t0 p s') ∧
    (∃ s0, sleep_through 0 n t0 p s = Ok (None, s0) ∧ ticks s0 = ticks s) ∧
    cur s' = Some p ∧ procs s' !! p = Some x' ∧ p_killed x' = 0 ∧ ticks s' = u32 (ticks s + 1).
Proof.
  intros Hc Hx Hk He Hlt.
  set (s1 := with_cur None (with_procs (alter (λ x, set_p_state SLEEPING (set_p_chan chan_ticks x)) p (procs s)) s)).
  assert (pause_loop n t0 s = Ok (None, s1)) as E1.
  { unfold pause_loop. rewrite (bind_ok _ _ _ (ticks s) s) by done. rewrite decide_True by lia.
    rewrite (bind_ok _ _ _ _ _ (myproc_ok s p Hc)). unfold killed. rewrite bind_assoc.
    rewrite (bind_ok _ _ _ _ _ (get_proc_ok s p x Hx)), bind_ret_l. rewrite Hk, decide_False by auto.
    unfold sleep. rewrite bind_assoc, (bind_ok _ _ _ (Some p) s) by (unfold gets; by rewrite Hc).
    rewrite bind_assoc, (bind_ok _ _ _ p s) by done. rewrite bind_assoc, (bind_ok _ _ _ _ _ (upd_proc_run _ _ _)).
    rewrite bind_assoc, (bind_ok _ _ _ _ _ (upd_proc_run _ _ _)). unfold modify, bind, ret, s1. simpl. by rewrite alter_alter. }
  set (s2 := with_mlfq_global_ticks (i32 (mlfq_global_ticks s + 1)) (with_ticks (u32 (ticks s + 1)) s1)).
  set (ps := imap (wake_proc None chan_ticks) (procs s2)).
  assert (clock_count true s1 = Ok (tt, with_procs ps s2)) as E2.
  { unfold clock_count. rewrite (bind_ok _ _ _ tt (with_ticks (u32 (ticks s + 1)) s1)) by done.
    rewrite (bind_ok _ _ _ tt s2) by done. by rewrite wakeup_run. }
  set (g := λ x, set_p_chan 0 (set_p_state RUNNING x)).
  assert (resume p (with_procs ps s2) = Ok (tt, with_cur (Some p) (with_procs (alter g p ps) s2))) as E3.
  { unfold resume. rewrite (bind_ok _ _ _ _ _ (upd_proc_run _ _ _)).
    rewrite (bind_ok _ _ _ tt (with_cur (Some p) (with_procs (alter (set_p_state RUNNING) p ps) s2))) by done.
    unfold sleep_end. rewrite (bind_ok _ _ _ (Some p) (with_cur (Some p) (with_procs (alter (set_p_state RUNNING) p ps) s2))) by done.
    rewrite (bind_ok _ _ _ p (with_cur (Some p) (with_procs (alter (set_p_state RUNNING) p ps) s2))) by done.
    unfold upd_proc, modify. simpl. by rewrite alter_alter. }
  assert (procs s1 !! p = Some (set_p_state SLEEPING (set_p_chan chan_ticks x))) as Hx1.
  { unfold s1. simpl. by rewrite list_lookup_alter_eq, Hx. }
  assert (ps !! p = Some (set_p_state RUNNABLE (set_p_state SLEEPING (set_p_chan chan_ticks x)))) as Hx2.
  { unfold ps. rewrite list_lookup_imap. change (procs s2) with (procs s1). rewrite Hx1. simpl. f_equal.
    unfold wake_proc. rewrite decide_False by done. rewrite decide_True; [done|]. by destruct x. }
  exists (with_cur (Some p) (with_procs (alter g p ps) s2)), (g (set_p_state RUNNABLE (set_p_state SLEEPING (set_p_chan chan_ticks x)))).
  split_and!; [| |done| |by destruct x|done].
  - intros k. cbn [sleep_through]. rewrite (bind_ok _ _ _ _ _ E1), (bind_ok _ _ _ _ _ E2), (bind_ok _ _ _ _ _ E3). reflexivity.
  - exists s1. split; [|done]. cbn [sleep_through]. by rewrite (bind_ok _ _ _ _ _ E1).
  - simpl. rewrite list_lookup_alter_eq, Hx2. reflexivity.
Qed.

Lemma sleep_through_ok k s p x n t0 e :
  cur s = Some p → procs s !! p = Some x → p_killed x = 0 → u32 (ticks s - t0) = e → e ≤ u32 n →
  ∃ s', sleep_through k n t0 p s = Ok (if decide (e + Z.of_nat k < u32 n) then None else Some 0, s') ∧
    u32 (ticks s' - t0) = Z.min (e + Z.of_nat k) (u32 n).
Proof.
  revert s x e. induction k as [|k IH]; intros s x e Hc Hx Hk He Hle.
  all: destruct (decide (e < u32 n)) as [Hlt|Hge].
  2,4: exists s; rewrite decide_False by lia; (split; [|lia]); cbn [sleep_through]; unfold pause_loop at 1;
    rewrite bind_assoc, (bind_ok _ _ _ (ticks s) s) by done; rewrite decide_False by lia; done.
  all: destruct (sleep_round s p x n t0 e Hc Hx Hk He Hlt) as (s' & x' & E & (s0 & E0 & Ht0) & Hc' & Hx' & Hk' & Ht').
  - exists s0. rewrite Z.add_0_r, decide_True by lia. rewrite Ht0, He. split; [done|lia].
  - assert (u32 n < 2 ^ 32) as Hn by (unfold u32; pose proof (Z.mod_pos_bound n (2 ^ 32)); lia).
    destruct (IH s' x' (e + 1) Hc' Hx' Hk') as (s'' & E'' & Ht''); [rewrite Ht'; apply u32_step; [done|lia]|lia|].
    exists s''. rewrite E, E''. split; [|rewrite Ht''; lia]. do 2 f_equal. apply decide_ext. lia.
Qed.
End sysok.
