(* ===== verification/SysProps.v ===== *)
(** * Properties of system calls

    Dispatch, [sbrk], sleeping for ticks, and a run that shows what changing
    the RAID mode does to pages that are swapped out. *)
From S2P Require Import Prelude Interfaces Raid RaidProps Mem KState Kmem PageTable Frames Paging Vm Fault Boot VmProps.
From S2P Require Import Spaces Fork Teardown Sched Proc ProcMem ProcTable UserCopy Kfork Reap ProcBoot ProcProps Grow Syscalls SysOk.
Local Open Scope Z_scope.

Section props.
Context `{Sv39} `{!ProcEnv} `{!Chans} {D : Type} `{!SwapDev D} `{!SwapDevSpec D} `{!FileEnv D} `{!DiskCtl D} `{!SysEnv D}.
Implicit Types s : kernel D.

(** [C36] The dispatcher: the call is counted; a number from 1 to 34 in [a7]
    runs the handler the table has for it and its result goes to [a0], unless
    the handler went to sleep or ended the process; any other number, also one
    that is negative as an [int], returns -1 in [a0] and changes nothing but
    that register and the count. *)
Theorem syscall_dispatch s p x :
  proc_ok s → cur s = Some p → procs s !! p = Some x → p_state x ≠ UNUSED →
  let num := i32 (rd64 (mem s) (p_trapframe x + TF_A7)) in
  let s1 := with_procs (alter counted p (procs s)) s in
  proc_ok s1 ∧ kept s s1 ∧
  if decide (1 ≤ num ≤ 34) then
    ∃ h, (num, h) ∈ syscalls ∧
      (∀ v s2, h s1 = Ok (Some v, s2) → syscall s = Ok (Some v, with_mem (wr64 (mem s2) (p_trapframe x + TF_A0) v) s2)) ∧
      (∀ s2, h s1 = Ok (None, s2) → syscall s = Ok (None, s2))
  else
    let s' := with_mem (wr64 (mem s) (p_trapframe x + TF_A0) (2 ^ 64 - 1)) s1 in
    syscall s = Ok (Some (2 ^ 64 - 1), s') ∧ proc_ok s' ∧ kept s s'.
Proof.
  intros [own Hinv] Hc Hx Hu num s1. destruct (counted_ok s own p x Hinv Hx) as [Hinv1 Hk1].
  assert (procs s1 !! p = Some (counted x)) as Hx1 by (unfold s1; by rewrite procs_with, list_lookup_alter_eq, Hx).
  split_and!; [by exists own|done|]. rewrite (syscall_run s own p x Hinv Hc Hx Hu). fold num s1.
  assert (0 ≤ TF_A0 ≤ TRAPFRAME_SIZE - 8) as Ho by (unfold TF_A0, TRAPFRAME_SIZE; lia). case_decide as Hn.
  - destruct (handler_known (D := D) num Hn) as (h & Eh & Hin). rewrite Eh. exists h. split_and!; [done| |].
    + intros v s2 E. rewrite (bind_ok _ _ _ _ _ E). erewrite bind_ok; [done|]. apply store64_ok. by apply (frame_ram s own p x).
    + intros s2 E. by rewrite (bind_ok _ _ _ _ _ E).
  - rewrite (handler_unknown num Hn).
    destruct (set_reg_ok s1 own p (counted x) TF_A0 (2 ^ 64 - 1) Hinv1 Hx1 Hu Ho) as (E & Hinv' & Hk').
    split_and!; [|by exists own|by eapply kept_trans]. change (p_trapframe (counted x)) with (p_trapframe x) in E.
    change (u64 (-1)) with (2 ^ 64 - 1). by rewrite (bind_ok _ _ _ _ _ E).
Qed.

(** [C37] How long [sys_pause] and [sys_sleep] sleep: when every sleep is ended
    by a tick and nobody kills the caller, the loop goes to sleep exactly
    once per tick until [u32 n] ticks have passed, then returns 0.
    [sys_pause] sets a negative argument to 0; [sys_sleep] does not, so its
    caller sleeps for 2^32 - 1 ticks when it asks for -1. *)
Theorem pause_ticks s p x :
  proc_ok s → cur s = Some p → procs s !! p = Some x → p_state x ≠ UNUSED → p_killed x = 0 → 0 ≤ ticks s < 2 ^ 32 →
  let n := i32 (rd64 (mem s) (p_trapframe x + TF_A0)) in
  sys_pause s = pause_loop (Z.max 0 n) (ticks s) s ∧ sys_sleep s = pause_loop n (ticks s) s ∧
  (∀ k, ∃ s', sleep_through k (Z.max 0 n) (ticks s) p s = Ok (if decide (Z.of_nat k < Z.max 0 n) then None else Some 0, s') ∧
     u32 (ticks s' - ticks s) = Z.min (Z.of_nat k) (Z.max 0 n)) ∧
  (∀ k, ∃ s', sleep_through k n (ticks s) p s = Ok (if decide (Z.of_nat k < n mod 2 ^ 32) then None else Some 0, s') ∧
     u32 (ticks s' - ticks s) = Z.min (Z.of_nat k) (n mod 2 ^ 32)).
Proof.
  intros [own Hinv] Hc Hx Hu Hk Ht n. pose proof (argint_ok s own p x 0 Hinv Hc Hx Hu ltac:(lia)) as Ea.
  rewrite Z.mul_0_r, Z.add_0_r in Ea. fold n in Ea. pose proof (i32_range (rd64 (mem s) (p_trapframe x + TF_A0))) as Hr. fold n in Hr.
  assert (u32 (ticks s - ticks s) = 0) as Hz by (by rewrite Z.sub_diag).
  assert (∀ m, 0 ≤ u32 m) as Hm by (intros m; apply Z.mod_pos_bound; lia).
  split_and!.
  - unfold sys_pause. rewrite (bind_ok _ _ _ _ _ Ea). rewrite (bind_ok _ _ _ (ticks s) s) by done.
    f_equal. f_equal. case_decide; lia.
  - unfold sys_sleep. rewrite (bind_ok _ _ _ _ _ Ea). by rewrite (bind_ok _ _ _ (ticks s) s) by done.
  - intros k. destruct (sleep_through_ok k s p x (Z.max 0 n) (ticks s) 0 Hc Hx Hk Hz (Hm _)) as (s' & E & Et).
    rewrite (u32_id (Z.max 0 n)) in E, Et by lia. exists s'. rewrite Z.add_0_l in E, Et. done.
  - intros k. destruct (sleep_through_ok k s p x n (ticks s) 0 Hc Hx Hk Hz (Hm _)) as (s' & E & Et).
    exists s'. rewrite Z.add_0_l in E, Et. done.
Qed.

End props.

(** ** Runs *)
Module SysRuns.
Import VmRuns ProcRuns.
#[local] Existing Instance xv6_block_params.
#[local] Existing Instance VmRuns.lay.
#[local] Existing Instance VmRuns.sv39.
#[local] Existing Instance ProcRuns.env.
#[local] Existing Instance ProcRuns.chans.
#[local] Existing Instance ProcRuns.files.
#[local] Instance ctl : DiskCtl (raid IdealDisk.t) := {|
  ctl_raid_mode := set_raid_mode; ctl_disk_policy := λ _, ret tt; ctl_reads := λ _, 0; ctl_writes := λ _, 0; ctl_latency := ret 0 |}.
#[local] Instance sysenv : SysEnv (raid IdealDisk.t) := {|
  SBRK_EAGER := 1; SBRK_LAZY := 2; mlfqinfo_bytes := λ _ _ _ _, []; sysfile := λ _, ret (Some 0) |}.

(** Process 0 is about to make system call [num]. *)
Definition tf0 (s : machine) : Z := p_trapframe (proc_at s 0).
Definition set_reg (s : machine) (o v : Z) : machine := with_mem (wr64 (mem s) (tf0 s + o) v) s.
Definition call (s : machine) (num a0 a1 : Z) : machine :=
  set_reg (set_reg (set_reg s TF_A7 num) TF_A0 a0) (TF_A0 + 8) a1.

Lemma set_reg_proc_ok s x o v :
  proc_ok s → procs s !! 0%nat = Some x → p_state x ≠ UNUSED → 0 ≤ o ≤ TRAPFRAME_SIZE - 8 → proc_ok (set_reg s o v).
Proof.
  intros [own Hinv] Hx Hu Ho. exists own. destruct (set_reg_ok s own 0 x o v Hinv Hx Hu Ho) as (_ & Hi & _).
  unfold set_reg, tf0, proc_at. rewrite Hx. exact Hi.
Qed.

Lemma call_ok s x num a0 a1 :
  proc_ok s → procs s !! 0%nat = Some x → p_state x ≠ UNUSED → proc_ok (call s num a0 a1).
Proof.
  intros Hok Hx Hu. unfold call.
  apply (set_reg_proc_ok _ x); [apply (set_reg_proc_ok _ x); [apply (set_reg_proc_ok _ x)|..]|..]; try assumption;
    unfold TF_A7, TF_A0, TRAPFRAME_SIZE; lia.
Qed.

Lemma call_same s num a0 a1 : procs (call s num a0 a1) = procs s ∧ cur (call s num a0 a1) = cur s ∧ ticks (call s num a0 a1) = ticks s.
Proof. by destruct s. Qed.

Lemma ready_call num a0 a1 :
  proc_ok (call ready num a0 a1) ∧ cur (call ready num a0 a1) = Some 0%nat ∧
  procs (call ready num a0 a1) !! 0%nat = Some (proc_at ready 0) ∧ p_state (proc_at ready 0) ≠ UNUSED.
Proof.
  destruct ready_ok as (Hok & Hc & x & Hx & Hst & _). 
  assert (proc_at ready 0 = x) as -> by (unfold proc_at; rewrite Hx; reflexivity).
  assert (p_state x ≠ UNUSED) as Hu by (rewrite Hst; discriminate).
  destruct (call_same ready num a0 a1) as (-> & -> & _).
  split; [apply (call_ok ready x); [exact Hok|exact Hx|exact Hu]|]. split; [exact Hc|]. split; [exact Hx|exact Hu].
Qed.

Lemma all_free (l : list swap_entry) : forallb (λ e, negb (s_used e)) l = true → ∀ i e, l !! i = Some e → s_used e = false.
Proof.
  intros Hf i e Hi. rewrite forallb_forall in Hf. specialize (Hf e (proj1 (list_elem_of_In _ _) (list_elem_of_lookup_2 _ _ _ Hi))).
  by destruct (s_used e).
Qed.

Lemma ready_low : ∀ i e, swap_map ready !! i = Some e → s_used e = false.
Proof. apply all_free. vm_compute. reflexivity. Qed.

Lemma call_swap s num a0 a1 : swap_map (call s num a0 a1) = swap_map s.
Proof. by destruct s. Qed.

Lemma call_low num a0 a1 : swap_low (call ready num a0 a1).
Proof. intros i e p x Hi Hu. rewrite call_swap in Hi. rewrite (ready_low i e Hi) in Hu. discriminate Hu. Qed.

Lemma syscall_dispatch_witness :
  ∃ s', syscall (call ready 99 0 0) = Ok (Some (2 ^ 64 - 1), s') ∧ proc_ok s'.
Proof.
  destruct (ready_call 99 0 0) as (Hok & Hc & Hx & Hu).
  destruct (syscall_dispatch (call ready 99 0 0) 0 (proc_at ready 0) Hok Hc Hx Hu) as (_ & _ & Hcase).
  assert (i32 (rd64 (mem (call ready 99 0 0)) (p_trapframe (proc_at ready 0) + TF_A7)) = 99) as Hn by (vm_compute; reflexivity).
  rewrite Hn in Hcase. rewrite decide_False in Hcase by lia. destruct Hcase as (E & Hok' & _).
  eexists. split; [exact E|exact Hok'].
Defined.

Lemma pause_ticks_witness :
  (∃ s', sleep_through 1 2 0 0 (call ready SYS_pause 2 0) = Ok (None, s')) ∧
  ∃ s', sleep_through 2 2 0 0 (call ready SYS_pause 2 0) = Ok (Some 0, s').
Proof.
  destruct (ready_call SYS_pause 2 0) as (Hok & Hc & Hx & Hu).
  assert (p_killed (proc_at ready 0) = 0 ∧ ticks (call ready SYS_pause 2 0) = 0 ∧
    i32 (rd64 (mem (call ready SYS_pause 2 0)) (p_trapframe (proc_at ready 0) + TF_A0)) = 2) as (Hk & Ht & Hn)
    by (vm_compute; repeat split).
  destruct (pause_ticks (call ready SYS_pause 2 0) 0 (proc_at ready 0) Hok Hc Hx Hu Hk ltac:(rewrite Ht; lia)) as (_ & _ & Hp & _).
  rewrite Hn, Ht in Hp. split.
  - destruct (Hp 1%nat) as (s' & E & _). exists s'. exact E.
  - destruct (Hp 2%nat) as (s' & E & _). exists s'. exact E.
Defined.


(** A page of process 0 in swap, with three bytes in its third block. *)
Definition stored : machine := run evict_one_user_frame (run (copyout root0 6500 [104; 105; 0]) ready).

(** [C11] Changing the RAID mode loses the pages that are swapped out: a process
    with a page in swap reads it back before a [setraidmode] system call,
    which succeeds, and reads other bytes after it.  The mode decides where a
    slot lies on the disks, and nothing moves the slots in use. *)
Theorem setraidmode_loses_pages :
  ∃ s1 s2 s3 d, copyin root0 6500 3 stored = Ok ((0, [104; 105; 0]), s1) ∧
    syscall (call stored SYS_setraidmode 0 0) = Ok (Some 0, s2) ∧
    copyin root0 6500 3 s2 = Ok ((0, d), s3) ∧ d ≠ [104; 105; 0].
Proof.
  set (r1 := copyin root0 6500 3 stored). set (r2 := syscall (call stored SYS_setraidmode 0 0)).
  set (s2 := match r2 with Ok (_, s) => s | _ => stored end). set (r3 := copyin root0 6500 3 s2).
  assert (match r1 with Ok (v, _) => v | _ => (-1, []) end = (0, [104; 105; 0])) as H1' by (vm_compute; reflexivity).
  assert (match r2 with Ok (v, _) => v | _ => None end = Some 0) as H2' by (vm_compute; reflexivity).
  assert (match r3 with Ok (v, _) => (v.1, bool_decide (v.2 = [104; 105; 0])) | _ => (-1, true) end = (0, false)) as H3'
    by (vm_compute; reflexivity).
  destruct r1 as [[v1 s1]|?| | |]; try discriminate H1'. destruct r3 as [[[v3 d] s3]|?| | |] eqn:E3; try discriminate H3'.
  destruct r2 as [[v2 s2']|?| | |] eqn:E2; try discriminate H2'.
  injection H3' as H3a H3b. simpl in H3a, H3b. apply bool_decide_eq_false in H3b. subst v1 v2 v3.
  exists s1, s2', s3, d. split; [reflexivity|]. split; [reflexivity|]. split; [exact E3|exact H3b].
Qed.
End SysRuns.
