(* ===== verification/TrapOk.v ===== *)
(** * Lemmas on traps

    The way back to user mode and the page fault of a user program, from the
    trap to the instruction that is tried again. *)
From S2P Require Import Prelude Interfaces Mem KState Kmem PageTable Frames Paging Vm Fault Boot.
From S2P Require Import Spaces Fork Teardown Sched Proc ProcMem ProcTable UserCopy Kfork Reap ProcBoot Syscalls SysOk Trap.
Local Open Scope Z_scope.

Section trapok.
Context `{Sv39} `{!ProcEnv} `{!Chans} {D : Type} `{!SwapDev D} `{!SwapDevSpec D} `{!FileEnv D}.
Context `{!DiskCtl D} `{!SysEnv D} `{!TrapEnv D}.
Implicit Types s : kernel D.

(** The offsets of the user registers in the trapframe. *)
Definition user_reg (o : Z) : Prop := o = TF_EPC ∨ 40 ≤ o ≤ TRAPFRAME_SIZE - 8.

(** A later state of the same process table with the same user registers. *)
Record resumes s s' (p : nat) (x : proc) : Prop := {
  rs_procs : same_procs s s';
  rs_cur : cur s' = cur s;
  rs_regs : ∀ o, user_reg o → rd64 (mem s') (p_trapframe x + o) = rd64 (mem s) (p_trapframe x + o);
}.

Lemma set_kernel_reg s own p x o v :
  pinv s own → procs s !! p = Some x → p_state x ≠ UNUSED → 0 ≤ o ≤ 16 ∨ o = 32 →
  let s' := with_mem (wr64 (mem s) (p_trapframe x + o) v) s in
  store64 (p_trapframe x + o) v s = Ok (tt, s') ∧ pinv s' own ∧ kept s s' ∧ resumes s s' p x.
Proof.
  intros Hinv Hx Hu Ho s'. destruct (set_reg_ok s own p x o v Hinv Hx Hu) as (E & Hi & Hk).
  { unfold TRAPFRAME_SIZE. lia. }
  split_and!; [done..|]. split; [done|done|]. intros o' Ho'. apply rd64_wr64_ne.
  unfold user_reg, TF_EPC, TRAPFRAME_SIZE in Ho'. lia.
Qed.

Lemma resumes_trans s1 s2 s3 p x : resumes s1 s2 p x → resumes s2 s3 p x → resumes s1 s3 p x.
Proof.
  intros [P1 C1 R1] [P2 C2 R2]. split; [unfold same_procs in *; congruence|congruence|].
  intros o Ho. by rewrite R2, R1.
Qed.

Lemma prepare_return_ok s own p x r :
  pinv s own → procs s !! p = Some x → p_state x ≠ UNUSED →
  ∃ s', prepare_return p r s =
      Ok ((TRAMPOLINE + uservec_offset, Z.lor (Z.ldiff (r_sstatus r) SSTATUS_SPP) SSTATUS_SPIE,
           rd64 (mem s) (p_trapframe x + TF_EPC)), s') ∧
    pinv s' own ∧ kept s s' ∧ procs s' = procs s ∧ resumes s s' p x.
Proof.
  intros Hinv Hx Hu. unfold prepare_return. rewrite (bind_ok _ _ _ _ _ (get_proc_ok s p x Hx)).
  destruct (set_kernel_reg s own p x TF_KERNEL_SATP (r_satp r) Hinv Hx Hu) as (E1 & Hi1 & Hk1 & R1); [by left|].
  rewrite (bind_ok _ _ _ _ _ E1). set (s1 := with_mem _ s) in *.
  destruct (set_kernel_reg s1 own p x TF_KERNEL_SP (u64 (p_kstack x + PGSIZE)) Hi1 Hx Hu) as (E2 & Hi2 & Hk2 & R2); [by left|].
  rewrite (bind_ok _ _ _ _ _ E2). set (s2 := with_mem _ s1) in *.
  destruct (set_kernel_reg s2 own p x TF_KERNEL_TRAP usertrap_addr Hi2 Hx Hu) as (E3 & Hi3 & Hk3 & R3); [by left|].
  rewrite (bind_ok _ _ _ _ _ E3). set (s3 := with_mem _ s2) in *.
  destruct (set_kernel_reg s3 own p x TF_KERNEL_HARTID (r_tp r) Hi3 Hx Hu) as (E4 & Hi4 & Hk4 & R4); [by right|].
  rewrite (bind_ok _ _ _ _ _ E4). set (s4 := with_mem _ s3) in *.
  assert (resumes s s4 p x) as R by (eapply resumes_trans; [|done]; eapply resumes_trans; [|done]; by eapply resumes_trans).
  assert (in_ram (p_trapframe x + TF_EPC) 8 = true) as Hram by (by apply (frame_ram s own p x)).
  exists s4. rewrite (bind_ok _ _ _ _ _ (load64_ok s4 _ Hram)). rewrite (rs_regs _ _ _ _ R) by by left.
  split_and!; [done|done| |done|done].
  eapply kept_trans; [done|]. eapply kept_trans; [done|]. by eapply kept_trans.
Qed.

(** Pages that belong to the kernel side of a process are not moved. *)
Lemma pinned_regs s own s' own' p x :
  pinned s own s' own' → pinv s own → procs s !! p = Some x → p_state x ≠ UNUSED →
  ∀ o, 0 ≤ o ≤ TRAPFRAME_SIZE - 8 → rd64 (mem s') (p_trapframe x + o) = rd64 (mem s) (p_trapframe x + o).
Proof.
  intros Hp Hinv Hx Hu o Ho. destruct (frame_page s own p x Hinv Hx Hu) as [Hpin _]. destruct (Hp _ _ Hpin) as [_ Hb].
  pose proof PGSIZE_4096. unfold TRAPFRAME_SIZE in Ho. apply rd64_ext. intros a Ha.
  replace a with (p_trapframe x + (a - p_trapframe x)) by lia. eapply rdbytes_inj; [exact Hb|lia].
Qed.

(** ** Page faults *)
(** A read or write fault from user mode saves the program counter, brings
    the page in, and goes back. *)
Lemma fault_trap_run s own p x r :
  pinv s own → cur s = Some p → procs s !! p = Some x → p_state x ≠ UNUSED →
  Z.land (r_sstatus r) SSTATUS_SPP = 0 → r_scause r = 13 ∨ r_scause r = 15 →
  usertrap r s = (user_fault p r ;;; usertrap_end p r) (with_mem (wr64 (mem s) (p_trapframe x + TF_EPC) (r_sepc r)) s).
Proof.
  intros Hinv Hc Hx Hu Hspp Hcause. unfold usertrap. rewrite decide_False by (intros Hbad; by apply Hbad).
  rewrite (bind_ok _ _ _ _ _ (myproc_ok s p Hc)), (bind_ok _ _ _ _ _ (get_proc_ok s p x Hx)).
  destruct (set_reg_ok s own p x TF_EPC (r_sepc r) Hinv Hx Hu) as (E & _); [done|].
  rewrite (bind_ok _ _ _ _ _ E). set (s1 := with_mem _ s).
  rewrite decide_False by (destruct Hcause as [-> | ->]; discriminate).
  assert (devintr r s1 = Ok (Some 0, s1)) as Ed.
  { unfold devintr. by rewrite !decide_False by (destruct Hcause as [-> | ->]; discriminate). }
  rewrite (bind_ok _ _ _ _ _ Ed). rewrite decide_False by (intros Hbad; by apply Hbad).
  rewrite decide_True by tauto. reflexivity.
Qed.

Lemma usertrap_end_resume s own p x r :
  pinv s own → procs s !! p = Some x → p_state x ≠ UNUSED → p_killed x = 0 →
  ∃ s', usertrap_end p r s =
      Ok (Some (MAKE_SATP (p_pagetable x), (TRAMPOLINE + uservec_offset,
        Z.lor (Z.ldiff (r_sstatus r) SSTATUS_SPP) SSTATUS_SPIE, rd64 (mem s) (p_trapframe x + TF_EPC))), s') ∧
    pinv s' own ∧ kept s s' ∧ resumes s s' p x.
Proof.
  intros Hinv Hx Hu Hk0. unfold usertrap_end, killed. rewrite bind_assoc, (bind_ok _ _ _ _ _ (get_proc_ok s p x Hx)).
  rewrite bind_ret_l, Hk0. rewrite decide_False by (intros Hbad; by apply Hbad).
  destruct (prepare_return_ok s own p x r Hinv Hx Hu) as (s' & E & Hi & Hk & Hp & Hr).
  exists s'. rewrite (bind_ok _ _ _ _ _ E).
  assert (procs s' !! p = Some x) as Hx' by by rewrite Hp.
  rewrite (bind_ok _ _ _ _ _ (get_proc_ok s' p x Hx')). done.
Qed.

Lemma usertrap_end_killed s p x r :
  procs s !! p = Some x → p_killed x ≠ 0 → usertrap_end p r s = (kexit (-1) ;;; ret None) s.
Proof.
  intros Hx Hk0. unfold usertrap_end, killed. rewrite bind_assoc, (bind_ok _ _ _ _ _ (get_proc_ok s p x Hx)).
  rewrite bind_ret_l. by rewrite decide_True.
Qed.

(** The page is in, or the process is marked killed. *)
Lemma user_fault_ok s own p x r :
  pinv s own → cur s = Some p → procs s !! p = Some x → p_state x ≠ UNUSED → 0 ≤ r_stval r < p_sz x →
  let va := PGROUNDDOWN (r_stval r) in
  ∃ s' own' y, user_fault p r s = Ok (tt, s') ∧ pinv s' own' ∧ kept s s' ∧ cur s' = cur s ∧ procs s' !! p = Some y ∧
    pinned s own s' own' ∧
    ((core y = core x ∧ ∃ a, own' a = RPage (p_pagetable x) va ∧ rdbytes (mem s') a PGSIZE = user_page s p va) ∨
     (core y = core (set_p_killed 1 x) ∧
       ((∃ pte, leaf_at own' (p_pagetable x) va pte ∧ Z.land (rd64 (mem s') pte) PTE_U = 0) ∨
        swap_full s' ∨ nused (frame_table s') = 0 ∨ scarce own'))).
Proof.
  intros Hinv Hc Hx Hu Hva va. pose proof Hinv as (Hv & _ & Hpok).
  destruct (pk_used _ _ Hpok p x Hx Hu) as [Hr0 _]. destruct (pk_holds _ _ Hpok p x Hx) as [_ Hh]. destruct (Hh Hr0) as [Hsz _].
  destruct (vmfault_ok s own p x (p_pagetable x) (r_stval r) (bool_decide (r_scause r = 13)))
    as (a & s1 & own1 & E & Hv1 & Hst & Hcase); [done..|lia|]. fold va in Hst, Hcase.
  assert (pinv s1 own1) as Hinv1.
  { eapply (pinv_steady s own s1 own1 p x va); [done..| |done]. unfold va, PGROUNDDOWN.
    pose proof MAXVA_range. pose proof TRAMPOLINE_top. pose proof TRAPFRAME_below. rewrite PGSIZE_4096 in *.
    unfold PGROUNDUP. rewrite PGSIZE_4096, u64_id by lia. Z.to_euclidean_division_equations. lia. }
  destruct (same_procs_lookup s s1 p x (st_procs _ _ _ _ _ _ Hst) Hx) as (y & Hy & Hcore).
  assert (kept s s1) as Hk1.
  { split; [|exact (st_views _ _ _ _ _ _ Hst)]. intros q r' Hq. by apply (live_same s s1 q r' (st_procs _ _ _ _ _ _ Hst)). }
  unfold user_fault. rewrite (bind_ok _ _ _ _ _ (get_proc_ok s p x Hx)), (bind_ok _ _ _ _ _ E).
  destruct Hcase as [(Hne & Ho & Hb)|(-> & Hwhy)].
  - rewrite decide_False by done. exists s1, own1, y. split_and!; [done..|exact (st_cur _ _ _ _ _ _ Hst)|done|exact (st_pin _ _ _ _ _ _ Hst)|]. left. eauto.
  - rewrite decide_True by done. unfold setkilled. rewrite upd_proc_run.
    destruct (pinv_table s1 own1 (alter (set_p_killed 1) p (procs s1)) (cur s1) Hinv1) as [Hinv2 Hk2].
    { eapply same_holds_alter; [done|]. by split_and!. }
    { intros i Hi. destruct Hinv1 as (_ & Hcok & _). destruct (Hcok i Hi) as [w Hw].
      destruct (decide (i = p)) as [->|]; [rewrite list_lookup_alter_eq|rewrite list_lookup_alter_ne by done]; rewrite Hw; by eexists. }
    exists (with_procs (alter (set_p_killed 1) p (procs s1)) s1), own1, (set_p_killed 1 y).
    split_and!; [done|exact Hinv2| |exact (st_cur _ _ _ _ _ _ Hst)| |exact (st_pin _ _ _ _ _ _ Hst)|right].
    + eapply kept_trans; [exact Hk1|exact Hk2].
    + rewrite procs_with, list_lookup_alter_eq, Hy. done.
    + split; [|exact Hwhy]. destruct x, y. unfold core in *. simpl in *. by simplify_eq.
Qed.
End trapok.
