(* ===== verification/TrapProps.v ===== *)
(** * Properties of traps

    A page fault of a user program from the trap to the return, over the whole
    paging code. *)
From S2P Require Import Prelude Interfaces Raid RaidProps Mem KState Kmem PageTable Frames Paging Vm Fault Boot VmProps.
From S2P Require Import Spaces Fork Teardown Sched Proc ProcMem ProcTable UserCopy Kfork Reap ProcBoot ProcProps Syscalls SysOk SysProps Trap TrapOk.
Local Open Scope Z_scope.

Section props.
Context `{Sv39} `{!ProcEnv} `{!Chans} {D : Type} `{!SwapDev D} `{!SwapDevSpec D} `{!FileEnv D}.
Context `{!DiskCtl D} `{!SysEnv D} `{!TrapEnv D}.
Implicit Types s : kernel D.

End props.

(** ** A run *)
Module TrapRuns.
Import VmRuns ProcRuns SysRuns.
#[local] Existing Instance xv6_block_params.
#[local] Existing Instance VmRuns.lay.
#[local] Existing Instance VmRuns.sv39.
#[local] Existing Instance ProcRuns.env.
#[local] Existing Instance ProcRuns.chans.
#[local] Existing Instance ProcRuns.files.
#[local] Existing Instance SysRuns.ctl.
#[local] Existing Instance SysRuns.sysenv.
#[local] Instance trapenv : TrapEnv (raid IdealDisk.t) := {|
  SSTATUS_SPP := 256; SSTATUS_SPIE := 32; UART0_IRQ := 10; VIRTIO0_IRQ := 1; uservec_offset := 0; usertrap_addr := 2147500000;
  MAKE_SATP := λ r, Z.lor (Z.shiftl 8 60) (Z.shiftr r 12); plic_claim := ret 0; plic_complete := λ _, ret tt; uartintr := ret tt;
  disk_intr := ret tt; userret_offset := 154; fsinit := λ _, ret tt; kexec_init := ret 1 |}.

(** A load at address 6500, in the second page, by the instruction at 4. *)
Definition load_fault : regs := mkRegs 0 4 13 6500 0 0.

End TrapRuns.
