(* ===== verification/Safety.v ===== *)
(** * The kernel against any user program

    The invariant [kernel_ok] of the whole kernel state, the promise [iso] one
    process has from the others' calls, and a total-correctness triple
    [safe p m Q]: run for process [p], the code returns, keeps the invariant
    and leaves all other processes alone; the only panic is the exit of
    init. *)
From S2P Require Import Prelude Interfaces Mem KState Kmem PageTable Frames Paging Vm Fault Boot.
From S2P Require Import Spaces Fork Teardown Sched Proc Keeps ProcMem ProcTable UserCopy Kfork Reap ProcBoot Grow Syscalls SysOk.
Local Open Scope Z_scope.

Section safety.
Context `{Sv39} `{!ProcEnv} `{!Chans} {D : Type} `{!SwapDev D} `{!SwapDevSpec D} `{!FileEnv D} `{!FileEnvSpec D}.
Implicit Types s : kernel D.

(** ** The invariant *)
Definition alive (x : proc) : Prop := p_state x ≠ UNUSED ∧ p_state x ≠ ZOMBIE.

Record kernel_ok s : Prop := {
  ko_pinv : ∃ own, pinv s own;
  ko_low : swap_low s;
  ko_mlfq : ∀ i x, procs s !! i = Some x → p_state x ≠ UNUSED → mlfq_ok x;
  ko_parent : ∀ i x q, procs s !! i = Some x → p_state x ≠ UNUSED → p_parent x = Some q →
    q ≠ i ∧ ∃ w, procs s !! q = Some w ∧ alive w;
  ko_init : ∃ i x, initproc s = Some i ∧ procs s !! i = Some x ∧ alive x ∧ p_parent x = None;
  ko_run : ∀ i x, procs s !! i = Some x → p_state x = RUNNING ↔ cur s = Some i;
}.

(** The process of this CPU. *)
Lemma current s p : kernel_ok s → cur s = Some p → ∃ x, procs s !! p = Some x ∧ p_state x = RUNNING.
Proof.
  intros Hk Hc. destruct (ko_pinv _ Hk) as (own & _ & Hcok & _). destruct (Hcok p Hc) as [x Hx].
  exists x. split; [done|]. by apply (ko_run _ Hk p x Hx).
Qed.

(** ** What the others keep *)
(** The fields that only the process itself and its parent's [kwait] change. *)
Definition private (x : proc) : Z * Z * Z * Z * Z * list Z * Z * bytes :=
  (p_pid x, p_sz x, p_pagetable x, p_trapframe x, p_kstack x, p_ofile x, p_cwd x, p_name x).

Record intact s s' (q : nat) (x : proc) : Prop := {
  in_slot : ∃ y, procs s' !! q = Some y ∧ alive y ∧ private y = private x;
  in_pages : ∀ v, va_ok v → user_page s' q v = user_page s q v;
  in_regs : ∀ o, 0 ≤ o < PGSIZE → mem s' (p_trapframe x + o) = mem s (p_trapframe x + o);
}.

(** The process itself keeps its address space and trapframe; the others are
    not put to sleep. *)
Definition same_space (x y : proc) : Prop :=
  p_state y ≠ UNUSED ∧ p_trapframe y = p_trapframe x ∧ p_pagetable y = p_pagetable x.

Record iso s s' (p : nat) : Prop := {
  is_init : initproc s' = initproc s;
  is_others : ∀ q x, q ≠ p → procs s !! q = Some x → alive x → intact s s' q x;
  is_self : ∀ x, procs s !! p = Some x → p_state x ≠ UNUSED → ∃ y, procs s' !! p = Some y ∧ same_space x y;
  is_asleep : ∀ q y, q ≠ p → procs s' !! q = Some y → p_state y = SLEEPING →
    ∃ x, procs s !! q = Some x ∧ p_state x = SLEEPING ∧ p_chan x = p_chan y;
}.

Lemma intact_refl s q x : procs s !! q = Some x → alive x → intact s s q x.
Proof. intros Hx Ha. split; [by exists x|done|done]. Qed.

Lemma iso_refl s p : iso s s p.
Proof. split; [done|intros q x _; apply intact_refl|intros x Hx Hu; by exists x|intros q y _ Hy Hs; by exists y]. Qed.

Lemma iso_trans s1 s2 s3 p : iso s1 s2 p → iso s2 s3 p → iso s1 s3 p.
Proof.
  intros [I1 O1 S1 A1] [I2 O2 S2 A2]. split; [congruence| | |].
  3:{ intros q z Hq Hz Hs. destruct (A2 q z Hq Hz Hs) as (y & Hy & Hys & Ey). destruct (A1 q y Hq Hy Hys) as (x & Hx & Hxs & Ex).
      exists x. split_and!; [done|done|congruence]. }
  2:{ intros x Hx Hu. destruct (S1 x Hx Hu) as (y & Hy & Hyu & E1 & E2). destruct (S2 y Hy Hyu) as (z & Hz & Hzu & E3 & E4).
      exists z. split; [done|]. split_and!; congruence. }
  intros q x Hq Hx Ha.
  destruct (O1 q x Hq Hx Ha) as [(y & Hy & Hay & Hpy) V1 R1].
  destruct (O2 q y Hq Hy Hay) as [(z & Hz & Haz & Hpz) V2 R2].
  assert (p_trapframe y = p_trapframe x) as Etf by (unfold private in Hpy; congruence).
  split; [exists z; split_and!; [done|done|congruence]| |].
  - intros v Hv. rewrite V2, V1 by done. done.
  - intros o Ho. rewrite Etf in R2. rewrite R2, R1 by done. done.
Qed.

Lemma core_private x y : core y = core x → private y = private x.
Proof. intros Hc. unfold private. destruct x, y. unfold core in Hc. simpl in *. by simplify_eq. Qed.

Lemma core_fields x y : core y = core x →
  p_state y = p_state x ∧ p_parent y = p_parent x ∧ p_level y = p_level x ∧ p_ticks_used y = p_ticks_used x ∧ p_ticks y = p_ticks x.
Proof. intros Hc. destruct x, y. unfold core in Hc. simpl in *. by simplify_eq. Qed.

Lemma core_mlfq x y : core y = core x → mlfq_ok x → mlfq_ok y.
Proof. intros (_ & _ & E1 & E2 & E3)%core_fields. unfold mlfq_ok. by rewrite E1, E2, E3. Qed.

Lemma core_alive x y : core y = core x → alive x → alive y.
Proof. intros (E & _)%core_fields. unfold alive. by rewrite E. Qed.

Lemma core_asleep x y : core y = core x → p_state y = SLEEPING → p_state x = SLEEPING ∧ p_chan x = p_chan y.
Proof. intros Hc Hs. pose proof (f_equal p_state Hc) as E1. pose proof (f_equal p_chan Hc) as E2. simpl in E1, E2. split; congruence. Qed.

Lemma core_space x y : core y = core x → p_state x ≠ UNUSED → same_space x y.
Proof.
  intros Hc Hu. split_and!; [|exact (f_equal p_trapframe Hc)|exact (f_equal p_pagetable Hc)].
  pose proof (core_fields _ _ Hc) as (-> & _). done.
Qed.

Lemma used_live s own p x : pinv s own → procs s !! p = Some x → p_state x ≠ UNUSED → live s p (p_pagetable x).
Proof. intros (_ & _ & Hpok) Hx Hu. destruct (pk_used _ _ Hpok p x Hx Hu). by exists x. Qed.

(** ** The triple *)
Definition safe_at {A} (p : nat) s (m : M (kernel D) A) (Q : A → kernel D → Prop) : Prop :=
  (∃ a s', m s = Ok (a, s') ∧ kernel_ok s' ∧ iso s s' p ∧ Q a s') ∨
  (initproc s = Some p ∧ m s = Panic "init exiting").
Definition safe {A} (p : nat) (m : M (kernel D) A) (Q : A → kernel D → Prop) : Prop :=
  ∀ s, kernel_ok s → cur s = Some p → safe_at p s m Q.

(** Code that comes back; code that has switched away from its process, which
    is left with property [P]; and a handler, which does one or the other. *)
Definition back {A} (p : nat) (P : A → Prop) (a : A) s : Prop := cur s = Some p ∧ P a.
Definition left_as (p : nat) (P : proc → Prop) s : Prop := cur s = None ∧ ∃ y, procs s !! p = Some y ∧ P y.
Definition handled {A} (p : nat) (P : proc → Prop) (o : option A) s : Prop :=
  match o with Some _ => cur s = Some p | None => left_as p P s end.

Definition ended (y : proc) : Prop := p_state y = ZOMBIE.
Definition asleep (chan : Z) (y : proc) : Prop := p_state y = SLEEPING ∧ p_chan y = chan.

Lemma safe_at_ret {A} p s (a : A) (Q : A → kernel D → Prop) : kernel_ok s → Q a s → safe_at p s (ret a) Q.
Proof. intros Hk HQ. left. exists a, s. split_and!; [done|done|apply iso_refl|done]. Qed.

Lemma safe_ret {A} p (a : A) (Q : A → kernel D → Prop) : (∀ s, cur s = Some p → Q a s) → safe p (ret a) Q.
Proof. intros HQ s Hk Hc. apply safe_at_ret; auto. Qed.

Lemma safe_at_seq {A B} p s (m : M (kernel D) A) (k : A → M (kernel D) B) Q1 Q :
  safe_at p s m Q1 → (∀ a s1, kernel_ok s1 → iso s s1 p → Q1 a s1 → safe_at p s1 (k a) Q) → safe_at p s (bind m k) Q.
Proof.
  intros [(a & s1 & E & Hok1 & Hi1 & Ha)|[Hi E]] Hk.
  - destruct (Hk a s1 Hok1 Hi1 Ha) as [(b & s2 & E2 & Hok2 & Hi2 & HQ)|[Hi E2]]; [left|right].
    + exists b, s2. rewrite (bind_ok _ _ _ _ _ E). split_and!; [done|done|by eapply iso_trans|done].
    + rewrite (bind_ok _ _ _ _ _ E). split; [|done]. by rewrite <- (is_init _ _ _ Hi1).
  - right. split; [done|]. unfold bind. by rewrite E.
Qed.

Lemma safe_at_bind {A B} p s (m : M (kernel D) A) (k : A → M (kernel D) B) P Q :
  safe_at p s m (back p P) → (∀ a, P a → safe p (k a) Q) → safe_at p s (bind m k) Q.
Proof. intros Hm Hk. eapply safe_at_seq; [exact Hm|]. intros a s1 Hok _ [Hc Ha]. by apply Hk. Qed.

Lemma safe_bind {A B} p (m : M (kernel D) A) (k : A → M (kernel D) B) P Q :
  safe p m (back p P) → (∀ a, P a → safe p (k a) Q) → safe p (bind m k) Q.
Proof. intros Hm Hk s Hok Hc. by eapply safe_at_bind; [apply Hm|]. Qed.

Lemma safe_at_step {A B} p s (m : M (kernel D) A) a s1 (k : A → M (kernel D) B) Q :
  m s = Ok (a, s1) → kernel_ok s1 ∧ iso s s1 p → safe_at p s1 (k a) Q → safe_at p s (bind m k) Q.
Proof.
  intros E [Hk Hi] Hn. eapply (safe_at_seq _ _ _ _ (λ b s', b = a ∧ s' = s1)); [left; by exists a, s1|]. by intros b s' _ _ [-> ->].
Qed.

(** Code that only reads: its result may be used with the state it came from. *)
Lemma safe_at_read {A B} p s (m : M (kernel D) A) a (k : A → M (kernel D) B) Q :
  m s = Ok (a, s) → safe_at p s (k a) Q → safe_at p s (bind m k) Q.
Proof. intros E Hk. unfold safe_at in *. by rewrite (bind_ok _ _ _ _ _ E). Qed.

Lemma safe_read {A B} p (m : M (kernel D) A) (k : A → M (kernel D) B) (P : A → Prop) Q :
  (∀ s, kernel_ok s → cur s = Some p → ∃ a, m s = Ok (a, s) ∧ P a) → (∀ a, P a → safe p (k a) Q) → safe p (bind m k) Q.
Proof.
  intros Hm Hk s Hok Hc. destruct (Hm s Hok Hc) as (a & E & Ha). eapply safe_at_read; [done|]. by apply Hk.
Qed.

Lemma safe_gets {A B} p (f : kernel D → A) (k : A → M (kernel D) B) Q :
  (∀ a, safe p (k a) Q) → safe p (let* a := gets f in k a) Q.
Proof. intros Hk. apply (safe_read _ _ _ (λ _, True)); [|auto]. intros s _ _. by exists (f s). Qed.

Lemma safe_myproc {B} p (k : nat → M (kernel D) B) Q : safe p (k p) Q → safe p (let* q := myproc in k q) Q.
Proof.
  intros Hk. apply (safe_read _ _ _ (λ q, q = p)); [|by intros ? ->]. intros s _ Hc. exists p. by split; [apply myproc_ok|].
Qed.

Lemma safe_self {B} p (k : proc → M (kernel D) B) Q :
  (∀ s x, kernel_ok s → cur s = Some p → procs s !! p = Some x → p_state x = RUNNING → safe_at p s (k x) Q) →
  safe p (let* x := get_proc p in k x) Q.
Proof.
  intros Hk s Hok Hc. destruct (current s p Hok Hc) as (x & Hx & Hst).
  eapply safe_at_read; [by apply get_proc_ok|]. by apply Hk.
Qed.

(** ** Steps that keep the process table *)
(** The entry of [p] may have another size; all other fields are the same. *)
Definition same_entry (p i : nat) (x y : proc) : Prop :=
  core (set_p_sz (p_sz x) y) = core x ∧ (i ≠ p → core y = core x).
Definition same_table (p : nat) s s' : Prop :=
  length (procs s') = length (procs s) ∧
  ∀ i x, procs s !! i = Some x → ∃ y, procs s' !! i = Some y ∧ same_entry p i x y.

Lemma same_entry_fields p i x y : same_entry p i x y →
  p_state y = p_state x ∧ p_parent y = p_parent x ∧ (mlfq_ok x → mlfq_ok y) ∧ (alive x → alive y).
Proof.
  intros [Hc _]. pose proof (core_fields _ _ Hc) as (E1 & E2 & _). split_and!; [exact E1|exact E2| |].
  - exact (core_mlfq _ _ Hc).
  - exact (core_alive _ _ Hc).
Qed.

Lemma same_table_back p s s' i y :
  same_table p s s' → procs s' !! i = Some y → ∃ x, procs s !! i = Some x ∧ same_entry p i x y.
Proof.
  intros [Hlen Hfw] Hy. destruct (lookup_lt_is_Some_2 (procs s) i) as [x Hx]; [apply lookup_lt_Some in Hy; lia|].
  destruct (Hfw i x Hx) as (y' & Hy' & He). exists x. split; [done|]. congruence.
Qed.

Lemma ok_core s own s' own' p :
  kernel_ok s → pinv s own → pinv s' own' → same_table p s s' → cur s' = cur s → initproc s' = initproc s →
  (∀ a q, q ≠ p → own a = RPin q → rdbytes (mem s') a PGSIZE = rdbytes (mem s) a PGSIZE) → swap_low s' →
  (∀ q r v, q ≠ p → live s q r → va_ok v → user_page s' q v = user_page s q v) →
  kernel_ok s' ∧ iso s s' p.
Proof.
  intros Hk Hinv Hinv' Hps Hc Hin Hpin Hl Hv. split; [split|split].
  - by exists own'.
  - done.
  - intros i y Hy Hu. destruct (same_table_back _ _ _ _ _ Hps Hy) as (x & Hx & (Est & _ & Hm & _)%same_entry_fields).
    apply Hm, (ko_mlfq _ Hk i x Hx). congruence.
  - intros i y q Hy Hu Hp. destruct (same_table_back _ _ _ _ _ Hps Hy) as (x & Hx & (Est & Epa & _ & _)%same_entry_fields).
    destruct (ko_parent _ Hk i x q Hx) as (? & w & Hw & Ha); [congruence..|]. split; [done|].
    destruct (proj2 Hps q w Hw) as (w' & Hw' & (_ & _ & _ & Hal)%same_entry_fields). exists w'. auto.
  - destruct (ko_init _ Hk) as (i & x & Ei & Hx & Ha & Hp).
    destruct (proj2 Hps i x Hx) as (y & Hy & (_ & Epa & _ & Hal)%same_entry_fields).
    exists i, y. split_and!; [congruence|done|auto|congruence].
  - intros i y Hy. destruct (same_table_back _ _ _ _ _ Hps Hy) as (x & Hx & (Est & _ & _ & _)%same_entry_fields).
    rewrite Est, Hc. by apply (ko_run _ Hk).
  - done.
  - intros q x Hq Hx Ha. destruct (proj2 Hps q x Hx) as (y & Hy & [_ Hcy]). specialize (Hcy Hq). split.
    + exists y. split_and!; [done|by eapply core_alive|by apply core_private].
    + intros v Hvv. apply (Hv q (p_pagetable x)); [done| |done]. eapply used_live; [done..|apply Ha].
    + destruct (frame_page s own q x Hinv Hx (proj1 Ha)) as [Hpn _]. intros o Ho. eapply rdbytes_inj; [|done]. by eapply Hpin.
  - intros x Hx Hu. destruct (proj2 Hps p x Hx) as (y & Hy & He). exists y. split; [done|]. split; [|split].
    + destruct (same_entry_fields _ _ _ _ He) as (-> & _). done.
    + exact (f_equal p_trapframe (proj1 He)).
    + exact (f_equal p_pagetable (proj1 He)).
  - intros q y Hq Hy Hs. destruct (same_table_back _ _ _ _ _ Hps Hy) as (x & Hx & [_ Hcy]). specialize (Hcy Hq).
    exists x. split; [done|]. by apply core_asleep.
Qed.

Lemma same_core p s s' : same_procs s s' → same_table p s s'.
Proof.
  intros Hps. split; [by apply (f_equal length) in Hps; rewrite !length_fmap in Hps|].
  intros i x Hx. destruct (same_procs_lookup _ _ _ _ Hps Hx) as (y & Hy & Hc). exists y. split; [done|]. split; [|done].
  destruct x, y. unfold core in *. simpl in *. by simplify_eq.
Qed.

Lemma ok_same s own s' own' p :
  kernel_ok s → pinv s own → pinv s' own' → same_procs s s' → cur s' = cur s → initproc s' = initproc s →
  pinned s own s' own' → (swap_low s → swap_low s') →
  (∀ q r v, q ≠ p → live s q r → va_ok v → user_page s' q v = user_page s q v) →
  kernel_ok s' ∧ iso s s' p.
Proof.
  intros Hk Hinv Hinv' Hps Hc Hin Hpin Hl Hv. apply (ok_core s own s' own' p); try done; [by apply same_core|by intros a q _ Ha; eapply Hpin|].
  apply Hl, Hk.
Qed.

(** ** Updates of the process table *)
(** How an entry may change; [c] is the process that runs afterwards. *)
Record entry_step s (p : nat) (c : option nat) (i : nat) (x y : proc) : Prop := {
  es_hold : same_hold x y;
  es_mlfq : p_state x ≠ UNUSED → mlfq_ok x → mlfq_ok y;
  es_parent : p_parent y = p_parent x ∨ p_parent y = initproc s ∧ p_parent x = Some p;
  es_run : p_state y = RUNNING ↔ c = Some i;
  es_alive : (i ≠ p ∨ initproc s = Some i) → alive x → alive y;
  es_private : i ≠ p → private y = private x;
  es_asleep : i ≠ p → p_state y = SLEEPING → p_state x = SLEEPING ∧ p_chan x = p_chan y;
}.

Lemma ok_table s p c ps :
  kernel_ok s → length ps = length (procs s) →
  (∀ i x, procs s !! i = Some x → ∃ y, ps !! i = Some y ∧ entry_step s p c i x y) →
  (∀ i, c = Some i → (i < length ps)%nat) →
  (∀ y, ps !! p = Some y → alive y ∨ ∀ j z, ps !! j = Some z → p_state z ≠ UNUSED → p_parent z ≠ Some p) →
  let s' := with_cur c (with_procs ps s) in kernel_ok s' ∧ iso s s' p.
Proof.
  intros Hk Hlen Hps Hc Hself s'. destruct (ko_pinv _ Hk) as [own Hinv].
  assert (∀ i y, ps !! i = Some y → ∃ x, procs s !! i = Some x ∧ entry_step s p c i x y) as Hbw.
  { intros i y Hy. destruct (lookup_lt_is_Some_2 (procs s) i) as [x Hx]; [apply lookup_lt_Some in Hy; lia|].
    destruct (Hps i x Hx) as (y' & Hy' & ?). exists x. split; [done|]. congruence. }
  destruct (pinv_table s own ps c Hinv) as [Hinv' Hkept].
  { split; [done|]. intros i x Hx. destruct (Hps i x Hx) as (y & Hy & [Hh _ _ _ _ _ _]). by exists y. }
  { intros i Hi. apply lookup_lt_is_Some_2. by apply Hc. }
  destruct (ko_init _ Hk) as (ip & xi & Eip & Hxi & Hai & Hpi).
  split; [split|split].
  - by exists own.
  - intros i e q y Hi Hu He Hy. destruct (Hbw q y Hy) as (x & Hx & [Hh _ _ _ _ _ _]). destruct Hh as (_ & _ & -> & _).
    by apply (ko_low _ Hk i e q x).
  - intros i y Hy Hu. destruct (Hbw i y Hy) as (x & Hx & [Hh Hm _ _ _ _ _]). destruct Hh as (_ & _ & _ & Hst).
    assert (p_state x ≠ UNUSED) as Hux by (intros E; by apply Hu, Hst). apply Hm; [done|]. by apply (ko_mlfq _ Hk i x).
  - intros i y q Hy Hu Hp. destruct (Hbw i y Hy) as (x & Hx & [Hh _ Hpar _ _ _ _]). destruct Hh as (_ & _ & _ & Hst).
    assert (p_state x ≠ UNUSED) as Hux by (intros E; by apply Hu, Hst).
    assert (∀ j w, (j ≠ p ∨ initproc s = Some j) → procs s !! j = Some w → alive w → ∃ w', ps !! j = Some w' ∧ alive w') as Hsome.
    { intros j w Hj Hw Haw. destruct (Hps j w Hw) as (w' & ? & [_ _ _ _ Hal _ _]). exists w'. auto. }
    destruct Hpar as [Heq|[Heq Hch]].
    + destruct (ko_parent _ Hk i x q Hx Hux) as (? & w & Hw & Haw); [congruence|]. split; [done|].
      destruct (decide (q = p)) as [->|Hne]; [|eapply Hsome; eauto].
      destruct (Hps p w Hw) as (w' & Hw' & _). exists w'. split; [done|].
      destruct (Hself w' Hw') as [?|Hno]; [done|]. by destruct (Hno i y Hy Hu).
    + assert (q = ip) as -> by congruence. split; [|eapply Hsome; eauto]. intros ->. congruence.
  - destruct (Hps ip xi Hxi) as (y & Hy & [_ _ Hpar _ Hal _ _]). exists ip, y. split_and!; [done|done|auto|].
    destruct Hpar as [?|[_ ?]]; congruence.
  - intros i y Hy. destruct (Hbw i y Hy) as (x & Hx & [_ _ _ Hr _ _ _]). exact Hr.
  - done.
  - intros q x Hq Hx Ha. destruct (Hps q x Hx) as (y & Hy & [_ _ _ _ Hal Hpr _]).
    split; [exists y; split_and!; auto| |done]. intros v Hvv. apply (proj2 Hkept q (p_pagetable x)); [|done].
    eapply used_live; [done..|apply Ha].
  - intros x Hx Hu. destruct (Hps p x Hx) as (y & Hy & [Hh _ _ _ _ _ _]). destruct Hh as (E1 & E2 & _ & E3).
    exists y. split; [done|]. split_and!; [by rewrite E3|done|done].
  - intros q y Hq Hy Hs. destruct (Hbw q y Hy) as (x & Hx & [_ _ _ _ _ _ Has]). exists x. split; [done|]. by apply Has.
Qed.

(** ** Operations *)
Lemma safe_at_copyout p s x dst src :
  kernel_ok s → cur s = Some p → procs s !! p = Some x → p_state x = RUNNING → 0 ≤ dst →
  safe_at p s (copyout (p_pagetable x) dst src) (λ _ s', cur s' = Some p ∧ same_procs s s').
Proof.
  intros Hk Hc Hx Hst Hd. destruct (ko_pinv _ Hk) as [own Hinv]. assert (p_state x ≠ UNUSED) as Hu by congruence.
  destruct (proj2 (proj2 Hinv)) as [_ _ Hus _ _]. destruct (Hus p x Hx Hu) as [Hr _].
  assert (running s p (p_pagetable x) (p_sz x)) as Hrun by (split; [done|]; by exists x).
  destruct (copyout_loop_any (length src) s own p (p_pagetable x) (p_sz x) dst src) as
    (r & s' & own' & E & Hinv' & Hps & Hc' & Hpin & Hl & Hv); [done..|].
  destruct (ok_same s own s' own' p) as [Hk' Hi]; try done.
  { by apply (keeps_copyout_loop same_init (λ _, True)) in E. }
  left. exists r, s'. split_and!; [done|done|done|congruence|done].
Qed.

(** The table after a fork: all processes are as before, and there may be a
    child. *)
Lemma fork_table s own p x :
  pinv s own → cur s = Some p → procs s !! p = Some x → p_state x ≠ UNUSED →
  ∃ r s' own', kfork s = Ok (r, s') ∧ pinv s' own' ∧ kept s s' ∧ cur s' = cur s ∧ pinned s own s' own' ∧ (swap_low s → swap_low s') ∧
    (∀ q z, procs s !! q = Some z → p_state z ≠ UNUSED → ∃ z', procs s' !! q = Some z' ∧ core z' = core z) ∧
    (∀ i y, procs s' !! i = Some y → p_state y ≠ UNUSED →
      (∃ z, procs s !! i = Some z ∧ p_state z ≠ UNUSED ∧ core y = core z) ∨
      p_state y = RUNNABLE ∧ p_parent y = Some p ∧ i ≠ p ∧ mlfq_ok y).
Proof.
  intros Hinv Hc Hx Hst. destruct (kfork_ok s own p x Hinv Hc Hx Hst) as (r & s' & own' & E & Hinv' & Hkept & Hc' & Hpin & Hlow & Hcase).
  assert (∀ q z, procs s !! q = Some z → p_state z ≠ UNUSED → ∃ z', procs s' !! q = Some z' ∧ core z' = core z) as Hfw.
  { intros q z Hz Hzu. destruct Hcase as [(_ & _ & Hun)|(_ & np & y & [(w & Hw & Hwu) _ _ _ _ _ _ Ho])]; [auto|].
    apply Ho; [|done]. congruence. }
  exists r, s', own'. split_and!; try done. intros i y Hy Hu.
  destruct Hcase as [(_ & Hown & _)|(_ & np & w & [(w0 & Hw0 & Hwu) Hw Hws _ _ Hsch Hlen Ho])].
  - left. destruct Hinv' as (_ & _ & Hpok'), Hinv as (Hv & _ & Hpok). destruct (pk_used _ _ Hpok' i y Hy Hu) as [_ Ht].
    pose proof (proj1 (pk_holds _ _ Hpok' i y Hy) Ht) as Hpn. rewrite Hown in Hpn.
    destruct (pk_pins _ _ Hpok _ _ Hpn) as (z & Hz & Hzt). assert (p_state z ≠ UNUSED) as Hzu.
    { intros Hzu. destruct (pk_unused _ _ Hpok i z Hz Hzu) as (_ & ? & _). congruence. }
    destruct (Hfw i z Hz Hzu) as (z' & Hz' & Hcz). exists z. split_and!; [done..|congruence].
  - destruct (decide (i = np)) as [->|Hne].
    + right. assert (y = w) as -> by congruence. destruct Hws as (? & ? & _). destruct Hsch as (El & Et & Ek).
      split_and!; [done|done|congruence|]. unfold mlfq_ok. rewrite El, Et, Ek. done.
    + left. destruct (lookup_lt_is_Some_2 (procs s) i) as [z Hz]; [apply lookup_lt_Some in Hy; lia|].
      destruct (Ho i z Hne Hz) as (z' & Hz' & Hcz). assert (z' = y) as -> by congruence.
      pose proof (core_fields _ _ Hcz) as (Est & _). exists z. split_and!; [done|congruence|done].
Qed.

(** The promise to the others, when all entries that are in use stay. *)
Lemma iso_cores s own s' p :
  pinv s own → initproc s' = initproc s →
  (∀ q z, q = p ∨ alive z → procs s !! q = Some z → p_state z ≠ UNUSED → ∃ z', procs s' !! q = Some z' ∧ core z' = core z) →
  (∀ q y, procs s' !! q = Some y → p_state y = SLEEPING → ∃ z, procs s !! q = Some z ∧ core y = core z) →
  (∀ q z v, procs s !! q = Some z → alive z → live s q (p_pagetable z) → va_ok v → user_page s' q v = user_page s q v) →
  (∀ a q z, procs s !! q = Some z → alive z → own a = RPin q → rdbytes (mem s') a PGSIZE = rdbytes (mem s) a PGSIZE) →
  iso s s' p.
Proof.
  intros Hinv Hin Hfw Hbw Hv Hb. split; [done| | |].
  - intros q z Hq Hz Ha. destruct (Hfw q z (or_intror Ha) Hz (proj1 Ha)) as (z' & Hz' & Hcz). split.
    + exists z'. split_and!; [done|by eapply core_alive|by apply core_private].
    + intros v Hvv. apply (Hv q z v Hz Ha); [|done]. eapply used_live; [done..|apply Ha].
    + destruct (frame_page s own q z Hinv Hz (proj1 Ha)) as [Hpn _]. intros o Ho. eapply rdbytes_inj; [|done]. by eapply Hb.
  - intros z Hz Hzu. destruct (Hfw p z (or_introl eq_refl) Hz Hzu) as (z' & Hz' & Hcz). exists z'. split; [done|by apply core_space].
  - intros q y _ Hy Hs. destruct (Hbw q y Hy Hs) as (z & Hz & Hcz). exists z. split; [done|]. by apply core_asleep.
Qed.

Lemma safe_fork p : safe p kfork (back p (λ _, True)).
Proof.
  intros s Hk Hc. destruct (current s p Hk Hc) as (x & Hx & Hst). destruct (ko_pinv _ Hk) as [own Hinv].
  destruct (fork_table s own p x Hinv Hc Hx) as (r & s' & own' & E & Hinv' & Hkept & Hc' & Hpin & Hlow & Hfw & Hbw); [congruence|].
  pose proof (kfork_init s r s' E) as Hin. destruct (ko_init _ Hk) as (ip & xi & Eip & Hxi & Hai & Hpi).
  left. exists r, s'. split_and!; [done| | |by split; [congruence|]].
  2:{ apply (iso_cores s own s'); [done|done|auto| | |].
      - intros q y Hy Hs. destruct (Hbw q y Hy ltac:(congruence)) as [(z & Hz & _ & Hcz)|(? & _)]; [eauto|congruence].
      - intros q z v _ _ Hl Hvv. by apply (proj2 Hkept q (p_pagetable z)).
      - intros a q z _ _ Ha. by eapply Hpin. }
  split.
  - by exists own'.
  - apply Hlow, Hk.
  - intros i y Hy Hu. destruct (Hbw i y Hy Hu) as [(z & Hz & Hzu & Hcz)|?]; [|tauto].
    eapply core_mlfq; [done|]. by apply (ko_mlfq _ Hk i z).
  - intros i y q Hy Hu Hp. destruct (Hfw p x Hx ltac:(congruence)) as (x' & Hx' & Hcx').
    destruct (Hbw i y Hy Hu) as [(z & Hz & Hzu & Hcz)|(_ & ? & ? & _)]; [|split; [congruence|exists x'; split; [congruence|]]].
    2:{ eapply core_alive; [done|]. unfold alive. by rewrite Hst. }
    pose proof (core_fields _ _ Hcz) as (_ & Epa & _). destruct (ko_parent _ Hk i z q Hz Hzu) as (? & w & Hw & Ha); [congruence|].
    split; [done|]. destruct (Hfw q w Hw (proj1 Ha)) as (w' & ? & Hcw). exists w'. split; [done|by eapply core_alive].
  - destruct (Hfw ip xi Hxi (proj1 Hai)) as (y & Hy & Hcy). exists ip, y. pose proof (core_fields _ _ Hcy) as (_ & Epa & _).
    split_and!; [congruence|done|by eapply core_alive|congruence].
  - intros i y Hy. rewrite Hc'. destruct (decide (p_state y = UNUSED)) as [Hyu|Hyu].
    + rewrite Hyu. split; [done|]. intros Hci. destruct (Hfw i x) as (x' & Hx' & Hcx); [congruence..|].
      pose proof (core_fields _ _ Hcx) as (Est & _). congruence.
    + destruct (Hbw i y Hy Hyu) as [(z & Hz & Hzu & Hcz)|(Est & _ & Hne & _)].
      * pose proof (core_fields _ _ Hcz) as (-> & _). by apply (ko_run _ Hk).
      * rewrite Est. split; [done|]. congruence.
Qed.

(** The disk changes where swap does not look. *)
Lemma ok_dev s p d : kernel_ok s → quiet (swapdev s) d → kernel_ok (with_swapdev d s) ∧ iso s (with_swapdev d s) p.
Proof.
  intros Hk Hq. destruct (ko_pinv _ Hk) as (own & Hinv). pose proof Hinv as (Hv & Hcok & Hpok).
  destruct (quiet_dev s own d Hv Hq) as [Hv1 Hpg]. apply (ok_same s own _ own p); try done.
  intros q r v _ Hl Hvv. by apply (pg_views _ _ _ _ Hpg q r).
Qed.

(** Waking and adopting change the state and the parent only. *)
Lemma wake_rest c chan i x : let y := wake_proc c chan i x in
  private y = private x ∧ p_parent y = p_parent x ∧ (mlfq_ok x → mlfq_ok y) ∧ (alive x → alive y) ∧
  (p_state y = RUNNING ↔ p_state x = RUNNING) ∧ (p_state y = SLEEPING → p_state x = SLEEPING ∧ p_chan x = p_chan y).
Proof.
  unfold wake_proc. repeat case_decide; try (split_and!; done). destruct x; simpl in *. unfold alive. naive_solver.
Qed.

Lemma adopt_rest c ip p b i x : let y := adopt c ip p true b i x in
  private y = private x ∧ (mlfq_ok x → mlfq_ok y) ∧ (alive x → alive y) ∧ (p_state y = RUNNING ↔ p_state x = RUNNING) ∧
  (p_state y = SLEEPING → p_state x = SLEEPING ∧ p_chan x = p_chan y).
Proof.
  unfold adopt. set (x0 := if true && _ then _ else x).
  assert (private x0 = private x ∧ mlfq_ok x0 = mlfq_ok x ∧ alive x0 = alive x ∧ p_state x0 = p_state x ∧ p_chan x0 = p_chan x)
    as (E1 & E2 & E3 & E4 & E5).
  { unfold x0. destruct (true && _); [by destruct x|done]. }
  destruct b; [|rewrite E1, E2, E3, E4, E5; split_and!; done].
  destruct (wake_rest c (chan_of ip) i x0) as (W1 & _ & W2 & W3 & W4 & W5). rewrite E1, E2, E3, E4, E5 in *. by split_and!.
Qed.

(** The entries after an exit: of the others, and of the process itself. *)
Lemma exit_other s p q e i y :
  i ≠ p → p_state y ≠ RUNNING →
  entry_step s p None i y (wake_proc (Some p) (chan_of q) i (adopt (Some p) (initproc s) p true e i y)).
Proof.
  intros Hne Hrun. destruct (wake_rest (Some p) (chan_of q) i (adopt (Some p) (initproc s) p true e i y)) as (P1 & P2 & P3 & P4 & P5 & P6).
  destruct (adopt_rest (Some p) (initproc s) p e i y) as (Q1 & Q2 & Q3 & Q4 & Q6). destruct (adopt_ids (Some p) (initproc s) p e i y) as (_ & Q5 & _).
  split; [by eapply same_hold_trans; [apply adopt_hold|apply wake_hold]|auto| | |auto|congruence|].
  - rewrite P2, Q5. case_decide; [right|by left]. done.
  - rewrite P5, Q4. by split.
  - intros _ Hs. destruct (P6 Hs) as [Ha Ea]. destruct (Q6 Ha). split; congruence.
Qed.

Definition exited s (p : nat) (q : option nat) (e : bool) (status : Z) (x : proc) : proc :=
  set_p_state ZOMBIE (set_p_xstate status (wake_proc (Some p) (chan_of q) p (adopt (Some p) (initproc s) p true e p (closed_proc x)))).

Lemma exit_self s p q e status x :
  p_parent x ≠ Some p → initproc s ≠ Some p → p_state x ≠ UNUSED →
  p_parent (exited s p q e status x) = p_parent x ∧ entry_step s p None p x (exited s p q e status x).
Proof.
  intros Hpar Hip Hu. set (x2 := adopt (Some p) (initproc s) p true e p (closed_proc x)).
  destruct (wake_rest (Some p) (chan_of q) p x2) as (_ & Wp & Wm & _ & _).
  destruct (adopt_rest (Some p) (initproc s) p e p (closed_proc x)) as (_ & Am & _ & _).
  destruct (adopt_ids (Some p) (initproc s) p e p (closed_proc x)) as (_ & Ap & _). fold x2 in Am, Ap.
  assert (p_parent (exited s p q e status x) = p_parent x) as Hpx.
  { change (p_parent (wake_proc (Some p) (chan_of q) p x2) = p_parent x). rewrite Wp, Ap. rewrite decide_False; [by destruct x|].
    intros Hch. apply Hpar. by destruct x. }
  assert (same_hold x (wake_proc (Some p) (chan_of q) p x2)) as (A1 & A2 & A3 & _).
  { eapply same_hold_trans; [|apply wake_hold]. eapply same_hold_trans; [|apply adopt_hold]. by destruct x. }
  split; [done|]. split; [|intros _ Hm|by left|done|by intros [?|?]|done|done].
  - split_and!; [exact A1|exact A2|exact A3|]. by split.
  - apply Wm, Am. by destruct x.
Qed.

Lemma safe_exit p status : safe p (kexit status) (λ _, left_as p ended).
Proof.
  intros s Hk Hc. destruct (current s p Hk Hc) as (x & Hx & Hst). destruct (ko_pinv _ Hk) as (own & Hinv).
  pose proof Hinv as (Hv & Hcok & Hpok). destruct (decide (initproc s = Some p)) as [Hip|Hip].
  { right. split; [done|]. unfold kexit. rewrite (bind_ok _ _ _ (Some p) s) by (unfold gets; by rewrite Hc).
    rewrite (bind_ok _ _ _ p s) by done. rewrite (bind_ok _ _ _ (Some p) s) by (unfold gets; by rewrite Hip). by rewrite decide_True. }
  left. assert (p_parent x ≠ Some p) as Hpar by (intros Hp; destruct (ko_parent _ Hk p x p Hx); congruence).
  destruct (kexit_run s p x status (vi_dev _ _ Hv) Hc Hx Hip Hpar) as (d & Hq & E).
  destruct (ok_dev s p d Hk Hq) as [Hk1 Hi1]. set (s1 := with_swapdev d s) in *.
  set (e := bool_decide (Exists (child p) (procs s))). set (ps := exit_table s p (p_parent x) status) in *.
  assert (∀ q y, q ≠ p → procs s !! q = Some y →
    ps !! q = Some (wake_proc (Some p) (chan_of (p_parent x)) q (adopt (Some p) (initproc s) p true e q y))) as Hoth.
  { intros q y Hne Hy. unfold ps, exit_table. rewrite list_lookup_alter_ne, !list_lookup_imap, list_lookup_alter_ne, Hy by done. done. }
  assert (ps !! p = Some (exited s1 p (p_parent x) e status x)) as Hp.
  { unfold ps, exit_table. by rewrite list_lookup_alter_eq, !list_lookup_imap, list_lookup_alter_eq, Hx. }
  destruct (exit_self s1 p (p_parent x) e status x Hpar Hip) as [Hpx Hself]; [congruence|].
  destruct (ok_table s1 p None ps Hk1) as [Hk2 Hi2].
  - unfold ps, exit_table. rewrite length_alter, !length_imap. by rewrite length_alter.
  - intros i y Hy. change (procs s !! i = Some y) in Hy. destruct (decide (i = p)) as [->|Hne].
    + assert (y = x) as -> by congruence. by eexists.
    + eexists. split; [by apply Hoth|]. apply (exit_other s1); [done|]. intros Hr. apply (ko_run _ Hk i y Hy) in Hr. congruence.
  - done.
  - intros y Hy. right. intros j z Hz Hzu Hzp. destruct (decide (j = p)) as [->|Hne]; [rewrite Hp in Hz; congruence|].
    assert (is_Some (procs s !! j)) as [z0 Hz0].
    { apply lookup_lt_is_Some_2. apply lookup_lt_Some in Hz. unfold ps, exit_table in Hz.
      by rewrite length_alter, !length_imap, length_alter in Hz. }
    rewrite (Hoth j z0 Hne Hz0) in Hz. injection Hz as <-. rewrite wake_parent in Hzp.
    destruct (adopt_ids (Some p) (initproc s) p e j z0) as (_ & Q5 & _). rewrite Q5 in Hzp. case_decide as Hch; [congruence|done].
  - exists tt, (with_cur None (with_procs ps s1)). split_and!; [done|done|by eapply iso_trans|]. split; [done|]. by eexists.
Qed.

(** A zombie child is released. *)
Lemma safe_at_freeproc p s pp y :
  kernel_ok s → cur s = Some p → procs s !! pp = Some y → p_state y = ZOMBIE →
  safe_at p s (freeproc pp) (back p (λ _, True)).
Proof.
  intros Hk Hc Hy Hz. destruct (ko_pinv _ Hk) as (own & Hinv). destruct (ko_init _ Hk) as (ip & xi & Eip & Hxi & Hai & Hpi).
  destruct (freeproc_pinv s own pp y Hinv Hy) as (s' & own' & E & Hinv' & _ & Hex & Hps & Hc' & Hpin).
  assert (initproc s' = initproc s) as Hin by (by apply (keeps_freeproc same_init (λ _, True)) in E).
  assert (sub_entries s s') as Hsub by exact (keeps_freeproc sub_entries _ pp s _ s' E).
  assert (∀ i z, i ≠ pp → procs s !! i = Some z → ∃ z', procs s' !! i = Some z' ∧ core z' = core z) as Hfw.
  { intros i z Hi Hzi. apply (f_equal (.!! i)) in Hps. rewrite !list_lookup_fmap, list_lookup_alter_ne, Hzi in Hps by done.
    apply fmap_Some in Hps as (z' & ? & ?). by exists z'. }
  assert (∀ i z', procs s' !! i = Some z' → p_state z' ≠ UNUSED → i ≠ pp ∧ ∃ z, procs s !! i = Some z ∧ core z' = core z) as Hbw.
  { intros i z' Hzi Hzu. apply (f_equal (.!! i)) in Hps. rewrite !list_lookup_fmap, Hzi in Hps. simpl in Hps. symmetry in Hps.
    apply fmap_Some in Hps as (z & Hzz & Hcz). destruct (decide (i = pp)) as [->|Hne].
    - rewrite list_lookup_alter_eq, Hy in Hzz. injection Hzz as <-. destruct Hzu. pose proof (core_fields _ _ Hcz) as (-> & _). by destruct y.
    - rewrite list_lookup_alter_ne in Hzz by done. eauto. }
  assert (∀ i z, procs s !! i = Some z → alive z → i ≠ pp) as Hne by (intros i z Hzi [_ Ha] ->; congruence).
  left. exists tt, s'. split_and!; [done| | |by split; [congruence|]].
  - split.
    + by exists own'.
    + eapply (swap_low_table s own); [done|done|apply Hk|by left; apply Hsub|]. intros i z z' Hzi _ Hzi' Hzu.
      destruct (Hbw i z' Hzi' Hzu) as (_ & z0 & Hz0 & Hcz). pose proof (f_equal p_sz Hcz) as Hsz. simpl in Hsz. congruence.
    + intros i z' Hzi Hzu. destruct (Hbw i z' Hzi Hzu) as (_ & z & Hzz & Hcz). pose proof (core_fields _ _ Hcz) as (Est & _).
      eapply core_mlfq; [done|]. apply (ko_mlfq _ Hk i z Hzz). congruence.
    + intros i z' q Hzi Hzu Hp. destruct (Hbw i z' Hzi Hzu) as (_ & z & Hzz & Hcz). pose proof (core_fields _ _ Hcz) as (Est & Epa & _).
      destruct (ko_parent _ Hk i z q Hzz) as (? & w & Hw & Ha); [congruence..|]. split; [done|].
      destruct (Hfw q w (Hne q w Hw Ha) Hw) as (w' & ? & Hcw). exists w'. split; [done|by eapply core_alive].
    + destruct (Hfw ip xi (Hne ip xi Hxi Hai) Hxi) as (z & ? & Hcz). exists ip, z. pose proof (core_fields _ _ Hcz) as (_ & Epa & _).
      split_and!; [congruence|done|by eapply core_alive|congruence].
    + intros i z' Hzi. rewrite Hc'. destruct (decide (p_state z' = UNUSED)) as [Hu|Hu].
      * rewrite Hu. split; [done|]. intros Hci. destruct (current s i Hk Hci) as (w & Hw & Hws).
        destruct (Hfw i w) as (w' & Hw' & Hcw); [apply (Hne i w Hw); unfold alive; by rewrite Hws|done|].
        pose proof (core_fields _ _ Hcw) as (Est & _). congruence.
      * destruct (Hbw i z' Hzi Hu) as (_ & z & Hzz & Hcz). pose proof (core_fields _ _ Hcz) as (-> & _). by apply (ko_run _ Hk).
  - apply (iso_cores s own s'); [done|done| | | |].
    + intros q z Hq Hzq Hzu. apply Hfw; [|done]. destruct Hq as [->|Ha]; [|by eapply Hne]. apply (Hne p z Hzq).
      destruct (current s p Hk Hc) as (w & Hw & Hws). unfold alive. simplify_eq. by rewrite Hws.
    + intros q z' Hz' Hs. destruct (Hbw q z' Hz') as (_ & z & Hzz & Hcz); [congruence|eauto].
    + intros q z v Hzq Ha Hl Hvv. apply (Hex q (p_pagetable z)); [done|done|by eapply Hne].
    + intros a q z Hzq Ha Hown. apply (Hpin _ q); [by eapply Hne|done].
Qed.

(** The sleep of a process. *)
Lemma safe_sleep p chan : safe p (sleep chan) (λ _, left_as p (asleep chan)).
Proof.
  intros s Hk Hc. destruct (current s p Hk Hc) as (x & Hx & Hst).
  set (ps := alter (λ x, set_p_state SLEEPING (set_p_chan chan x)) p (procs s)).
  assert (sleep chan s = Ok (tt, with_cur None (with_procs ps s))) as E.
  { unfold sleep. rewrite (bind_ok _ _ _ (Some p) s) by (unfold gets; by rewrite Hc). rewrite (bind_ok _ _ _ p s) by done.
    rewrite upd_upd. by rewrite (bind_ok _ _ _ _ _ (upd_proc_run _ _ _)). }
  destruct (ok_table s p None ps Hk) as [Hk' Hi].
  - apply length_alter.
  - intros i y Hy. unfold ps. destruct (decide (i = p)) as [->|Hne].
    + assert (y = x) as -> by congruence. rewrite list_lookup_alter_eq, Hx. eexists. split; [reflexivity|].
      split; [split_and!; [done..|]; split; [done|congruence]|by destruct x|left; by destruct x|done|by intros _ _|done|done].
    + rewrite list_lookup_alter_ne by done. exists y. split; [done|].
      split; [apply same_hold_refl|done|by left| |done|done|done]. split; [|done]. intros Hr. apply (ko_run _ Hk i y Hy) in Hr. congruence.
  - done.
  - intros y. unfold ps. rewrite list_lookup_alter_eq, Hx. intros [= <-]. left. done.
  - left. exists tt, (with_cur None (with_procs ps s)). split_and!; [done|done|done|]. split; [done|].
    eexists. split; [unfold ps; simpl; by rewrite list_lookup_alter_eq, Hx|]. by destruct x.
Qed.

(** Looking for a zombie child, with any address for its status. *)
Lemma safe_at_reap p s x pp y addr :
  kernel_ok s → cur s = Some p → procs s !! p = Some x → p_state x = RUNNING → procs s !! pp = Some y → p_state y = ZOMBIE → 0 ≤ addr →
  safe_at p s (let* r := if decide (addr ≠ 0) then copyout (p_pagetable x) addr (le_bytes 4 (p_xstate y)) else ret 0 in
    if decide (r < 0) then ret (inl (-1)) else freeproc pp ;;; ret (inl (p_pid y))) (back p (λ r : Z + bool, ∃ v, r = inl v)).
Proof.
  intros Hk Hc Hx Hst Hy Hz Ha. apply (safe_at_seq _ _ _ _ (λ _ s', cur s' = Some p ∧ same_procs s s')).
  { case_decide; [by apply safe_at_copyout|by apply safe_at_ret]. }
  intros r s1 Hk1 _ [Hc1 Hps]. case_decide; [apply safe_at_ret; [done|]; split; [done|by eexists]|].
  destruct (same_procs_lookup _ _ _ _ Hps Hy) as (y1 & Hy1 & Hcy). pose proof (core_fields _ _ Hcy) as (Est & _).
  eapply safe_at_bind; [eapply (safe_at_freeproc p s1 pp y1); [done..|congruence]|].
  intros _ _. apply safe_ret. intros s2 Hc2. split; [done|by eexists].
Qed.

Lemma safe_wait p addr : 0 ≤ addr → safe p (kwait addr) (handled p (asleep (chan_proc p))).
Proof.
  intros Ha s Hk Hc. destruct (current s p Hk Hc) as (x & Hx & Hst).
  unfold kwait. eapply safe_at_read; [unfold gets; rewrite Hc; reflexivity|]. eapply safe_at_read; [reflexivity|].
  eapply safe_at_read; [reflexivity|]. destruct (list_find (zombie p) (procs s)) as [[pp y]|] eqn:Ef.
  - destruct (list_find_seq s p pp y Ef) as (l1 & l2 & -> & Hl1 & Hy & Hz).
    eapply (safe_at_bind _ _ _ _ (λ r : Z + bool, ∃ v, r = inl v)); [|intros r [pid ->]; by apply safe_ret].
    unfold safe_at. rewrite (kwait_scan_skip s p addr l1 pp y l2 false x Hl1 Hy Hz Hx). eapply safe_at_reap; [done..|apply Hz|done].
  - destruct (kwait_scan_none s p addr (seq 0 (length (procs s))) false) as (b & E & _).
    { intros i Hi%elem_of_seq. destruct (lookup_lt_is_Some_2 (procs s) i) as [z Hzi]; [lia|]. exists z. split; [done|].
      apply list_find_None in Ef. by eapply Forall_lookup_1 in Ef. }
    eapply safe_at_read; [exact E|]. eapply safe_at_read; [by apply get_proc_ok|].
    destruct (negb b || _); [by apply safe_at_ret|]. eapply safe_at_seq; [by apply safe_sleep|].
    intros u s1 Hk1 _ Hc1. by apply safe_at_ret.
Qed.
End safety.
