(* ===== verification/SafeSys.v ===== *)
(** * System calls against any user program

    Every handler of sysproc.c and the dispatcher satisfy the triple of
    [Safety]: whatever the registers and the memory of the caller hold, the
    call returns or puts the caller to sleep, keeps the invariant of the
    kernel and leaves all other processes alone. *)
From S2P Require Import Prelude Interfaces Raid DiskQueue Bio Mem KState Kmem PageTable Frames Paging Vm Fault Boot.
From S2P Require Import Spaces Fork Teardown Sched Proc Keeps ProcMem ProcTable UserCopy Kfork Reap ProcBoot Grow Syscalls SysOk Safety.
Local Open Scope Z_scope.

(** What the disk promises the calls that configure and measure it: they
    return, and swap does not notice. *)
Class DiskCtlSpec `{BlockParams} (D : Type) `{!SwapDev D} `{!SwapDevSpec D} `{!DiskCtl D} := {
  ctl_policy_quiet policy d : dev_inv d → ∃ d', ctl_disk_policy policy d = Ok (tt, d') ∧ quiet d d';
  ctl_latency_quiet d : dev_inv d → ∃ v d', ctl_latency d = Ok (v, d') ∧ quiet d d';
}.

Section entries.
Context `{Sv39} `{!ProcEnv} `{!Chans} {D : Type} `{!SwapDev D} `{!SwapDevSpec D} `{!FileEnv D} `{!FileEnvSpec D}.
Implicit Types s : kernel D.

(** Process [p] runs, or the CPU is idle and [p] is no process. *)
Definition who (p : nat) s : Prop := cur s = Some p ∨ cur s = None ∧ (length (procs s) ≤ p)%nat.

Lemma running_alive s p x : kernel_ok s → cur s = Some p → procs s !! p = Some x → alive x.
Proof. intros Hk Hc Hx. destruct (current s p Hk Hc) as (y & Hy & Hst). unfold alive. simplify_eq. by rewrite Hst. Qed.

Lemma who_alive p s x : kernel_ok s → who p s → procs s !! p = Some x → alive x.
Proof.
  intros Hk [Hc|[_ Hl]] Hx; [by eapply running_alive|]. apply lookup_lt_Some in Hx. lia.
Qed.

(** Nobody else runs. *)
Lemma who_runs p s i x : kernel_ok s → who p s → procs s !! i = Some x → i ≠ p → p_state x ≠ RUNNING.
Proof.
  intros Hk Hw Hx Hne Hr. apply (ko_run _ Hk i x Hx) in Hr. destruct Hw as [Hc|[Hc _]]; congruence.
Qed.

(** ** Updates of all entries, or of one *)
Lemma ok_entries s p c g :
  kernel_ok s → who p s →
  (∀ i x, procs s !! i = Some x → entry_step s p c i x (g i x) ∧ (alive x → alive (g i x))) →
  (∀ i, c = Some i → is_Some (procs s !! i)) →
  let s' := with_cur c (with_procs (imap g (procs s)) s) in kernel_ok s' ∧ iso s s' p.
Proof.
  intros Hk Hw Hg Hc. apply ok_table; [done|apply length_imap| | |].
  - intros i x Hx. exists (g i x). rewrite list_lookup_imap, Hx. split; [done|]. by apply Hg.
  - intros i Hi. rewrite length_imap. destruct (Hc i Hi) as [x Hx]. by apply lookup_lt_Some in Hx.
  - intros y Hy. left. rewrite list_lookup_imap in Hy. apply fmap_Some in Hy as (x & Hx & ->). apply Hg; [done|]. by eapply who_alive.
Qed.

(** An entry that keeps the fields other processes rely on. *)
Record harmless (x y : proc) : Prop := {
  hl_private : private y = private x;
  hl_parent : p_parent y = p_parent x;
  hl_mlfq : p_state x ≠ UNUSED → mlfq_ok x → mlfq_ok y;
  hl_unused : p_state y = UNUSED ↔ p_state x = UNUSED;
  hl_zombie : p_state y = ZOMBIE ↔ p_state x = ZOMBIE;
  hl_asleep : p_state x ≠ RUNNING → p_state y = SLEEPING → p_state x = SLEEPING ∧ p_chan x = p_chan y;
}.

Lemma harmless_refl x : harmless x x.
Proof. by split. Qed.

Lemma harmless_step s p c i x y :
  kernel_ok s → who p s → procs s !! i = Some x → harmless x y → (p_state y = RUNNING ↔ c = Some i) →
  entry_step s p c i x y ∧ (alive x → alive y).
Proof.
  intros Hk Hw Hx [Hpr Hpa Hm Hu Hz Has] Hr. assert (alive x → alive y) as Ha by (unfold alive; tauto). split; [|done].
  assert (same_hold x y) as Hh by (unfold private in Hpr; split_and!; congruence || tauto).
  split; auto. intros Hne. apply Has. by eapply who_runs.
Qed.

Lemma alter_imap (l : list proc) p f : alter f p l = imap (λ i x, if decide (i = p) then f x else x) l.
Proof.
  apply list_eq. intros i. rewrite list_lookup_imap. destruct (decide (i = p)) as [->|Hne].
  - by rewrite list_lookup_alter_eq.
  - rewrite list_lookup_alter_ne by done. by destruct (l !! i).
Qed.

Lemma cur_slot s p : kernel_ok s → cur s = Some p → is_Some (procs s !! p).
Proof. intros Hk Hc. destruct (current s p Hk Hc) as (x & Hx & _). by exists x. Qed.

(** All entries change, the same process runs. *)
Lemma ok_all s p g :
  kernel_ok s → who p s →
  (∀ i x, procs s !! i = Some x → harmless x (g i x) ∧ (p_state (g i x) = RUNNING ↔ p_state x = RUNNING)) →
  let s' := with_procs (imap g (procs s)) s in kernel_ok s' ∧ iso s s' p.
Proof.
  intros Hk Hw Hg. destruct (ok_entries s p (cur s) g Hk Hw) as [Hk' Hi].
  - intros i x Hx. destruct (Hg i x Hx) as [Hh Hr]. apply harmless_step; [done..|]. rewrite Hr. by apply (ko_run _ Hk).
  - intros i Hi. by apply cur_slot.
  - destruct s. done.
Qed.

(** One entry changes. *)
Lemma ok_one s p q f :
  kernel_ok s → who p s →
  (∀ x, procs s !! q = Some x → harmless x (f x) ∧ (p_state (f x) = RUNNING ↔ p_state x = RUNNING)) →
  let s' := with_procs (alter f q (procs s)) s in kernel_ok s' ∧ iso s s' p.
Proof.
  intros Hk Hp Hf. rewrite alter_imap. apply ok_all; [done..|]. intros i x Hx.
  case_decide; [subst; auto|split; [apply harmless_refl|done]].
Qed.

Lemma safe_upd p f :
  (∀ x, p_state x = RUNNING → harmless x (f x) ∧ p_state (f x) = RUNNING) → safe p (upd_proc p f) (back p (λ _, True)).
Proof.
  intros Hf s Hk Hc. left. destruct (ok_one s p p f Hk) as [Hk' Hi]; [by left| |].
  { intros x Hx. destruct (current s p Hk Hc) as (y & Hy & Hst). simplify_eq. destruct (Hf x Hst) as [Hh Hr]. by rewrite Hr, Hst. }
  eexists tt, _. by split_and!; [apply upd_proc_run|..].
Qed.

Lemma harmless_killed x : harmless x (set_p_killed 1 x).
Proof. by split; destruct x. Qed.

Lemma safe_setkilled p : safe p (setkilled p) (back p (λ _, True)).
Proof. apply safe_upd. intros x Hx. split; [apply harmless_killed|by destruct x]. Qed.

(** Waking one of the sleepers, killed or not. *)
Lemma harmless_wake x : p_state x = SLEEPING → harmless x (set_p_state RUNNABLE x).
Proof. intros Hs. split; destruct x; simpl in *; try done; by subst. Qed.

Lemma harmless_trans x y z : harmless x y → harmless y z → p_state y ≠ RUNNING → harmless x z.
Proof.
  intros [A1 A2 A3 A4 A5 A6] [B1 B2 B3 B4 B5 B6] Hr. split; [congruence|congruence| |tauto|tauto|].
  - intros Hu Hm. apply B3; [|auto]. tauto.
  - intros Hx Hs. destruct (B6 Hr Hs) as [Hy E]. destruct (A6 Hx Hy). split; congruence.
Qed.

Lemma safe_kill p pid : safe p (kkill pid) (back p (λ _, True)).
Proof.
  unfold kkill. intros s Hk Hc. eapply safe_at_read; [done|]. destruct (list_find _ (procs s)) as [[q x]|] eqn:Ef; [|by apply safe_at_ret].
  apply list_find_Some in Ef as (Hx & _ & _).
  set (f := λ x, if decide (p_state x = SLEEPING) then set_p_state RUNNABLE (set_p_killed 1 x) else set_p_killed 1 x).
  assert ((upd_proc q (set_p_killed 1) ;;; (if decide (p_state x = SLEEPING) then upd_proc q (set_p_state RUNNABLE) else ret tt) ;;; ret 0) s =
    Ok (0, with_procs (alter f q (procs s)) s)) as E.
  { rewrite (bind_ok _ _ _ _ _ (upd_proc_run _ _ _)). destruct (decide (p_state x = SLEEPING)) as [Hs|Hs].
    - rewrite (bind_ok _ _ _ _ _ (upd_proc_run _ _ _)). rewrite procs_with, alter_alter. unfold ret.
      rewrite (alter_as (procs s) q x _ f); [done|done|]. unfold f. by rewrite decide_True.
    - unfold bind, ret. rewrite (alter_as (procs s) q x _ f); [done|done|]. unfold f. by rewrite decide_False. }
  left. destruct (ok_one s p q f Hk) as [Hk' Hi]; [by left| |].
  - intros y Hy. unfold f. destruct (decide (p_state y = SLEEPING)) as [Hs|Hs].
    + split; [|rewrite Hs; by destruct y]. eapply harmless_trans; [apply harmless_killed|apply harmless_wake; by destruct y|]. destruct y; simpl in *; congruence.
    + split; [apply harmless_killed|by destruct y].
  - by eexists 0, _; split_and!.
Qed.
End entries.

Section calls.
Context `{Sv39} `{!ProcEnv} `{!Chans} {D : Type} `{!SwapDev D} `{!SwapDevSpec D} `{!FileEnv D} `{!FileEnvSpec D}.
Context `{!DiskCtl D} `{!DiskCtlSpec D} `{!SysEnv D}.
Implicit Types s : kernel D.

(** ** Arguments and results *)
Lemma safe_argraw {B} p n (k : Z → M (kernel D) B) Q :
  0 ≤ n ≤ 5 → (∀ v, 0 ≤ v < 2 ^ 64 → safe p (k v) Q) → safe p (let* v := argraw n in k v) Q.
Proof.
  intros Hn Hk. apply (safe_read _ _ _ (λ v, 0 ≤ v < 2 ^ 64)); [|done]. intros s Hok Hc.
  destruct (current s p Hok Hc) as (x & Hx & Hst). destruct (ko_pinv _ Hok) as [own Hinv].
  eexists. split; [apply (argraw_ok s own p x n); [done|done|done|by rewrite Hst|done]|]. apply rd64_range.
Qed.

Lemma safe_argint {B} p n (k : Z → M (kernel D) B) Q :
  0 ≤ n ≤ 5 → (∀ v, - 2 ^ 31 ≤ v < 2 ^ 31 → safe p (k v) Q) → safe p (let* v := argint n in k v) Q.
Proof.
  intros Hn Hk. unfold argint. intros s Hok Hc. unfold safe_at. rewrite !bind_assoc. revert s Hok Hc.
  change (safe p (let* v := argraw n in let* w := ret (i32 v) in k w) Q). apply safe_argraw; [done|]. intros v _.
  intros s Hok Hc. unfold safe_at. rewrite !bind_ret_l. apply Hk; [apply i32_range|done..].
Qed.

Lemma safe_done p P v : safe p (done_with (D := D) v) (handled p P).
Proof. apply safe_ret. intros s Hc. exact Hc. Qed.

(** A handler, and what is done with its result. *)
Lemma safe_handled {A B} p P (m : M (kernel D) (option A)) (k : option A → M (kernel D) B) Q :
  safe p m (handled p P) → (∀ v, safe p (k (Some v)) Q) →
  (∀ s, kernel_ok s → left_as p P s → safe_at p s (k None) Q) → safe p (bind m k) Q.
Proof.
  intros Hm Hs Hn s Hk Hc. eapply safe_at_seq; [by apply Hm|]. intros o s1 Hk1 _ Ho. destruct o; [by apply Hs|by apply Hn].
Qed.

(** A word of the trapframe is set. *)
Lemma ok_set_reg p s y o v :
  kernel_ok s → procs s !! p = Some y → p_state y ≠ UNUSED → 0 ≤ o ≤ TRAPFRAME_SIZE - 8 →
  let s' := with_mem (wr64 (mem s) (p_trapframe y + o) v) s in
  store64 (p_trapframe y + o) v s = Ok (tt, s') ∧ kernel_ok s' ∧ iso s s' p.
Proof.
  intros Hk Hx Hu Ho s'. destruct (ko_pinv _ Hk) as [own Hinv].
  destruct (set_reg_ok s own p y o v Hinv Hx Hu Ho) as (E & Hinv' & Hkept). fold s' in E, Hinv', Hkept. split; [exact E|].
  destruct (frame_page s own p y Hinv Hx Hu) as [Hpin _].
  destruct (write_pin_ok s own (p_trapframe y) p (mem s') (proj1 Hinv) Hpin) as (_ & _ & Hb).
  { pose proof PGSIZE_4096. unfold TRAPFRAME_SIZE in Ho. apply only_page_wr64; lia. }
  apply (ok_core s own s' own p); try done.
  - by apply same_core.
  - intros a q Hq Ha. apply (Hb a q); [|done]. intros ->. congruence.
  - apply Hk.
  - intros q r w _ Hl Hw. by apply (proj2 Hkept q r).
Qed.

(** The process whose entry was [x] runs, with the same trapframe. *)
Definition at_frame (p : nat) (x : proc) s : Prop :=
  kernel_ok s ∧ cur s = Some p ∧ ∃ y, procs s !! p = Some y ∧ same_space x y.

Lemma safe_set_frame {B} p x o v (k : unit → M (kernel D) B) Q :
  0 ≤ o ≤ TRAPFRAME_SIZE - 8 → (∀ s, at_frame p x s → safe_at p s (k tt) Q) →
  ∀ s, at_frame p x s → safe_at p s (bind (store64 (p_trapframe x + o) v) k) Q.
Proof.
  intros Ho Hnext s (Hk & Hc & y & Hy & Hsp). pose proof Hsp as (Hu & <- & _).
  destruct (ok_set_reg p s y o v Hk Hy Hu Ho) as [E Hok]. eapply safe_at_step; [exact E|exact Hok|].
  apply Hnext. split_and!; [apply Hok|done|]. by exists y.
Qed.

Lemma safe_get_frame {B} p x o (k : Z → M (kernel D) B) Q :
  0 ≤ o ≤ TRAPFRAME_SIZE - 8 → (∀ v s, at_frame p x s → safe_at p s (k v) Q) →
  ∀ s, at_frame p x s → safe_at p s (bind (load64 (p_trapframe x + o)) k) Q.
Proof.
  intros Ho Hnext s Hat. pose proof Hat as (Hk & Hc & y & Hy & (Hyu & Et & _)). destruct (ko_pinv _ Hk) as [own Hinv].
  eapply safe_at_read; [|by apply Hnext]. apply load64_ok. rewrite <- Et. by eapply frame_ram.
Qed.

(** ** Size *)
Lemma resized_table p s s' x sz :
  procs s !! p = Some x → core <$> procs s' = core <$> alter (set_p_sz sz) p (procs s) → same_table p s s'.
Proof.
  intros Hx Hps. split; [by apply (f_equal length) in Hps; rewrite !length_fmap, length_alter in Hps|].
  intros i z Hz. apply (f_equal (.!! i)) in Hps. rewrite !list_lookup_fmap in Hps. destruct (decide (i = p)) as [->|Hne].
  - rewrite list_lookup_alter_eq, Hz in Hps. apply fmap_Some in Hps as (y & Hy & Hc). exists y. split; [done|]. split; [|done].
    destruct y, z. unfold core in *. simpl in *. by simplify_eq.
  - rewrite list_lookup_alter_ne, Hz in Hps by done. apply fmap_Some in Hps as (y & Hy & Hc). exists y. split; [done|]. split; [|done].
    destruct y, z. unfold core in *. simpl in *. by simplify_eq.
Qed.

Lemma safe_at_grow p s n :
  kernel_ok s → cur s = Some p → - 2 ^ 31 ≤ n < 2 ^ 31 → safe_at p s (growproc n) (back p (λ _, True)).
Proof.
  intros Hk Hc Hn. destruct (current s p Hk Hc) as (x & Hx & Hst). destruct (ko_pinv _ Hk) as [own Hinv].
  assert (p_state x ≠ UNUSED) as Hu by by rewrite Hst. pose proof Hinv as (_ & _ & Hpok).
  destruct (pk_used _ _ Hpok p x Hx Hu) as [Hr _]. destruct (pk_holds _ _ Hpok p x Hx) as [_ Hh]. destruct (Hh Hr) as [Hsz _].
  assert (∀ r s' own' sz, growproc n s = Ok (r, s') → pinv s' own' → core <$> procs s' = core <$> alter (set_p_sz sz) p (procs s) →
    cur s' = cur s → pinned s own s' own' → swap_low s' →
    (∀ q r v, q ≠ p → live s q r → va_ok v → user_page s' q v = user_page s q v) → safe_at p s (growproc n) (back p (λ _, True))) as Hdone.
  { intros r s' own' sz E Hinv' Hps Hc' Hpin Hlow Hv. destruct (ok_core s own s' own' p) as [Hk' Hi]; try done.
    - by eapply resized_table.
    - by apply (keeps_growproc same_init (λ _, True)) in E.
    - intros a q _ Ha. by eapply Hpin.
    - left. exists r, s'. split_and!; [done..|]. split; [congruence|done]. }
  assert (alter (set_p_sz (p_sz x)) p (procs s) = procs s) as Hid by (apply (alter_same _ _ x); [done|by destruct x]).
  assert (n = 0 ∨ p_sz x + n < 0 → safe_at p s (growproc n) (back p (λ _, True))) as Hkeep.
  { intros Hcase. apply (Hdone 0 s own (p_sz x)); try done; [|by rewrite Hid|apply Hk]. apply (growproc_same s p x); [done..|lia|done]. }
  destruct (decide (0 < n)) as [Hpos|Hneg].
  { destruct (growproc_grow_ok s own p x n Hinv Hc Hx Hr (ko_low _ Hk)) as (r & s' & own' & E & Hinv' & Hkept & Hc' & Hpin & Hlow & Hcase); [lia|].
    assert (∃ sz, core <$> procs s' = core <$> alter (set_p_sz sz) p (procs s)) as [sz Hps].
    { destruct Hcase as [(_ & _ & ?)|(_ & ?)]; [by eexists|]. exists (p_sz x). by rewrite Hid. }
    apply (Hdone r s' own' sz); try done. intros q r' v _ Hl Hv. by apply (proj2 Hkept q r'). }
  destruct (decide (n < 0)) as [Hlt|Hge]; [|apply Hkeep; lia].
  destruct (decide (0 ≤ p_sz x + n)) as [Hfit|Hwrap].
  { destruct (growproc_shrink_ok s own p x n Hinv Hc Hx Hr Hlt Hfit) as (s' & own' & E & Hinv' & Hps & [Hrest _] & Hc' & Hpin & Hlow & _).
    apply (Hdone 0 s' own' (p_sz x + n)); try done; [apply Hlow, Hk|]. intros q r' v Hq Hl Hv. apply (Hrest q r'); [done|done|]. by intros [? _]. }
  apply Hkeep. lia.
Qed.

(** ** The handlers *)
Lemma safe_myself {B} p (k : proc → M (kernel D) B) Q :
  (∀ s x, kernel_ok s → cur s = Some p → procs s !! p = Some x → p_state x = RUNNING → safe_at p s (k x) Q) →
  safe p (let* q := myproc in let* x := get_proc q in k x) Q.
Proof. intros Hk. apply (safe_myproc p (λ q, let* x := get_proc q in k x)). by apply safe_self. Qed.

(** A handler that only looks at its own entry. *)
Lemma safe_own p P (f : proc → Z) : safe p (let* q := myproc in let* x := get_proc q in done_with (f x)) (handled p P).
Proof. apply safe_myself. intros s x Hk Hc _ _. by apply safe_done. Qed.

Lemma safe_sys_exit p : safe p sys_exit (handled p ended).
Proof.
  apply safe_argint; [done|]. intros n _ s Hk Hc. eapply safe_at_seq; [by apply safe_exit|].
  intros u s1 Hk1 _ Hc1. by apply safe_at_ret.
Qed.

Lemma safe_sys_fork p P : safe p sys_fork (handled p P).
Proof. eapply safe_bind; [apply safe_fork|]. intros r _. apply safe_done. Qed.

Lemma safe_sys_wait p : safe p sys_wait (handled p (asleep (chan_proc p))).
Proof.
  apply safe_argraw; [done|]. intros addr Ha. eapply safe_handled; [apply safe_wait; lia|intros v; apply safe_done|].
  intros s Hk Hc. by apply safe_at_ret.
Qed.

Lemma safe_sys_sbrk p P : safe p sys_sbrk (handled p P).
Proof.
  apply safe_argint; [done|]. intros n Hn. apply safe_argint; [done|]. intros t _. apply (safe_myproc p (λ p, let* x := get_proc p in _)).
  apply safe_self. intros s x Hk Hc Hx Hst. case_decide as Hcase.
  { eapply safe_at_bind; [by apply safe_at_grow|]. intros r _. case_decide; apply safe_done. }
  assert (0 ≤ n) as Hpos by lia. case_decide as Ho; [by apply safe_done|]. case_decide as Hb; [by apply safe_done|].
  apply (safe_at_bind _ _ _ _ (λ _, True)); [|intros _ _; apply safe_done].
  destruct (ko_pinv _ Hk) as [own Hinv]. assert (p_state x ≠ UNUSED) as Hu by by rewrite Hst. pose proof Hinv as (_ & _ & Hpok).
  destruct (pk_used _ _ Hpok p x Hx Hu) as [Hr _]. destruct (pk_holds _ _ Hpok p x Hx) as [_ Hh]. destruct (Hh Hr) as [Hsz _].
  pose proof MAXVA_range. pose proof TRAMPOLINE_top. pose proof TRAPFRAME_below. pose proof PGSIZE_4096. rewrite u64_id in Hb by lia.
  destruct (pinv_size s own p x (p_sz x + n) Hinv Hx Hr) as [Hinv' Hkept]; [lia|].
  set (s' := with_procs (alter (set_p_sz (p_sz x + n)) p (procs s)) s) in *.
  destruct (ok_core s own s' own p) as [Hk' Hi]; try done.
  - by eapply (resized_table p s s' x (p_sz x + n)).
  - apply (swap_low_resized s s' p x (p_sz x + n)); [apply Hk|by intros i e|done|done|]. intros i e _ _ _ ?.
    pose proof (PGROUNDUP_mono (p_sz x) (p_sz x + n)). lia.
  - intros q r v _ Hl Hv. by apply (proj2 Hkept q r).
  - left. exists tt, s'. split_and!; [|done|done|done]. rewrite upd_proc_run. unfold s'.
    rewrite (alter_as (procs s) p x _ (set_p_sz (p_sz x + n)) Hx); [done|]. by rewrite u64_id by lia.
Qed.

Lemma safe_pause_loop p n t0 : safe p (pause_loop n t0) (handled p (asleep chan_ticks)).
Proof.
  apply safe_gets. intros t. case_decide; [|apply safe_done]. apply (safe_myproc p (λ p, let* k := killed p in _)).
  intros s Hk Hc. destruct (current s p Hk Hc) as (x & Hx & Hst).
  apply (safe_at_read _ _ _ (p_killed x)); [unfold killed; by rewrite (bind_ok _ _ _ _ _ (get_proc_ok s p x Hx))|].
  case_decide; [by apply safe_done|]. eapply safe_at_seq; [by apply safe_sleep|]. intros u s1 Hk1 _ Hc1. by apply safe_at_ret.
Qed.

Lemma safe_sys_pause p : safe p sys_pause (handled p (asleep chan_ticks)).
Proof. apply safe_argint; [done|]. intros n _. apply safe_gets. intros t. apply safe_pause_loop. Qed.
Lemma safe_sys_sleep p : safe p sys_sleep (handled p (asleep chan_ticks)).
Proof. apply safe_argint; [done|]. intros n _. apply safe_gets. intros t. apply safe_pause_loop. Qed.
Lemma safe_sys_kill p P : safe p sys_kill (handled p P).
Proof. apply safe_argint; [done|]. intros n _. eapply safe_bind; [apply safe_kill|]. intros r _. apply safe_done. Qed.
Lemma safe_sys_uptime p P : safe p sys_uptime (handled p P).
Proof. apply safe_gets. intros t. apply safe_done. Qed.

(** The parent of a process has a slot. *)
Lemma safe_sys_getppid p P : safe p sys_getppid (handled p P).
Proof.
  apply safe_myself. intros s x Hk Hc Hx Hst. destruct (p_parent x) as [q|] eqn:Hp; [|by apply safe_done].
  destruct (ko_parent _ Hk p x q Hx) as (_ & w & Hw & _); [by rewrite Hst|done|].
  eapply safe_at_read; [by apply get_proc_ok|]. by apply safe_done.
Qed.

Lemma safe_sys_getnumchild p P : safe p sys_getnumchild (handled p P).
Proof.
  apply (safe_myproc p (λ p, let* n := getnumchild p in done_with n)).
  apply (safe_read _ _ _ (λ _, True)); [intros s _ _; by eexists|]. intros n _. apply safe_done.
Qed.

Lemma safe_sys_getchildsyscount p P : safe p sys_getchildsyscount (handled p P).
Proof.
  apply (safe_myproc p (λ p, let* pid := argint 0 in _)). apply safe_argint; [done|]. intros pid _. apply safe_gets. intros l.
  destruct (list_find _ l) as [[i x]|]; apply safe_done.
Qed.

(** A structure goes to the caller, at whatever address it gave. *)
Lemma safe_reply p P addr d : 0 ≤ addr → safe p (reply addr d) (handled p P).
Proof.
  intros Ha. apply safe_myself. intros s x Hk Hc Hx Hst.
  apply (safe_at_seq _ _ _ _ (λ _ s', cur s' = Some p ∧ same_procs s s')); [by apply safe_at_copyout|].
  intros r s1 Hk1 _ [Hc1 _]. case_decide; by apply safe_done.
Qed.

Lemma safe_sys_getmlfqinfo p P : safe p sys_getmlfqinfo (handled p P).
Proof.
  apply safe_argint; [done|]. intros pid _. apply safe_argraw; [done|]. intros addr Ha. apply safe_gets. intros l.
  destruct (list_find _ l) as [[i x]|]; [apply safe_reply; lia|apply safe_done].
Qed.
Lemma safe_sys_getvmstats p P : safe p sys_getvmstats (handled p P).
Proof.
  apply safe_argint; [done|]. intros pid _. apply safe_argraw; [done|]. intros addr Ha. apply safe_gets. intros l.
  destruct (list_find _ l) as [[i x]|]; [apply safe_reply; lia|apply safe_done].
Qed.

(** The disk is asked, or told. *)
Lemma safe_dev {A} p (m : M D A) :
  (∀ d, dev_inv d → ∃ a d', m d = Ok (a, d') ∧ quiet d d') → safe p (lift_dev m) (back p (λ _, True)).
Proof.
  intros Hm s Hk Hc. destruct (ko_pinv _ Hk) as (own & Hv & _). destruct (Hm (swapdev s) (vi_dev _ _ Hv)) as (a & d & E & Hq).
  destruct (ok_dev s p d Hk Hq) as [Hk' Hi]. left. exists a, (with_swapdev d s). split_and!; [|done|done|done].
  unfold lift_dev. by rewrite E.
Qed.

Lemma safe_sys_getdiskstats p P : safe p sys_getdiskstats (handled p P).
Proof.
  apply safe_argraw; [done|]. intros addr Ha. apply safe_gets. intros d.
  eapply safe_bind; [apply safe_dev, ctl_latency_quiet|]. intros lat _. apply safe_reply. lia.
Qed.
Lemma safe_sys_setdisksched p P : safe p sys_setdisksched (handled p P).
Proof.
  apply safe_argint; [done|]. intros policy _. case_decide; [apply safe_done|].
  eapply safe_bind; [apply safe_dev|intros _ _; apply safe_done]. intros d' Hd. exists tt. by apply ctl_policy_quiet.
Qed.

(** ** Dispatch *)
(** The calls whose code is in the repository, but for [setraidmode], which
    loses pages that are on the disk. *)
Definition own_calls : list Z := [SYS_fork; SYS_exit; SYS_wait; SYS_kill; SYS_getpid; SYS_sbrk; SYS_pause; SYS_uptime; SYS_hello;
  SYS_getpid2; SYS_getppid; SYS_getnumchild; SYS_sleep; SYS_getsyscount; SYS_getchildsyscount; SYS_getlevel; SYS_getmlfqinfo;
  SYS_getvmstats; SYS_getdiskstats; SYS_setdisksched].
Definition covered (num : Z) : Prop := num ∈ own_calls ∨ ¬ 1 ≤ num ≤ 34.

(** How a call that does not come back leaves its caller. *)
Definition parks (p : nat) (num : Z) (y : proc) : Prop :=
  if decide (num = SYS_exit) then ended y
  else if decide (num = SYS_wait) then asleep (chan_proc p) y
  else if decide (num = SYS_pause ∨ num = SYS_sleep) then asleep chan_ticks y
  else False.

Lemma safe_handler p num h : num ∈ own_calls → handler_of num = Some h → safe p h (handled p (parks p num)).
Proof.
  intros Hin Hh. unfold own_calls in Hin. repeat (apply elem_of_cons in Hin as [->|Hin]); try (injection Hh as <-).
  all: try (apply safe_sys_exit || apply safe_sys_fork || apply safe_sys_wait || apply safe_sys_kill || apply safe_sys_sbrk
    || apply safe_sys_pause || apply safe_sys_uptime || apply safe_sys_getppid || apply safe_sys_getnumchild || apply safe_sys_sleep
    || apply safe_sys_getchildsyscount || apply safe_sys_getmlfqinfo || apply safe_sys_getvmstats || apply safe_sys_getdiskstats
    || apply safe_sys_setdisksched || apply safe_own || apply safe_done).
  by apply not_elem_of_nil in Hin.
Qed.

(** The number the caller passed in [a7]. *)
Definition call_number s (x : proc) : Z := i32 (rd64 (mem s) (p_trapframe x + TF_A7)).

Lemma safe_at_syscall p s x :
  kernel_ok s → cur s = Some p → procs s !! p = Some x → covered (call_number s x) → safe_at p s syscall (handled p (parks p (call_number s x))).
Proof.
  intros Hk Hc Hx Hcov. assert (alive x) as [Hu _] by (by eapply running_alive). destruct (ko_pinv _ Hk) as [own Hinv].
  unfold safe_at. rewrite (syscall_run s own p x Hinv Hc Hx Hu). fold (call_number s x).
  destruct (ok_one s p p counted Hk) as [Hk1 Hi1]; [by left|intros y _; by split; [split|]; destruct y|].
  set (s1 := with_procs (alter counted p (procs s)) s) in *.
  assert (procs s1 !! p = Some (counted x)) as Hx1 by (unfold s1; by rewrite procs_with, list_lookup_alter_eq, Hx).
  set (P := parks p (call_number s x)).
  assert (∀ m : M (kernel D) (option Z), safe_at p s1 m (handled p P) → (∃ a s', m s1 = Ok (a, s') ∧ kernel_ok s' ∧ iso s s' p ∧ handled p P a s') ∨
    (initproc s = Some p ∧ m s1 = Panic "init exiting")) as Hback.
  { intros m [(a & s' & E & Hk' & Hi' & Hh)|[Hi' E]]; [left|right; auto]. exists a, s'. split_and!; [done|done|by eapply iso_trans|done]. }
  apply Hback. assert (∀ y v, same_space x y → ∀ s2, kernel_ok s2 → cur s2 = Some p → procs s2 !! p = Some y →
    safe_at p s2 (store64 (p_trapframe x + TF_A0) v ;;; ret (Some v)) (handled p P)) as Hset.
  { intros y v Hsp s2 Hk2 Hc2 Hy. apply (safe_set_frame p x TF_A0); [done| |by split_and!; [..|exists y]].
    intros s3 (Hk3 & Hc3 & _). by apply safe_at_ret. }
  destruct (handler_of (call_number s x)) as [h|] eqn:Hh.
  - destruct Hcov as [Hin|Hout]; [|by rewrite handler_unknown in Hh].
    eapply safe_at_seq; [by eapply safe_handler|]. intros o s2 Hk2 Hi2 Ho. destruct o as [v|]; [|by apply safe_at_ret].
    destruct (is_self _ _ _ Hi2 (counted x) Hx1) as (y & Hy & Hsp); [done|]. by eapply Hset.
  - by apply (Hset (counted x)).
Qed.
End calls.

(** ** The disk keeps its promise *)
(** The policy and the counters of the request queue are not seen through the
    buffer cache and the RAID layer. *)
Section disk.
Context `{BlockParams} `{!BcacheParams} `{!SleepLock} {V : Type} `{!DiskDriver V} `{!DiskDriverSpec V}.

Lemma with_bq_quiet (d : raid (bio V)) q :
  dev_inv d → (idle (bq (io d)) → idle q) → quiet d (with_io (with_bq q (io d)) d).
Proof.
  intros [Hm Hi] Hq. split; [|done]. split; [done|]. destruct Hi as [? ? ? ? ? ? ? ? ?]. split; try done. simpl. auto.
Qed.

#[export] Instance raid_bio_ctl_spec : DiskCtlSpec (raid (bio V)).
Proof.
  split.
  - intros policy d Hd. eexists. split; [reflexivity|]. by apply with_bq_quiet.
  - intros d Hd. eexists _, _. split; [reflexivity|]. by apply with_bq_quiet.
Qed.
End disk.
