(* ===== verification/SafeTrap.v ===== *)
(** * Traps against any user program

    Clock ticks, device interrupts, faults at any address, the scheduler and
    the way back to user mode satisfy the triple of [Safety]; together with
    the system calls this covers [usertrap] for every cause. *)
From S2P Require Import Prelude Interfaces Mem KState Kmem PageTable Frames Paging Vm Fault Boot.
From S2P Require Import Spaces Fork Teardown Sched Proc Keeps ProcMem ProcTable UserCopy Kfork Reap ProcBoot Grow Syscalls SysOk Trap TrapOk Safety SafeSys.
Local Open Scope Z_scope.

(** What an interrupt handler of a device does to the kernel's state: it wakes
    sleepers, and swap does not notice. *)
Definition serviced `{BlockParams} {D} `{!SwapDev D} `{!SwapDevSpec D} (s s' : kernel D) : Prop :=
  ∃ ps d, s' = with_procs ps (with_swapdev d s) ∧ quiet (swapdev s) d ∧ length ps = length (procs s) ∧
    ∀ i x, procs s !! i = Some x → ps !! i = Some x ∨ p_state x = SLEEPING ∧ ps !! i = Some (set_p_state RUNNABLE x).

Class TrapEnvSpec `{BlockParams} (D : Type) `{!SwapDev D} `{!SwapDevSpec D} `{!TrapEnv D} := {
  plic_claim_ok s : ∃ irq, plic_claim s = Ok (irq, s);
  plic_complete_ok irq s : plic_complete irq s = Ok (tt, s);
  uartintr_ok s : dev_inv (swapdev s) → ∃ s', uartintr s = Ok (tt, s') ∧ serviced s s';
  disk_intr_ok s : dev_inv (swapdev s) → ∃ s', disk_intr s = Ok (tt, s') ∧ serviced s s';
}.

Section traps.
Context `{Sv39} `{!ProcEnv} `{!Chans} {D : Type} `{!SwapDev D} `{!SwapDevSpec D} `{!FileEnv D} `{!FileEnvSpec D}.
Context `{!DiskCtl D} `{!DiskCtlSpec D} `{!SysEnv D} `{!TrapEnv D} `{!TrapEnvSpec D}.
Implicit Types s : kernel D.

(** ** The clock *)
Definition stays {A} (p : nat) (c : option nat) (_ : A) s : Prop := who p s ∧ cur s = c.

Lemma safe_at_all {A} p s (m : M (kernel D) A) a g :
  kernel_ok s → who p s → m s = Ok (a, with_procs (imap g (procs s)) s) →
  (∀ i x, procs s !! i = Some x → harmless x (g i x) ∧ (p_state (g i x) = RUNNING ↔ p_state x = RUNNING)) →
  safe_at p s m (λ b s', b = a ∧ stays p (cur s) b s').
Proof.
  intros Hk Hw E Hg. left. eexists a, _. split; [exact E|]. destruct (ok_all s p g Hk Hw Hg) as [Hk' Hi].
  split; [done|]. split; [done|]. split; [done|]. split; [|done]. destruct Hw as [Hc|[Hc Hl]]; [by left|right]. split; [done|].
    change (length (imap g (procs s)) ≤ p)%nat. by rewrite length_imap.
Qed.

(** Fields that no invariant speaks of. *)
Lemma ok_ticks s p t g : kernel_ok s →
  let s' := with_mlfq_global_ticks g (with_ticks t s) in kernel_ok s' ∧ iso s s' p.
Proof.
  intros Hk s'. destruct (ko_pinv _ Hk) as (own & Hinv). apply (ok_same s own s' own p); try done.
  destruct Hinv as (Hv & Hcok & Hpok). split_and!; [|done|done]. by destruct Hv; split.
Qed.

Lemma harmless_wakes c chan i x : harmless x (wake_proc c chan i x) ∧ (p_state (wake_proc c chan i x) = RUNNING ↔ p_state x = RUNNING).
Proof.
  unfold wake_proc. case_decide; [split; [apply harmless_refl|done]|].
  case_decide as Hs; [destruct Hs as [Hs _]|split; [apply harmless_refl|done]]. split; [by apply harmless_wake|]. rewrite Hs. by destruct x.
Qed.

Lemma safe_at_count p s b : kernel_ok s → who p s → safe_at p s (clock_count b) (stays p (cur s)).
Proof.
  intros Hk Hw. destruct b; [|by apply safe_at_ret; [|split]].
  set (s1 := with_mlfq_global_ticks (i32 (mlfq_global_ticks s + 1)) (with_ticks (u32 (ticks s + 1)) s)).
  destruct (ok_ticks s p (u32 (ticks s + 1)) (i32 (mlfq_global_ticks s + 1)) Hk) as [Hk1 Hi1]. fold s1 in Hk1, Hi1.
  assert (clock_count true s = wakeup chan_ticks s1) as E by done.
  destruct (safe_at_all p s1 (wakeup chan_ticks) tt _ Hk1 Hw (wakeup_run s1 chan_ticks)) as [(a & s' & E' & Hk' & Hi' & _ & Hs)|[Hi' E']].
  - intros i x _. apply harmless_wakes.
  - left. exists a, s'. rewrite E. split_and!; [done|done|by eapply iso_trans|done].
  - right. by rewrite E.
Qed.

Lemma harmless_charge x : mlfq_ok x → harmless x (charge x) ∧ (p_state (charge x) = RUNNING ↔ p_state x = RUNNING).
Proof.
  intros Hm. assert (∀ x, private (demote x) = private x ∧ p_parent (demote x) = p_parent x ∧ p_state (demote x) = p_state x) as Hd.
  { intros y. unfold demote. case_decide; by destruct y. }
  destruct (Hd (tick_proc x)) as (D1 & D2 & D3).
  assert (private (charge x) = private x ∧ p_parent (charge x) = p_parent x ∧ p_state (charge x) = p_state x) as (E1 & E2 & E3).
  { unfold charge. case_decide; [|by destruct x]. split_and!; [etransitivity; [exact D1|]|etransitivity; [exact D2|]|etransitivity; [exact D3|]]; by destruct x. }
  assert (p_chan (charge x) = p_chan x) as E4 by (unfold charge, demote; repeat case_decide; by destruct x).
  split; [|by rewrite E3]. split; [done|done|intros _ _; by apply charge_ok|by rewrite E3|by rewrite E3|by rewrite E3, E4].
Qed.

Lemma safe_at_charge p s : kernel_ok s → who p s →
  safe_at p s clock_charge (λ y s', stays p (cur s) y s' ∧ (y = true → cur s = Some p)).
Proof.
  intros Hk Hw. destruct Hw as [Hc|[Hc Hl]].
  - destruct (current s p Hk Hc) as (x & Hx & Hst).
    assert (mlfq_ok x) as Hm by (apply (ko_mlfq _ Hk p x Hx); by rewrite Hst).
    pose proof (clock_charge_run s p x Hc Hx Hst Hm) as E. left. eexists _, _. split; [exact E|].
    destruct (ok_one s p p charge Hk) as [Hk' Hi]; [by left|intros y Hy; simplify_eq; by apply harmless_charge|].
    split_and!; [done|done| |done]. split; [by left|done].
  - left. exists false, s. split_and!; [unfold clock_charge; by rewrite (bind_ok _ _ _ None s) by (unfold gets; by rewrite Hc)|done|apply iso_refl| |done].
    split; [by right|done].
Qed.

Lemma harmless_boost x : harmless x (boost_proc x) ∧ (p_state (boost_proc x) = RUNNING ↔ p_state x = RUNNING).
Proof.
  unfold boost_proc. case_decide; [|split; [apply harmless_refl|done]]. split; [|by destruct x].
  split; try (by destruct x). intros _ (_ & _ & Hl). split_and!; [done|done|done|done|]. by destruct x.
Qed.

Lemma safe_at_boost p s : kernel_ok s → who p s → safe_at p s clock_boost (stays p (cur s)).
Proof.
  intros Hk Hw. pose proof (clock_boost_run s) as E. destruct (decide _).
  - destruct (safe_at_all p s clock_boost tt _ Hk Hw E) as [(a & s' & E' & Hk' & Hi' & _ & Hs)|?]; [|left|by right].
    + intros i x _. apply harmless_boost.
    + by exists a, s'.
  - left. exists tt, s. split_and!; [done|done|apply iso_refl|done].
Qed.

Lemma safe_yield p : safe p yield (λ _, left_as p (λ y, p_state y = RUNNABLE)).
Proof.
  intros s Hk Hc. destruct (current s p Hk Hc) as (x & Hx & Hst). left.
  set (ps := alter (set_p_state RUNNABLE) p (procs s)). exists tt, (with_cur None (with_procs ps s)).
  assert (yield s = Ok (tt, with_cur None (with_procs ps s))) as E.
  { unfold yield. rewrite (bind_ok _ _ _ (Some p) s) by (unfold gets; by rewrite Hc). rewrite (bind_ok _ _ _ p s) by done.
    by rewrite (bind_ok _ _ _ _ _ (upd_proc_run _ _ _)). }
  unfold ps in *. rewrite alter_imap in *.
  destruct (ok_entries s p None (λ i x, if decide (i = p) then set_p_state RUNNABLE x else x) Hk) as [Hk' Hi].
  - by left.
  - intros i y Hy. destruct (decide (i = p)) as [->|Hne].
    + assert (y = x) as -> by congruence. apply harmless_step; [done|by left|done| |by destruct x].
      split; try (by destruct x); destruct x; simpl in *; by subst.
    + apply harmless_step; [done|by left|done|apply harmless_refl|]. rewrite (ko_run _ Hk i y Hy), Hc. split; [congruence|done].
  - done.
  - split_and!; [done|done|done|]. split; [done|]. exists (set_p_state RUNNABLE x). split; [|by destruct x].
    simpl. by rewrite list_lookup_imap, Hx; simpl; rewrite decide_True.
Qed.

(** [true] only when a process was switched away from. *)
Lemma safe_at_clockintr p s b : kernel_ok s → who p s →
  safe_at p s (clockintr b) (λ y s', if y then cur s = Some p ∧ left_as p (λ y, p_state y = RUNNABLE) s' else stays p (cur s) y s').
Proof.
  intros Hk Hw. eapply safe_at_seq; [by apply safe_at_count|]. intros u s1 Hk1 _ [Hw1 Hc1].
  eapply safe_at_seq; [by apply safe_at_charge|]. intros y s2 Hk2 _ [[Hw2 Hc2] Hy]. destruct y.
  - assert (cur s2 = Some p) as Hc by (rewrite Hc2; auto). eapply safe_at_seq; [by apply safe_yield|].
    intros u2 s3 Hk3 _ Hc3. apply safe_at_ret; [done|]. split; [congruence|done].
  - eapply safe_at_seq; [by apply safe_at_boost|]. intros u2 s3 Hk3 _ [Hw3 Hc3]. apply safe_at_ret; [done|]. split; [done|congruence].
Qed.

(** ** Devices *)
Lemma safe_at_serviced {A} p s (m : M (kernel D) A) a s' :
  kernel_ok s → who p s → m s = Ok (a, s') → serviced s s' → safe_at p s m (stays p (cur s)).
Proof.
  intros Hk Hw E (ps & d & -> & Hq & Hlen & Hps). destruct (ok_dev s p d Hk Hq) as [Hk1 Hi1]. set (s1 := with_swapdev d s) in *.
  assert (∃ g, ps = imap g (procs s1) ∧ ∀ i x, procs s !! i = Some x → g i x = x ∨ p_state x = SLEEPING ∧ g i x = set_p_state RUNNABLE x)
    as (g & -> & Hg).
  { exists (λ i x, default x (ps !! i)). split.
    - apply list_eq. intros i. rewrite list_lookup_imap. change (procs s1) with (procs s). destruct (procs s !! i) as [x|] eqn:Hx.
      + simpl. destruct (Hps i x Hx) as [->|[_ ->]]; done.
      + simpl. apply lookup_ge_None_2. apply lookup_ge_None_1 in Hx. lia.
    - intros i x Hx. destruct (Hps i x Hx) as [->|[? ->]]; [by left|by right]. }
  left. eexists a, _. split; [exact E|]. destruct (ok_all s1 p g Hk1) as [Hk' Hi].
  - done.
  - intros i x Hx. destruct (Hg i x Hx) as [->|[Hs ->]]; [split; [apply harmless_refl|done]|].
    split; [by apply harmless_wake|]. rewrite Hs. by destruct x.
  - split; [done|]. split; [by eapply iso_trans|]. split; [|done]. destruct Hw as [Hc|[Hc Hl]]; [by left|right]. split; [done|].
    rewrite procs_with. by rewrite Hlen.
Qed.

(** An interrupt is handled; the process goes on, or the tick was its last. *)
Lemma safe_at_devintr p s r : kernel_ok s → who p s →
  safe_at p s (devintr r) (λ o s', match o with
    | Some w => stays p (cur s) w s' ∧ (r_scause r = 9223372036854775817 ∨ r_scause r = 9223372036854775813 → w ≠ 0)
    | None => cur s = Some p ∧ r_scause r = 9223372036854775813 ∧ left_as p (λ y, p_state y = RUNNABLE) s' end).
Proof.
  intros Hk Hw. unfold devintr. case_decide as Hext.
  { destruct (plic_claim_ok s) as [irq Ei]. eapply safe_at_read; [exact Ei|].
    assert (dev_inv (swapdev s)) as Hd by (destruct (ko_pinv _ Hk) as (own & Hv & _); apply Hv).
    apply (safe_at_seq _ _ _ _ (stays p (cur s))).
    { case_decide; [|case_decide; [|by apply safe_at_ret; [|split]]].
      - destruct (uartintr_ok s Hd) as (s' & E & Hs). by eapply safe_at_serviced.
      - destruct (disk_intr_ok s Hd) as (s' & E & Hs). by eapply safe_at_serviced. }
    intros u s1 Hk1 _ Hs1. apply (safe_at_read _ _ _ tt).
    { case_decide; [apply plic_complete_ok|done]. }
    apply safe_at_ret; [done|]. split; [done|lia]. }
  case_decide as Htim; [|apply safe_at_ret; [done|]; split; [by split|]; tauto].
  eapply safe_at_seq; [by apply safe_at_clockintr|]. intros y s1 Hk1 _ Hy. apply safe_at_ret; [done|]. destruct y; [by destruct Hy|]. split; [done|lia].
Qed.

(** ** Faults *)
Lemma safe_fault p r : 0 ≤ r_stval r → safe p (user_fault p r) (back p (λ _, True)).
Proof.
  intros Hva. apply safe_self. intros s x Hk Hc Hx Hst. destruct (ko_pinv _ Hk) as [own Hinv].
  assert (p_state x ≠ UNUSED) as Hu by by rewrite Hst. pose proof Hinv as (Hv & _ & Hpok).
  destruct (pk_used _ _ Hpok p x Hx Hu) as [Hr _]. destruct (pk_holds _ _ Hpok p x Hx) as [_ Hh]. destruct (Hh Hr) as [Hsz _].
  apply (safe_at_bind _ _ _ _ (λ _, True)); [|intros pa _; case_decide; [apply safe_setkilled|by apply safe_ret]].
  destruct (decide (p_sz x ≤ r_stval r)) as [Hout|Hin].
  { left. exists 0, s. split_and!; [|done|apply iso_refl|done]. apply (vmfault_out s p (p_pagetable x) (p_sz x)); [|done].
    split; [done|]. by exists x. }
  destruct (vmfault_ok s own p x (p_pagetable x) (r_stval r) (bool_decide (r_scause r = 13)))
    as (a & s' & own' & E & Hv' & Hstd & _); [done..|lia|lia|].
  assert (pinv s' own') as Hinv'.
  { eapply (pinv_steady s own s' own' p x); [done..| |done]. unfold PGROUNDDOWN.
    pose proof MAXVA_range. pose proof TRAMPOLINE_top. pose proof TRAPFRAME_below. rewrite PGSIZE_4096 in *.
    unfold PGROUNDUP. rewrite PGSIZE_4096, u64_id by lia. Z.to_euclidean_division_equations. lia. }
  destruct Hstd as [Hvw Hps Hc' Hpin _ _ Hnew]. destruct (ok_same s own s' own' p) as [Hk' Hi]; try done.
  - by apply (keeps_vmfault same_init (λ _, True)) in E.
  - by eapply swap_low_new.
  - intros q r' v _ Hl Hvv. by apply (Hvw q r').
  - left. exists a, s'. split_and!; [done..|]. split; [congruence|done].
Qed.

(** ** The way back *)
Lemma safe_prepare p r : safe p (prepare_return p r) (back p (λ _, True)).
Proof.
  apply safe_self. intros s x Hk Hc Hx Hst. assert (at_frame p x s) as Hat.
  { split_and!; [done|done|]. exists x. split; [done|]. split_and!; [by rewrite Hst|done|done]. }
  clear Hk Hc Hx. revert s Hat.
  do 4 (apply safe_set_frame; [unfold TF_KERNEL_SATP, TF_KERNEL_SP, TF_KERNEL_TRAP, TF_KERNEL_HARTID, TRAPFRAME_SIZE; lia|]).
  apply safe_get_frame; [unfold TF_EPC, TRAPFRAME_SIZE; lia|]. intros epc s (Hk & Hc & _). by apply safe_at_ret.
Qed.

Lemma safe_end p r : safe p (usertrap_end p r) (handled p ended).
Proof.
  intros s Hk Hc. destruct (current s p Hk Hc) as (x & Hx & Hst).
  apply (safe_at_read _ _ _ (p_killed x)); [unfold killed; by rewrite (bind_ok _ _ _ _ _ (get_proc_ok s p x Hx))|].
  case_decide.
  - eapply safe_at_seq; [by apply safe_exit|]. intros u s1 Hk1 _ Hc1. by apply safe_at_ret.
  - eapply safe_at_bind; [by apply safe_prepare|]. intros out _. apply safe_self. intros s1 y Hk1 Hc1 _ _. by apply safe_at_ret.
Qed.

Lemma at_self p s x : kernel_ok s → cur s = Some p → procs s !! p = Some x → at_frame p x s.
Proof.
  intros Hk Hc Hx. destruct (running_alive s p x Hk Hc Hx) as [Hu _]. split_and!; [done|done|]. by exists x.
Qed.

(** How a trap that does not come back leaves its process. *)
Definition trap_parks (p : nat) (r : regs) (num : Z) (y : proc) : Prop :=
  ended y ∨ (r_scause r = 8 ∧ parks p num y) ∨ (r_scause r ≠ 8 ∧ p_state y = RUNNABLE).

Lemma handled_weaken {A} p (P P' : proc → Prop) (o : option A) s : (∀ y, P y → P' y) → handled p P o s → handled p P' o s.
Proof. intros HP. destruct o; [done|]. intros (Hc & y & Hy & ?). split; [done|]. exists y. auto. Qed.

Lemma safe_at_weaken {A} p s (m : M (kernel D) A) (Q Q' : A → kernel D → Prop) :
  safe_at p s m Q → (∀ a s', Q a s' → Q' a s') → safe_at p s m Q'.
Proof. intros [(a & s' & E & Hk & Hi & HQ)|?] HQQ; [left|by right]. exists a, s'. auto. Qed.

Lemma safe_at_end p r num s : kernel_ok s → cur s = Some p → safe_at p s (usertrap_end p r) (handled p (trap_parks p r num)).
Proof.
  intros Hk Hc. eapply safe_at_weaken; [by apply safe_end|]. intros o s'. apply handled_weaken. by left.
Qed.

Lemma safe_usertrap p s x r :
  kernel_ok s → cur s = Some p → procs s !! p = Some x → Z.land (r_sstatus r) SSTATUS_SPP = 0 → 0 ≤ r_stval r →
  (r_scause r = 8 → covered (call_number s x)) →
  safe_at p s (usertrap r) (handled p (trap_parks p r (call_number s x))).
Proof.
  intros Hk Hc Hx Hspp Hva Hcov. unfold usertrap. rewrite decide_False by (intros Hbad; by apply Hbad).
  eapply safe_at_read; [by apply myproc_ok|]. eapply safe_at_read; [by apply get_proc_ok|].
  destruct (running_alive s p x Hk Hc Hx) as [Hu _].
  assert (∀ s v, kernel_ok s → procs s !! p = Some x → 0 ≤ TF_EPC ≤ TRAPFRAME_SIZE - 8 ∧
    call_number (with_mem (wr64 (mem s) (p_trapframe x + TF_EPC) v) s) x = call_number s x) as Hnum.
  { intros s0 v _ _. split; [done|]. unfold call_number. cbn [mem with_mem]. rewrite rd64_wr64_ne; [done|]. unfold TF_EPC, TF_A7. lia. }
  destruct (ok_set_reg p s x TF_EPC (r_sepc r) Hk Hx Hu) as [E1 Hok1]; [done|]. destruct (Hnum s (r_sepc r) Hk Hx) as [_ En1].
  eapply safe_at_step; [exact E1|exact Hok1|]. set (s1 := with_mem _ s) in *. destruct Hok1 as [Hk1 _]. rewrite <- En1 in Hcov |- *. clear E1 En1.
  change (procs s !! p) with (procs s1 !! p) in Hx. change (cur s) with (cur s1) in Hc.
  case_decide as Hsys.
  - apply (safe_at_read _ _ _ (p_killed x)); [unfold killed; by rewrite (bind_ok _ _ _ _ _ (get_proc_ok s1 p x Hx))|].
    case_decide; [eapply safe_at_seq; [by apply safe_exit|]; intros u s2 Hk2 _ Hl2; apply safe_at_ret; [done|by apply (handled_weaken (A := unit) p ended _ None); [left|]]|].
    set (v := rd64 (mem s1) (p_trapframe x + TF_EPC)). destruct (ok_set_reg p s1 x TF_EPC (u64 (v + 4)) Hk1 Hx Hu) as [E2 Hok2]; [done|].
    destruct (Hnum s1 (u64 (v + 4)) Hk1 Hx) as [_ En2]. set (s2 := with_mem _ s1) in *.
    eapply (safe_at_step p s1 _ tt s2); [|exact Hok2|].
    { rewrite (bind_ok _ _ _ v s1); [exact E2|]. apply load64_ok. destruct (ko_pinv _ Hk1) as [own Hinv]. by eapply frame_ram. }
    destruct Hok2 as [Hk2 _]. eapply safe_at_seq; [eapply (safe_at_syscall p s2 x); [done|done|done|]; rewrite En2; auto|].
    intros o s3 Hk3 _ Ho. destruct o; [by apply safe_at_end|]. apply safe_at_ret; [done|].
    rewrite En2 in Ho. apply (handled_weaken (A := Z) p (parks p (call_number s1 x)) _ None); [|exact Ho]. intros y Hy. right. by left.
  - eapply safe_at_seq; [apply (safe_at_devintr p); [done|by left]|]. intros o s2 Hk2 _ Ho. destruct o as [w|].
    2:{ apply safe_at_ret; [done|]. destruct Ho as (_ & _ & Hl). apply (handled_weaken (A := Z) p (λ y, p_state y = RUNNABLE) _ None); [|exact Hl].
        intros y Hy. right. by right. }
    destruct Ho as [[_ Hc2] _]. rewrite Hc in Hc2.
    apply (safe_at_bind _ _ _ _ (λ _, True)); [|intros _ _ s3 Hk3 Hc3; by apply safe_at_end].
    case_decide; [by apply safe_at_ret|]. case_decide; [by apply safe_fault|by apply safe_setkilled].
Qed.

(** ** The idle CPU *)
Lemma safe_kerneltrap s r :
  kernel_ok s → cur s = None → Z.land (r_sstatus r) SSTATUS_SPP ≠ 0 →
  r_scause r = 9223372036854775817 ∨ r_scause r = 9223372036854775813 →
  safe_at (length (procs s)) s (kerneltrap false r) (λ o s', o = Some (r_sepc r, r_sstatus r) ∧ cur s' = None ∧ (length (procs s') ≤ length (procs s))%nat).
Proof.
  intros Hk Hc Hspp Hcause. unfold kerneltrap. rewrite decide_False by done.
  eapply safe_at_seq; [apply safe_at_devintr; [done|by right]|]. intros o s1 Hk1 _ Ho. destruct o as [w|]; [|destruct Ho as [Ho _]; congruence].
  destruct Ho as [[Hw1 Hc1] Hw]. rewrite decide_False by auto. apply safe_at_ret; [done|]. split_and!; [done|congruence|].
  destruct Hw1 as [?|[_ Hle]]; [congruence|done].
Qed.

Lemma ok_started s i x :
  kernel_ok s → cur s = None → procs s !! i = Some x → p_state x = RUNNABLE →
  kernel_ok (started s i) ∧ iso s (started s i) (length (procs s)).
Proof.
  intros Hk Hc Hx Hst. unfold started. rewrite alter_imap. apply ok_entries; [done| | |].
  - by right.
  - intros j y Hy. destruct (decide (j = i)) as [->|Hne].
    + assert (y = x) as -> by congruence. apply harmless_step; [done|by right|done| |by destruct x].
      split; try (by destruct x); destruct x; simpl in *; by subst.
    + apply harmless_step; [done|by right|done|apply harmless_refl|]. rewrite (ko_run _ Hk j y Hy), Hc. split; congruence.
  - intros j [= <-]. by exists x.
Qed.

Lemma safe_schedule s : kernel_ok s → cur s = None → safe_at (length (procs s)) s schedule (λ o s', cur s' = o ∧ (length (procs s') ≤ length (procs s))%nat).
Proof.
  intros Hk Hc. unfold schedule. apply (safe_at_read _ _ _ tt).
  { unfold modify. by replace (with_cur None s) with s by (rewrite <- Hc; by destruct s). }
  eapply safe_at_read; [reflexivity|].
  destruct (scan_levels_ok s [0; 1; 2; 3] (seq 0 (length (procs s)))) as [(? & lv & ? & ? & i & ? & _ & _ & _ & _ & (x & Hx & Hst & _) & E)|[_ E]].
  - intros i Hi%elem_of_seq. apply lookup_lt_is_Some_2. lia.
  - left. destruct (ok_started s i x) as [Hk' Hi]; try done. exists (Some i), (started s i).
    split; [done|]. split; [done|]. split; [done|]. split; [done|]. simpl. by rewrite length_alter.
  - left. exists None, s. split_and!; [done|done|apply iso_refl|done|done].
Qed.
End traps.
