(* ===== verification/System.v ===== *)
(** * The kernel and its processes as one system

    User programs store to memory, trap, sleep, are switched away from and
    scheduled again.  [act] runs the kernel's code for one such event;
    [step] is the transition relation.  What a user program does between two
    traps is arbitrary: it may store any byte where its page table lets it,
    and it traps with any registers for any cause.  A process that was
    switched away from goes on where it left the kernel, which [kont] records:
    the code after the switch is run when the process is scheduled again. *)
From S2P Require Import Prelude Interfaces Mem KState Kmem PageTable Frames Paging Vm Fault Boot.
From S2P Require Import Spaces Fork Teardown Sched Proc Keeps ProcMem ProcTable UserCopy Kfork Reap ProcBoot Grow Syscalls SysOk Trap TrapOk Safety SafeSys SafeTrap.
From stdpp Require Import relations.
Local Open Scope Z_scope.

(** Where a process is: in user mode; after the [yield] of [clockintr]; asleep
    in [kwait], or in [sys_pause] or [sys_sleep]; before [forkret]. *)
Inductive kont :=
  | KUser
  | KTick (r : regs)
  | KWait (addr : Z) (r : regs)
  | KPause (n ticks0 : Z) (r : regs)
  | KFork.

(** A store of one byte by the running program, a trap from user mode with the
    31 registers as [uservec] saves them, a scheduled process going on in the
    kernel, an interrupt of the idle CPU, a round of the scheduler. *)
Inductive event :=
  | EStore (va b : Z)
  | ETrap (ur : list Z) (r : regs)
  | EContinue (r : regs)
  | EIdle (r : regs)
  | ESchedule.

Section system.
Context `{Sv39} `{!ProcEnv} `{!Chans} {D : Type} `{!SwapDev D} `{!SwapDevSpec D} `{!FileEnv D} `{!FileEnvSpec D}.
Context `{!DiskCtl D} `{!DiskCtlSpec D} `{!SysEnv D} `{!TrapEnv D} `{!TrapEnvSpec D}.
Implicit Types s : kernel D.
Implicit Types ks : nat → kont.

(** ** User mode *)
(** The hardware walks the page table and stores where the program may write;
    any other store is a fault, an event of its own. *)
Definition user_store (p : nat) (va b : Z) : M (kernel D) unit :=
  let* x := get_proc p in
  let* m := gets mem in
  match (if decide (0 ≤ va < MAXVA) then pt_entry m (p_pagetable x) va else None) with
  | Some v =>
    if valid_pte v && bool_decide (Z.land v PTE_U ≠ 0 ∧ Z.land v PTE_W ≠ 0)
    then store_bytes (PTE2PA v + va mod PGSIZE) [b] else ret tt
  | None => ret tt
  end.

(** The registers from [ra] on (proc.h:52-82). *)
Definition TF_RA : Z := 40.
Fixpoint save_regs (a : Z) (ur : list Z) : M (kernel D) unit :=
  match ur with
  | [] => ret tt
  | v :: ur => store64 a v ;;; save_regs (a + 8) ur
  end.

(** ** Going on *)
(** syscall.c:171 and trap.c:98-107 *)
Definition finish_call (p : nat) (r : regs) (o : option Z) : M (kernel D) (option (Z * (Z * Z * Z))) :=
  match o with
  | Some v => let* x := get_proc p in store64 (p_trapframe x + TF_A0) v ;;; usertrap_end p r
  | None => ret None
  end.

Definition continue (p : nat) (r0 : regs) (k : kont) : M (kernel D) (option (Z * (Z * Z * Z))) :=
  match k with
  | KUser => ret None
  | KTick r => clock_boost ;;; usertrap_end p r
  | KWait addr r => sleep_end ;;; let* o := kwait addr in finish_call p r (u64 <$> o)
  | KPause n ticks0 r => sleep_end ;;; let* o := pause_loop n ticks0 in finish_call p r o
  | KFork => let* f := forkret false r0 in ret (Some (f.1.2, f.2))
  end.

(** Where a trap that did not come back has left the process. *)
Definition kont_after (r : regs) (x : proc) s : kont :=
  if decide (r_scause r = 8) then
    let a0 := rd64 (mem s) (p_trapframe x + TF_A0) in
    if decide (call_number s x = SYS_wait) then KWait a0 r
    else if decide (call_number s x = SYS_pause) then KPause (Z.max 0 (i32 a0)) (ticks s) r
    else if decide (call_number s x = SYS_sleep) then KPause (i32 a0) (ticks s) r
    else KUser
  else KTick r.

(** The child of a fork starts in [forkret] (proc.c:159-163). *)
Definition spawned s s' ks : nat → kont := λ i,
  if decide (p_state <$> procs s !! i = Some UNUSED ∧ p_state <$> procs s' !! i ≠ Some UNUSED) then KFork else ks i.

(** ** Events *)
Definition set_kont (p : nat) (k : kont) ks : nat → kont := λ i, if decide (i = p) then k else ks i.

Definition act (e : event) ks : M (kernel D) (nat → kont) :=
  match e with
  | EStore va b => let* p := myproc in user_store p va b ;;; ret ks
  | ETrap ur r =>
    let* p := myproc in
    let* x := get_proc p in
    save_regs (p_trapframe x + TF_RA) ur ;;;
    let* s0 := gets (λ s, s) in
    let* o := usertrap r in
    let* s1 := gets (λ s, s) in
    let ks := spawned s0 s1 ks in
    ret (match o with Some _ => ks | None => set_kont p (kont_after r x s0) ks end)
  | EContinue r =>
    let* p := myproc in
    let* o := continue p r (ks p) in
    ret (match o with Some _ => set_kont p KUser ks | None => ks end)
  | EIdle r => kerneltrap false r ;;; ret ks
  | ESchedule => schedule ;;; ret ks
  end.

(** When the hardware lets an event happen; a system call is one whose code is
    in the repository. *)
Definition enabled (e : event) ks s : Prop :=
  match e with
  | EStore _ _ => ∃ p, cur s = Some p ∧ ks p = KUser
  | ETrap ur r => ∃ p, cur s = Some p ∧ ks p = KUser ∧ length ur = 31%nat ∧ Forall (λ v, 0 ≤ v < 2 ^ 64) ur ∧
      Z.land (r_sstatus r) SSTATUS_SPP = 0 ∧ 0 ≤ r_stval r ∧
      (r_scause r = 8 → ∀ a7, ur !! 16%nat = Some a7 → covered (i32 a7))
  | EContinue _ => ∃ p, cur s = Some p ∧ ks p ≠ KUser
  | EIdle r => cur s = None ∧ Z.land (r_sstatus r) SSTATUS_SPP ≠ 0 ∧
      (r_scause r = 9223372036854775817 ∨ r_scause r = 9223372036854775813)
  | ESchedule => cur s = None
  end.

(** The process that an event is run for; no process when the CPU is idle. *)
Definition acting s : nat := default (length (procs s)) (cur s).

Inductive step (l : nat) : (nat → kont) * kernel D → (nat → kont) * kernel D → Prop :=
  | step_event e ks s ks' s' :
      enabled e ks s → acting s = l → act e ks s = Ok (ks', s') → step l (ks, s) (ks', s').

(** ** The invariant *)
(** An argument of [kwait] is an address, and a process that is asleep is so
    where its [kont] says. *)
Definition kont_ok (k : kont) : Prop := match k with KWait addr _ => 0 ≤ addr | _ => True end.
Definition konts_ok ks : Prop := ∀ p, kont_ok (ks p).
Definition kont_asleep (p : nat) (k : kont) (y : proc) : Prop :=
  match k with KWait _ _ => asleep (chan_proc p) y | KPause _ _ _ => asleep chan_ticks y | _ => False end.
Definition coherent ks s : Prop := ∀ p y, procs s !! p = Some y → p_state y = SLEEPING → kont_asleep p (ks p) y.
Definition sys_ok (st : (nat → kont) * kernel D) : Prop := kernel_ok st.2 ∧ konts_ok st.1 ∧ coherent st.1 st.2.

(** ** User mode is confined *)
Lemma user_entry m fl own root va v :
  tree_inv m fl own → own root = RTab root 2 0 → 0 ≤ va < MAXVA → pt_entry m root va = Some v → valid_pte v = true →
  Z.land v PTE_U ≠ 0 → va_ok (PGROUNDDOWN va) ∧ own (PTE2PA v) = RPage root (PGROUNDDOWN va).
Proof.
  intros [_ Hp] Hroot Hva He Hval Hu. pose proof (PX_split va Hva) as Hsplit.
  pose proof (PX_range 0 va). pose proof (PX_range 1 va). pose proof (PX_range 2 va). pose proof PGSIZE_4096 as Hpg.
  unfold pt_entry in He. destruct (pt_step m 2 root va) as [p1|] eqn:E1; [|done]. simpl in He.
  destruct (pt_step m 1 p1 va) as [p0|] eqn:E0; [|done]. simpl in He. injection He as He.
  assert (∀ lev pt b, pt_step m lev pt va = Some b → points m pt (PX lev va) b) as Hst.
  { intros lev pt b E. unfold pt_step in E. destruct (valid_pte (rd64 m (pt + 8 * PX lev va))) eqn:Hv; [|done]. by injection E as <-. }
  assert (own p1 = RTab root 1 (0 * 512 + PX 2 va)) as Ho1 by (eapply (pt_node _ _ Hp); [done|lia|by apply Hst]).
  assert (own p0 = RTab root 0 ((0 * 512 + PX 2 va) * 512 + PX 1 va)) as Ho0 by (eapply (pt_node _ _ Hp); [done|lia|by apply Hst]).
  assert (points m p0 (PX 0 va) (PTE2PA v)) as Hpt by (unfold points, entry; by rewrite He).
  assert (((0 * 512 + PX 2 va) * 512 + PX 1 va) * 512 + PX 0 va = va / PGSIZE) as Epg by (rewrite Hsplit; lia).
  destruct (pt_high _ _ Hp _ _ _ (PX 0 va) (PTE2PA v) Ho0) as [Hmax Hg]; [lia|exact Hpt|]. rewrite Epg in Hmax, Hg. change (va / PGSIZE * PGSIZE) with (PGROUNDDOWN va) in *.
  assert (PGROUNDDOWN va < TRAPFRAME) as Hlow.
  { destruct (decide (PGROUNDDOWN va < TRAPFRAME)); [done|]. destruct Hu. unfold entry in Hg. rewrite He in Hg. apply Hg. lia. }
  split.
  - split; [split; [|done]|by exists (va / PGSIZE)]. unfold PGROUNDDOWN. pose proof (Z.div_pos va PGSIZE). lia.
  - unfold PGROUNDDOWN. rewrite <- Epg. eapply (pt_leaf _ _ Hp); [exact Ho0|lia|exact Hpt|]. by rewrite Epg.
Qed.

Lemma safe_user_store p va b : safe p (user_store p va b) (back p (λ _, True)).
Proof.
  apply safe_self. intros s x Hk Hc Hx Hst. eapply safe_at_read; [reflexivity|].
  assert (safe_at p s (ret tt) (back p (λ _, True))) as Hskip by (by apply safe_at_ret).
  destruct (decide (0 ≤ va < MAXVA)) as [Hva|]; [|done]. destruct (pt_entry _ _ _) as [v|] eqn:He; [|done].
  destruct (valid_pte v) eqn:Hval; [|done]. case_bool_decide as Hb; [|done]. destruct Hb as [Hu _]. simpl.
  destruct (ko_pinv _ Hk) as [own Hinv]. pose proof Hinv as (Hv & _).
  assert (live s p (p_pagetable x)) as Hl by (eapply used_live; [done..|by rewrite Hst]).
  destruct (user_entry _ _ own _ _ _ (vi_tree _ _ Hv) (vi_live _ _ Hv p _ Hl) Hva He Hval Hu) as [Hvd Ho].
  set (c := PTE2PA v) in *. assert (page_addr c) as Hpc by (apply (tree_sane _ _ _ (vi_tree _ _ Hv)); by rewrite Ho).
  pose proof PGSIZE_4096 as Hpg. assert (0 < PGSIZE) as Hpos by lia. pose proof (Z.mod_pos_bound va PGSIZE Hpos) as Hoff.
  set (m' := wrbytes (mem s) (c + va mod PGSIZE) [b]).
  assert (store_bytes (c + va mod PGSIZE) [b] s = Ok (tt, with_mem m' s)) as E.
  { unfold store_bytes. simpl. rewrite (page_ram c); [done|done|lia|lia]. }
  destruct (write_user_ok s own p (p_pagetable x) (PGROUNDDOWN va) c m' Hinv Hl Hvd Ho) as (Hinv' & Hpin & _ & Hrest).
  { intros a Ha. apply wrbytes_out. simpl. lia. }
  destruct (ok_same s own (with_mem m' s) own p) as [Hk' Hi]; try done.
  - intros q r w Hq Hlq Hw. apply (Hrest q r w); [done|done|]. by intros [? _].
  - left. by exists tt, (with_mem m' s).
Qed.

(** The registers are saved, and are what the program had. *)
Lemma save_regs_ok ur p x a s :
  at_frame p x s → p_trapframe x + TF_RA ≤ a → a + 8 * Z.of_nat (length ur) ≤ p_trapframe x + TRAPFRAME_SIZE →
  Forall (λ v, 0 ≤ v < 2 ^ 64) ur →
  ∃ s', save_regs a ur s = Ok (tt, s') ∧ iso s s' p ∧ at_frame p x s' ∧
    (∀ b, b + 8 ≤ a → rd64 (mem s') b = rd64 (mem s) b) ∧
    ∀ i v, ur !! i = Some v → rd64 (mem s') (a + 8 * Z.of_nat i) = v.
Proof.
  revert a s. induction ur as [|v ur IH]; intros a s Hat Ha Hend Hur.
  { exists s. split_and!; [done|apply iso_refl|done|done|done]. }
  apply Forall_cons in Hur as [Hv Hur]. cbn [length] in Hend. pose proof Hat as (Hk & Hc & y & Hy & Hsp). pose proof Hsp as (Hu & Et & _).
  unfold TF_RA, TRAPFRAME_SIZE in *.
  destruct (ok_set_reg p s y (a - p_trapframe y) v Hk Hy Hu) as [E [Hk1 Hi1]]; [unfold TRAPFRAME_SIZE; lia|].
  replace (p_trapframe y + (a - p_trapframe y)) with a in * by lia. set (s1 := with_mem (wr64 (mem s) a v) s) in *.
  destruct (IH (a + 8) s1) as (s' & E' & Hi' & Hat' & Hlow & Hval); [by split_and!; [..|exists y]|lia|lia|done|].
  exists s'. cbn [save_regs]. split_and!; [by rewrite (bind_ok _ _ _ _ _ E)|by eapply iso_trans|done| |].
  - intros b Hb. rewrite Hlow by lia. apply rd64_wr64_ne. lia.
  - intros i w Hw. destruct i as [|i]; simpl in Hw.
    + injection Hw as <-. rewrite Z.add_0_r, Hlow by lia. by apply rd64_wr64.
    + rewrite <- (Hval i w Hw). f_equal. lia.
Qed.

(** ** Going on is safe *)
Lemma safe_sleep_end p : safe p sleep_end (back p (λ _, True)).
Proof. apply (safe_myproc p (λ p, upd_proc p _)). apply safe_upd. intros x Hx. split; [split|]; destruct x; simpl in *; by subst. Qed.

Lemma safe_finish p r v : safe p (finish_call p r (Some v)) (handled p ended).
Proof.
  apply safe_self. intros s x Hk Hc Hx _. apply (safe_set_frame p x TF_A0); [done| |by apply at_self].
  intros s1 (Hk1 & Hc1 & _). by apply safe_end.
Qed.

Lemma safe_forkret p r : safe p (forkret false r) (back p (λ _, True)).
Proof.
  apply (safe_myproc p (λ p, ret tt ;;; let* out := prepare_return p r in _)). intros s Hk Hc.
  eapply safe_at_read; [done|]. eapply safe_at_bind; [by apply safe_prepare|]. intros out _.
  apply safe_self. intros s1 x Hk1 Hc1 _ _. by apply safe_at_ret.
Qed.

Lemma safe_weaken {A} p (m : M (kernel D) (option A)) (P P' : proc → Prop) :
  safe p m (handled p P) → (∀ y, P y → P' y) → safe p m (handled p P').
Proof. intros Hm HP s Hk Hc. eapply safe_at_weaken; [by apply Hm|]. intros o s'. by apply handled_weaken. Qed.

(** A call that slept: it finishes, sleeps again, or the process ends. *)
Lemma safe_woken {A} p r P (m : M (kernel D) (option A)) (f : option A → option Z) :
  f None = None → (∀ v, is_Some (f (Some v))) → safe p m (handled p P) →
  safe p (sleep_end ;;; let* o := m in finish_call p r (f o)) (handled p (λ y, ended y ∨ P y)).
Proof.
  intros Hn Hs Hm. eapply safe_bind; [apply safe_sleep_end|]. intros _ _. eapply safe_handled; [exact Hm| |].
  - intros v. destruct (Hs v) as [w ->]. eapply safe_weaken; [apply safe_finish|]. by left.
  - intros s Hk Hl. rewrite Hn. apply safe_at_ret; [done|]. apply (handled_weaken (A := Z) p P _ None); [by right|exact Hl].
Qed.

Lemma safe_continue p r0 k : kont_ok k → k ≠ KUser → safe p (continue p r0 k) (handled p (λ y, ended y ∨ kont_asleep p k y)).
Proof.
  intros Hok Hne. destruct k as [|r|addr r|n t0 r|]; [done|..]; unfold continue.
  - intros s Hk Hc. eapply safe_at_seq; [apply (safe_at_boost p); [done|by left]|]. intros u s1 Hk1 _ [_ Hc1].
    eapply safe_weaken; [apply safe_end|by left|done|congruence].
  - apply (safe_woken p r (asleep (chan_proc p))); [done|by eexists|by apply safe_wait].
  - apply (safe_woken p r (asleep chan_ticks) (pause_loop n t0) id); [done|by eexists|apply safe_pause_loop].
  - eapply safe_bind; [apply safe_forkret|]. intros f _. by apply safe_ret.
Qed.

(** ** Every event is safe *)
Lemma set_konts_ok p k ks : kont_ok k → konts_ok ks → konts_ok (set_kont p k ks).
Proof. intros Hk Hks q. unfold set_kont. by case_decide. Qed.

Lemma spawned_ok s s' ks : konts_ok ks → konts_ok (spawned s s' ks).
Proof. intros Hks q. unfold spawned. by case_decide. Qed.

Lemma kont_after_ok r x s : kont_ok (kont_after r x s).
Proof. unfold kont_after. pose proof (rd64_range (mem s) (p_trapframe x + TF_A0)). repeat case_decide; simpl; lia. Qed.

(** Only the acting process can have fallen asleep. *)
Lemma coherent_step l ks ks' s s' :
  coherent ks s → iso s s' l → (∀ q x, q ≠ l → procs s !! q = Some x → p_state x = SLEEPING → ks' q = ks q) →
  (∀ y, procs s' !! l = Some y → p_state y = SLEEPING → kont_asleep l (ks' l) y) → coherent ks' s'.
Proof.
  intros Hco Hi Hks Hl q y Hy Hs. destruct (decide (q = l)) as [->|Hne]; [auto|].
  destruct (is_asleep _ _ _ Hi q y Hne Hy Hs) as (x & Hx & Hxs & Ec). rewrite (Hks q x Hne Hx Hxs).
  specialize (Hco q x Hx Hxs). destruct (ks q); try done; destruct Hco as [_ E]; (split; [done|congruence]).
Qed.

Lemma awake_running s p y k : kernel_ok s → cur s = Some p → procs s !! p = Some y → p_state y = SLEEPING → kont_asleep p k y.
Proof. intros Hk Hc Hy Hs. apply (ko_run _ Hk p y Hy) in Hc. congruence. Qed.

(** The continuation recorded for a trap is where the trap left the process. *)
Lemma kont_after_asleep p r x s y :
  trap_parks p r (call_number s x) y → p_state y = SLEEPING → kont_asleep p (kont_after r x s) y.
Proof.
  intros Hp Hs. unfold kont_after, trap_parks, parks, ended in *. destruct Hp as [?|[[Hc Hp]|[_ ?]]]; [congruence| |congruence].
  rewrite decide_True by done. generalize dependent (call_number s x). intros num Hp.
  repeat case_decide; try done; try tauto; try congruence.
Qed.

Lemma spawned_asleep s s' ks q x : procs s !! q = Some x → p_state x = SLEEPING → spawned s s' ks q = ks q.
Proof. intros Hx Hs. unfold spawned. rewrite decide_False; [done|]. intros [E _]. rewrite Hx in E. simpl in E. congruence. Qed.

Definition well ks s : Prop := konts_ok ks ∧ coherent ks s.

Lemma act_trap p ks ur r s : well ks s → kernel_ok s → cur s = Some p → length ur = 31%nat → Forall (λ v, 0 ≤ v < 2 ^ 64) ur →
  Z.land (r_sstatus r) SSTATUS_SPP = 0 → 0 ≤ r_stval r → (r_scause r = 8 → ∀ a7, ur !! 16%nat = Some a7 → covered (i32 a7)) →
  safe_at p s (act (ETrap ur r) ks) well.
Proof.
  intros [Hks Hco] Hk Hc Hlen Hur Hspp Hva Hcov. destruct (current s p Hk Hc) as (x & Hx & _). unfold act.
  eapply safe_at_read; [by apply myproc_ok|]. eapply safe_at_read; [by apply get_proc_ok|].
  destruct (save_regs_ok ur p x (p_trapframe x + TF_RA) s) as (s1 & E & Hi & (Hk1 & Hc1 & y & Hy & (_ & Et & _)) & _ & Hval);
    [by apply at_self|lia|unfold TF_RA, TRAPFRAME_SIZE; lia|done|].
  assert (coherent ks s1) as Hco1.
  { eapply (coherent_step p); [done|done|done|]. intros z Hz Hs. by eapply (awake_running s1). }
  eapply safe_at_step; [exact E|by split|]. eapply safe_at_read; [reflexivity|].
  assert (call_number s1 y = call_number s1 x) as En by (unfold call_number; by rewrite Et).
  eapply safe_at_seq; [eapply (safe_usertrap p s1 y); try done|].
  - intros Hsys. destruct (lookup_lt_is_Some_2 ur 16) as [a7 Ha7]; [lia|]. specialize (Hcov Hsys a7 Ha7). rewrite En. unfold call_number.
    specialize (Hval _ _ Ha7). unfold TF_RA in Hval. unfold TF_A7.
    replace (p_trapframe x + 168) with (p_trapframe x + 40 + 8 * Z.of_nat 16) by lia. by rewrite Hval.
  - intros o s2 Hk2 Hi2 Ho. rewrite En in Ho. eapply safe_at_read; [reflexivity|]. apply safe_at_ret; [done|]. destruct o as [v|].
    + split; [by apply spawned_ok|]. eapply (coherent_step p); [exact Hco1|done|intros q z _; apply spawned_asleep|].
      intros z Hz Hs. by eapply (awake_running s2).
    + split; [apply set_konts_ok; [apply kont_after_ok|by apply spawned_ok]|]. destruct Ho as (_ & z & Hz & Hp).
      eapply (coherent_step p); [exact Hco1|done| |].
      * intros q w Hq. unfold set_kont. rewrite decide_False by done. apply spawned_asleep.
      * intros z' Hz' Hs. unfold set_kont. rewrite decide_True by done. assert (z' = z) as -> by congruence. by apply kont_after_asleep.
Qed.

Lemma act_continue p ks r s : well ks s → kernel_ok s → cur s = Some p → ks p ≠ KUser → safe_at p s (act (EContinue r) ks) well.
Proof.
  intros [Hks Hco] Hk Hc Hne. unfold act. apply (safe_at_read _ _ _ p); [by apply myproc_ok|].
  eapply safe_at_seq; [by apply safe_continue|]. intros o s1 Hk1 Hi Ho. apply safe_at_ret; [done|]. destruct o as [v|].
  - split; [by apply set_konts_ok|]. eapply (coherent_step p); [exact Hco|done| |].
    + intros q w Hq _ _. unfold set_kont. by rewrite decide_False.
    + intros z Hz Hs. by eapply (awake_running s1).
  - split; [done|]. destruct Ho as (_ & z & Hz & Hp). eapply (coherent_step p); [exact Hco|done|done|].
    intros z' Hz' Hs. assert (z' = z) as -> by congruence. destruct Hp as [Hp|?]; [|done]. unfold ended in Hp. congruence.
Qed.

(** With no process acting, nobody falls asleep. *)
Lemma well_idle ks s s' : well ks s → iso s s' (length (procs s)) → (length (procs s') ≤ length (procs s))%nat → well ks s'.
Proof.
  intros [Hks Hco] Hi Hl. split; [done|]. eapply coherent_step; [exact Hco|exact Hi|done|].
  intros y Hy. apply lookup_lt_Some in Hy. lia.
Qed.

Lemma act_safe e ks s : well ks s → kernel_ok s → enabled e ks s → safe_at (acting s) s (act e ks) well.
Proof.
  intros Hw Hk He. unfold acting. destruct e as [va b|ur r|r|r|]; simpl in He.
  - destruct He as (p & Hc & Hu). rewrite Hc. simpl. unfold act. apply (safe_at_read _ _ _ p); [by apply myproc_ok|].
    eapply safe_at_seq; [by apply safe_user_store|]. intros u s1 Hk1 Hi [Hc1 _]. apply safe_at_ret; [done|]. split; [apply Hw|].
    eapply (coherent_step p); [apply Hw|done|done|]. intros z Hz Hs. by eapply (awake_running s1).
  - destruct He as (p & Hc & _ & Hlen & Hur & Hspp & Hva & Hcov). rewrite Hc. by apply act_trap.
  - destruct He as (p & Hc & Hu). rewrite Hc. by apply act_continue.
  - destruct He as (Hc & Hspp & Hcause). rewrite Hc. simpl. unfold act.
    eapply safe_at_seq; [by apply safe_kerneltrap|]. intros o s1 Hk1 Hi (_ & _ & Hl). apply safe_at_ret; [done|by eapply well_idle].
  - rewrite He. simpl. unfold act. eapply safe_at_seq; [by apply safe_schedule|]. intros o s1 Hk1 Hi [_ Hl]. apply safe_at_ret; [done|by eapply well_idle].
Qed.

Lemma step_ok l st st' : sys_ok st → step l st st' → sys_ok st' ∧ iso st.2 st'.2 l.
Proof.
  intros Hok Hs. destruct Hs as [e ks s ks' s' He Hl E]. destruct Hok as [Hk Hw]. simpl in *. subst l.
  destruct (act_safe e ks s Hw Hk He) as [(a & s1 & E1 & Hk1 & Hi & Ha)|[_ E1]]; rewrite E in E1; [|done].
  injection E1 as <- <-. by split; [split|].
Qed.

(** ** Boot *)
(** After [userinit] the only process is init, and it is runnable. *)
Lemma userinit_kernel_ok s own root_dir s' :
  pinv s own → cur s = None → (∀ i x, procs s !! i = Some x → p_state x = UNUSED ∧ p_parent x = None) → userinit root_dir s = Ok (tt, s') →
  kernel_ok s' ∧ ∀ i y, procs s' !! i = Some y → p_state y ≠ SLEEPING.
Proof.
  intros Hinv Hc Hps E. assert (∀ i e, swap_map s !! i = Some e → s_used e = true → False) as Hsw.
  { intros i e Hi Hu. destruct (vi_swap _ _ (proj1 Hinv) i e Hi Hu) as (_ & _ & q & r & _ & (y & Hy & Hyr & Hn) & _).
    destruct Hinv as (_ & _ & Hpok). destruct (Hps q y Hy) as [Hun _]. destruct (pk_unused _ _ Hpok q y Hy Hun). congruence. }
  destruct (userinit_ok s own root_dir Hinv) as [E'|(s1 & own' & p & x & E' & Hinv' & _ & Hc' & Hip & Hx & Hst & _ & _ & _ & z & Hz & Hpa & Hml & Hrest)];
    rewrite E in E'; [done|injection E' as <-].
  assert (sub_entries s s') as Hsub by (eapply keeps_userinit; exact E).
  assert (∀ i y, procs s' !! i = Some y → p_state y ≠ UNUSED → i = p ∧ y = x) as Honly.
  { intros i y Hy Hu. destruct (decide (i = p)) as [->|Hne]; [split; [done|congruence]|]. rewrite Hrest in Hy by done. by destruct (Hps i y Hy). }
  destruct (Hps p z Hz) as [_ Hpz]. split.
  2:{ intros i y Hy Hs. destruct (Honly i y Hy) as [_ ->]; congruence. }
  split.
  - by exists own'.
  - intros i e q y Hi Hu _ _. destruct (Hsw i e); [by apply Hsub|done].
  - intros i y Hy Hu. destruct (Honly i y Hy Hu) as [_ ->]. injection Hml as E1 E2 E3. unfold mlfq_ok. by rewrite E1, E2, E3.
  - intros i y q Hy Hu. destruct (Honly i y Hy Hu) as [_ ->]. congruence.
  - exists p, x. split_and!; [done|done|unfold alive; by rewrite Hst|congruence].
  - intros i y Hy. rewrite Hc', Hc. split; [|done]. intros Hr. destruct (Honly i y Hy) as [_ ->]; congruence.
Qed.
End system.
