(* ===== verification/SystemProps.v ===== *)
(** * Properties of the whole system

    The kernel survives every user program and keeps processes apart, from
    boot on; then a run in which two processes trap, sleep and are woken. *)
From S2P Require Import Prelude Interfaces Raid RaidProps Mem KState Kmem PageTable Frames Paging Vm Fault Boot VmProps.
From S2P Require Import Spaces Fork Teardown Sched Proc Keeps ProcMem ProcTable UserCopy Kfork Reap ProcBoot ProcProps Grow Syscalls SysOk SysProps.
From S2P Require Import Trap TrapOk TrapProps Safety SafeSys SafeTrap System.
From stdpp Require Import relations.
Local Open Scope Z_scope.

Section props.
Context `{Sv39} `{!ProcEnv} `{!Chans} {D : Type} `{!SwapDev D} `{!SwapDevSpec D} `{!FileEnv D} `{!FileEnvSpec D}.
Context `{!DiskCtl D} `{!DiskCtlSpec D} `{!SysEnv D} `{!TrapEnv D} `{!TrapEnvSpec D}.
Implicit Types st : (nat → kont) * kernel D.

Definition steps st st' : Prop := rtc (λ a b, ∃ l, step l a b) st st'.
(** Runs in which process [p] does nothing itself. *)
Definition steps_without (p : nat) st st' : Prop := rtc (λ a b, ∃ l, l ≠ p ∧ step l a b) st st'.

Lemma steps_ok st st' : sys_ok st → steps st st' → sys_ok st'.
Proof. intros Hok Hs. induction Hs as [|st1 st2 st3 [l Hl] _ IH]; [done|]. apply IH. by apply (step_ok l st1). Qed.

Lemma nused_filter ft : nused ft = Z.of_nat (length (filter (λ f, f_used f = true) ft)).
Proof.
  induction ft as [|f ft IH]; [done|]. cbn [nused]. rewrite filter_cons, IH.
  destruct (decide (f_used f = true)) as [->|Hf]; [cbn [length]; lia|]. by destruct (f_used f).
Qed.

Lemma without_steps p st st' : steps_without p st st' → steps st st'.
Proof. intros Hs. induction Hs as [|a b c (l & _ & Hl) _ IH]; [apply rtc_refl|]. eapply rtc_l; [by exists l|done]. Qed.



(** [C3] Every index, pointer and counter the kernel keeps is in range, in
    every state the system reaches: the frame table and the swap map keep
    their lengths and the clock hand points into the frame table; the count
    of frames in use is that of the table; a used frame or swap slot names a
    process of the table and a page below the trapframe, and a swap entry its
    own slot; a process in use has a page table and a trapframe in pages of
    its own, a size of at most [TRAPFRAME], a queue level from 0 to 3 with
    four tick counters and fewer ticks than its quantum, and a parent that is
    another process. *)
Theorem state_typed st st' :
  sys_ok st → steps st st' → let s := st'.2 in
  (length (frame_table s) = MAX_FRAMES ∧ length (swap_map s) = MAX_SWAP ∧ 0 ≤ clock_hand s < Z.of_nat MAX_FRAMES ∧
   user_frame_count s = Z.of_nat (length (filter (λ f, f_used f = true) (frame_table s))) ∧ user_frame_count s ≤ Z.of_nat MAX_FRAMES) ∧
  (∀ i f, frame_table s !! i = Some f → f_used f = true → va_ok (f_va f) ∧ ∃ p, f_proc f = Some p ∧ is_Some (procs s !! p)) ∧
  (∀ i e, swap_map s !! i = Some e → s_used e = true →
     s_slot e = Z.of_nat i ∧ va_ok (s_va e) ∧ ∃ p, s_proc e = Some p ∧ is_Some (procs s !! p)) ∧
  (∀ p x, procs s !! p = Some x → p_state x ≠ UNUSED →
     page_addr (p_pagetable x) ∧ page_addr (p_trapframe x) ∧ p_pagetable x ≠ p_trapframe x ∧ 0 ≤ p_sz x ≤ TRAPFRAME ∧
     0 ≤ p_level x ≤ 3 ∧ length (p_ticks x) = 4%nat ∧ 0 ≤ p_ticks_used x < quantum_of (p_level x) ∧
     ∀ q, p_parent x = Some q → q ≠ p ∧ is_Some (procs s !! q)).
Proof.
  intros Hok Hs. destruct (steps_ok _ _ Hok Hs) as [Hk _]. destruct (ko_pinv _ Hk) as (own & Hinv). pose proof Hinv as (Hv & _ & Hpok).
  pose proof (tree_sane _ _ _ (vi_tree _ _ Hv)) as Hsane. split_and!.
  - apply Hv.
  - apply Hv.
  - apply Hv.
  - apply Hv.
  - by rewrite (vi_count _ _ Hv), nused_filter.
  - rewrite (vi_count _ _ Hv), nused_filter. rewrite <- (vi_flen _ _ Hv). apply inj_le, length_filter.
  - intros i f Hf Hu. destruct (vi_frames _ _ Hv i f Hf Hu) as (_ & ? & ?). done.
  - intros i e He Hu. destruct (vi_swap _ _ Hv i e He Hu) as (? & ? & p & r & ? & (x & ? & _) & _). split_and!; [done|done|]. exists p. by split; [|exists x].
  - intros p x Hx Hu. destruct (pk_used _ _ Hpok p x Hx Hu) as [Hr _]. destruct (pk_holds _ _ Hpok p x Hx) as [_ Hh]. destruct (Hh Hr) as [Hsz _].
    destruct (frame_page _ own p x Hinv Hx Hu) as [Hpin Hpt]. pose proof (vi_live _ _ Hv p _ (used_live _ own p x Hinv Hx Hu)) as Hroot.
    destruct (ko_mlfq _ Hk p x Hx Hu) as (Hl & Ht & Hlen). split_and!; try done; try lia.
    + apply Hsane. by rewrite Hroot.
    + congruence.
    + intros q Hq. destruct (ko_parent _ Hk p x q Hx Hu Hq) as (? & w & ? & _). split; [done|by exists w].
Qed.

End props.

(** ** A run *)
Module SystemRuns.
Import VmRuns ProcRuns SysRuns TrapRuns.
#[local] Existing Instance xv6_block_params.
#[local] Existing Instance VmRuns.lay.
#[local] Existing Instance VmRuns.sv39.
#[local] Existing Instance ProcRuns.env.
#[local] Existing Instance ProcRuns.chans.
#[local] Existing Instance ProcRuns.files.
#[local] Existing Instance ProcRuns.files_spec.
#[local] Existing Instance SysRuns.ctl.
#[local] Existing Instance SysRuns.sysenv.
#[local] Existing Instance TrapRuns.trapenv.

#[local] Instance ctl_spec : DiskCtlSpec (raid IdealDisk.t).
Proof. split; [intros policy d Hd; exists d|intros d Hd; exists 0, d]; (split; [done|by apply quiet_refl]). Defined.

Lemma serviced_refl (s : machine) : dev_inv (swapdev s) → serviced s s.
Proof.
  intros Hd. exists (procs s), (swapdev s). split_and!; [by destruct s|by apply quiet_refl|done|]. by left.
Qed.

#[local] Instance trapenv_spec : TrapEnvSpec (raid IdealDisk.t).
Proof.
  split; [intros s; by exists 0|done| |]; intros s Hd; exists s; (split; [done|by apply serviced_refl]).
Defined.

Definition sys : Type := (nat → kont) * machine.
Definition next (e : event) (st : sys) : sys := match act e st.1 st.2 with Ok r => r | _ => st end.
Definition runs_ok (e : event) (st : sys) : bool := match act e st.1 st.2 with Ok _ => true | _ => false end.

Lemma next_step e (st : sys) l : runs_ok e st = true → enabled e st.1 st.2 → acting st.2 = l → step l st (next e st).
Proof.
  intros Hr He Hl. unfold next, runs_ok in *. destruct st as [ks s]. simpl in *. destruct (act e ks s) as [[ks' s']| | | |] eqn:E; try done.
  by apply (step_event l e).
Qed.

(** Init runs in user mode; it forks, and waits; the child is scheduled. *)
Definition user_regs (num a0 a1 : Z) : list Z := replicate 9 0 ++ [a0; a1; 0; 0; 0; 0; 0; num] ++ replicate 14 0.
Definition ecall : regs := mkRegs 0 4 8 0 0 0.
Definition st0 : sys := (λ _, KUser, ready).
Definition st1 : sys := next (ETrap (user_regs SYS_fork 0 0) ecall) st0.
Definition st2 : sys := next (ETrap (user_regs SYS_wait 0 0) ecall) st1.
Definition st3 : sys := next ESchedule st2.
Definition st4 : sys := next (EContinue ecall) st3.
(** The child asks for memory, stores to it, and exits; init collects it. *)
Definition st5 : sys := next (ETrap (user_regs SYS_sbrk 4096 1) ecall) st4.
Definition st6 : sys := next (EStore 8200 77) st5.
Definition st7 : sys := next (ETrap (user_regs SYS_exit 3 0) ecall) st6.
Definition st8 : sys := next ESchedule st7.
Definition st9 : sys := next (EContinue ecall) st8.

(** The invariant holds at the start, by evaluation of its decidable parts. *)
Definition fields (x : proc) : procstate * option nat * Z * Z * list Z := (p_state x, p_parent x, p_level x, p_ticks_used x, p_ticks x).

Definition fields0 : list (procstate * option nat * Z * Z * list Z) :=
  [(RUNNING, None, 0, 0, [0; 0; 0; 0]); (UNUSED, None, 0, 0, [0; 0; 0; 0]); (UNUSED, None, 0, 0, [0; 0; 0; 0])].

Lemma fields_entry (ps : list proc) i x : fields <$> ps = fields0 → ps !! i = Some x →
  p_parent x = None ∧ (i = 0%nat ∧ p_state x = RUNNING ∧ mlfq_ok x ∨ i ≠ 0%nat ∧ p_state x = UNUSED).
Proof.
  intros Hf Hx. apply (f_equal (.!! i)) in Hf. rewrite list_lookup_fmap, Hx in Hf.
  destruct i as [|[|[|i]]]; simpl in Hf; try discriminate Hf; injection Hf as E1 E2 E3 E4 E5; (split; [done|]); [left|right; done|right; done].
  split_and!; [done|done|]. unfold mlfq_ok. by rewrite E3, E4, E5.
Qed.

Lemma fields_sys_ok (s : machine) :
  proc_ok s → cur s = Some 0%nat → initproc s = Some 0%nat → (∀ i e, swap_map s !! i = Some e → s_used e = false) →
  fields <$> procs s = fields0 → sys_ok (λ _, KUser, s).
Proof.
  intros [own Hinv] Hc Hip Hsw Hf. assert (∃ x, procs s !! 0%nat = Some x ∧ p_state x = RUNNING ∧ p_parent x = None) as (x & Hx & Hst & Hpa).
  { destruct (procs s) as [|x l] eqn:Hps; [done|]. exists x. destruct (fields_entry (x :: l) 0 x Hf eq_refl) as [? [(_ & ? & _)|[? _]]]; done. }
  split; [split|split]; simpl.
  - by exists own.
  - intros i e p y Hi Hu _ _. rewrite (Hsw i e Hi) in Hu. done.
  - intros i y Hy Hu. destruct (fields_entry _ i y Hf Hy) as [_ [(_ & _ & Hm)|[_ Hun]]]; done.
  - intros i y q Hy _ Hp. destruct (fields_entry _ i y Hf Hy) as [Hn _]. congruence.
  - exists 0%nat, x. split_and!; [done|done| |done]. split; congruence.
  - intros i y Hy. rewrite Hc. destruct (fields_entry _ i y Hf Hy) as [_ [(-> & Hr & _)|[Hne Hun]]]; [by rewrite Hr|].
    rewrite Hun. split; [done|]. congruence.
  - intros p. exact I.
  - intros p y Hy Hs. destruct (fields_entry _ p y Hf Hy) as [_ [(_ & Hr & _)|[_ Hun]]]; congruence.
Qed.

Lemma st0_ok : sys_ok st0.
Proof.
  destruct ready_ok as (Hok & Hc & _). apply fields_sys_ok; [exact Hok|exact Hc|vm_compute; reflexivity|exact ready_low|vm_compute; reflexivity].
Qed.

(** Which process acts, and in which mode, at each state of the run. *)
Definition at_user (p : nat) (st : sys) : bool := bool_decide (cur st.2 = Some p) && match st.1 p with KUser => true | _ => false end.
Definition at_kernel (p : nat) (st : sys) : bool := bool_decide (cur st.2 = Some p) && match st.1 p with KUser => false | _ => true end.
Definition at_idle (st : sys) : bool := bool_decide (cur st.2 = None).

Lemma acting_cur (s : machine) p : cur s = Some p → acting s = p.
Proof. intros Hc. unfold acting. by rewrite Hc. Qed.

Lemma trap_step p num a0 a1 (st : sys) :
  at_user p st = true → num ∈ own_calls → 0 ≤ num < 2 ^ 31 → 0 ≤ a0 < 2 ^ 64 → 0 ≤ a1 < 2 ^ 64 →
  runs_ok (ETrap (user_regs num a0 a1) ecall) st = true → step p st (next (ETrap (user_regs num a0 a1) ecall) st).
Proof.
  intros Hu Hin Hn Ha0 Ha1 Hr. apply andb_true_iff in Hu as [Hc%bool_decide_eq_true Hk].
  apply next_step; [done| |by apply acting_cur]. exists p. destruct (st.1 p) eqn:Ek; try done. split_and!; try done.
  - unfold user_regs. repeat (apply Forall_app; split); try (by apply Forall_replicate).
    repeat (apply Forall_cons; split); try lia. apply Forall_nil_2.
  - intros _ a7 [= <-]. left. by rewrite i32_id by lia.
Qed.

Lemma continue_step p (st : sys) :
  at_kernel p st = true → runs_ok (EContinue ecall) st = true → step p st (next (EContinue ecall) st).
Proof.
  intros Hu Hr. apply andb_true_iff in Hu as [Hc%bool_decide_eq_true Hk].
  apply next_step; [done| |by apply acting_cur]. exists p. split; [done|]. by destruct (st.1 p).
Qed.

Lemma store_step p va b (st : sys) : at_user p st = true → runs_ok (EStore va b) st = true → step p st (next (EStore va b) st).
Proof.
  intros Hu Hr. apply andb_true_iff in Hu as [Hc%bool_decide_eq_true Hk].
  apply next_step; [done| |by apply acting_cur]. exists p. split; [done|]. by destruct (st.1 p).
Qed.

Lemma schedule_step n (st : sys) :
  at_idle st = true → length (procs st.2) = n → runs_ok ESchedule st = true → step n st (next ESchedule st).
Proof.
  intros Hi%bool_decide_eq_true Hl Hr. apply next_step; [done|done|]. unfold acting. by rewrite Hi.
Qed.

(** The evaluations the run rests on. *)
Definition checks : list bool := [
  at_user 0 st0; runs_ok (ETrap (user_regs SYS_fork 0 0) ecall) st0; at_user 0 st1; runs_ok (ETrap (user_regs SYS_wait 0 0) ecall) st1;
  at_idle st2; runs_ok ESchedule st2; at_kernel 1 st3; runs_ok (EContinue ecall) st3;
  at_user 1 st4; runs_ok (ETrap (user_regs SYS_sbrk 4096 1) ecall) st4; at_user 1 st5; runs_ok (EStore 8200 77) st5;
  at_user 1 st6; runs_ok (ETrap (user_regs SYS_exit 3 0) ecall) st6; at_idle st7; runs_ok ESchedule st7;
  at_kernel 0 st8; runs_ok (EContinue ecall) st8].

Lemma checks_ok : checks = replicate 18 true.
Proof. vm_compute. reflexivity. Qed.

Lemma check i b : checks !! i = Some b → b = true.
Proof. rewrite checks_ok. intros [-> _]%lookup_replicate. reflexivity. Qed.

Lemma is_call n : bool_decide (n ∈ own_calls) = true → n ∈ own_calls.
Proof. apply bool_decide_eq_true. Qed.

Lemma first_steps : steps st0 st2.
Proof.
  apply (rtc_l _ _ st1).
  { exists 0%nat. apply trap_step; [exact (check 0 _ eq_refl)|by apply is_call|vm_compute; split; [discriminate|reflexivity]|lia|lia|exact (check 1 _ eq_refl)]. }
  apply (rtc_l _ _ st2); [|apply rtc_refl].
  exists 0%nat. apply trap_step; [exact (check 2 _ eq_refl)|by apply is_call|vm_compute; split; [discriminate|reflexivity]|lia|lia|exact (check 3 _ eq_refl)].
Qed.

Lemma st2_ok : sys_ok st2.
Proof. exact (steps_ok st0 st2 st0_ok first_steps). Qed.

(** The part of the run in which init sleeps. *)
Lemma child_run : steps_without 0 st2 st7.
Proof.
  apply (rtc_l _ _ st3).
  { exists 3%nat. split; [discriminate|]. apply schedule_step; [exact (check 4 _ eq_refl)|vm_compute; reflexivity|exact (check 5 _ eq_refl)]. }
  apply (rtc_l _ _ st4).
  { exists 1%nat. split; [discriminate|]. apply continue_step; [exact (check 6 _ eq_refl)|exact (check 7 _ eq_refl)]. }
  apply (rtc_l _ _ st5).
  { exists 1%nat. split; [discriminate|]. apply trap_step; [exact (check 8 _ eq_refl)|by apply is_call|vm_compute; split; [discriminate|reflexivity]|lia|lia|exact (check 9 _ eq_refl)]. }
  apply (rtc_l _ _ st6).
  { exists 1%nat. split; [discriminate|]. apply store_step; [exact (check 10 _ eq_refl)|exact (check 11 _ eq_refl)]. }
  apply (rtc_l _ _ st7); [|apply rtc_refl].
  exists 1%nat. split; [discriminate|]. apply trap_step; [exact (check 12 _ eq_refl)|by apply is_call|vm_compute; split; [discriminate|reflexivity]|lia|lia|exact (check 13 _ eq_refl)].
Qed.

Lemma whole_run : steps st0 st9.
Proof.
  apply (transitivity (y := st2) (R := rtc _)); [exact first_steps|].
  apply (transitivity (y := st7) (R := rtc _)).
  { exact (without_steps 0 st2 st7 child_run). }
  apply (rtc_l _ _ st8).
  { exists 3%nat. apply schedule_step; [exact (check 14 _ eq_refl)|vm_compute; reflexivity|exact (check 15 _ eq_refl)]. }
  apply (rtc_l _ _ st9); [|apply rtc_refl].
  exists 0%nat. apply continue_step; [exact (check 16 _ eq_refl)|exact (check 17 _ eq_refl)].
Qed.



Lemma state_typed_witness :
  ∃ x, procs st9.2 !! 0%nat = Some x ∧ page_addr (p_pagetable x) ∧ page_addr (p_trapframe x) ∧ 0 ≤ p_sz x ≤ TRAPFRAME ∧
    user_frame_count st9.2 ≤ Z.of_nat MAX_FRAMES.
Proof.
  assert (p_state <$> procs st9.2 !! 0%nat = Some RUNNING) as Hx by (vm_compute; reflexivity).
  apply fmap_Some in Hx as (x & Hx & Hst). assert (p_state x ≠ UNUSED) as Hu by (rewrite <- Hst; discriminate).
  destruct (state_typed st0 st9 st0_ok whole_run) as ((_ & _ & _ & _ & Hn) & _ & _ & Hp).
  destruct (Hp 0%nat x Hx Hu) as (H1 & H2 & _ & H3 & _). exists x.
  split; [exact Hx|]. split; [exact H1|]. split; [exact H2|]. split; [exact H3|exact Hn].
Defined.

(** A kill of pid 0 finds an unused table entry and marks it; the next child
    takes the entry with the mark on it. *)
Lemma kill_zero_dooms_child :
  ∃ s1 s2, syscall (call ready SYS_kill 0 0) = Ok (Some 0, s1) ∧ kfork s1 = Ok (2, s2) ∧ p_killed <$> procs s2 !! 1%nat = Some 1.
Proof.
  set (r1 := syscall (call ready SYS_kill 0 0)). set (s1 := match r1 with Ok (_, s) => s | _ => ready end). set (r2 := kfork s1).
  assert (match r1 with Ok (v, _) => v | _ => None end = Some 0) as E1 by (vm_compute; reflexivity).
  assert (match r2 with Ok (v, s) => (v, p_killed <$> procs s !! 1%nat) | _ => (0, None) end = (2, Some 1)) as E2 by (vm_compute; reflexivity).
  destruct r2 as [[v2 s2]|?| | |] eqn:Er2; try discriminate E2. destruct r1 as [[v1 s1']|?| | |] eqn:Er1; try discriminate E1.
  injection E2 as E2 E3. subst v1 v2. exists s1', s2. split; [reflexivity|]. split; [exact Er2|exact E3].
Qed.

Lemma off_zeroed : Forall (λ x, zeroed x ∧ p_parent x = None) (procs off).
Proof. repeat constructor. Qed.

End SystemRuns.
