(* ===== verification/Virtio.v ===== *)
(** * The virtio disk driver (kernel/virtio_disk.c:338-582)

    Descriptors, the available and used rings, requests and interrupts.  The
    rings are lists instead of pages of memory, a descriptor's address is the
    object it points to, and a [struct buf] is named by its block number.  The
    device is a parameter: what it does with a chain is stated as a law, from
    the virtio specification.  Requests come one at a time, as the dispatcher
    of bio.c sends them; a process that would have to wait for descriptors is
    [Blocked]. *)
From S2P Require Import Prelude Interfaces.
Local Open Scope Z_scope.

(** virtio.h *)
Class VirtioParams := {
  NUM : nat;
  NUM_range : (3 ≤ NUM ≤ 2 ^ 15)%nat;
  VIRTIO_BLK_T_IN : Z;
  VIRTIO_BLK_T_OUT : Z;
  VIRTIO_BLK_T_ne : VIRTIO_BLK_T_IN ≠ VIRTIO_BLK_T_OUT;
  VRING_DESC_F_NEXT : Z;
  VRING_DESC_F_WRITE : Z;
  VRING_DESC_F_val : VRING_DESC_F_NEXT = 1 ∧ VRING_DESC_F_WRITE = 2;
  VIRTIO_BLK_REQ_SIZE : Z;
}.

Definition u16 (z : Z) : Z := z mod 2 ^ 16.

(** What a descriptor points to. *)
Inductive vaddr := ANone | AOps (i : nat) | AData (b : Z) | AStatus (i : nat).
#[global] Instance vaddr_eq_dec : EqDecision vaddr.
Proof. solve_decision. Defined.

(** [struct virtq_desc], [struct virtio_blk_req], [disk.info] *)
Record vdesc := mkDesc { d_addr : vaddr; d_len : Z; d_flags : Z; d_next : Z }.
Record vreq := mkVreq { v_type : Z; v_reserved : Z; v_sector : Z }.
Record vinfo := mkInfo { i_buf : option Z; i_status : Z }.
Definition desc0 : vdesc := mkDesc ANone 0 0 0.

(** [struct disk] (virtio_disk.c:345-363) with the rings it points to, and
    [busy], the buffers whose [disk] flag is 1. *)
Record vdisk := mkDisk {
  desc : list vdesc;
  avail_ring : list Z;
  avail_idx : Z;
  used_ring : list Z;
  used_end : Z;
  free : list bool;
  used_idx : Z;
  info : list vinfo;
  ops : list vreq;
  busy : list Z;
}.
Definition set_desc (l : list vdesc) (d : vdisk) : vdisk :=
  mkDisk l (avail_ring d) (avail_idx d) (used_ring d) (used_end d) (free d) (used_idx d) (info d) (ops d) (busy d).
Definition set_avail (l : list Z) (i : Z) (d : vdisk) : vdisk :=
  mkDisk (desc d) l i (used_ring d) (used_end d) (free d) (used_idx d) (info d) (ops d) (busy d).
Definition set_used (l : list Z) (i : Z) (d : vdisk) : vdisk :=
  mkDisk (desc d) (avail_ring d) (avail_idx d) l i (free d) (used_idx d) (info d) (ops d) (busy d).
Definition set_free (l : list bool) (d : vdisk) : vdisk :=
  mkDisk (desc d) (avail_ring d) (avail_idx d) (used_ring d) (used_end d) l (used_idx d) (info d) (ops d) (busy d).
Definition set_used_idx (i : Z) (d : vdisk) : vdisk :=
  mkDisk (desc d) (avail_ring d) (avail_idx d) (used_ring d) (used_end d) (free d) i (info d) (ops d) (busy d).
Definition set_info (l : list vinfo) (d : vdisk) : vdisk :=
  mkDisk (desc d) (avail_ring d) (avail_idx d) (used_ring d) (used_end d) (free d) (used_idx d) l (ops d) (busy d).
Definition set_ops (l : list vreq) (d : vdisk) : vdisk :=
  mkDisk (desc d) (avail_ring d) (avail_idx d) (used_ring d) (used_end d) (free d) (used_idx d) (info d) l (busy d).
Definition set_busy (l : list Z) (d : vdisk) : vdisk :=
  mkDisk (desc d) (avail_ring d) (avail_idx d) (used_ring d) (used_end d) (free d) (used_idx d) (info d) (ops d) l.

(** virtio.h: the registers, and the feature and status bits. *)
Class VirtioRegs := {
  MMIO_MAGIC_VALUE : Z; MMIO_VERSION : Z; MMIO_DEVICE_ID : Z; MMIO_VENDOR_ID : Z;
  MMIO_DEVICE_FEATURES : Z; MMIO_DRIVER_FEATURES : Z; MMIO_QUEUE_SEL : Z; MMIO_QUEUE_NUM_MAX : Z; MMIO_QUEUE_NUM : Z;
  MMIO_QUEUE_READY : Z; MMIO_STATUS : Z; MMIO_QUEUE_DESC_LOW : Z; MMIO_QUEUE_DESC_HIGH : Z;
  MMIO_DRIVER_DESC_LOW : Z; MMIO_DRIVER_DESC_HIGH : Z; MMIO_DEVICE_DESC_LOW : Z; MMIO_DEVICE_DESC_HIGH : Z;
  S_ACKNOWLEDGE : Z; S_DRIVER : Z; S_DRIVER_OK : Z; S_FEATURES_OK : Z;
  BLK_F_RO : Z; BLK_F_SCSI : Z; BLK_F_CONFIG_WCE : Z; BLK_F_MQ : Z;
  F_ANY_LAYOUT : Z; RING_F_EVENT_IDX : Z; RING_F_INDIRECT_DESC : Z;
}.

(** The driver with its device. *)
Record vstate (V : Type) := mkV { vd : vdisk; dev : V }.
Arguments mkV {V}.
Arguments vd {V}.
Arguments dev {V}.

(** The device on a notification: it reads and writes the rings, the
    requests, and the data of the buffer in flight. *)
Class VirtioDevice (V : Type) := {
  vio_notify : vdisk → V → bytes → vdisk * V * bytes;
  vio_read : Z → M V Z;
  vio_write : Z → Z → M V unit;
}.

Section driver.
Context `{BlockParams} `{VirtioParams} {V : Type} `{!VirtioDevice V}.

Definition getd {A} (f : vdisk → A) : M (vstate V) A := gets (λ s, f (vd s)).
Definition upd (f : vdisk → vdisk) : M (vstate V) unit := modify (λ s, mkV (f (vd s)) (dev s)).
Definition set_desc_at (i : nat) (x : vdesc) : M (vstate V) unit := upd (λ d, set_desc (<[i := x]> (desc d)) d).

(** virtio_disk.c:442-452 *)
Definition alloc_desc : M (vstate V) Z :=
  let* l := getd free in
  match list_find (λ b : bool, b = true) l with
  | Some (i, _) => upd (λ d, set_free (<[i := false]> (free d)) d) ;;; ret (Z.of_nat i)
  | None => ret (-1)
  end.

(** virtio_disk.c:454-465; the wakeup of processes that wait for descriptors
    has no counterpart *)
Definition free_desc (i : Z) : M (vstate V) unit :=
  if decide (Z.of_nat NUM ≤ i) then panic "free_desc 1" else
  let* l := getd free in
  let* b := deref (aget l i) in
  if b : bool then panic "free_desc 2" else
  set_desc_at (Z.to_nat i) desc0 ;;;
  upd (λ d, set_free (<[Z.to_nat i := true]> (free d)) d).

(** virtio_disk.c:467-479; a descriptor is freed once, so [NUM] rounds and
    one more suffice *)
Fixpoint free_chain_loop (fuel : nat) (i : Z) : M (vstate V) unit :=
  match fuel with
  | O => fail NoFuel
  | S fuel =>
    let* l := getd desc in
    let* x := deref (aget l i) in
    free_desc i ;;;
    if decide (Z.land (d_flags x) VRING_DESC_F_NEXT ≠ 0) then free_chain_loop fuel (d_next x) else ret tt
  end.
Definition free_chain (i : Z) : M (vstate V) unit := free_chain_loop (S NUM) i.

(** virtio_disk.c:481-493 *)
Fixpoint alloc_descs (k : nat) (idx : list Z) : M (vstate V) (option (list Z)) :=
  match k with
  | O => ret (Some idx)
  | S k =>
    let* i := alloc_desc in
    if decide (i < 0) then for_list idx (λ j _, free_desc j) tt ;;; ret None
    else alloc_descs k (idx ++ [i])
  end.
Definition alloc3_desc : M (vstate V) (option (list Z)) := alloc_descs 3 [].

(** virtio_disk.c:508-538: the three descriptors of a request for [b] *)
Definition fill_request (i0 i1 i2 : nat) (b : Z) (write : bool) : M (vstate V) unit :=
  let sector := u32 (b * (BSIZE / 512)) in
  upd (λ d, set_ops (<[i0 := mkVreq (if write then VIRTIO_BLK_T_OUT else VIRTIO_BLK_T_IN) 0 sector]> (ops d)) d) ;;;
  set_desc_at i0 (mkDesc (AOps i0) VIRTIO_BLK_REQ_SIZE VRING_DESC_F_NEXT (Z.of_nat i1)) ;;;
  set_desc_at i1 (mkDesc (AData b) BSIZE
    (Z.lor (if write then 0 else VRING_DESC_F_WRITE) VRING_DESC_F_NEXT) (Z.of_nat i2)) ;;;
  upd (λ d, set_info (alter (λ x, mkInfo (i_buf x) 255) i0 (info d)) d) ;;;
  set_desc_at i2 (mkDesc (AStatus i0) 1 VRING_DESC_F_WRITE 0) ;;;
  upd (λ d, set_busy (b :: busy d) d) ;;;
  upd (λ d, set_info (alter (λ x, mkInfo (Some b) (i_status x)) i0 (info d)) d).

(** virtio_disk.c:540-544 *)
Definition publish (i0 : nat) : M (vstate V) unit :=
  upd (λ d, set_avail (<[Z.to_nat (avail_idx d mod Z.of_nat NUM) := Z.of_nat i0]> (avail_ring d)) (avail_idx d) d) ;;;
  upd (λ d, set_avail (avail_ring d) (u16 (avail_idx d + 1)) d).

(** virtio_disk.c:548, and the device *)
Definition notify (data : bytes) : M (vstate V) bytes := λ s,
  let '(d, v, data') := vio_notify (vd s) (dev s) data in Ok (data', mkV d v).

(** virtio_disk.c:567-579: one round per entry the device added *)
Fixpoint intr_loop (fuel : nat) : M (vstate V) unit :=
  let* a := getd used_idx in
  let* e := getd used_end in
  if decide (a ≠ e) then
    match fuel with
    | O => fail NoFuel
    | S fuel =>
      let* l := getd used_ring in
      let* id := deref (aget l (a mod Z.of_nat NUM)) in
      let* fs := getd info in
      let* x := deref (aget fs id) in
      if decide (i_status x ≠ 0) then panic "virtio_disk_intr status" else
      let* b := deref (i_buf x) in
      upd (λ d, set_busy (filter (λ c, c ≠ b) (busy d)) d) ;;;
      upd (λ d, set_used_idx (u16 (used_idx d + 1)) d) ;;;
      intr_loop fuel
    end
  else ret tt.
(** virtio_disk.c:559-582 *)
Definition virtio_disk_intr : M (vstate V) unit :=
  let* a := getd used_idx in
  let* e := getd used_end in
  intr_loop (Z.to_nat (u16 (e - a))).

(** virtio_disk.c:495-557: the sleep ends with the interrupt *)
Definition driver_rw (b : Z) (data : bytes) (write : bool) : M (vstate V) bytes :=
  let* o := alloc3_desc in
  match o with
  | Some [i0; i1; i2] =>
    fill_request (Z.to_nat i0) (Z.to_nat i1) (Z.to_nat i2) b write ;;;
    publish (Z.to_nat i0) ;;;
    let* data' := notify data in
    virtio_disk_intr ;;;
    let* l := getd busy in
    if decide (b ∈ l) then fail Blocked else
    upd (λ d, set_info (alter (λ x, mkInfo None (i_status x)) (Z.to_nat i0) (info d)) d) ;;;
    free_chain i0 ;;;
    ret data'
  | _ => fail Blocked
  end.

(** ** Initialisation *)
Definition on_dev {A} (m : M V A) : M (vstate V) A := λ s,
  match m (dev s) with
  | Ok (a, v) => Ok (a, mkV (vd s) v)
  | Panic msg => Panic msg
  | Ub => Ub
  | Blocked => Blocked
  | NoFuel => NoFuel
  end.
Definition R (r : Z) : M (vstate V) Z := on_dev (vio_read r).
Definition setR (r v : Z) : M (vstate V) unit := on_dev (vio_write r (u32 v)).

Context `{VirtioRegs}.

(** virtio_disk.c:387-395 *)
Definition negotiate (features : Z) : Z :=
  foldl (λ f bit, Z.ldiff f (Z.shiftl 1 bit)) features
    [BLK_F_RO; BLK_F_SCSI; BLK_F_CONFIG_WCE; BLK_F_MQ; F_ANY_LAYOUT; RING_F_EVENT_IDX; RING_F_INDIRECT_DESC].

(** virtio_disk.c:365-440; [pd], [pa] and [pu] are the results of the three
    calls of [kalloc] *)
Definition virtio_disk_init (pd pa pu : Z) : M (vstate V) unit :=
  let* magic := R MMIO_MAGIC_VALUE in
  let* version := R MMIO_VERSION in
  let* device := R MMIO_DEVICE_ID in
  let* vendor := R MMIO_VENDOR_ID in
  if decide (magic ≠ 1953655158 ∨ version ≠ 2 ∨ device ≠ 2 ∨ vendor ≠ 1431127377)
  then panic "could not find virtio disk" else
  setR MMIO_STATUS 0 ;;;
  let status := Z.lor 0 S_ACKNOWLEDGE in
  setR MMIO_STATUS status ;;;
  let status := Z.lor status S_DRIVER in
  setR MMIO_STATUS status ;;;
  let* features := R MMIO_DEVICE_FEATURES in
  setR MMIO_DRIVER_FEATURES (negotiate features) ;;;
  let status := Z.lor status S_FEATURES_OK in
  setR MMIO_STATUS status ;;;
  let* status := R MMIO_STATUS in
  if decide (Z.land status S_FEATURES_OK = 0) then panic "virtio disk FEATURES_OK unset" else
  setR MMIO_QUEUE_SEL 0 ;;;
  let* ready := R MMIO_QUEUE_READY in
  if decide (ready ≠ 0) then panic "virtio disk should not be ready" else
  let* max := R MMIO_QUEUE_NUM_MAX in
  if decide (max = 0) then panic "virtio disk has no queue 0" else
  if decide (max < Z.of_nat NUM) then panic "virtio disk max queue too short" else
  if decide (pd = 0 ∨ pa = 0 ∨ pu = 0) then panic "virtio disk kalloc" else
  upd (λ d, set_desc (replicate NUM desc0) d) ;;;
  upd (λ d, set_avail (replicate NUM 0) 0 d) ;;;
  upd (λ d, set_used (replicate NUM 0) 0 d) ;;;
  setR MMIO_QUEUE_NUM (Z.of_nat NUM) ;;;
  setR MMIO_QUEUE_DESC_LOW pd ;;; setR MMIO_QUEUE_DESC_HIGH (Z.shiftr pd 32) ;;;
  setR MMIO_DRIVER_DESC_LOW pa ;;; setR MMIO_DRIVER_DESC_HIGH (Z.shiftr pa 32) ;;;
  setR MMIO_DEVICE_DESC_LOW pu ;;; setR MMIO_DEVICE_DESC_HIGH (Z.shiftr pu 32) ;;;
  setR MMIO_QUEUE_READY 1 ;;;
  upd (λ d, set_free (replicate NUM true) d) ;;;
  setR MMIO_STATUS (Z.lor status S_DRIVER_OK).
End driver.

(** ** What the device does with a request (virtio 1.1, 2.6 and 5.2.6) *)
Section law.
Context `{BlockParams} `{VirtioParams}.

(** A chain of three descriptors: the header of a request for [sector] that
    reads or writes the data of buffer [b], and its status byte. *)
Record posted (d : vdisk) (i0 : nat) (b : Z) (write : bool) (sector : Z) : Prop := {
  po_chain : ∃ i1 i2,
    desc d !! i0 = Some (mkDesc (AOps i0) VIRTIO_BLK_REQ_SIZE VRING_DESC_F_NEXT (Z.of_nat i1)) ∧
    desc d !! i1 = Some (mkDesc (AData b) BSIZE (Z.lor (if write then 0 else VRING_DESC_F_WRITE) VRING_DESC_F_NEXT) (Z.of_nat i2)) ∧
    desc d !! i2 = Some (mkDesc (AStatus i0) 1 VRING_DESC_F_WRITE 0);
  po_req : ops d !! i0 = Some (mkVreq (if write then VIRTIO_BLK_T_OUT else VIRTIO_BLK_T_IN) 0 sector);
  po_avail : aget (avail_ring d) (u16 (avail_idx d - 1) mod Z.of_nat NUM) = Some (Z.of_nat i0);
  po_last : used_end d = u16 (avail_idx d - 1);
}.

(** The rings after the device has used the chain. *)
Definition completed (d : vdisk) (i0 : nat) : vdisk :=
  set_used (<[Z.to_nat (used_end d mod Z.of_nat NUM) := Z.of_nat i0]> (used_ring d)) (u16 (used_end d + 1))
    (set_info (alter (λ x, mkInfo (i_buf x) 0) i0 (info d)) d).

(** The sectors [s], ..., [s + n - 1]. *)
Definition extent (m : Z → bytes) (s n : Z) : bytes := mjoin (m <$> seqZ s n).
End law.

Class VirtioDeviceSpec `{BlockParams} `{VirtioParams} (V : Type) `{!VirtioDevice V} := {
  media : V → Z → bytes;
  media_length v k : length (media v k) = 512%nat;
  vio_in d v x i0 b sector :
    posted d i0 b false sector → 0 ≤ sector →
    ∃ v', vio_notify d v x = (completed d i0, v', extent (media v) sector (BSIZE / 512)) ∧ ∀ k, media v' k = media v k;
  vio_out d v x i0 b sector :
    posted d i0 b true sector → 0 ≤ sector → length x = bsize →
    ∃ v', vio_notify d v x = (completed d i0, v', x) ∧ extent (media v') sector (BSIZE / 512) = x ∧
      ∀ k, ¬ (sector ≤ k < sector + BSIZE / 512) → media v' k = media v k;
}.
