(* ===== verification/VirtioProps.v ===== *)
(** * The virtio driver implements the block interface of bio.c

    One request of [driver_rw] run symbolically: three descriptors are taken,
    the chain is published, the device completes it, the interrupt handler
    finds one used entry, and the chain is freed.  The result discharges
    [DiskDriverSpec], so the buffer cache can be run over this driver. *)
From S2P Require Import Prelude Interfaces Virtio.
Local Open Scope Z_scope.

Section driver_ok.
Context `{BlockParams} `{VirtioParams} {V : Type} `{!VirtioDevice V}.
Implicit Types (d : vdisk) (v : V).

(** ** The state between requests *)
Record vwf (d : vdisk) : Prop := {
  vi_desc : length (desc d) = NUM;
  vi_avail : length (avail_ring d) = NUM;
  vi_used : length (used_ring d) = NUM;
  vi_info : length (info d) = NUM;
  vi_ops : length (ops d) = NUM;
  vi_idx : used_idx d = used_end d ∧ avail_idx d = used_end d;
  vi_range : 0 ≤ used_end d < 2 ^ 16;
}.
Record vidle (d : vdisk) : Prop := {
  vi_wf : vwf d;
  vi_free : free d = replicate NUM true;
  vi_busy : busy d = [];
}.

Lemma NUM_ge3 : (3 ≤ NUM)%nat.
Proof. pose proof NUM_range. lia. Qed.

Lemma replicate_3 {A} n (x : A) : (3 ≤ n)%nat → replicate n x = x :: x :: x :: replicate (n - 3) x.
Proof. intros Hn. destruct n as [|[|[|n]]]; try lia. cbn. by rewrite Nat.sub_0_r. Qed.

(** ** Descriptors *)
(** The first free descriptor is taken. *)
Lemma alloc_desc_some d v i l :
  free d = replicate i false ++ true :: l →
  alloc_desc (mkV d v) = Ok (Z.of_nat i, mkV (set_free (replicate (S i) false ++ l) d) v).
Proof.
  intros Hf.
  assert (list_find (λ b : bool, b = true) (free d) = Some (i, true)) as E.
  { rewrite Hf. apply list_find_app_Some. right. rewrite length_replicate, Nat.sub_diag.
    split; [lia|]. split; [|reflexivity]. apply list_find_None, Forall_replicate. discriminate. }
  assert (<[i := false]> (free d) = replicate (S i) false ++ l) as E2.
  { rewrite Hf, insert_app_r_alt by (rewrite length_replicate; lia).
    rewrite length_replicate, Nat.sub_diag, replicate_S_end, <- app_assoc. reflexivity. }
  unfold alloc_desc, bind, getd, gets, upd, modify. cbn [vd dev]. rewrite E. cbn [vd dev]. rewrite E2. reflexivity.
Qed.

Lemma alloc3_desc_ok d v l :
  free d = true :: true :: true :: l →
  alloc3_desc (mkV d v) = Ok (Some [0; 1; 2], mkV (set_free (false :: false :: false :: l) d) v).
Proof.
  intros Hf. unfold alloc3_desc. cbn [alloc_descs].
  rewrite (bind_ok _ _ _ _ _ (alloc_desc_some d v 0 _ Hf)). cbn [decide Z.of_nat].
  rewrite decide_False by lia.
  rewrite (bind_ok _ _ _ _ _ (alloc_desc_some (set_free (replicate 1 false ++ true :: true :: l) d) v 1 (true :: l) eq_refl)).
  rewrite decide_False by lia.
  rewrite (bind_ok _ _ _ _ _ (alloc_desc_some (set_free (replicate 2 false ++ true :: l) (set_free (replicate 1 false ++ true :: true :: l) d)) v 2 l eq_refl)).
  rewrite decide_False by lia. reflexivity.
Qed.

Lemma free_desc_ok d v (i : nat) :
  (i < NUM)%nat → free d !! i = Some false →
  free_desc (Z.of_nat i) (mkV d v) =
  Ok (tt, mkV (set_free (<[i := true]> (free d)) (set_desc (<[i := desc0]> (desc d)) d)) v).
Proof.
  intros Hi Hf. unfold free_desc. rewrite decide_False by lia.
  unfold bind, getd, gets. cbn [vd]. rewrite aget_of_nat, Hf. cbn [deref ret].
  unfold set_desc_at, upd, modify. cbn [vd dev]. rewrite Nat2Z.id. reflexivity.
Qed.

(** [free_desc] never frees twice. *)
Lemma free_desc_twice d v (i : nat) :
  (i < NUM)%nat → free d !! i = Some true → free_desc (Z.of_nat i) (mkV d v) = Panic "free_desc 2".
Proof.
  intros Hi Hf. unfold free_desc. rewrite decide_False by lia.
  unfold bind, getd, gets. cbn [vd]. rewrite aget_of_nat, Hf. reflexivity.
Qed.

Definition freed (i : nat) (d : vdisk) : vdisk :=
  set_free (<[i := true]> (free d)) (set_desc (<[i := desc0]> (desc d)) d).

Lemma free_chain_step fuel d v (i : nat) x :
  (i < NUM)%nat → free d !! i = Some false → desc d !! i = Some x →
  free_chain_loop (S fuel) (Z.of_nat i) (mkV d v) =
  (if decide (Z.land (d_flags x) VRING_DESC_F_NEXT ≠ 0) then free_chain_loop fuel (d_next x) else ret tt)
    (mkV (freed i d) v).
Proof.
  intros Hi Hf Hx. cbn [free_chain_loop]. unfold bind at 1, getd, gets. cbn [vd].
  rewrite aget_of_nat, Hx. cbn [deref]. rewrite bind_ret_l.
  rewrite (bind_ok _ _ _ _ _ (free_desc_ok d v i Hi Hf)). reflexivity.
Qed.

(** *** [free_chain] terminates, whatever the descriptors hold: a round takes
    one descriptor from "allocated" to "free". *)
Definition allocated (d : vdisk) : nat := length (filter (λ b, b = false) (free d)).

Lemma filter_insert_true (l : list bool) i :
  l !! i = Some false →
  S (length (filter (λ b, b = false) (<[i := true]> l))) = length (filter (λ b, b = false) l).
Proof.
  revert i. induction l as [|b l IH]; intros [|i] Hl; try discriminate Hl.
  - injection Hl as ->. reflexivity.
  - change (<[S i := true]> (b :: l)) with (b :: <[i := true]> l).
    rewrite !filter_cons. specialize (IH i Hl). destruct (decide (b = false)); cbn [length]; lia.
Qed.

Lemma free_chain_loop_total fuel i d v :
  (allocated d < fuel)%nat → free_chain_loop fuel i (mkV d v) ≠ NoFuel.
Proof.
  revert i d. induction fuel as [|fuel IH]; intros i d Hf; [lia|].
  cbn [free_chain_loop]. unfold bind at 1, getd, gets. cbn [vd].
  destruct (aget (desc d) i) as [x|] eqn:Ex; [|discriminate]. cbn [deref]. rewrite bind_ret_l.
  unfold aget in Ex. case_decide as Hi; [|discriminate Ex].
  destruct (decide (Z.of_nat NUM ≤ i)) as [Hn|Hn].
  { unfold bind, free_desc. rewrite decide_True by done. discriminate. }
  assert (Z.to_nat i < NUM)%nat as Hlt by lia.
  rewrite <- (Z2Nat.id i) by done.
  destruct (free d !! Z.to_nat i) as [[]|] eqn:Eb.
  - unfold bind. rewrite free_desc_twice by done. discriminate.
  - rewrite (bind_ok _ _ _ _ _ (free_desc_ok d v _ Hlt Eb)).
    case_decide; [|discriminate]. apply IH. unfold allocated in *. cbn [free set_free set_desc].
    pose proof (filter_insert_true _ _ Eb). lia.
  - unfold free_desc, bind. rewrite decide_False by lia. unfold getd, gets. cbn [vd].
    rewrite aget_of_nat, Eb. discriminate.
Qed.

Lemma free_chain_total i d v : length (free d) = NUM → free_chain i (mkV d v) ≠ NoFuel.
Proof.
  intros Hl. apply free_chain_loop_total. unfold allocated.
  pose proof (length_filter (λ b, b = false) (free d)). lia.
Qed.

(** ** A request *)
(** What [fill_request] and [publish] leave in the rings, on descriptors 0, 1
    and 2. *)
Definition sector_of (b : Z) : Z := u32 (b * (BSIZE / 512)).
Definition chain (b : Z) (write : bool) (l : list vdesc) : list vdesc :=
  <[2%nat := mkDesc (AStatus 0) 1 VRING_DESC_F_WRITE 0]>
  (<[1%nat := mkDesc (AData b) BSIZE (Z.lor (if write then 0 else VRING_DESC_F_WRITE) VRING_DESC_F_NEXT) 2]>
  (<[0%nat := mkDesc (AOps 0) VIRTIO_BLK_REQ_SIZE VRING_DESC_F_NEXT 1]> l)).
Definition request (b : Z) (write : bool) (d : vdisk) : vdisk :=
  mkDisk (chain b write (desc d))
    (<[Z.to_nat (avail_idx d mod Z.of_nat NUM) := 0]> (avail_ring d)) (u16 (avail_idx d + 1))
    (used_ring d) (used_end d) (free d) (used_idx d)
    (alter (λ x, mkInfo (Some b) (i_status x)) 0%nat (alter (λ x, mkInfo (i_buf x) 255) 0%nat (info d)))
    (<[0%nat := mkVreq (if write then VIRTIO_BLK_T_OUT else VIRTIO_BLK_T_IN) 0 (sector_of b)]> (ops d))
    (b :: busy d).

Lemma fill_publish_ok d v b write :
  (fill_request 0 1 2 b write ;;; publish 0) (mkV d v) = Ok (tt, mkV (request b write d) v).
Proof. reflexivity. Qed.

Lemma u16_pred z : 0 ≤ z < 2 ^ 16 → u16 (u16 (z + 1) - 1) = z.
Proof. intros Hz. unfold u16. rewrite Zminus_mod_idemp_l, Z.add_simpl_r. by apply Z.mod_small. Qed.

Lemma ring_slot z : (Z.to_nat (z mod Z.of_nat NUM) < NUM)%nat.
Proof. pose proof NUM_ge3. pose proof (Z.mod_pos_bound z (Z.of_nat NUM)). lia. Qed.

Lemma request_posted d b write :
  vwf d → posted (request b write d) 0 b write (sector_of b).
Proof.
  intros [Hd Ha Hu Hn Ho [Hi1 Hi2] Hr]. pose proof NUM_ge3.
  split; cbn [request desc ops avail_ring avail_idx used_end].
  - exists 1%nat, 2%nat. unfold chain. split_and!.
    + rewrite !list_lookup_insert_ne by lia. apply list_lookup_insert_eq. lia.
    + rewrite list_lookup_insert_ne by lia. apply list_lookup_insert_eq. rewrite length_insert. lia.
    + apply list_lookup_insert_eq. rewrite !length_insert. lia.
  - apply list_lookup_insert_eq. lia.
  - rewrite Hi2, u16_pred by done. unfold aget.
    pose proof (Z.mod_pos_bound (used_end d) (Z.of_nat NUM)).
    rewrite decide_True by lia. apply list_lookup_insert_eq. rewrite Ha. apply ring_slot.
  - by rewrite Hi2, u16_pred.
Qed.

(** *** The interrupt: exactly one entry is used. *)
Lemma intr_idle fuel d v : used_idx d = used_end d → intr_loop fuel (mkV d v) = Ok (tt, mkV d v).
Proof.
  intros E. destruct fuel; cbn [intr_loop]; unfold bind, getd, gets; cbn [vd]; by rewrite decide_False by auto.
Qed.

Lemma intr_one d v (id : Z) b :
  0 ≤ used_idx d < 2 ^ 16 → used_end d = u16 (used_idx d + 1) →
  aget (used_ring d) (used_idx d mod Z.of_nat NUM) = Some id →
  aget (info d) id = Some (mkInfo (Some b) 0) →
  virtio_disk_intr (mkV d v) =
  Ok (tt, mkV (set_used_idx (used_end d) (set_busy (filter (λ c, c ≠ b) (busy d)) d)) v).
Proof.
  intros Hr He Hring Hinfo. unfold virtio_disk_intr.
  unfold bind at 1, getd, gets. cbn [vd]. unfold bind at 1. cbn [vd].
  assert (u16 (used_end d - used_idx d) = 1) as ->.
  { rewrite He. unfold u16. rewrite Zminus_mod_idemp_l. by replace (used_idx d + 1 - used_idx d) with 1 by lia. }
  assert (used_idx d ≠ used_end d) as Hne.
  { rewrite He. unfold u16. destruct (decide (used_idx d = 2 ^ 16 - 1)) as [->|]; [done|].
    rewrite Z.mod_small; lia. }
  change (Z.to_nat 1) with 1%nat. cbn [intr_loop]. unfold bind at 1, getd at 1, gets at 1. cbn [vd].
  unfold bind at 1, getd at 1, gets at 1. cbn [vd]. rewrite decide_True by done.
  unfold bind at 1, getd at 1, gets at 1. cbn [vd]. rewrite Hring. cbn [deref]. rewrite bind_ret_l.
  unfold bind at 1, getd at 1, gets at 1. cbn [vd]. rewrite Hinfo. cbn [deref i_status i_buf].
  rewrite bind_ret_l, decide_False by (intros Hbad; by apply Hbad). cbn [deref i_buf]. rewrite bind_ret_l.
  rewrite (bind_ok _ _ _ _ _ eq_refl), (bind_ok _ _ _ _ _ eq_refl). cbn [vd dev].
  fold (intr_loop (V:=V) 0). rewrite intr_idle by (cbn; by rewrite He).
  cbn [used_idx set_busy]. by rewrite <- He.
Qed.

(** *** The chain is freed. *)
Lemma free_chain_3 d v b write l :
  length (desc d) = NUM → free d = false :: false :: false :: l →
  free_chain 0 (mkV (set_desc (chain b write (desc d)) d) v) =
  Ok (tt, mkV (freed 2 (freed 1 (freed 0 (set_desc (chain b write (desc d)) d)))) v).
Proof.
  intros Hd Hf. pose proof NUM_ge3 as H3. destruct VRING_DESC_F_val as [Hn Hw].
  unfold free_chain. change 0 with (Z.of_nat 0).
  destruct NUM as [|[|[|n]]] eqn:EN; try lia. rewrite <- EN in Hd.
  destruct (desc d) as [|x0 [|x1 [|x2 ld]]] eqn:Ed; cbn [length] in Hd; try (exfalso; lia).
  erewrite (free_chain_step _ _ v 0); [|lia|cbn; by rewrite Hf|reflexivity].
  cbn [d_flags d_next]. rewrite Hn, decide_True by discriminate.
  change 1 with (Z.of_nat 1).
  erewrite (free_chain_step _ _ v 1); [|lia|cbn; by rewrite Hf|reflexivity].
  cbn [d_flags d_next]. rewrite Hn, Hw, decide_True by (by destruct write).
  change 2 with (Z.of_nat 2).
  erewrite (free_chain_step _ _ v 2); [|lia|cbn; by rewrite Hf|reflexivity].
  cbn [d_flags d_next]. rewrite Hn, Hw, decide_False by (intros Hbad; by apply Hbad). reflexivity.
Qed.

(** ** A whole transfer *)
(** The rings when the device is notified. *)
Definition in_flight (b : Z) (write : bool) (d : vdisk) : vdisk :=
  request b write (set_free (false :: false :: false :: replicate (NUM - 3) true) d).

Lemma in_flight_posted d b write : vidle d → posted (in_flight b write d) 0 b write (sector_of b).
Proof. intros [Hwf _ _]. apply request_posted. by destruct Hwf. Qed.

(** The rings when the interrupt handler is done, and when the request is. *)
Definition answered (b : Z) (write : bool) (d : vdisk) : vdisk :=
  let d1 := completed (in_flight b write d) 0 in set_used_idx (used_end d1) (set_busy [] d1).
Definition finished (b : Z) (write : bool) (d : vdisk) : vdisk :=
  let d2 := answered b write d in
  freed 2 (freed 1 (freed 0 (set_info (alter (λ x, mkInfo None (i_status x)) 0%nat (info d2)) d2))).

Lemma intr_answers d v b write :
  vidle d → virtio_disk_intr (mkV (completed (in_flight b write d) 0) v) = Ok (tt, mkV (answered b write d) v).
Proof.
  intros [[Hd Ha Hu Hn Ho [Hi1 Hi2] Hr] Hf Hb]. pose proof NUM_ge3.
  destruct (lookup_lt_is_Some_2 (info d) 0) as [x0 Hx0]; [lia|].
  rewrite (intr_one _ v 0 b).
  - change (busy (completed (in_flight b write d) 0)) with (b :: busy d).
    rewrite Hb, filter_cons_False by (intros Hbad; by apply Hbad). reflexivity.
  - cbn. lia.
  - cbn. by rewrite Hi1.
  - cbn. rewrite Hi1. unfold aget. pose proof (Z.mod_pos_bound (used_end d) (Z.of_nat NUM)).
    rewrite decide_True by lia. apply list_lookup_insert_eq. rewrite Hu. apply ring_slot.
  - cbn. change 0 with (Z.of_nat 0). rewrite aget_of_nat, !list_lookup_alter_eq, Hx0. reflexivity.
Qed.

Lemma finished_idle d b write : vidle d → vidle (finished b write d).
Proof.
  intros [[Hd Ha Hu Hn Ho [Hi1 Hi2] Hr] Hf Hb]. pose proof NUM_ge3 as H3. split; [split|..]; cbn.
  - unfold chain. by rewrite !length_insert.
  - by rewrite length_insert.
  - by rewrite length_insert.
  - by rewrite !length_alter.
  - by rewrite length_insert.
  - by rewrite Hi2.
  - apply Z.mod_pos_bound. lia.
  - rewrite (replicate_3 NUM true) by done. reflexivity.
  - reflexivity.
Qed.

Lemma driver_rw_ok d v v' b x x' write :
  vidle d → vio_notify (in_flight b write d) v x = (completed (in_flight b write d) 0, v', x') →
  driver_rw b x write (mkV d v) = Ok (x', mkV (finished b write d) v').
Proof.
  intros Hi Hv. pose proof Hi as [[Hd _ _ _ _ _ _] Hf _]. pose proof NUM_ge3 as H3. unfold driver_rw.
  assert (free d = true :: true :: true :: replicate (NUM - 3) true) as Hf'.
  { rewrite Hf. by apply replicate_3. }
  rewrite (bind_ok _ _ _ _ _ (alloc3_desc_ok d v _ Hf')).
  rewrite <- bind_assoc, (bind_ok _ _ _ _ _ (fill_publish_ok _ _ b write)).
  fold (in_flight b write d). unfold bind at 1, notify. cbn [vd dev]. rewrite Hv.
  rewrite (bind_ok _ _ _ _ _ (intr_answers d v' b write Hi)).
  unfold bind at 1, getd at 1, gets at 1. cbn [vd]. rewrite decide_False by apply not_elem_of_nil.
  rewrite (bind_ok _ _ _ _ _ eq_refl). cbn [vd dev Z.to_nat].
  exact (bind_ok (free_chain 0) (λ _, ret x') _ tt _ (free_chain_3
    (set_desc (desc d) (set_info (alter (λ y, mkInfo None (i_status y)) 0%nat (info (answered b write d))) (answered b write d)))
    v' b write _ Hd eq_refl)).
Qed.

End driver_ok.

(** ** The interface of the buffer cache *)
#[export] Instance virtio_driver `{BlockParams} `{VirtioParams} {V} `{!VirtioDevice V} : DiskDriver (vstate V) :=
  {| virtio_disk_rw := driver_rw |}.

Section refinement.
Context `{BlockParams} `{VirtioParams} {V : Type} `{!VirtioDevice V, !VirtioDeviceSpec V}.
Hypothesis BSIZE_1024 : BSIZE = 1024.

Definition vblock (s : vstate V) (n : Z) : bytes := extent (media (dev s)) (n * (BSIZE / 512)) (BSIZE / 512).

Lemma vblock_length s n : length (vblock s n) = bsize.
Proof.
  unfold vblock, extent. rewrite (length_join_const _ 512) by apply media_length.
  rewrite length_seqZ. unfold bsize. rewrite BSIZE_1024. reflexivity.
Qed.

Lemma extent_ext m m' s n : (∀ k, s ≤ k < s + n → m k = m' k) → extent m s n = extent m' s n.
Proof. intros Hm. unfold extent. f_equal. apply list_fmap_ext. intros i k Hk%lookup_seqZ. apply Hm. lia. Qed.

Lemma sector_exact n : 0 ≤ n < 2 ^ 31 → sector_of n = n * (BSIZE / 512).
Proof. intros Hn. unfold sector_of. rewrite BSIZE_1024. apply u32_id. change (1024 / 512) with 2. lia. Qed.

Lemma driver_reads s n x :
  vidle (vd s) → 0 ≤ n < 2 ^ 31 →
  ∃ s', driver_rw n x false s = Ok (vblock s n, s') ∧ vidle (vd s') ∧ ∀ m, vblock s' m = vblock s m.
Proof.
  destruct s as [d v]. intros Hi Hn.
  destruct (vio_in _ v x 0 n _ (in_flight_posted d n false Hi)) as (v' & Hv & Hm).
  { rewrite sector_exact, BSIZE_1024 by done. change (1024 / 512) with 2. lia. }
  rewrite sector_exact in Hv by done. exists (mkV (finished n false d) v'). split_and!.
  - by apply driver_rw_ok.
  - by apply finished_idle.
  - intros m. apply extent_ext. intros k _. apply Hm.
Qed.

Lemma driver_writes s n x :
  vidle (vd s) → 0 ≤ n < 2 ^ 31 → length x = bsize →
  ∃ s', driver_rw n x true s = Ok (x, s') ∧ vidle (vd s') ∧
    ∀ m, vblock s' m = if decide (m = n) then x else vblock s m.
Proof.
  destruct s as [d v]. intros Hi Hn Hx.
  destruct (vio_out _ v x 0 n _ (in_flight_posted d n true Hi)) as (v' & Hv & Hm & Hk); [|done|].
  { rewrite sector_exact, BSIZE_1024 by done. change (1024 / 512) with 2. lia. }
  rewrite sector_exact in Hm, Hk by done. exists (mkV (finished n true d) v'). split_and!.
  - by apply driver_rw_ok.
  - by apply finished_idle.
  - intros m. case_decide as E; [by rewrite E|]. apply extent_ext. intros k Hrange. apply Hk.
    revert Hrange. rewrite BSIZE_1024. change (1024 / 512) with 2. cbn [dev]. lia.
Qed.

(** ** Initialisation *)
(** [static struct disk disk] before [virtio_disk_init]. *)
Definition vstatic (d : vdisk) : Prop :=
  info d = replicate NUM (mkInfo None 0) ∧ ops d = replicate NUM (mkVreq 0 0 0) ∧ used_idx d = 0 ∧ busy d = [].

Lemma on_dev_inv {A} (m : M V A) (s s' : vstate V) a : on_dev m s = Ok (a, s') → vd s' = vd s.
Proof. unfold on_dev. destruct (m (dev s)) as [[a1 v1]|?| | |]; intros Hm; by simplify_eq. Qed.

Ltac init_step Hrun :=
  lazymatch type of Hrun with
  | bind _ _ _ = Ok _ =>
    let a := fresh "r" in let t := fresh "t" in let E := fresh "E" in
    apply bind_inv in Hrun as (a & t & E & Hrun)
  | (if ?b then _ else _) _ = Ok _ => destruct b; [discriminate Hrun|]
  end.

Lemma virtio_init_idle `{VirtioRegs} pd pa pu s s' :
  vstatic (vd s) → virtio_disk_init pd pa pu s = Ok (tt, s') → vidle (vd s').
Proof.
  intros (Hn & Ho & Hu & Hb) Hrun. unfold virtio_disk_init in Hrun. repeat init_step Hrun.
  repeat match goal with
  | E : R _ ?t = Ok (_, ?t') |- _ => apply on_dev_inv in E
  | E : setR _ _ ?t = Ok (_, ?t') |- _ => apply on_dev_inv in E
  | E : upd _ ?t = Ok (_, ?t') |- _ => injection E as _ <-
  end.
  repeat match goal with
  | E : vd ?t = _ |- context [vd ?t] => rewrite E; cbn [vd]
  end.
  split; [split|..]; cbn; repeat match goal with
  | E : vd ?t = _ |- context [vd ?t] => rewrite E; cbn
  end; rewrite ?Hn, ?Ho, ?Hu, ?Hb, ?length_replicate; lia || done || (split; done).
Qed.

(** ** The reference: an array of blocks *)
Record breq := mkBreq { b_no : Z; b_data : bytes; b_write : bool }.
Definition breq_ok (r : breq) : Prop := 0 ≤ b_no r < 2 ^ 31 ∧ length (b_data r) = bsize.

Fixpoint array_run (m : Z → bytes) (l : list breq) : list bytes * (Z → bytes) :=
  match l with
  | [] => ([], m)
  | r :: l =>
    let m' := if b_write r then λ k, if decide (k = b_no r) then b_data r else m k else m in
    let '(out, m2) := array_run m' l in
    ((if b_write r then b_data r else m (b_no r)) :: out, m2)
  end.

(** The driver on the same requests, one after another. *)
Fixpoint disk_run (l : list breq) : M (vstate V) (list bytes) :=
  match l with
  | [] => ret []
  | r :: l =>
    let* x := driver_rw (b_no r) (b_data r) (b_write r) in
    let* out := disk_run l in
    ret (x :: out)
  end.

Lemma disk_run_ok l s m :
  vidle (vd s) → (∀ k, vblock s k = m k) → Forall breq_ok l →
  ∃ s', disk_run l s = Ok ((array_run m l).1, s') ∧ vidle (vd s') ∧ ∀ k, vblock s' k = (array_run m l).2 k.
Proof.
  revert s m. induction l as [|[n x w] l IH]; intros s m Hi Hm Hl; [by exists s|].
  apply Forall_cons in Hl as [[Hn Hx] Hl]. cbn [b_no b_data b_write] in *.
  cbn [disk_run array_run b_no b_data b_write]. destruct w.
  - destruct (driver_writes s n x Hi Hn Hx) as (s1 & E1 & Hi1 & Hm1).
    destruct (IH s1 (λ k, if decide (k = n) then x else m k) Hi1) as (s2 & E2 & Hi2 & Hm2); [|done|].
    { intros k. rewrite Hm1. by case_decide. }
    exists s2. rewrite (bind_ok _ _ _ _ _ E1), (bind_ok _ _ _ _ _ E2).
    revert Hm2. destruct (array_run _ l) as [out m2]. by intros Hm2.
  - destruct (driver_reads s n x Hi Hn) as (s1 & E1 & Hi1 & Hm1).
    destruct (IH s1 m Hi1) as (s2 & E2 & Hi2 & Hm2); [|done|].
    { intros k. by rewrite Hm1. }
    exists s2. rewrite (bind_ok _ _ _ _ _ E1), (bind_ok _ _ _ _ _ E2).
    revert Hm2. destruct (array_run _ l) as [out m2]. rewrite Hm. by intros Hm2.
Qed.

Program Definition virtio_driver_spec : DiskDriverSpec (vstate V) :=
  {| drv_inv s := vidle (vd s); drv_block := vblock |}.
Next Obligation. intros s n _. apply vblock_length. Qed.
Next Obligation. exact driver_reads. Qed.
Next Obligation. exact driver_writes. Qed.
End refinement.

(** [C39] Refinement: once [virtio_disk_init] has returned on the zeroed
    [struct disk], the driver serves any sequence of requests as an array of
    blocks does: no request fails, waits for ever or panics, a read returns
    what was last written to its block (or what the medium held), and the
    medium ends as the array does.  Three descriptors are free again after
    every request, and the 16-bit ring indices may wrap around any number of
    times.  The device is any one that obeys the virtio specification. *)
Theorem virtio_refines_array `{BlockParams} `{VirtioParams} `{VirtioRegs} {V} `{!VirtioDevice V, !VirtioDeviceSpec V}
    pd pa pu (s0 s1 : vstate V) (l : list breq) :
  BSIZE = 1024 → vstatic (vd s0) → virtio_disk_init pd pa pu s0 = Ok (tt, s1) → Forall breq_ok l →
  ∃ s2, disk_run l s1 = Ok ((array_run (vblock s1) l).1, s2) ∧ free (vd s2) = replicate NUM true ∧
    ∀ k, vblock s2 k = (array_run (vblock s1) l).2 k.
Proof.
  intros HB Hs Hinit Hl. pose proof (virtio_init_idle pd pa pu s0 s1 Hs Hinit) as Hi.
  destruct (disk_run_ok HB l s1 (vblock s1) Hi (λ _, eq_refl) Hl) as (s2 & E & Hi2 & Hm).
  exists s2. split_and!; [exact E|exact (vi_free _ Hi2)|exact Hm].
Qed.

(** ** A concrete device *)
Module VirtioRuns.
#[local] Instance block_params : BlockParams.
Proof. refine {| PGSIZE := 4096; BSIZE := 1024; ROOTDEV := 1 |}; [reflexivity|lia|by exists 4|lia]. Defined.
#[local] Instance virtio_params : VirtioParams.
Proof.
  refine {| NUM := 8; VIRTIO_BLK_T_IN := 0; VIRTIO_BLK_T_OUT := 1; VRING_DESC_F_NEXT := 1; VRING_DESC_F_WRITE := 2;
            VIRTIO_BLK_REQ_SIZE := 16 |}; [|discriminate|done].
  split; [lia|]. apply Nat.leb_le. vm_compute. reflexivity.
Defined.
#[local] Instance virtio_regs : VirtioRegs :=
  {| MMIO_MAGIC_VALUE := 0; MMIO_VERSION := 4; MMIO_DEVICE_ID := 8; MMIO_VENDOR_ID := 12;
     MMIO_DEVICE_FEATURES := 16; MMIO_DRIVER_FEATURES := 32; MMIO_QUEUE_SEL := 48; MMIO_QUEUE_NUM_MAX := 52; MMIO_QUEUE_NUM := 56;
     MMIO_QUEUE_READY := 68; MMIO_STATUS := 112; MMIO_QUEUE_DESC_LOW := 128; MMIO_QUEUE_DESC_HIGH := 132;
     MMIO_DRIVER_DESC_LOW := 144; MMIO_DRIVER_DESC_HIGH := 148; MMIO_DEVICE_DESC_LOW := 160; MMIO_DEVICE_DESC_HIGH := 164;
     S_ACKNOWLEDGE := 1; S_DRIVER := 2; S_DRIVER_OK := 4; S_FEATURES_OK := 8;
     BLK_F_RO := 5; BLK_F_SCSI := 7; BLK_F_CONFIG_WCE := 11; BLK_F_MQ := 12;
     F_ANY_LAYOUT := 27; RING_F_EVENT_IDX := 29; RING_F_INDIRECT_DESC := 28 |}.

(** The medium is a function; a notification takes the newest entry of the
    available ring and follows the type and sector of its request. *)
Definition medium : Type := Z → bytes.
Definition put (m : medium) (sector : Z) (x : bytes) : medium := λ k,
  if decide (sector ≤ k < sector + 2) then slice x (Z.to_nat (k - sector) * 512) 512 else m k.
Definition sectors (m : medium) (k : Z) : bytes := take 512 (m k ++ replicate 512 0).
Definition serve (d : vdisk) (m : medium) (x : bytes) : vdisk * medium * bytes :=
  match aget (avail_ring d) (u16 (avail_idx d - 1) mod Z.of_nat NUM) with
  | Some i =>
    match ops d !! Z.to_nat i with
    | Some r =>
      if decide (v_type r = VIRTIO_BLK_T_OUT) then (completed d (Z.to_nat i), put m (v_sector r) x, x)
      else (completed d (Z.to_nat i), m, extent (sectors m) (v_sector r) 2)
    | None => (d, m, x)
    end
  | None => (d, m, x)
  end.
#[local] Instance device : VirtioDevice medium :=
  {| vio_notify := serve;
     vio_read r := ret (match r with 0 => 1953655158 | 4 => 2 | 8 => 2 | 12 => 1431127377 | 112 => 11 | 52 => 1024 | _ => 0 end);
     vio_write _ _ := ret tt |}.

Lemma put_extent m sector x : length x = 1024%nat → extent (sectors (put m sector x)) sector 2 = x.
Proof.
  intros Hx. unfold extent.
  assert (seqZ sector 2 = [sector; sector + 1]) as ->.
  { rewrite seqZ_cons, seqZ_cons by lia. reflexivity. }
  cbn [fmap list_fmap mjoin list_join]. rewrite app_nil_r. unfold sectors, put.
  rewrite !decide_True by lia. rewrite Z.sub_diag. replace (sector + 1 - sector) with 1 by lia.
  rewrite !take_app_le, !take_ge by (rewrite length_slice; lia).
  unfold slice. change (Z.to_nat 0 * 512)%nat with 0%nat. change (Z.to_nat 1 * 512)%nat with 512%nat.
  rewrite drop_0, (take_ge (drop 512 x)) by (rewrite length_drop; lia). apply take_drop.
Qed.

#[local] Instance device_spec : VirtioDeviceSpec medium.
Proof.
  refine {| media := sectors |}.
  - intros v k. unfold sectors. rewrite length_take, length_app, length_replicate. lia.
  - intros d v x i0 b sector [_ Hreq Hav _] _. exists v. split; [|done].
    cbn [vio_notify device]. unfold serve. rewrite Hav, Nat2Z.id, Hreq. reflexivity.
  - intros d v x i0 b sector [_ Hreq Hav _] _ Hx. exists (put v sector x). split_and!.
    + cbn [vio_notify device]. unfold serve. rewrite Hav, Nat2Z.id, Hreq. reflexivity.
    + exact (put_extent v sector x Hx).
    + intros k Hk. unfold sectors, put. by rewrite decide_False.
Defined.

Definition cold : vdisk :=
  mkDisk [] [] 0 [] 0 (replicate 8 false) 0 (replicate 8 (mkInfo None 0)) (replicate 8 (mkVreq 0 0 0)) [].
Definition boot : vstate medium := mkV cold (λ _, replicate 512 7).
Definition up : vstate medium :=
  match virtio_disk_init 4096 8192 12288 boot with Ok (_, s) => s | _ => boot end.
Definition trace : list breq :=
  [mkBreq 5 (replicate 1024 0) false; mkBreq 5 (replicate 1024 9) true; mkBreq 5 (replicate 1024 0) false;
   mkBreq 6 (replicate 1024 0) false].

Lemma up_run : virtio_disk_init 4096 8192 12288 boot = Ok (tt, up).
Proof. vm_compute. reflexivity. Qed.

Example trace_run :
  match disk_run trace up with Ok (out, _) => map (take 2) out = [[7; 7]; [9; 9]; [9; 9]; [7; 7]] | _ => False end.
Proof. vm_compute. reflexivity. Qed.

Lemma virtio_refines_array_witness :
  ∃ s2, disk_run trace up = Ok ((array_run (vblock up) trace).1, s2) ∧ free (vd s2) = replicate NUM true ∧
    ∀ k, vblock s2 k = (array_run (vblock up) trace).2 k.
Proof.
  refine (virtio_refines_array 4096 8192 12288 boot up trace eq_refl _ up_run _).
  - repeat split; reflexivity.
  - repeat constructor; cbn [b_no b_data]; lia || reflexivity.
Defined.
End VirtioRuns.
