(* ===== verification/Stack.v ===== *)
(** * The storage stack put together

    The RAID layer on the buffer cache, the cache on the request queue, and
    the queue on the virtio driver: each layer's theorem discharges the
    interface of the one above, so a swapped page survives the whole way to
    the sectors of the device and back. *)
From S2P Require Import Prelude Interfaces DiskQueue Bio Raid Virtio VirtioProps.
Local Open Scope Z_scope.

Section stack.
Context `{BlockParams} `{BcacheParams} `{SleepLock} `{VirtioParams} `{VirtioRegs}.
Context {V : Type} `{!VirtioDevice V, !VirtioDeviceSpec V}.
Hypothesis BSIZE_1024 : BSIZE = 1024.

#[local] Instance stack_driver : DiskDriverSpec (vstate V) := virtio_driver_spec BSIZE_1024.

(** The globals of bio.c before [binit], whatever the driver holds. *)
Definition globals0 (s : bio (vstate V)) : Prop :=
  length (bufs s) = S NBUF ∧
  (∀ i b, bufs s !! i = Some b → b_valid b = false ∧ b_refcnt b = 0 ∧ b_dev b = 0) ∧
  length (req_pool (bq s)) = MAX_DISK_REQS ∧ current_disk_head (bq s) = 0.

(** From the zeroed [struct disk] of virtio_disk.c and the zeroed globals of
    bio.c: [virtio_disk_init], then [binit], then a page written to a swap
    slot reads back, under each RAID mode. *)
Lemma swap_over_virtio pd pa pu (s0 s1 : vstate V) (s : raid (bio (vstate V))) slot (src dst : bytes) :
  vstatic (vd s0) → virtio_disk_init pd pa pu s0 = Ok (tt, s1) →
  globals0 (io s) → drv (io s) = s1 → valid_mode (raid_mode s) → 0 ≤ slot < MAX_SWAP_PAGES →
  length src = pgsize → length dst = pgsize →
  ∃ t0 t1 t2 : raid (bio (vstate V)), lift_io binit s = Ok (tt, t0) ∧ swap_disk_write slot src t0 = Ok (0, t1) ∧
    swap_disk_read slot dst t1 = Ok (0, src, t2).
Proof.
  intros Hst Hinit (Hl & Hz & Hp & Hh) Hd Hm Hslot Hsrc Hdst.
  assert (zeroed (io s)) as Hzero.
  { split; [exact Hl|exact Hz|exact Hp|exact Hh|]. rewrite Hd. exact (virtio_init_idle pd pa pu s0 s1 Hst Hinit). }
  destruct (binit_ok (io s) Hzero) as (b & E & Hb & _).
  destruct (dev_write_ok (with_io b s) slot src) as (t1 & E1 & Hi1 & Hpg); [done..|].
  destruct (dev_read_ok t1 slot dst) as (t2 & E2 & _); [done..|].
  exists (with_io b s), t1, t2. split_and!; [unfold lift_io; by rewrite E|done|].
  rewrite Hpg, decide_True in E2 by done. exact E2.
Qed.
End stack.
