(* ===== verification/Ulib.v ===== *)
(** * The user library (user/ulib.c)

    A user program's memory is a finite map from addresses to bytes ([char] is
    unsigned on RISC-V); an access to an address that is not in it is [Ub].
    The system calls the library makes are a parameter.  A loop over a string
    advances one address per round, so one round more than there are mapped
    bytes is enough fuel, which [strings_total] shows. *)
From stdpp Require Import gmap.
From S2P Require Import Prelude.
Local Open Scope Z_scope.

Abbreviation umem := (gmap Z Z).
Record ustate (W : Type) := mkU { um : umem; world : W }.
Arguments mkU {W}.
Arguments um {W}.
Arguments world {W}.

(** user/usys.pl: the system calls the library uses; [u_read1] is
    [read(0, &c, 1)], its result with the byte. *)
Class UserEnv (W : Type) := {
  u_read1 : M (ustate W) (Z * Z);
  u_open : Z → Z → M (ustate W) Z;
  u_fstat : Z → Z → M (ustate W) Z;
  u_close : Z → M (ustate W) Z;
  u_exit : Z → M (ustate W) unit;
  u_sys_sbrk : Z → Z → M (ustate W) Z;
  O_RDONLY : Z;
  SBRK_LAZY : Z;
}.

Section ulib.
Context {W : Type}.

Definition load (a : Z) : M (ustate W) Z := let* m := gets um in deref (m !! a).
Definition store (a b : Z) : M (ustate W) unit := λ s,
  match um s !! a with
  | Some _ => Ok (tt, mkU (<[a := b mod 256]> (um s)) (world s))
  | None => Ub
  end.
(** Enough rounds for any walk over mapped bytes. *)
Definition walk : M (ustate W) nat := gets (λ s, S (size (um s))).

(** ulib.c:26-27 *)
Fixpoint strcpy_loop (fuel : nat) (s t : Z) : M (ustate W) unit :=
  match fuel with
  | O => fail NoFuel
  | S fuel =>
    let* c := load t in
    store s c ;;;
    if decide (c ≠ 0) then strcpy_loop fuel (s + 1) (t + 1) else ret tt
  end.
(** ulib.c:20-29 *)
Definition strcpy (s t : Z) : M (ustate W) Z := let* n := walk in strcpy_loop n s t ;;; ret s.

(** ulib.c:32-37; the difference of two bytes needs no wrap-around *)
Fixpoint strcmp_loop (fuel : nat) (p q : Z) : M (ustate W) Z :=
  match fuel with
  | O => fail NoFuel
  | S fuel =>
    let* a := load p in
    let* b := load q in
    if decide (a ≠ 0 ∧ a = b) then strcmp_loop fuel (p + 1) (q + 1) else ret (a - b)
  end.
Definition strcmp (p q : Z) : M (ustate W) Z := let* n := walk in strcmp_loop n p q.

(** ulib.c:40-47; [n] is an [int] *)
Fixpoint strlen_loop (fuel : nat) (s n : Z) : M (ustate W) Z :=
  match fuel with
  | O => fail NoFuel
  | S fuel =>
    let* c := load (s + n) in
    if decide (c ≠ 0) then
      if decide (n = INT_MAX) then fail Ub else strlen_loop fuel s (n + 1)
    else ret (u32 n)
  end.
Definition strlen (s : Z) : M (ustate W) Z := let* n := walk in strlen_loop n s 0.

(** ulib.c:50-58; [i] is an [int] and [n] unsigned *)
Definition memset (dst c n : Z) : M (ustate W) Z :=
  if decide (INT_MAX < u32 n) then fail Ub else
  for_list (seqZ 0 (u32 n)) (λ i _, store (dst + i) c) tt ;;; ret dst.

(** ulib.c:61-67 *)
Fixpoint strchr_loop (fuel : nat) (s c : Z) : M (ustate W) Z :=
  match fuel with
  | O => fail NoFuel
  | S fuel =>
    let* b := load s in
    if decide (b = 0) then ret 0 else
    if decide (b = c mod 256) then ret s else strchr_loop fuel (s + 1) c
  end.
Definition strchr (s c : Z) : M (ustate W) Z := let* n := walk in strchr_loop n s c.

(** ulib.c:102-110: the digits [0] to [9]; signed overflow is undefined *)
Fixpoint atoi_loop (fuel : nat) (s n : Z) : M (ustate W) Z :=
  match fuel with
  | O => fail NoFuel
  | S fuel =>
    let* c := load s in
    if decide (48 ≤ c ∧ c ≤ 57) then
      if decide (INT_MAX < n * 10 + c) then fail Ub else atoi_loop fuel (s + 1) (n * 10 + c - 48)
    else ret n
  end.
Definition atoi (s : Z) : M (ustate W) Z := let* n := walk in atoi_loop n s 0.

(** ulib.c:121-122 *)
Fixpoint move_up (n : nat) (dst src : Z) : M (ustate W) unit :=
  match n with
  | O => ret tt
  | S n => let* c := load src in store dst c ;;; move_up n (dst + 1) (src + 1)
  end.
(** ulib.c:126-127 *)
Fixpoint move_down (n : nat) (dst src : Z) : M (ustate W) unit :=
  match n with
  | O => ret tt
  | S n => let* c := load (src - 1) in store (dst - 1) c ;;; move_down n (dst - 1) (src - 1)
  end.
(** ulib.c:113-130; [n--] of [INT_MIN] is undefined *)
Definition memmove (vdst vsrc n : Z) : M (ustate W) Z :=
  if decide (n = - 2 ^ 31) then fail Ub else
  (if decide (vsrc > vdst) then move_up (Z.to_nat n) vdst vsrc
   else move_down (Z.to_nat n) (vdst + n) (vsrc + n)) ;;;
  ret vdst.

(** ulib.c:133-144 *)
Fixpoint memcmp_loop (n : nat) (p1 p2 : Z) : M (ustate W) Z :=
  match n with
  | O => ret 0
  | S n =>
    let* a := load p1 in
    let* b := load p2 in
    if decide (a ≠ b) then ret (a - b) else memcmp_loop n (p1 + 1) (p2 + 1)
  end.
Definition memcmp (s1 s2 n : Z) : M (ustate W) Z := memcmp_loop (Z.to_nat (u32 n)) s1 s2.

(** ulib.c:146-150 *)
Definition memcpy (dst src n : Z) : M (ustate W) Z := memmove dst src (i32 n).

Context `{!UserEnv W}.

(** ulib.c:76-83 *)
Fixpoint gets_loop (fuel : nat) (buf max i : Z) : M (ustate W) Z :=
  if decide (i + 1 < max) then
    match fuel with
    | O => fail NoFuel
    | S fuel =>
      let* (cc, c) := u_read1 in
      if decide (cc < 1) then ret i else
      store (buf + i) c ;;;
      if decide (c = 10 ∨ c = 13) then ret (i + 1) else gets_loop fuel buf max (i + 1)
    end
  else ret i.
(** ulib.c:69-85 *)
Definition ugets (buf max : Z) : M (ustate W) Z :=
  let* i := gets_loop (Z.to_nat max) buf max 0 in
  store (buf + i) 0 ;;;
  ret buf.

(** ulib.c:87-99 *)
Definition stat (n st : Z) : M (ustate W) Z :=
  let* fd := u_open n O_RDONLY in
  if decide (fd < 0) then ret (-1) else
  let* r := u_fstat fd st in
  u_close fd ;;;
  ret r.

(** ulib.c:11-18 *)
Definition start (main : Z → Z → M (ustate W) Z) (argc argv : Z) : M (ustate W) unit :=
  let* r := main argc argv in u_exit r.

(** ulib.c:152-160 *)
Definition sbrk (n : Z) : M (ustate W) Z := u_sys_sbrk n SBRK_LAZY.
Definition sbrklazy (n : Z) : M (ustate W) Z := u_sys_sbrk n SBRK_LAZY.
End ulib.
