(* ===== verification/UlibProps.v ===== *)
(** * Properties of the user library

    [memmove] is the copy that reads everything first, whichever way the
    ranges overlap; the string loops end within their fuel, and on strings
    they compute what their names say. *)
From stdpp Require Import gmap.
From S2P Require Import Prelude Ulib.
Local Open Scope Z_scope.

Section props.
Context {W : Type}.
Implicit Types (m : umem) (s : ustate W) (w : W).

(** ** Memory *)
Definition ubytes (m : umem) : Prop := map_Forall (λ _ b, 0 ≤ b < 256) m.
Definition mapped (m : umem) (a n : Z) : Prop := Forall (λ k, is_Some (m !! k)) (seqZ a n).

(** The reference copy: every byte is read from the memory before the copy. *)
Definition blit (m : umem) (dst src n : Z) : umem :=
  foldr (λ i m', <[dst + i := default 0 (m !! (src + i))]> m') m (seqZ 0 n).

Lemma mapped_spec m a n : mapped m a n ↔ ∀ k, a ≤ k < a + n → is_Some (m !! k).
Proof. unfold mapped. rewrite Forall_forall. split; intros Hm k Hk; apply Hm; by apply elem_of_seqZ. Qed.

Lemma lookup_blit m dst src n a :
  blit m dst src n !! a =
  if decide (dst ≤ a < dst + n) then Some (default 0 (m !! (a - dst + src))) else m !! a.
Proof.
  unfold blit.
  assert (∀ l, foldr (λ i m', <[dst + i := default 0 (m !! (src + i))]> m') m l !! a =
    if decide (a - dst ∈ l) then Some (default 0 (m !! (a - dst + src))) else m !! a) as E.
  { induction l as [|i l IH]; [done|]. cbn [foldr]. destruct (decide (dst + i = a)) as [Ea|Ea].
    - rewrite Ea, lookup_insert_eq. rewrite decide_True by (apply elem_of_cons; left; lia). do 3 f_equal. lia.
    - rewrite lookup_insert_ne, IH by done.
      destruct (decide (a - dst ∈ l)) as [Hl|Hl]; [by rewrite decide_True by by right|].
      rewrite decide_False; [done|]. intros [Eb|]%elem_of_cons; [lia|done]. }
  rewrite E. destruct (decide (dst ≤ a < dst + n)) as [Ha|Ha].
  - rewrite decide_True; [done|]. apply elem_of_seqZ. lia.
  - rewrite decide_False; [done|]. rewrite elem_of_seqZ. lia.
Qed.

Lemma load_ok m w a b : m !! a = Some b → load a (mkU m w) = Ok (b, mkU m w).
Proof. intros E. unfold load, bind, gets. cbn [um]. by rewrite E. Qed.
Lemma load_ub m w a : m !! a = None → load a (mkU m w) = Ub.
Proof. intros E. unfold load, bind, gets. cbn [um]. by rewrite E. Qed.
Lemma store_ok m w a b c :
  m !! a = Some b → 0 ≤ c < 256 → store a c (mkU m w) = Ok (tt, mkU (<[a := c]> m) w).
Proof. intros E Hc. unfold store. cbn [um world]. by rewrite E, Z.mod_small. Qed.
Lemma store_ub m w a c : m !! a = None → store a c (mkU m w) = Ub.
Proof. intros E. unfold store. cbn [um]. by rewrite E. Qed.
Lemma ubytes_insert m a b : ubytes m → 0 ≤ b < 256 → ubytes (<[a := b]> m).
Proof. intros Hm Hb. by apply map_Forall_insert_2. Qed.

Lemma mapped_insert m k b a n : is_Some (m !! k) → mapped (<[k := b]> m) a n ↔ mapped m a n.
Proof.
  intros Hk. rewrite !mapped_spec. split; intros Hm j Hj; specialize (Hm j Hj);
    destruct (decide (k = j)) as [->|]; rewrite ?lookup_insert_eq, ?lookup_insert_ne in * by done; eauto.
Qed.

(** ** [memmove] *)
(** One round: the source byte is loaded and stored at the destination. *)
Definition copy1 (dst src : Z) : M (ustate W) unit := let* c := load src in store dst c.
Lemma copy1_cases m w dst src :
  ubytes m →
  (∃ c, m !! src = Some c ∧ is_Some (m !! dst) ∧ ubytes (<[dst := c]> m) ∧
     copy1 dst src (mkU m w) = Ok (tt, mkU (<[dst := c]> m) w)) ∨
  ((m !! src = None ∨ m !! dst = None) ∧ copy1 dst src (mkU m w) = Ub).
Proof.
  intros Hm. unfold copy1. destruct (m !! src) as [c|] eqn:Es; cycle 1.
  { right. split; [by left|]. unfold bind. by rewrite load_ub. }
  assert (0 ≤ c < 256) as Hc by exact (Hm _ _ Es). rewrite (bind_ok _ _ _ _ _ (load_ok m w src c Es)).
  destruct (m !! dst) as [d|] eqn:Ed; cycle 1.
  { right. split; [by right|]. by apply store_ub. }
  left. exists c. split_and!; [done|eauto|by apply ubytes_insert|by eapply store_ok].
Qed.

Lemma move_up_S n dst src s :
  move_up (S n) dst src s = (copy1 dst src ;;; move_up n (dst + 1) (src + 1)) s.
Proof. unfold copy1. by rewrite bind_assoc. Qed.
Lemma move_down_S n dst src s :
  move_down (S n) dst src s = (copy1 (dst - 1) (src - 1) ;;; move_down n (dst - 1) (src - 1)) s.
Proof. unfold copy1. by rewrite bind_assoc. Qed.

Definition both (m : umem) (dst src n : Z) : Prop := mapped m dst n ∧ mapped m src n.

Lemma move_up_spec (n : nat) m w dst src :
  ubytes m → dst < src →
  (both m dst src (Z.of_nat n) ∧ ∃ m', move_up n dst src (mkU m w) = Ok (tt, mkU m' w) ∧
     ∀ a, m' !! a = if decide (dst ≤ a < dst + Z.of_nat n) then m !! (a - dst + src) else m !! a) ∨
  (¬ both m dst src (Z.of_nat n) ∧ move_up n dst src (mkU m w) = Ub).
Proof.
  revert m dst src. induction n as [|n IH]; intros m dst src Hm Hlt.
  { left. split; [by split; apply mapped_spec; intros; lia|]. exists m. split; [done|].
    intros a. by rewrite decide_False by lia. }
  rewrite move_up_S. unfold both in *.
  destruct (copy1_cases m w dst src Hm) as [(c & Es & Hd & Hm1 & E)|[Hno E]]; cycle 1.
  { right. split; [|unfold bind; by rewrite E]. rewrite !mapped_spec. intros [H1 H2].
    destruct Hno as [Hno|Hno]; [destruct (H2 src) as [? E1]|destruct (H1 dst) as [? E1]]; [lia|congruence|lia|congruence]. }
  rewrite (bind_ok _ _ _ _ _ E).
  destruct (IH (<[dst := c]> m) (dst + 1) (src + 1) Hm1 ltac:(lia)) as [[[H1 H2] (m' & E' & Hm')]|[Hno E']]; cycle 1.
  - right. split; [|done]. rewrite !mapped_insert in Hno by done. rewrite !mapped_spec in *.
    intros [H1 H2]. apply Hno. split; intros k Hk; [apply H1|apply H2]; lia.
  - left. rewrite !mapped_insert in H1, H2 by done. rewrite !mapped_spec in *. split; [split|].
    + intros k Hk. destruct (decide (k = dst)) as [->|]; [done|apply H1; lia].
    + intros k Hk. destruct (decide (k = src)) as [->|]; [eauto|apply H2; lia].
    + exists m'. split; [done|]. intros a. rewrite Hm'.
      destruct (decide (dst + 1 ≤ a < dst + 1 + Z.of_nat n)); [|destruct (decide (a = dst)) as [->|]].
      * rewrite decide_True by lia. rewrite lookup_insert_ne by lia. f_equal. lia.
      * rewrite decide_True by lia. rewrite lookup_insert_eq, <- Es. f_equal. lia.
      * rewrite decide_False by lia. by rewrite lookup_insert_ne.
Qed.

Lemma move_down_spec (n : nat) m w dst src :
  ubytes m → src ≤ dst →
  (both m (dst - Z.of_nat n) (src - Z.of_nat n) (Z.of_nat n) ∧ ∃ m', move_down n dst src (mkU m w) = Ok (tt, mkU m' w) ∧
     ∀ a, m' !! a = if decide (dst - Z.of_nat n ≤ a < dst) then m !! (a - dst + src) else m !! a) ∨
  (¬ both m (dst - Z.of_nat n) (src - Z.of_nat n) (Z.of_nat n) ∧ move_down n dst src (mkU m w) = Ub).
Proof.
  revert m dst src. induction n as [|n IH]; intros m dst src Hm Hlt.
  { left. split; [by split; apply mapped_spec; intros; lia|]. exists m. split; [done|].
    intros a. by rewrite decide_False by lia. }
  rewrite move_down_S. unfold both in *.
  destruct (copy1_cases m w (dst - 1) (src - 1) Hm) as [(c & Es & Hd & Hm1 & E)|[Hno E]]; cycle 1.
  { right. split; [|unfold bind; by rewrite E]. rewrite !mapped_spec. intros [H1 H2].
    destruct Hno as [Hno|Hno]; [destruct (H2 (src - 1)) as [? E1]|destruct (H1 (dst - 1)) as [? E1]];
      [lia|congruence|lia|congruence]. }
  rewrite (bind_ok _ _ _ _ _ E).
  destruct (IH (<[dst - 1 := c]> m) (dst - 1) (src - 1) Hm1 ltac:(lia)) as [[[H1 H2] (m' & E' & Hm')]|[Hno E']]; cycle 1.
  - right. split; [|done]. rewrite !mapped_insert in Hno by done. rewrite !mapped_spec in *.
    intros [H1 H2]. apply Hno. split; intros k Hk; [apply H1|apply H2]; lia.
  - left. rewrite !mapped_insert in H1, H2 by done. rewrite !mapped_spec in *. split; [split|].
    + intros k Hk. destruct (decide (k = dst - 1)) as [->|]; [done|apply H1; lia].
    + intros k Hk. destruct (decide (k = src - 1)) as [->|]; [eauto|apply H2; lia].
    + exists m'. split; [done|]. intros a. rewrite Hm'.
      destruct (decide (dst - 1 - Z.of_nat n ≤ a < dst - 1)); [|destruct (decide (a = dst - 1)) as [->|]].
      * rewrite decide_True by lia. rewrite lookup_insert_ne by lia. f_equal. lia.
      * rewrite decide_True by lia. rewrite lookup_insert_eq, <- Es. f_equal. lia.
      * rewrite decide_False by lia. by rewrite lookup_insert_ne.
Qed.

Lemma blit_eq m m' dst src n :
  mapped m src n →
  (∀ a, m' !! a = if decide (dst ≤ a < dst + n) then m !! (a - dst + src) else m !! a) → m' = blit m dst src n.
Proof.
  intros Hs Hm. apply map_eq. intros a. rewrite Hm, lookup_blit. case_decide; [|done].
  rewrite mapped_spec in Hs. destruct (Hs (a - dst + src)) as [c ->]; [lia|done].
Qed.

(** [C40] Equivalence: [memmove] is the reference copy [blit], which reads
    every source byte before any is overwritten, however the two ranges
    overlap; and it faults exactly when a byte of one of the ranges is not
    mapped. *)
Theorem memmove_reference s dst src n :
  ubytes (um s) → 0 ≤ n < 2 ^ 31 →
  memmove dst src n s =
  if decide (mapped (um s) dst n ∧ mapped (um s) src n)
  then Ok (dst, mkU (blit (um s) dst src n) (world s)) else Ub.
Proof.
  destruct s as [m w]. cbn [um world]. intros Hm Hn. unfold memmove.
  rewrite decide_False by lia. rewrite <- (Z2Nat.id n) by lia. set (k := Z.to_nat n). rewrite Nat2Z.id.
  destruct (decide (src > dst)) as [Hlt|Hge].
  - destruct (move_up_spec k m w dst src Hm ltac:(lia)) as [[Hb (m' & E & Hm')]|[Hb E]].
    + rewrite decide_True by done. rewrite (bind_ok _ _ _ _ _ E).
      unfold ret. do 3 f_equal. apply blit_eq; [apply Hb|done].
    + rewrite decide_False by done. unfold bind. by rewrite E.
  - destruct (move_down_spec k m w (dst + Z.of_nat k) (src + Z.of_nat k) Hm ltac:(lia)) as [[Hb (m' & E & Hm')]|[Hb E]];
      rewrite !Z.add_simpl_r in *.
    + rewrite decide_True by done. rewrite (bind_ok _ _ _ _ _ E).
      unfold ret. do 3 f_equal. apply blit_eq; [apply Hb|]. intros a. rewrite Hm'.
      repeat case_decide; try lia; f_equal; lia.
    + rewrite decide_False by done. unfold bind. by rewrite E.
Qed.

(** ** Strings *)
(** [l] and its null byte lie at [a]. *)
Fixpoint cstr (m : umem) (a : Z) (l : bytes) : Prop :=
  match l with
  | [] => m !! a = Some 0
  | c :: l => m !! a = Some c ∧ c ≠ 0 ∧ cstr m (a + 1) l
  end.

(** *** The fuel suffices: the mapped bytes at or above an address. *)
Definition above (m : umem) (a : Z) : nat := size (filter (λ k, a ≤ k) (dom m)).

Lemma above_step m a : is_Some (m !! a) → (above m (a + 1) < above m a)%nat.
Proof.
  intros Ha%elem_of_dom. unfold above. apply subset_size. split.
  - intros k. rewrite !elem_of_filter. intros [??]. split; [lia|done].
  - intros Hsub. specialize (Hsub a). rewrite !elem_of_filter in Hsub. destruct Hsub; [split; [lia|done]|lia].
Qed.

Lemma above_walk m a : (above m a < S (size m))%nat.
Proof.
  rewrite <- (size_dom (D:=gset Z)). apply Nat.lt_succ_r, subseteq_size. intros k [_ ?]%elem_of_filter. done.
Qed.

Lemma above_insert m k b a : is_Some (m !! k) → above (<[k := b]> m) a = above m a.
Proof. intros Hk. unfold above. f_equal. f_equal. apply dom_insert_lookup_L, Hk. Qed.

Lemma strlen_loop_total fuel a n s : (above (um s) (a + n) < fuel)%nat → strlen_loop fuel a n s ≠ NoFuel.
Proof.
  destruct s as [m w]. revert n. induction fuel as [|fuel IH]; intros n Hf; [lia|]. cbn [strlen_loop].
  destruct (m !! (a + n)) as [c|] eqn:E; [|unfold bind; by rewrite load_ub].
  rewrite (bind_ok _ _ _ _ _ (load_ok m w _ c E)). case_decide; [|done]. case_decide; [done|].
  apply IH. pose proof (above_step m (a + n) ltac:(eauto)) as Hs. cbn [um] in *. rewrite Z.add_assoc. lia.
Qed.

Lemma strcpy_loop_total fuel a t s : (above (um s) t < fuel)%nat → strcpy_loop fuel a t s ≠ NoFuel.
Proof.
  destruct s as [m w]. revert m a t. induction fuel as [|fuel IH]; intros m a t Hf; [lia|]. cbn [strcpy_loop].
  destruct (m !! t) as [c|] eqn:E; [|unfold bind; by rewrite load_ub].
  rewrite (bind_ok _ _ _ _ _ (load_ok m w _ c E)). unfold bind, store. cbn [um world].
  destruct (m !! a) as [b|] eqn:Ea; [|done]. case_decide; [|done].
  apply IH. cbn [um] in *. rewrite above_insert by eauto. pose proof (above_step m t ltac:(eauto)). lia.
Qed.

Lemma strcmp_loop_total fuel p q s : (above (um s) p < fuel)%nat → strcmp_loop fuel p q s ≠ NoFuel.
Proof.
  destruct s as [m w]. revert p q. induction fuel as [|fuel IH]; intros p q Hf; [lia|]. cbn [strcmp_loop].
  destruct (m !! p) as [a|] eqn:Ea; [|unfold bind; by rewrite load_ub].
  rewrite (bind_ok _ _ _ _ _ (load_ok m w _ a Ea)).
  destruct (m !! q) as [b|] eqn:Eb; [|unfold bind; by rewrite load_ub].
  rewrite (bind_ok _ _ _ _ _ (load_ok m w _ b Eb)). case_decide; [|done].
  apply IH. pose proof (above_step m p ltac:(eauto)). cbn [um] in *. lia.
Qed.

(** No string routine runs out of fuel, on any memory. *)
Lemma strings_total a b s : strlen a s ≠ NoFuel ∧ strcmp a b s ≠ NoFuel ∧ strcpy a b s ≠ NoFuel.
Proof.
  split_and!.
  - apply strlen_loop_total, above_walk.
  - apply strcmp_loop_total, above_walk.
  - unfold strcpy, bind, walk, gets. pose proof (strcpy_loop_total _ a b s (above_walk (um s) b)) as Ht.
    by destruct (strcpy_loop _ a b s) as [[[] ?]| | | |].
Qed.

(** *** What they compute *)
Lemma strlen_loop_spec fuel m w a n l :
  cstr m (a + n) l → 0 ≤ n → n + Z.of_nat (length l) ≤ INT_MAX → (length l < fuel)%nat →
  strlen_loop fuel a n (mkU m w) = Ok (n + Z.of_nat (length l), mkU m w).
Proof.
  revert n fuel. induction l as [|c l IH]; intros n [|fuel] Hl Hn Hmax Hf; cbn [length] in *; try lia;
    cbn [strlen_loop].
  - rewrite (bind_ok _ _ _ _ _ (load_ok m w _ 0 Hl)), decide_False by (intros Hbad; by apply Hbad).
    rewrite Z.add_0_r. unfold INT_MAX in Hmax. by rewrite u32_id by lia.
  - destruct Hl as (Hc & Hnz & Hl). rewrite (bind_ok _ _ _ _ _ (load_ok m w _ c Hc)), decide_True by done.
    rewrite decide_False by lia. rewrite IH; [do 2 f_equal; lia|by rewrite Z.add_assoc|lia..].
Qed.

Lemma cstr_mapped m a l : cstr m a l → mapped m a (Z.of_nat (S (length l))).
Proof.
  rewrite mapped_spec. revert a. induction l as [|c l IH]; intros a Hl k Hk; cbn [length] in Hk.
  - replace k with a by lia. rewrite Hl. eauto.
  - destruct Hl as (Hc & _ & Hl). destruct (decide (k = a)) as [->|]; [rewrite Hc; eauto|].
    apply (IH (a + 1) Hl). lia.
Qed.

Lemma above_mapped m a (n : nat) : mapped m a (Z.of_nat n) → (n ≤ above m a)%nat.
Proof.
  revert a. induction n as [|n IH]; intros a Hm; [lia|]. rewrite mapped_spec in Hm.
  assert (is_Some (m !! a)) as Ha by (apply Hm; lia).
  pose proof (above_step m a Ha). specialize (IH (a + 1)). rewrite mapped_spec in IH.
  assert (n ≤ above m (a + 1))%nat by (apply IH; intros k Hk; apply Hm; lia). lia.
Qed.

Lemma strlen_spec m w a l :
  cstr m a l → Z.of_nat (length l) ≤ INT_MAX →
  strlen a (mkU m w) = Ok (Z.of_nat (length l), mkU m w).
Proof.
  intros Hl Hmax. unfold strlen, bind, walk, gets. cbn [um].
  pose proof (above_mapped m a _ (cstr_mapped m a l Hl)). pose proof (above_walk m a).
  rewrite (strlen_loop_spec _ m w a 0 l); [done|by rewrite Z.add_0_r|lia..].
Qed.

Lemma strcmp_loop_eq fuel m w p q l :
  cstr m p l → cstr m q l → (length l < fuel)%nat → strcmp_loop fuel p q (mkU m w) = Ok (0, mkU m w).
Proof.
  revert p q fuel. induction l as [|c l IH]; intros p q [|fuel] Hp Hq Hf; cbn [length] in *; try lia;
    cbn [strcmp_loop].
  - rewrite (bind_ok _ _ _ _ _ (load_ok m w _ 0 Hp)), (bind_ok _ _ _ _ _ (load_ok m w _ 0 Hq)).
    by rewrite decide_False by (intros [Hbad _]; by apply Hbad).
  - destruct Hp as (Hc & Hnz & Hp), Hq as (Hc' & _ & Hq).
    rewrite (bind_ok _ _ _ _ _ (load_ok m w _ c Hc)), (bind_ok _ _ _ _ _ (load_ok m w _ c Hc')).
    rewrite decide_True by done. apply IH; [done..|lia].
Qed.

Lemma strcmp_loop_zero fuel m w p q l s' :
  cstr m p l → strcmp_loop fuel p q (mkU m w) = Ok (0, s') → cstr m q l.
Proof.
  revert p q fuel. induction l as [|c l IH]; intros p q [|fuel] Hp Hrun; try discriminate Hrun;
    cbn [strcmp_loop] in Hrun.
  - rewrite (bind_ok _ _ _ _ _ (load_ok m w _ 0 Hp)) in Hrun.
    destruct (m !! q) as [b|] eqn:Eb; [|unfold bind in Hrun; by rewrite load_ub in Hrun].
    rewrite (bind_ok _ _ _ _ _ (load_ok m w _ b Eb)), decide_False in Hrun by (intros [Hbad _]; by apply Hbad).
    injection Hrun as Hb _. cbn [cstr]. rewrite Eb. f_equal. lia.
  - destruct Hp as (Hc & Hnz & Hp). rewrite (bind_ok _ _ _ _ _ (load_ok m w _ c Hc)) in Hrun.
    destruct (m !! q) as [b|] eqn:Eb; [|unfold bind in Hrun; by rewrite load_ub in Hrun].
    rewrite (bind_ok _ _ _ _ _ (load_ok m w _ b Eb)) in Hrun.
    destruct (decide (c ≠ 0 ∧ c = b)) as [[_ <-]|Hno].
    + split_and!; [done..|]. by eapply IH.
    + injection Hrun as Hb _. destruct Hno. split; [done|lia].
Qed.

(** [strcmp] returns 0 exactly on equal strings. *)
Lemma strcmp_eq m w p q l1 l2 :
  cstr m p l1 → cstr m q l2 → (strcmp p q (mkU m w) = Ok (0, mkU m w) ↔ l1 = l2).
Proof.
  intros H1 H2. unfold strcmp, bind, walk, gets. cbn [um]. split.
  - intros Hrun. pose proof (strcmp_loop_zero _ _ _ _ _ _ _ H1 Hrun) as H3. clear -H2 H3.
    revert q l2 H2 H3. induction l1 as [|a l1 IH]; intros q [|b l2] H2 H3; cbn [cstr] in *; [done|naive_solver..|].
    destruct H2 as (E2 & ? & H2), H3 as (E3 & ? & H3). f_equal; [congruence|eauto].
  - intros <-. apply strcmp_loop_eq with l1; [done..|].
    pose proof (above_mapped m p _ (cstr_mapped m p l1 H1)). pose proof (above_walk m p). lia.
Qed.

(** [strcpy] to a mapped place that does not overlap the string: the string
    is there afterwards, and nothing else changed. *)
Lemma cstr_ext m m' a l :
  (∀ k, a ≤ k < a + Z.of_nat (S (length l)) → m' !! k = m !! k) → cstr m a l → cstr m' a l.
Proof.
  revert a. induction l as [|c l IH]; intros a Hk Hl; cbn [length cstr] in *.
  - by rewrite Hk by lia.
  - destruct Hl as (Hc & Hnz & Hl). split_and!; [by rewrite Hk by lia|done|].
    apply IH; [|done]. intros k ?. apply Hk. lia.
Qed.

Lemma strcpy_loop_spec fuel m w d t l :
  ubytes m → cstr m t l → mapped m d (Z.of_nat (S (length l))) →
  d + Z.of_nat (S (length l)) ≤ t ∨ t + Z.of_nat (S (length l)) ≤ d → (length l < fuel)%nat →
  ∃ m', strcpy_loop fuel d t (mkU m w) = Ok (tt, mkU m' w) ∧ cstr m' d l ∧
    ∀ k, ¬ (d ≤ k < d + Z.of_nat (S (length l))) → m' !! k = m !! k.
Proof.
  revert m d t fuel. induction l as [|c l IH]; intros m d t [|fuel] Hm Hl Hd Hdis Hf; cbn [length] in *; try lia;
    cbn [strcpy_loop]; destruct (proj1 (mapped_spec _ _ _) Hd d) as [b Eb]; try lia.
  - rewrite (bind_ok _ _ _ _ _ (load_ok m w _ 0 Hl)).
    rewrite (bind_ok _ _ _ _ _ (store_ok m w d b 0 Eb ltac:(lia))), decide_False by (intros Hbad; by apply Hbad).
    exists (<[d := 0]> m). split_and!; [done|apply lookup_insert_eq|].
    intros k Hk. by rewrite lookup_insert_ne by lia.
  - destruct Hl as (Hc & Hnz & Hl). rewrite (bind_ok _ _ _ _ _ (load_ok m w _ c Hc)).
    assert (0 ≤ c < 256) as Hb by exact (Hm _ _ Hc).
    rewrite (bind_ok _ _ _ _ _ (store_ok m w d b c Eb Hb)), decide_True by done.
    destruct (IH (<[d := c]> m) (d + 1) (t + 1) fuel) as (m' & E & Hs & Hk); [by apply ubytes_insert| | |lia..|].
    { eapply cstr_ext; [|exact Hl]. intros k ?. by rewrite lookup_insert_ne by lia. }
    { rewrite mapped_insert by eauto. rewrite mapped_spec in *. intros k ?. apply Hd. lia. }
    exists m'. split_and!; [done|..].
    + split_and!; [|done..]. rewrite Hk by lia. apply lookup_insert_eq.
    + intros k Hout. rewrite Hk by lia. by rewrite lookup_insert_ne by lia.
Qed.

Lemma strcpy_spec m w d t l :
  ubytes m → cstr m t l → mapped m d (Z.of_nat (S (length l))) →
  d + Z.of_nat (S (length l)) ≤ t ∨ t + Z.of_nat (S (length l)) ≤ d →
  ∃ m', strcpy d t (mkU m w) = Ok (d, mkU m' w) ∧ cstr m' d l ∧
    ∀ k, ¬ (d ≤ k < d + Z.of_nat (S (length l))) → m' !! k = m !! k.
Proof.
  intros Hm Hl Hd Hdis.
  pose proof (above_mapped m t _ (cstr_mapped m t l Hl)). pose proof (above_walk m t).
  destruct (strcpy_loop_spec (S (size m)) m w d t l Hm Hl Hd Hdis) as (m' & E & Hs & Hk); [lia|].
  exists m'. split; [|done]. unfold strcpy, bind, walk, gets. cbn [um]. by rewrite E.
Qed.
End props.

(** ** A run *)
Module UlibRuns.
Definition mem16 : umem := list_to_map (zip (seqZ 100 16) (seqZ 0 16)).
Definition user : ustate unit := mkU mem16 tt.

(** Overlapping, upwards: bytes 100-109 move to 103-112. *)
Lemma memmove_reference_witness :
  memmove 103 100 10 user =
  if decide (mapped (um user) 103 10 ∧ mapped (um user) 100 10)
  then Ok (103, mkU (blit (um user) 103 100 10) (world user)) else Ub.
Proof.
  apply (memmove_reference user 103 100 10); [|lia].
  apply map_Forall_to_list. vm_compute map_to_list. repeat constructor; cbn; lia.
Defined.

Example memmove_overlap :
  match memmove 103 100 10 user with
  | Ok (_, s) => map (λ a, um s !! a) (seqZ 103 10) = map (λ a, mem16 !! a) (seqZ 100 10)
  | _ => False
  end.
Proof. vm_compute. reflexivity. Qed.
End UlibRuns.
